(** * Pipeline orchestration and cost accounting of the prompt builder

    A shallow embedding of the engine of mermaid-prompt-builder:

    - the cost calculator        (lib/utils/cost-tracker.ts, cost.types.ts)
    - the session usage ledger   (lib/services/anthropic/usage.ts)
    - the completion wrappers    (lib/services/anthropic/messages.ts)
    - the refinement loop        (lib/services/prompt-builder/generator.ts)
    - the version assigner       (lib/utils/version-tracker.ts and
                                  getNextVersionNumber of the repositories)
    - the orchestrator           (lib/services/pipeline, the Supabase variant)
    - the webhook                (lib/services/webhook: validation.ts and
                                  parser.ts, with the schemas of
                                  lib/utils/validation.ts, and the route
                                  app/api/webhook/briefing/route.ts)
    - the account registry       (lib/services/accounts/registry.ts)

    Conventions of the embedding.

    - A JavaScript [number] holding a count is a [Z]; a [number] holding
      dollars is a [Dollars]: NaN, or a [Q] (exact arithmetic stands for
      IEEE doubles: the code never rounds before display).  The numbers
      parseInt reads off version names are doubles, [Js.Double].
    - A string is the list of the bytes of its UTF-8 encoding.
    - An optional field is an [option]; JavaScript truthiness is written out
      where the code relies on it ([x || d], [a && b], [!x]).
    - An [async] function is a computation in the monad [M]: it threads the
      module-level state and either returns or throws.  A thrown value is
      represented by its message, which is all the code ever reads of it.
    - The collaborators the engine treats as black boxes (completion
      provider, account registry, relational store, spreadsheet ledger,
      packaging function, id generator) are fields of an environment [Env].
      Each answer may depend on the request and on how many requests that
      collaborator has already served.  Every request is appended to a
      per-collaborator call log together with whether it failed, and to
      the journal, which keeps the requests to all collaborators and the
      pushes onto the array of steps in the order the engine made them.
    - Wall-clock values (timestamps, durations) are not represented.
    - Of the logger, the lines of level warn and error written by the
      functions embedded here are recorded; what a collaborator logs on its
      own side is not. *)

From Stdlib Require Import ZArith QArith String Ascii List Lia.
From Stdlib Require Import DecimalString DecimalPos.
From stdpp Require Import gmap strings.
Import ListNotations.

Open Scope string_scope.
Open Scope Z_scope.

(* ================================================================== *)
(** * JavaScript helpers *)

Module Js.

(** [s || d] on strings: the empty string is falsy. *)
Definition strOr (s d : string) : string :=
  match s with EmptyString => d | _ => s end.

(** [o || d] on an optional string. *)
Definition optStrOr (o : option string) (d : string) : string :=
  match o with Some s => strOr s d | None => d end.

(** Truthiness of an optional string. *)
Definition truthyStr (o : option string) : bool :=
  match o with Some (String _ _) => true | _ => false end.

(** [n || d] on numbers: 0 is falsy ([NaN] does not arise on integers). *)
Definition numOr (n d : Z) : Z := if n =? 0 then d else n.

(** [o || d] on an optional number. *)
Definition optNumOr (o : option Z) (d : Z) : Z :=
  match o with Some n => numOr n d | None => d end.

(** Template-literal rendering of an integer. *)
Definition showZ (n : Z) : string := NilZero.string_of_int (Z.to_int n).

(** ** Doubles that hold whole numbers

    What parseInt returns, NaN apart: a double whose value is a whole
    number, or an infinity.  Negative zero is not told from zero; the
    code only ever takes the maximum of such numbers and 0. *)
Inductive Double := Fin (z : Z) | PosInf | NegInf.

(** The double nearest to a whole number, ties to even; whole numbers
    up to 2^53 in absolute value are doubles. *)
Definition nearestDouble (n : Z) : Double :=
  let a := Z.abs n in
  if a <? 2 ^ 53 then Fin n
  else
    let e := Z.log2 a - 52 in
    let q := Z.shiftr a e in
    let r := a - Z.shiftl q e in
    let half := 2 ^ (e - 1) in
    let q' :=
      if r <? half then q
      else if half <? r then q + 1
      else if Z.even q then q else q + 1 in
    let m := Z.shiftl q' e in
    if 2 ^ 1024 <=? m then (if n <? 0 then NegInf else PosInf)
    else Fin (Z.sgn n * m).

(** [a < b] on doubles. *)
Definition ltDouble (a b : Double) : bool :=
  match a, b with
  | Fin x, Fin y => x <? y
  | NegInf, NegInf => false
  | NegInf, _ => true
  | _, PosInf => match a with PosInf => false | _ => true end
  | _, _ => false
  end.

(** [a + 1] *)
Definition succDouble (a : Double) : Double :=
  match a with
  | Fin z => nearestDouble (z + 1)
  | _ => a
  end.

(** The number of decimal digits of a positive whole number. *)
Definition digits (x : Z) : Z := Z.of_nat (String.length (showZ x)).

(** Number::toString for a whole double [x] above 2^53: the pairs
    [(s, n)] with [k] digits in [s] for which [s * 10^(n-k)] rounds to
    [x]. *)
Definition candidates (x k : Z) : list (Z * Z) :=
  let d := digits x in
  List.filter
    (fun sn : Z * Z =>
       let '(s, n) := sn in
       (10 ^ (k - 1) <=? s) && (s <? 10 ^ k)
       && match nearestDouble (s * 10 ^ (n - k)) with
          | Fin y => y =? x
          | _ => false
          end)
    (flat_map
       (fun n => let s := x / 10 ^ (n - k) in [(s, n); (s + 1, n)])
       [d - 1; d; d + 1]).

(** Of two candidates, the one nearer to [x]; the even one on a tie. *)
Definition nearer (x k : Z) (a b : Z * Z) : Z * Z :=
  let distance (sn : Z * Z) := Z.abs (fst sn * 10 ^ (snd sn - k) - x) in
  if distance a <? distance b then a
  else if distance b <? distance a then b
  else if Z.even (fst a) then a else b.

Fixpoint shortest (fuel : nat) (x k : Z) : option (Z * Z) :=
  match fuel with
  | O => None
  | S fuel' =>
      match candidates x k with
      | c :: cs => Some (fold_left (nearer x k) cs c)
      | [] => shortest fuel' x (k + 1)
      end
  end.

(** [e+n] notation: the first digit, a point before the others if
    there are any, and the exponent. *)
Definition exponential (s n : Z) : string :=
  match showZ s with
  | String c EmptyString => String c ("e+" ++ showZ (n - 1))
  | String c rest => String c ("." ++ rest ++ "e+" ++ showZ (n - 1))
  | EmptyString => EmptyString
  end.

Fixpoint zeros (n : nat) : string :=
  match n with O => "" | S n' => String "0" (zeros n') end.

(** Template-literal rendering of a non-negative whole double.  Up to
    2^53 the digits of Number::toString are those of the number; above,
    they are the shortest that read back as the double, followed by
    zeros up to 21 digits and by an exponent beyond. *)
Definition showDouble (a : Double) : string :=
  match a with
  | Fin x =>
      if x <=? 2 ^ 53 then showZ x
      else match shortest 17 x 1 with
           | Some (s, n) =>
               if n <=? 21 then showZ s ++ zeros (Z.to_nat (n - digits s))
               else exponential s n
           | None => showZ x
           end
  | PosInf => "Infinity"
  | NegInf => "-Infinity"
  end.

End Js.

(* ================================================================== *)
(** * Data model (lib/types) *)

(** A JavaScript number that holds dollars. *)
Inductive Dollars := Usd (q : Q) | NaN.

(** [a + b] *)
Definition plusD (a b : Dollars) : Dollars :=
  match a, b with
  | Usd x, Usd y => Usd (x + y)
  | _, _ => NaN
  end.

(** cost.types.ts *)
Record TokenUsage := mkTokenUsage {
  inputTokens : Z;
  outputTokens : Z;
  cacheReadTokens : option Z;
  cacheWriteTokens : option Z
}.

Record CostCalculation := mkCostCalculation {
  inputCost : Dollars;
  outputCost : Dollars;
  cacheCost : option Dollars;
  totalCostUsd : Dollars
}.

Inductive CostOperation :=
| generate_initial | analyze_prompt | improve_prompt | finalize_prompt
| injection_execute | assistant_get | assistant_create | assistant_update
| prompt_generation | prompt_analysis | prompt_improvement.

(** The [metadata] objects the generator attaches to cost entries. *)
Record CostMetadata := mkCostMetadata {
  phase : string;
  iteration : option Z
}.

Record CostEntry := mkCostEntry {
  ce_id : string;
  ce_accountId : string;
  ce_assistantId : string;
  ce_operation : CostOperation;
  ce_model : string;
  ce_inputTokens : Z;
  ce_outputTokens : Z;
  ce_costUsd : Dollars;
  ce_version : option string;
  ce_metadata : option CostMetadata
}.

Record ModelPricing := mkModelPricing {
  mp_model : string;
  inputPer1M : Q;
  outputPer1M : Q;
  cacheReadPer1M : option Q;
  cacheWritePer1M : option Q
}.

Record VersionSheetRow := mkVersionSheetRow {
  vs_account_id : string;
  vs_assistant_id : string;
  vs_version : string;
  vs_briefing_hash : string;
  vs_prompt_hash : string;
  vs_file_path : string;
  vs_status : string
}.

(** briefing.types.ts *)
Record BriefingFormData := mkBriefingFormData {
  businessName : string;
  productService : string;
  differentials : string;
  salesProcess : string;
  tools : string;
  idealClient : list string;
  mainDesires : list string;
  fears : list string;
  objections : list string;
  journeyMoment : list string;
  brandPerception : string;
  toneOfVoice : string;
  mustSayMessages : string;
  internalActions : string;
  neverUse : string;
  scheduleAdaptation : string;
  specialConditions : string;
  mandatorySteps : string;
  qualificationCriteria : string;
  documentsFlow : string;
  mainObjective : string;
  minimumResult : string
}.

Record Briefing := mkBriefing {
  b_id : string;
  b_accountId : string;
  b_assistantId : string;
  b_formData : BriefingFormData
}.

Record PipelineBriefingInput := mkPipelineBriefingInput {
  p_briefing : Briefing;
  p_accountId : string;
  p_assistantId : string
}.

(** prompt.types.ts *)
Record PromptAnalysis := mkPromptAnalysis { qualityScore : Z }.

Record PromptIteration := mkPromptIteration {
  pi_iteration : Z;
  pi_content : string
}.

Record SimplePromptIteration := mkSimplePromptIteration {
  iterationNumber : Z;
  feedback : string;
  changes : string;
  promptSnapshot : string
}.

Record PromptMetadata := mkPromptMetadata {
  md_briefingId : string;
  md_iterations : Z;
  md_model : string
}.

Record GeneratedPrompt := mkGeneratedPrompt {
  gp_id : string;
  gp_accountId : string;
  gp_assistantId : string;
  gp_content : string;
  gp_version : string;
  gp_metadata : PromptMetadata;
  gp_iterations : option (list PromptIteration);
  gp_simpleIterations : list SimplePromptIteration;
  gp_finalAnalysis : option PromptAnalysis
}.

Record InjectionFile := mkInjectionFile {
  if_accountId : string;
  if_assistantId : string;
  if_version : string;
  if_filePath : option string;
  if_promptContent : option string
}.

(** api.types.ts *)
Inductive Status := pending | running | completed | failed.

Record PipelineStep := mkPipelineStep {
  ps_name : string;
  ps_status : Status;
  ps_error : option string
}.

Record PipelineResult := mkPipelineResult {
  r_id : string;
  r_status : Status;
  r_briefingId : string;
  r_accountId : string;
  r_assistantId : string;
  r_generatedPrompt : option GeneratedPrompt;
  r_injectionFile : option InjectionFile;
  r_costEntries : list CostEntry;
  r_steps : list PipelineStep;
  r_error : option string
}.

(** account.types.ts *)
Record AccountConfig := mkAccountConfig {
  ac_id : string;
  ac_name : string;
  ac_assistants : list string
}.

Record KeyValidation := mkKeyValidation {
  valid : bool;
  kv_error : option string
}.

(** lib/types/supabase.ts: the rows the orchestrator reads back. *)
Record Account := mkAccount { account_id : string }.
Record Assistant := mkAssistant { assistant_id : string }.
Record PipelineRun := mkPipelineRun { run_id : string }.

Record SupabasePipelineStep := mkSupabasePipelineStep {
  step_id : string;
  step_name : string;
  step_order : Z
}.

Record PipelineRunInsert := mkPipelineRunInsert {
  pri_account_id : string;
  pri_assistant_id : string;
  pri_pipeline_id : string;
  pri_briefing_id : string;
  pri_status : Status
}.

Record PipelineStepInsert := mkPipelineStepInsert {
  psi_pipeline_run_id : string;
  psi_step_name : string;
  psi_step_order : Z;
  psi_status : Status
}.

Record CostEntryInsert := mkCostEntryInsert {
  cei_pipeline_run_id : string;
  cei_pipeline_step_id : option string;
  cei_account_id : string;
  cei_assistant_id : string;
  cei_operation : string;
  cei_model : string;
  cei_input_tokens : Z;
  cei_output_tokens : Z;
  cei_cache_read_tokens : Z;
  cei_cache_write_tokens : Z;
  cei_cost_usd : Dollars
}.

Record PromptVersionInsert := mkPromptVersionInsert {
  pv_pipeline_run_id : string;
  pv_account_id : string;
  pv_assistant_id : string;
  pv_version : string;
  pv_version_number : Z;
  pv_prompt_content : string;
  pv_prompt_hash : string;
  pv_injection_content : string;
  pv_injection_file_path : option string;
  pv_briefing_hash : string;
  pv_total_iterations : Z;
  pv_final_score : option Z;
  pv_status : string
}.

Record SheetSummary := mkSheetSummary {
  ss_totalCost : Dollars;
  ss_totalInputTokens : Z;
  ss_totalOutputTokens : Z;
  ss_totalOperations : Z
}.

(* ================================================================== *)
(** * Effects: outcomes, call logs, module state, the monad *)

Inductive Outcome (A : Type) :=
| Returned (a : A)
| Threw (message : string).
Arguments Returned {A} a.
Arguments Threw {A} message.

Inductive LogLevel := LvlWarn | LvlError.

Record LogLine := mkLogLine {
  level : LogLevel;
  text : string
}.

(** Requests to the completion provider (sendMessage of messages.ts). *)
Record MessageRequest := mkMessageRequest {
  systemPrompt : option string;
  userContent : string;
  maxTokens : Z
}.

Record MessageResponse := mkMessageResponse {
  content : string;
  usage : TokenUsage;
  stopReason : option string;
  resp_model : string
}.

(** The wrapper of messages.ts a request went through. *)
Inductive Wrapper := ViaGenerate | ViaAnalyze | ViaImprove.

Record LlmCall := mkLlmCall {
  llm_via : Wrapper;
  llm_request : MessageRequest;
  llm_outcome : Outcome MessageResponse
}.

(** Requests to the relational store (the Supabase repositories). *)
Inductive DbOp :=
| OpGetOrCreateAccount (slug name : string)
| OpGetOrCreateAssistant (accountId externalId name : string)
| OpCreatePipelineRun (data : PipelineRunInsert)
| OpCreatePipelineSteps (data : list PipelineStepInsert)
| OpStartPipelineStep (id : string)
| OpCompletePipelineStep (id : string)
| OpFailPipelineStep (id : string) (error : string)
| OpCreateCostEntry (data : CostEntryInsert)
| OpRpcNextVersionNumber (assistantId : string)
| OpLatestPromptVersion (assistantId : string)
| OpCreatePromptVersion (data : PromptVersionInsert)
| OpCompletePipelineRun (id : string)
| OpFailPipelineRun (id : string) (error : option string).

Record DbCall := mkDbCall {
  db_op : DbOp;
  db_ok : bool
}.

(** Requests to the spreadsheet ledger (lib/services/google). *)
Inductive SheetOp :=
| OpFindOrCreateFolder (name : string)
| OpFindCostSpreadsheet (name folderId : string)
| OpCreateCostSpreadsheet (name folderId : string)
| OpAppendCostEntries (spreadsheetId : string) (entries : list CostEntry)
| OpAppendVersionEntries (spreadsheetId : string) (rows : list VersionSheetRow)
| OpUpdateSummary (spreadsheetId : string) (summary : SheetSummary).

Record SheetCall := mkSheetCall {
  sheet_op : SheetOp;
  sheet_ok : bool
}.

Record InjectionCall := mkInjectionCall {
  inj_prompt : GeneratedPrompt;
  inj_version : string;
  inj_ok : bool
}.

(** One entry of the journal: a push onto the array of steps, or a request
    to a collaborator, as its call log records it. *)
Inductive Event :=
| EvStep (s : PipelineStep)
| EvRegistry (accountId : string)
| EvCompletion (c : LlmCall)
| EvPackaging (c : InjectionCall)
| EvStore (c : DbCall)
| EvSheets (c : SheetCall).

(** The state an invocation of the engine reads and mutates.

    [sessionUsage] and [sessionCosts] are the module-level variables of
    usage.ts.  [steps] is the array local to one [runPipeline] call that its
    [logStep] closure pushes to.  [promptVersions] is the prompt_versions
    table of the relational store.  The remaining fields are the recorded
    log lines, the number of ids drawn so far and the call logs.  The call
    logs keep the requests of each collaborator apart; [journal] keeps the
    pushes onto [steps] and the requests to all collaborators in the one
    order in which the engine made them.  No code reads it. *)
Record St := mkSt {
  sessionUsage : TokenUsage;
  sessionCosts : list CostEntry;
  steps : list PipelineStep;
  logs : list LogLine;
  idCount : nat;
  registryCalls : list string;
  llmCalls : list LlmCall;
  injectionCalls : list InjectionCall;
  dbCalls : list DbCall;
  sheetCalls : list SheetCall;
  promptVersions : list PromptVersionInsert;
  journal : list Event
}.

Definition M (A : Type) : Type := St -> Outcome A * St.

Definition ret {A} (a : A) : M A := fun st => (Returned a, st).

Definition throw {A} (e : string) : M A := fun st => (Threw e, st).

Definition bind {A B} (m : M A) (k : A -> M B) : M B :=
  fun st =>
    match m st with
    | (Returned a, st') => k a st'
    | (Threw e, st') => (Threw e, st')
    end.

(** [try { m } catch (e) { h e }] *)
Definition tryCatch {A} (m : M A) (h : string -> M A) : M A :=
  fun st =>
    match m st with
    | (Returned a, st') => (Returned a, st')
    | (Threw e, st') => h e st'
    end.

Definition gets {A} (f : St -> A) : M A := fun st => (Returned (f st), st).

Definition modify (f : St -> St) : M unit := fun st => (Returned tt, f st).

(** Settle an outcome a collaborator has produced. *)
Definition settle {A} (o : Outcome A) : M A := fun st => (o, st).

Notation "x <- m ;; k" := (bind m (fun x => k))
  (at level 20, m at level 99, k at level 200, only parsing).
Notation "m ;;; k" := (bind m (fun _ => k))
  (at level 20, k at level 200, only parsing).

(** [for (const x of xs) body x] *)
Fixpoint forEach {A} (xs : list A) (body : A -> M unit) : M unit :=
  match xs with
  | [] => ret tt
  | x :: rest => body x ;;; forEach rest body
  end.

Definition isReturned {A} (o : Outcome A) : bool :=
  match o with Returned _ => true | Threw _ => false end.

(** State updates, one per field the engine writes. *)
Definition setLedger (u : TokenUsage) (c : list CostEntry) (st : St) : St :=
  mkSt u c (steps st) (logs st) (idCount st) (registryCalls st) (llmCalls st)
       (injectionCalls st) (dbCalls st) (sheetCalls st) (promptVersions st) (journal st).

Definition setSteps (s : list PipelineStep) (st : St) : St :=
  mkSt (sessionUsage st) (sessionCosts st) s (logs st) (idCount st)
       (registryCalls st) (llmCalls st) (injectionCalls st) (dbCalls st)
       (sheetCalls st) (promptVersions st) (journal st).

Definition setLogs (l : list LogLine) (st : St) : St :=
  mkSt (sessionUsage st) (sessionCosts st) (steps st) l (idCount st)
       (registryCalls st) (llmCalls st) (injectionCalls st) (dbCalls st)
       (sheetCalls st) (promptVersions st) (journal st).

Definition setIdCount (n : nat) (st : St) : St :=
  mkSt (sessionUsage st) (sessionCosts st) (steps st) (logs st) n
       (registryCalls st) (llmCalls st) (injectionCalls st) (dbCalls st)
       (sheetCalls st) (promptVersions st) (journal st).

Definition setRegistryCalls (c : list string) (st : St) : St :=
  mkSt (sessionUsage st) (sessionCosts st) (steps st) (logs st) (idCount st)
       c (llmCalls st) (injectionCalls st) (dbCalls st) (sheetCalls st)
       (promptVersions st) (journal st).

Definition setLlmCalls (c : list LlmCall) (st : St) : St :=
  mkSt (sessionUsage st) (sessionCosts st) (steps st) (logs st) (idCount st)
       (registryCalls st) c (injectionCalls st) (dbCalls st) (sheetCalls st)
       (promptVersions st) (journal st).

Definition setInjectionCalls (c : list InjectionCall) (st : St) : St :=
  mkSt (sessionUsage st) (sessionCosts st) (steps st) (logs st) (idCount st)
       (registryCalls st) (llmCalls st) c (dbCalls st) (sheetCalls st)
       (promptVersions st) (journal st).

Definition setDb (c : list DbCall) (t : list PromptVersionInsert) (st : St) : St :=
  mkSt (sessionUsage st) (sessionCosts st) (steps st) (logs st) (idCount st)
       (registryCalls st) (llmCalls st) (injectionCalls st) c (sheetCalls st) t
       (journal st).

Definition setSheetCalls (c : list SheetCall) (st : St) : St :=
  mkSt (sessionUsage st) (sessionCosts st) (steps st) (logs st) (idCount st)
       (registryCalls st) (llmCalls st) (injectionCalls st) (dbCalls st) c
       (promptVersions st) (journal st).

(** Enter [e] in the journal. *)
Definition record (e : Event) (st : St) : St :=
  mkSt (sessionUsage st) (sessionCosts st) (steps st) (logs st) (idCount st)
       (registryCalls st) (llmCalls st) (injectionCalls st) (dbCalls st)
       (sheetCalls st) (promptVersions st) (journal st ++ [e]).

(** The logger (lib/utils/logger), levels warn and error. *)
Definition loggerWarn (msg : string) : M unit :=
  modify (fun st => setLogs (logs st ++ [mkLogLine LvlWarn msg]) st).

Definition loggerError (msg : string) : M unit :=
  modify (fun st => setLogs (logs st ++ [mkLogLine LvlError msg]) st).

(* ================================================================== *)
(** * The environment: the collaborators of the engine *)

Record Env := mkEnv {
  (** formatBriefingAsMarkdown of generator.ts and [JSON.stringify] on a
      briefing: pure renderings whose text no branch of the engine reads. *)
  formatBriefingAsMarkdown : Briefing -> string;
  jsonStringify : Briefing -> string;
  (** getPRISMASystemPrompt(): the system prompt read from the template. *)
  prismaSystemPrompt : string;
  (** The timestamp-and-random part of the n-th id made by generateId. *)
  idSuffix : nat -> string;
  (** Account registry. *)
  registry_loadAccountConfig : nat -> string -> Outcome (option AccountConfig);
  registry_validateApiKeyConfigured : KeyValidation;
  (** Completion provider. *)
  provider_sendMessage : nat -> MessageRequest -> Outcome MessageResponse;
  (** Packaging function createInjectionFromPrompt. *)
  packaging_createInjectionFromPrompt :
    nat -> GeneratedPrompt -> string -> Outcome InjectionFile;
  (** Relational store: rows it hands back, and transport faults. *)
  db_getOrCreateAccount : nat -> string -> string -> Outcome Account;
  db_getOrCreateAssistant : nat -> string -> string -> string -> Outcome Assistant;
  db_createPipelineRun : nat -> PipelineRunInsert -> Outcome PipelineRun;
  db_createPipelineSteps :
    nat -> list PipelineStepInsert -> Outcome (list SupabasePipelineStep);
  db_fault : nat -> DbOp -> option string;
  (** Spreadsheet ledger. *)
  sheets_findOrCreateFolder : nat -> string -> Outcome string;
  sheets_findCostSpreadsheet : nat -> string -> string -> Outcome (option string);
  sheets_createCostSpreadsheet : nat -> string -> string -> Outcome string;
  sheets_fault : nat -> SheetOp -> option string
}.

Definition faultOutcome (f : option string) : Outcome unit :=
  match f with Some e => Threw e | None => Returned tt end.

(** One request to a collaborator: ask, append to its call log, settle. *)
Definition callRegistry (w : Env) (accountId : string)
  : M (option AccountConfig) :=
  fun st =>
    let o := registry_loadAccountConfig w (length (registryCalls st)) accountId in
    (o, record (EvRegistry accountId)
          (setRegistryCalls (registryCalls st ++ [accountId]) st)).

(** sendMessage of messages.ts; [via] only labels the entry of the call log. *)
Definition sendMessage (w : Env) (via : Wrapper) (req : MessageRequest)
  : M MessageResponse :=
  fun st =>
    let o := provider_sendMessage w (length (llmCalls st)) req in
    (o, record (EvCompletion (mkLlmCall via req o))
          (setLlmCalls (llmCalls st ++ [mkLlmCall via req o]) st)).

Definition createInjectionFromPrompt (w : Env) (p : GeneratedPrompt)
    (version : string) : M InjectionFile :=
  fun st =>
    let o := packaging_createInjectionFromPrompt w
               (length (injectionCalls st)) p version in
    (o, record (EvPackaging (mkInjectionCall p version (isReturned o)))
          (setInjectionCalls
             (injectionCalls st ++ [mkInjectionCall p version (isReturned o)])
             st)).

Definition dbCall {A} (op : DbOp) (answer : nat -> Outcome A) : M A :=
  fun st =>
    let o := answer (length (dbCalls st)) in
    (o, record (EvStore (mkDbCall op (isReturned o)))
          (setDb (dbCalls st ++ [mkDbCall op (isReturned o)])
                 (promptVersions st) st)).

Definition sheetCall {A} (op : SheetOp) (answer : nat -> Outcome A) : M A :=
  fun st =>
    let o := answer (length (sheetCalls st)) in
    (o, record (EvSheets (mkSheetCall op (isReturned o)))
          (setSheetCalls (sheetCalls st ++ [mkSheetCall op (isReturned o)]) st)).

(* ================================================================== *)
(** * lib/utils/validation.ts *)

Module Validation.

(** [ToInt32]: what [<<] and [&] do to their operands and result. *)
Definition toInt32 (n : Z) : Z :=
  let m := n mod 4294967296 in
  if 2147483648 <=? m then m - 4294967296 else m.

Definition hexDigit (d : Z) : ascii :=
  if d <? 10 then ascii_of_N (Z.to_N (48 + d))
  else ascii_of_N (Z.to_N (87 + d)).

(** [n.toString(16)] for a non-negative integer below 16^16. *)
Fixpoint toString16From (fuel : nat) (n : Z) (acc : string) : string :=
  match fuel with
  | O => acc
  | S fuel' =>
      let acc' := String (hexDigit (n mod 16)) acc in
      if n / 16 =? 0 then acc' else toString16From fuel' (n / 16) acc'
  end.

Definition toString16 (n : Z) : string := toString16From 16 n "".

Fixpoint repeatChar (c : ascii) (n : nat) : string :=
  match n with O => "" | S n' => String c (repeatChar c n') end.

(** [s.padStart(len, c)] for a one-character pad. *)
Definition padStart (len : nat) (c : ascii) (s : string) : string :=
  repeatChar c (len - String.length s) ++ s.

(** hashContent: the characters of the embedding are bytes, which are
    the UTF-16 code units of the source for ASCII content. *)
Definition hashContent (content : string) : string :=
  let step (hash : Z) (ch : ascii) : Z :=
    toInt32 (toInt32 (hash * 32) - hash + Z.of_N (N_of_ascii ch)) in
  let hash := fold_left step (list_ascii_of_string content) 0 in
  padStart 8 "0" (toString16 (Z.abs hash)).

(** generateId: the environment supplies the non-deterministic suffix. *)
Definition generateId (w : Env) (prefix : string) : M string :=
  fun st =>
    let suffix := idSuffix w (idCount st) in
    let id := match prefix with
              | EmptyString => suffix
              | _ => prefix ++ "_" ++ suffix
              end in
    (Returned id, setIdCount (S (idCount st)) st).

End Validation.

(* ================================================================== *)
(** * lib/utils/cost-tracker.ts *)

Module CostTracker.

Local Open Scope Q_scope.

Definition opus : string := "claude-opus-4-5-20251101".

(** MODEL_PRICING of cost.types.ts, prices in USD per 1,000,000 tokens. *)
Definition MODEL_PRICING : gmap string ModelPricing :=
  <[ "claude-opus-4-5-20251101" :=
       mkModelPricing "claude-opus-4-5-20251101"
         15 75 (Some (15 # 10)) (Some (1875 # 100)) ]>
  (<[ "claude-sonnet-4-20250514" :=
       mkModelPricing "claude-sonnet-4-20250514"
         3 15 (Some (3 # 10)) (Some (375 # 100)) ]>
  (<[ "claude-3-5-sonnet-20241022" :=
       mkModelPricing "claude-3-5-sonnet-20241022"
         3 15 (Some (3 # 10)) (Some (375 # 100)) ]>
  (<[ "claude-3-5-haiku-20241022" :=
       mkModelPricing "claude-3-5-haiku-20241022"
         (8 # 10) 4 (Some (8 # 100)) (Some 1) ]>
   ∅))).

(** Truthiness of an optional count and of an optional price. *)
Definition truthyZ (o : option Z) : option Z :=
  match o with
  | Some n => if (n =? 0)%Z then None else Some n
  | None => None
  end.

Definition truthyQ (o : option Q) : option Q :=
  match o with
  | Some q => if Qeq_bool q 0 then None else Some q
  | None => None
  end.

Definition perMillion (tokens : Z) (price : Q) : Q :=
  (inject_Z tokens / 1000000) * price.

Definition calculateCostWithPricing (usage : TokenUsage)
    (pricing : ModelPricing) : CostCalculation :=
  let inputCost := perMillion (inputTokens usage) (inputPer1M pricing) in
  let outputCost := perMillion (outputTokens usage) (outputPer1M pricing) in
  let cacheCost := 0 in
  let cacheCost :=
    match truthyZ (cacheReadTokens usage), truthyQ (cacheReadPer1M pricing) with
    | Some t, Some p => cacheCost + perMillion t p
    | _, _ => cacheCost
    end in
  let cacheCost :=
    match truthyZ (cacheWriteTokens usage), truthyQ (cacheWritePer1M pricing) with
    | Some t, Some p => cacheCost + perMillion t p
    | _, _ => cacheCost
    end in
  let totalCostUsd := inputCost + outputCost + cacheCost in
  {| inputCost := Usd inputCost;
     outputCost := Usd outputCost;
     cacheCost :=
       if Qlt_le_dec 0 cacheCost then Some (Usd cacheCost) else None;
     totalCostUsd := Usd totalCostUsd |}.

(** calculateCostWithPricing given, as [pricing], a value that has none
    of the price properties: [(tokens / 1_000_000) * undefined] is NaN,
    both cache guards read [undefined] and add nothing, and [0 > 0] is
    false. *)
Definition calculateCostWithoutPrices (usage : TokenUsage)
  : CostCalculation :=
  let inputCost := NaN in
  let outputCost := NaN in
  let cacheCost := Usd 0 in
  let totalCostUsd := plusD (plusD inputCost outputCost) cacheCost in
  {| inputCost := inputCost;
     outputCost := outputCost;
     cacheCost := None;
     totalCostUsd := totalCostUsd |}.

(** The properties every object literal inherits from Object.prototype. *)
Definition objectPrototypeKeys : list string :=
  [ "constructor"; "__defineGetter__"; "__defineSetter__";
    "hasOwnProperty"; "__lookupGetter__"; "__lookupSetter__";
    "isPrototypeOf"; "propertyIsEnumerable"; "toString"; "valueOf";
    "__proto__"; "toLocaleString" ].

(** [MODEL_PRICING[model]]: an entry of the table; or a value inherited
    from Object.prototype, which is truthy (a function, or the
    prototype itself) and has no price; or [undefined]. *)
Inductive PricingLookup :=
| OwnEntry (pricing : ModelPricing)
| Inherited
| Undefined.

Definition lookupPricing (model : string) : PricingLookup :=
  match MODEL_PRICING !! model with
  | Some pricing => OwnEntry pricing
  | None =>
      if existsb (String.eqb model) objectPrototypeKeys then Inherited
      else Undefined
  end.

(** Reading a field of [undefined] raises a TypeError. *)
Definition typeError : string :=
  "Cannot read properties of undefined (reading 'inputPer1M')".

Definition calculateCost (usage : TokenUsage) (model : string)
  : M CostCalculation :=
  match lookupPricing model with
  | Undefined =>
      loggerWarn ("Unknown model pricing: " ++ model ++ ", using opus pricing") ;;;
      match MODEL_PRICING !! "claude-opus-4-5-20251101" with
      | Some opusPricing => ret (calculateCostWithPricing usage opusPricing)
      | None => throw typeError
      end
  | OwnEntry pricing => ret (calculateCostWithPricing usage pricing)
  | Inherited => ret (calculateCostWithoutPrices usage)
  end.

Definition createCostEntry (w : Env) (accountId assistantId : string)
    (operation : CostOperation) (model : string) (usage : TokenUsage)
    (version : option string) (metadata : option CostMetadata)
  : M CostEntry :=
  cost <- calculateCost usage model ;;
  id <- Validation.generateId w "cost" ;;
  ret {| ce_id := id;
         ce_accountId := accountId;
         ce_assistantId := assistantId;
         ce_operation := operation;
         ce_model := model;
         ce_inputTokens := inputTokens usage;
         ce_outputTokens := outputTokens usage;
         ce_costUsd := totalCostUsd cost;
         ce_version := version;
         ce_metadata := metadata |}.

End CostTracker.

(* ================================================================== *)
(** * lib/services/anthropic/usage.ts: the session ledger *)

Module Usage.

(** DEFAULT_MODEL of the Anthropic client factory. *)
Definition DEFAULT_MODEL : string := "claude-opus-4-5-20251101".

Definition trackUsage (usage : TokenUsage) : M unit :=
  modify (fun st =>
    let s := sessionUsage st in
    setLedger
      {| inputTokens := inputTokens s + inputTokens usage;
         outputTokens := outputTokens s + outputTokens usage;
         cacheReadTokens :=
           Some (Js.optNumOr (cacheReadTokens s) 0
                 + Js.optNumOr (cacheReadTokens usage) 0);
         cacheWriteTokens :=
           Some (Js.optNumOr (cacheWriteTokens s) 0
                 + Js.optNumOr (cacheWriteTokens usage) 0) |}
      (sessionCosts st) st).

Definition logCost (w : Env) (accountId assistantId : string)
    (operation : CostOperation) (usage : TokenUsage)
    (model : option string) (version : option string)
    (metadata : option CostMetadata) : M CostEntry :=
  entry <- CostTracker.createCostEntry w accountId assistantId operation
             (Js.optStrOr model DEFAULT_MODEL) usage version metadata ;;
  modify (fun st => setLedger (sessionUsage st) (sessionCosts st ++ [entry]) st) ;;;
  trackUsage usage ;;;
  ret entry.

Definition getSessionUsage : M TokenUsage := gets sessionUsage.

(** [[...sessionCosts]]: a copy of the entries at the time of the call. *)
Definition getSessionCosts : M (list CostEntry) := gets sessionCosts.

Definition resetSession : M unit :=
  modify (setLedger (mkTokenUsage 0 0 (Some 0) (Some 0)) []).

Definition getSessionTotalCost : M Dollars :=
  gets (fun st =>
    fold_left (fun total entry => plusD total (ce_costUsd entry))
              (sessionCosts st) (Usd 0)).

End Usage.

(* ================================================================== *)
(** * lib/services/anthropic/messages.ts: the completion wrappers *)

Module Messages.

Definition nl : string := String (ascii_of_nat 10) "".

Definition generatePromptFromBriefing (w : Env)
    (briefingContent prismaSystemPrompt : string) : M MessageResponse :=
  sendMessage w ViaGenerate
    {| systemPrompt := Some prismaSystemPrompt;
       userContent :=
         "Analyze the following briefing and generate a complete assistant prompt using the PRISMA system:"
         ++ nl ++ nl ++ briefingContent;
       maxTokens := 16384 |}.

Definition analyzePrompt (w : Env) (promptContent briefingContent : string)
  : M MessageResponse :=
  sendMessage w ViaAnalyze
    {| systemPrompt := Some
         ("You are an expert prompt engineer. Analyze the provided prompt and identify:" ++ nl
          ++ "1. Areas that could be clearer or more specific" ++ nl
          ++ "2. Missing elements based on the briefing" ++ nl
          ++ "3. Potential ambiguities" ++ nl
          ++ "4. Suggestions for improvement" ++ nl ++ nl
          ++ "Provide specific, actionable feedback.");
       userContent :=
         "## Original Briefing" ++ nl ++ briefingContent ++ nl ++ nl
         ++ "## Generated Prompt" ++ nl ++ promptContent ++ nl ++ nl
         ++ "Please analyze this prompt and provide detailed improvement suggestions.";
       maxTokens := 8192 |}.

Definition improvePrompt (w : Env)
    (promptContent analysisFeedback briefingContent prismaSystemPrompt : string)
  : M MessageResponse :=
  sendMessage w ViaImprove
    {| systemPrompt := Some prismaSystemPrompt;
       userContent :=
         "## Original Briefing" ++ nl ++ briefingContent ++ nl ++ nl
         ++ "## Current Prompt" ++ nl ++ promptContent ++ nl ++ nl
         ++ "## Analysis Feedback" ++ nl ++ analysisFeedback ++ nl ++ nl
         ++ "Based on the analysis feedback, please generate an improved version of the prompt that addresses the identified issues while maintaining the PRISMA system structure.";
       maxTokens := 16384 |}.

End Messages.

(* ================================================================== *)
(** * lib/services/prompt-builder/generator.ts *)

Module Generator.

Definition generateInitialPrompt (w : Env) (briefing : Briefing)
    (accountId : string) : M (string * TokenUsage) :=
  let briefingContent := formatBriefingAsMarkdown w briefing in
  let prismaSystemPrompt := prismaSystemPrompt w in
  response <- Messages.generatePromptFromBriefing w briefingContent
                prismaSystemPrompt ;;
  Usage.logCost w accountId (b_assistantId briefing) prompt_generation
    (usage response) None None (Some (mkCostMetadata "initial" None)) ;;;
  ret (content response, usage response).

Definition analyzeGeneratedPrompt (w : Env) (promptContent : string)
    (briefing : Briefing) (accountId : string) : M (string * TokenUsage) :=
  let briefingContent := formatBriefingAsMarkdown w briefing in
  response <- Messages.analyzePrompt w promptContent briefingContent ;;
  Usage.logCost w accountId (b_assistantId briefing) prompt_analysis
    (usage response) None None (Some (mkCostMetadata "analysis" None)) ;;;
  ret (content response, usage response).

Definition improveGeneratedPrompt (w : Env)
    (promptContent analysisFeedback : string) (briefing : Briefing)
    (accountId : string) (iteration : Z) : M (string * TokenUsage) :=
  let briefingContent := formatBriefingAsMarkdown w briefing in
  let prismaSystemPrompt := prismaSystemPrompt w in
  response <- Messages.improvePrompt w promptContent analysisFeedback
                briefingContent prismaSystemPrompt ;;
  Usage.logCost w accountId (b_assistantId briefing) prompt_improvement
    (usage response) None None
    (Some (mkCostMetadata "improvement" (Some iteration))) ;;;
  ret (content response, usage response).

(** The variables the loop of generatePromptWithIteration updates. *)
Record LoopVars := mkLoopVars {
  currentPrompt : string;
  iterations : list SimplePromptIteration;
  totalUsage : TokenUsage
}.

Definition addUsage (total u : TokenUsage) : TokenUsage :=
  {| inputTokens := inputTokens total + inputTokens u;
     outputTokens := outputTokens total + outputTokens u;
     cacheReadTokens := cacheReadTokens total;
     cacheWriteTokens := cacheWriteTokens total |}.

(** The body of the loop at index [i]. *)
Definition round (w : Env) (briefing : Briefing) (accountId : string)
    (i : Z) (v : LoopVars) : M LoopVars :=
  a <- analyzeGeneratedPrompt w (currentPrompt v) briefing accountId ;;
  let '(analysis, analysisUsage) := a in
  let totalUsage := addUsage (totalUsage v) analysisUsage in
  p <- improveGeneratedPrompt w (currentPrompt v) analysis briefing
         accountId (i + 1) ;;
  let '(improvedPrompt, improvementUsage) := p in
  let totalUsage := addUsage totalUsage improvementUsage in
  ret {| currentPrompt := improvedPrompt;
         iterations :=
           iterations v ++
           [ {| iterationNumber := i + 1;
                feedback := analysis;
                changes := "Iteration " ++ Js.showZ (i + 1)
                           ++ " improvements applied";
                promptSnapshot := improvedPrompt |} ];
         totalUsage := totalUsage |}.

(** [for (let i = i0; i < maxIterations; i++)], with [n] rounds left. *)
Fixpoint rounds (w : Env) (briefing : Briefing) (accountId : string)
    (n : nat) (i : Z) (v : LoopVars) : M LoopVars :=
  match n with
  | O => ret v
  | S n' =>
      v' <- round w briefing accountId i v ;;
      rounds w briefing accountId n' (i + 1) v'
  end.

(** generatePromptWithIteration, returning next to its result the
    [totalUsage] the source only passes to the logger. *)
Definition generatePromptWithIterationUsage (w : Env) (briefing : Briefing)
    (accountId : string) (maxIterations : option Z)
  : M (GeneratedPrompt * TokenUsage) :=
  let maxIterations := Js.optNumOr maxIterations 1 in
  let totalUsage := mkTokenUsage 0 0 None None in
  g <- generateInitialPrompt w briefing accountId ;;
  let '(initialPrompt, initialUsage) := g in
  let totalUsage := addUsage totalUsage initialUsage in
  v <- rounds w briefing accountId (Z.to_nat maxIterations) 0
         (mkLoopVars initialPrompt [] totalUsage) ;;
  id <- Validation.generateId w "prompt" ;;
  ret ({| gp_id := id;
          gp_accountId := accountId;
          gp_assistantId := b_assistantId briefing;
          gp_content := currentPrompt v;
          gp_version := "draft";
          gp_metadata :=
            {| md_briefingId := b_id briefing;
               md_iterations := maxIterations;
               md_model := "claude-opus-4-5-20251101" |};
          gp_iterations := None;
          gp_simpleIterations := iterations v;
          gp_finalAnalysis := None |},
       Generator.totalUsage v).

Definition generatePromptWithIteration (w : Env) (briefing : Briefing)
    (accountId : string) (maxIterations : option Z) : M GeneratedPrompt :=
  r <- generatePromptWithIterationUsage w briefing accountId maxIterations ;;
  ret (fst r).

End Generator.

(* ================================================================== *)
(** * lib/utils/version-tracker.ts *)

Module VersionTracker.

(** [s.replace("v", "")]: drops the first occurrence of the letter. *)
Fixpoint replaceFirstV (s : string) : string :=
  match s with
  | EmptyString => EmptyString
  | String c rest =>
      if Ascii.eqb c "v"%char then rest else String c (replaceFirstV rest)
  end.

(** The white space of one byte: TAB, LF, VT, FF, CR and the space. *)
Definition isWhiteSpace (c : ascii) : bool :=
  let n := nat_of_ascii c in
  (n =? 32)%nat || ((9 <=? n)%nat && (n <=? 13)%nat).

Definition isByte (n : nat) (c : ascii) : bool := (nat_of_ascii c =? n)%nat.

(** The third byte of the white space that starts with E2 80: U+2000
    to U+200A, U+2028, U+2029 and U+202F. *)
Definition isGeneralSpace (c : ascii) : bool :=
  let n := nat_of_ascii c in
  ((128 <=? n)%nat && (n <=? 138)%nat)
  || (n =? 168)%nat || (n =? 169)%nat || (n =? 175)%nat.

(** The white space parseInt skips: the bytes above and, in UTF-8,
    U+00A0, U+1680, U+2000 to U+200A, U+2028, U+2029, U+202F, U+205F,
    U+3000 and U+FEFF. *)
Fixpoint skipWhiteSpace (s : string) : string :=
  match s with
  | EmptyString => EmptyString
  | String c rest =>
      if isWhiteSpace c then skipWhiteSpace rest
      else if isByte 194 c then
        match rest with
        | String c2 rest2 =>
            if isByte 160 c2 then skipWhiteSpace rest2 else s
        | EmptyString => s
        end
      else if isByte 225 c || isByte 226 c || isByte 227 c || isByte 239 c
      then
        match rest with
        | String c2 (String c3 rest3) =>
            if (isByte 225 c && isByte 154 c2 && isByte 128 c3)
               || (isByte 226 c && isByte 128 c2 && isGeneralSpace c3)
               || (isByte 226 c && isByte 129 c2 && isByte 159 c3)
               || (isByte 227 c && isByte 128 c2 && isByte 128 c3)
               || (isByte 239 c && isByte 187 c2 && isByte 191 c3)
            then skipWhiteSpace rest3
            else s
        | _ => s
        end
      else s
  end.

Definition digitValue (c : ascii) : option Z :=
  let n := nat_of_ascii c in
  if (48 <=? n)%nat && (n <=? 57)%nat then Some (Z.of_nat n - 48) else None.

(** The longest run of decimal digits at the head of [s], read with
    [acc] as the value of the digits already consumed. *)
Fixpoint readDigits (s : string) (acc : Z) : Z :=
  match s with
  | String c rest =>
      match digitValue c with
      | Some d => readDigits rest (acc * 10 + d)
      | None => acc
      end
  | EmptyString => acc
  end.

Definition startsWithDigit (s : string) : bool :=
  match s with
  | String c _ => match digitValue c with Some _ => true | None => false end
  | EmptyString => false
  end.

(** [parseInt(s, 10)]: the double nearest to the whole number its
    digits write; [None] stands for [NaN].  Every digit counts, as in
    V8; the language lets an implementation read the digits after the
    twentieth as 0. *)
Definition parseInt10 (s : string) : option Js.Double :=
  let s := skipWhiteSpace s in
  let '(sign, s) :=
    match s with
    | String "-"%char rest => (-1, rest)
    | String "+"%char rest => (1, rest)
    | _ => (1, s)
    end in
  if startsWithDigit s then Some (Js.nearestDouble (sign * readDigits s 0))
  else None.

(** [.filter((n) => !isNaN(n))] *)
Fixpoint keepNumbers (l : list (option Js.Double)) : list Js.Double :=
  match l with
  | [] => []
  | Some n :: rest => n :: keepNumbers rest
  | None :: rest => keepNumbers rest
  end.

Definition maxDouble (a b : Js.Double) : Js.Double :=
  if Js.ltDouble a b then b else a.

(** [Math.max(...numbers, 0)] *)
Definition mathMax0 (numbers : list Js.Double) : Js.Double :=
  fold_right maxDouble (Js.Fin 0) numbers.

Definition getNextVersion (existingVersions : list string) : string :=
  match existingVersions with
  | [] => "v1"
  | _ =>
      let versionNumbers :=
        keepNumbers
          (map (fun v => parseInt10 (replaceFirstV v)) existingVersions) in
      let maxVersion := mathMax0 versionNumbers in
      "v" ++ Js.showDouble (Js.succDouble maxVersion)
  end.

Definition createVersionEntry (accountId assistantId version
    briefingContent promptContent filePath status : string)
  : VersionSheetRow :=
  {| vs_account_id := accountId;
     vs_assistant_id := assistantId;
     vs_version := version;
     vs_briefing_hash := Validation.hashContent briefingContent;
     vs_prompt_hash := Validation.hashContent promptContent;
     vs_file_path := filePath;
     vs_status := status |}.

End VersionTracker.

(* ================================================================== *)
(** * lib/services/supabase/repositories *)

Module Repositories.

(** A request whose answer is a row made by the store. *)
Definition getOrCreateAccount (w : Env) (slug name : string) : M Account :=
  dbCall (OpGetOrCreateAccount slug name)
         (fun n => db_getOrCreateAccount w n slug name).

Definition getOrCreateAssistant (w : Env) (accountId externalId name : string)
  : M Assistant :=
  dbCall (OpGetOrCreateAssistant accountId externalId name)
         (fun n => db_getOrCreateAssistant w n accountId externalId name).

Definition createPipelineRun (w : Env) (data : PipelineRunInsert)
  : M PipelineRun :=
  dbCall (OpCreatePipelineRun data) (fun n => db_createPipelineRun w n data).

Definition createPipelineSteps (w : Env) (data : list PipelineStepInsert)
  : M (list SupabasePipelineStep) :=
  dbCall (OpCreatePipelineSteps data)
         (fun n => db_createPipelineSteps w n data).

(** A request whose answer the orchestrator does not read: it either
    goes through or throws the error of the store. *)
Definition command (w : Env) (op : DbOp) : M unit :=
  dbCall op (fun n => faultOutcome (db_fault w n op)).

Definition startPipelineStep (w : Env) (id : string) : M unit :=
  command w (OpStartPipelineStep id).

Definition completePipelineStep (w : Env) (id : string) : M unit :=
  command w (OpCompletePipelineStep id).

Definition failPipelineStep (w : Env) (id error : string) : M unit :=
  command w (OpFailPipelineStep id error).

Definition createCostEntry (w : Env) (data : CostEntryInsert) : M unit :=
  command w (OpCreateCostEntry data).

Definition completePipelineRun (w : Env) (id : string) : M unit :=
  command w (OpCompletePipelineRun id).

Definition failPipelineRun (w : Env) (id : string) (error : option string)
  : M unit :=
  command w (OpFailPipelineRun id error).

(** The rows of prompt_versions that belong to one assistant. *)
Definition versionsOf (assistantId : string)
    (table : list PromptVersionInsert) : list PromptVersionInsert :=
  List.filter (fun r => String.eqb (pv_assistant_id r) assistantId) table.

(** [MAX(version_number)]: NULL on no rows. *)
Fixpoint sqlMax (rows : list PromptVersionInsert) : option Z :=
  match rows with
  | [] => None
  | r :: rest =>
      match sqlMax rest with
      | Some m => Some (Z.max (pv_version_number r) m)
      | None => Some (pv_version_number r)
      end
  end.

(** The database function get_next_version_number of the schema:
    [SELECT COALESCE(MAX(version_number), 0) + 1 ... WHERE assistant_id = p]. *)
Definition get_next_version_number (table : list PromptVersionInsert)
    (p_assistant_id : string) : Z :=
  match sqlMax (versionsOf p_assistant_id table) with
  | Some m => m + 1
  | None => 0 + 1
  end.

(** [ORDER BY version_number DESC LIMIT 1]. *)
Fixpoint topRow (rows : list PromptVersionInsert)
  : option PromptVersionInsert :=
  match rows with
  | [] => None
  | r :: rest =>
      match topRow rest with
      | Some r' =>
          if pv_version_number r <? pv_version_number r'
          then Some r' else Some r
      | None => Some r
      end
  end.

(** [supabase.rpc("get_next_version_number", ...)]: answers with
    [data] (left) or [error] (right) and does not throw. *)
Definition rpcNextVersionNumber (w : Env) (assistantId : string)
  : M (Z + string) :=
  fun st =>
    let op := OpRpcNextVersionNumber assistantId in
    match db_fault w (length (dbCalls st)) op with
    | Some e =>
        (Returned (inr e),
         record (EvStore (mkDbCall op false))
           (setDb (dbCalls st ++ [mkDbCall op false]) (promptVersions st) st))
    | None =>
        (Returned (inl (get_next_version_number (promptVersions st) assistantId)),
         record (EvStore (mkDbCall op true))
           (setDb (dbCalls st ++ [mkDbCall op true]) (promptVersions st) st))
    end.

Definition getLatestPromptVersion (w : Env) (assistantId : string)
  : M (option PromptVersionInsert) :=
  fun st =>
    let op := OpLatestPromptVersion assistantId in
    match db_fault w (length (dbCalls st)) op with
    | Some e =>
        (Threw e,
         setLogs (logs st ++ [mkLogLine LvlError "Failed to get latest prompt version"])
           (record (EvStore (mkDbCall op false))
              (setDb (dbCalls st ++ [mkDbCall op false]) (promptVersions st) st)))
    | None =>
        (Returned (topRow (versionsOf assistantId (promptVersions st))),
         record (EvStore (mkDbCall op true))
           (setDb (dbCalls st ++ [mkDbCall op true]) (promptVersions st) st))
    end.

Definition getNextVersionNumber (w : Env) (assistantId : string) : M Z :=
  r <- rpcNextVersionNumber w assistantId ;;
  match r with
  | inr error =>
      loggerError "Failed to get next version number" ;;;
      latest <- getLatestPromptVersion w assistantId ;;
      ret (Js.optNumOr (option_map pv_version_number latest) 0 + 1)
  | inl data => ret data
  end.

(** The table enforces UNIQUE(assistant_id, version). *)
Definition violatesUnique (table : list PromptVersionInsert)
    (data : PromptVersionInsert) : bool :=
  existsb (fun r => String.eqb (pv_assistant_id r) (pv_assistant_id data)
                    && String.eqb (pv_version r) (pv_version data)) table.

Definition createPromptVersion (w : Env) (data : PromptVersionInsert)
  : M unit :=
  fun st =>
    let op := OpCreatePromptVersion data in
    let failure (e : string) :=
      (Threw e,
       setLogs (logs st ++ [mkLogLine LvlError "Failed to create prompt version"])
         (record (EvStore (mkDbCall op false))
            (setDb (dbCalls st ++ [mkDbCall op false]) (promptVersions st) st))) in
    match db_fault w (length (dbCalls st)) op with
    | Some e => failure e
    | None =>
        if violatesUnique (promptVersions st) data
        then failure "duplicate key value violates unique constraint"
        else (Returned tt,
              record (EvStore (mkDbCall op true))
                (setDb (dbCalls st ++ [mkDbCall op true])
                       (promptVersions st ++ [data]) st))
    end.

End Repositories.

(* ================================================================== *)
(** * lib/services/pipeline: the orchestrator *)

Module Pipeline.

Import Repositories.

Record PipelineConfig := mkPipelineConfig {
  maxIterations : Z;
  enableCostTracking : bool;
  enableSupabase : bool;
  googleSpreadsheetName : string;
  googleFolderName : string
}.

(** [Partial<PipelineConfig>] *)
Record PartialPipelineConfig := mkPartialPipelineConfig {
  opt_maxIterations : option Z;
  opt_enableCostTracking : option bool;
  opt_enableSupabase : option bool;
  opt_googleSpreadsheetName : option string;
  opt_googleFolderName : option string
}.

Definition DEFAULT_CONFIG : PipelineConfig :=
  {| maxIterations := 1;
     enableCostTracking := true;
     enableSupabase := true;
     googleSpreadsheetName := "Mermaid Prompt Builder - Costs";
     googleFolderName := "Mermaid Prompt Builder" |}.

(** [{ ...DEFAULT_CONFIG, ...config }] *)
Definition spread (d : PipelineConfig) (c : PartialPipelineConfig)
  : PipelineConfig :=
  {| maxIterations := default (maxIterations d) (opt_maxIterations c);
     enableCostTracking :=
       default (enableCostTracking d) (opt_enableCostTracking c);
     enableSupabase := default (enableSupabase d) (opt_enableSupabase c);
     googleSpreadsheetName :=
       default (googleSpreadsheetName d) (opt_googleSpreadsheetName c);
     googleFolderName :=
       default (googleFolderName d) (opt_googleFolderName c) |}.

Record SupabaseContext := mkSupabaseContext {
  account : Account;
  assistant : Assistant;
  pipelineRun : PipelineRun;
  stepRecords : gmap string SupabasePipelineStep
}.

(** The names of the steps. *)
Definition LoadAccountConfig : string := "Load Account Config".
Definition GeneratePrompt : string := "Generate Prompt".
Definition DetermineVersion : string := "Determine Version".
Definition CreateInjectionFile : string := "Create Injection File".
Definition SavePromptVersion : string := "Save Prompt Version".
Definition LogCosts : string := "Log Costs".

(** [supabaseContext && pipelineConfig.enableSupabase] *)
Definition activeContext (pipelineConfig : PipelineConfig)
    (supabaseContext : option SupabaseContext) : option SupabaseContext :=
  match supabaseContext with
  | Some ctx => if enableSupabase pipelineConfig then Some ctx else None
  | None => None
  end.

(** The closure logStep of runPipeline; the variables it captures
    ([pipelineConfig], [supabaseContext]) are passed to it. *)
Definition logStep (w : Env) (pipelineConfig : PipelineConfig)
    (supabaseContext : option SupabaseContext)
    (name : string) (status : Status) (error : option string) : M unit :=
  modify (fun st =>
            record (EvStep (mkPipelineStep name status error))
              (setSteps (steps st ++ [mkPipelineStep name status error]) st)) ;;;
  match activeContext pipelineConfig supabaseContext with
  | Some ctx =>
      match stepRecords ctx !! name with
      | Some stepRecord =>
          tryCatch
            (match status with
             | running => startPipelineStep w (step_id stepRecord)
             | completed => completePipelineStep w (step_id stepRecord)
             | failed =>
                 match error with
                 | Some (String c e) =>
                     failPipelineStep w (step_id stepRecord) (String c e)
                 | _ => ret tt
                 end
             | pending => ret tt
             end)
            (fun err => loggerWarn "Failed to update Supabase step")
      | None => ret tt
      end
  | None => ret tt
  end.

Definition stepDefinitions : list (string * Z) :=
  [ (LoadAccountConfig, 1); (GeneratePrompt, 2); (DetermineVersion, 3);
    (CreateInjectionFile, 4); (SavePromptVersion, 5); (LogCosts, 6) ].

Definition initializeSupabaseContext (w : Env)
    (payload : PipelineBriefingInput) (pipelineId briefingId : string)
  : M SupabaseContext :=
  account <- getOrCreateAccount w (p_accountId payload) (p_accountId payload) ;;
  assistant <- getOrCreateAssistant w (account_id account)
                 (b_assistantId (p_briefing payload))
                 (b_assistantId (p_briefing payload)) ;;
  pipelineRun <- createPipelineRun w
                   {| pri_account_id := account_id account;
                      pri_assistant_id := assistant_id assistant;
                      pri_pipeline_id := pipelineId;
                      pri_briefing_id := briefingId;
                      pri_status := running |} ;;
  createdSteps <- createPipelineSteps w
                    (map (fun s =>
                            {| psi_pipeline_run_id := run_id pipelineRun;
                               psi_step_name := fst s;
                               psi_step_order := snd s;
                               psi_status := pending |})
                         stepDefinitions) ;;
  let stepRecords :=
    fold_left (fun (m : gmap string SupabasePipelineStep) step =>
                 <[ step_name step := step ]> m)
              createdSteps ∅ in
  ret {| account := account;
         assistant := assistant;
         pipelineRun := pipelineRun;
         stepRecords := stepRecords |}.

(** [s || null] *)
Definition orNull (o : option string) : option string :=
  match o with Some (String c s) => Some (String c s) | _ => None end.

Definition saveCostsToSupabase (w : Env) (context : SupabaseContext)
    (operation : string) : M unit :=
  costs <- Usage.getSessionCosts ;;
  let stepRecord := stepRecords context !! GeneratePrompt in
  forEach costs (fun cost =>
    tryCatch
      (createCostEntry w
         {| cei_pipeline_run_id := run_id (pipelineRun context);
            cei_pipeline_step_id := orNull (option_map step_id stepRecord);
            cei_account_id := account_id (account context);
            cei_assistant_id := assistant_id (assistant context);
            cei_operation := operation;
            cei_model := ce_model cost;
            cei_input_tokens := ce_inputTokens cost;
            cei_output_tokens := ce_outputTokens cost;
            cei_cache_read_tokens := 0;
            cei_cache_write_tokens := 0;
            cei_cost_usd := ce_costUsd cost |})
      (fun err => loggerWarn "Failed to save cost entry to Supabase")).

(** [payload.briefing.id || generateId("briefing")] *)
Definition briefingIdOf (w : Env) (payload : PipelineBriefingInput)
  : M string :=
  match b_id (p_briefing payload) with
  | EmptyString => Validation.generateId w "briefing"
  | id => ret id
  end.

Definition createFailedResult (w : Env) (payload : PipelineBriefingInput)
    (pipelineId : string) (error : option string)
    (supabaseContext : option SupabaseContext) : M PipelineResult :=
  match supabaseContext with
  | Some ctx =>
      tryCatch
        (failPipelineRun w (run_id (pipelineRun ctx)) error)
        (fun err => loggerWarn "Failed to mark pipeline run as failed in Supabase")
  | None => ret tt
  end ;;;
  briefingId <- briefingIdOf w payload ;;
  costEntries <- Usage.getSessionCosts ;;
  steps <- gets steps ;;
  ret {| r_id := pipelineId;
         r_status := failed;
         r_briefingId := briefingId;
         r_accountId := p_accountId payload;
         r_assistantId := b_assistantId (p_briefing payload);
         r_generatedPrompt := None;
         r_injectionFile := None;
         r_costEntries := costEntries;
         r_steps := steps;
         r_error := error |}.

Definition logCostsToSheets (w : Env) (accountId assistantId : string)
    (config : PipelineConfig) (version : string) (briefing : Briefing)
    (promptContent : string) : M unit :=
  folderId <- sheetCall (OpFindOrCreateFolder (googleFolderName config))
                (fun n => sheets_findOrCreateFolder w n (googleFolderName config)) ;;
  found <- sheetCall
             (OpFindCostSpreadsheet (googleSpreadsheetName config) folderId)
             (fun n => sheets_findCostSpreadsheet w n
                         (googleSpreadsheetName config) folderId) ;;
  spreadsheetId <-
    match orNull found with
    | Some id => ret id
    | None =>
        sheetCall
          (OpCreateCostSpreadsheet (googleSpreadsheetName config) folderId)
          (fun n => sheets_createCostSpreadsheet w n
                      (googleSpreadsheetName config) folderId)
    end ;;
  costs <- Usage.getSessionCosts ;;
  match costs with
  | [] => ret tt
  | _ =>
      sheetCall (OpAppendCostEntries spreadsheetId costs)
        (fun n => faultOutcome
                    (sheets_fault w n (OpAppendCostEntries spreadsheetId costs)))
  end ;;;
  let versionEntry :=
    VersionTracker.createVersionEntry accountId assistantId version
      (jsonStringify w briefing) promptContent
      ("lib/accounts/" ++ accountId ++ "/assistants/" ++ assistantId
       ++ "/" ++ version ++ "/injection.ts")
      "final" in
  sheetCall (OpAppendVersionEntries spreadsheetId [versionEntry])
    (fun n => faultOutcome
                (sheets_fault w n
                   (OpAppendVersionEntries spreadsheetId [versionEntry]))) ;;;
  let summary :=
    {| ss_totalCost :=
         fold_left (fun sum c => plusD sum (ce_costUsd c)) costs (Usd 0);
       ss_totalInputTokens :=
         fold_left (fun sum c => sum + ce_inputTokens c) costs 0;
       ss_totalOutputTokens :=
         fold_left (fun sum c => sum + ce_outputTokens c) costs 0;
       ss_totalOperations := Z.of_nat (length costs) |} in
  sheetCall (OpUpdateSummary spreadsheetId summary)
    (fun n => faultOutcome
                (sheets_fault w n (OpUpdateSummary spreadsheetId summary))).

(** Step 3 of runPipeline, between its two logStep calls: the version
    and the version number the run goes on with. *)
Definition determineVersion (w : Env) (pipelineConfig : PipelineConfig)
    (supabaseContext : option SupabaseContext) : M (string * Z) :=
  let version := "v1" in
  let versionNumber := 1 in
  match activeContext pipelineConfig supabaseContext with
  | Some ctx =>
      tryCatch
        (versionNumber <- getNextVersionNumber w (assistant_id (assistant ctx)) ;;
         ret ("v" ++ Js.showZ versionNumber, versionNumber))
        (fun err =>
           loggerWarn "Failed to get next version from Supabase, using v1" ;;;
           ret (version, versionNumber))
  | None => ret (version, versionNumber)
  end.

(** Step 5. *)
Definition savePromptVersion (w : Env) (pipelineConfig : PipelineConfig)
    (supabaseContext : option SupabaseContext)
    (payload : PipelineBriefingInput) (generatedPrompt : GeneratedPrompt)
    (injectionFile : InjectionFile) (version : string) (versionNumber : Z)
  : M unit :=
  match activeContext pipelineConfig supabaseContext with
  | Some ctx =>
      logStep w pipelineConfig supabaseContext SavePromptVersion running None ;;;
      tryCatch
        (createPromptVersion w
           {| pv_pipeline_run_id := run_id (pipelineRun ctx);
              pv_account_id := account_id (account ctx);
              pv_assistant_id := assistant_id (assistant ctx);
              pv_version := version;
              pv_version_number := versionNumber;
              pv_prompt_content := gp_content generatedPrompt;
              pv_prompt_hash := Validation.hashContent (gp_content generatedPrompt);
              pv_injection_content :=
                Js.optStrOr (if_promptContent injectionFile)
                            (gp_content generatedPrompt);
              pv_injection_file_path := orNull (if_filePath injectionFile);
              pv_briefing_hash :=
                Validation.hashContent (jsonStringify w (p_briefing payload));
              pv_total_iterations :=
                Js.optNumOr
                  (option_map (fun l : list PromptIteration => Z.of_nat (length l))
                              (gp_iterations generatedPrompt)) 1;
              pv_final_score :=
                match gp_finalAnalysis generatedPrompt with
                | Some a => if qualityScore a =? 0 then None
                            else Some (qualityScore a)
                | None => None
                end;
              pv_status := "final" |} ;;;
         logStep w pipelineConfig supabaseContext SavePromptVersion completed None)
        (fun err =>
           loggerWarn "Failed to save prompt version to Supabase" ;;;
           logStep w pipelineConfig supabaseContext SavePromptVersion failed
             (Some "Failed to save to Supabase (non-fatal)"))
  | None => ret tt
  end.

(** Step 6. *)
Definition logCosts (w : Env) (pipelineConfig : PipelineConfig)
    (supabaseContext : option SupabaseContext)
    (payload : PipelineBriefingInput) (generatedPrompt : GeneratedPrompt)
    (version : string) : M unit :=
  if enableCostTracking pipelineConfig then
    logStep w pipelineConfig supabaseContext LogCosts running None ;;;
    tryCatch
      (logCostsToSheets w (p_accountId payload)
         (b_assistantId (p_briefing payload)) pipelineConfig version
         (p_briefing payload) (gp_content generatedPrompt) ;;;
       logStep w pipelineConfig supabaseContext LogCosts completed None)
      (fun error =>
         loggerWarn "Failed to log costs to Google Sheets" ;;;
         logStep w pipelineConfig supabaseContext LogCosts failed
           (Some "Failed to log to Google Sheets (non-fatal)"))
  else ret tt.

(** Step 0: the inner try of runPipeline around initializeSupabaseContext. *)
Definition establishContext (w : Env) (pipelineConfig : PipelineConfig)
    (payload : PipelineBriefingInput) (pipelineId briefingId : string)
  : M (option SupabaseContext) :=
  if enableSupabase pipelineConfig then
    tryCatch
      (ctx <- initializeSupabaseContext w payload pipelineId briefingId ;;
       ret (Some ctx))
      (fun err =>
         loggerWarn
           "Failed to initialize Supabase context, continuing without persistence" ;;;
         ret None)
  else ret None.

(** Steps 1 to 6 and the assembly of the completed result. *)
Definition steps1to6 (w : Env) (pipelineConfig : PipelineConfig)
    (payload : PipelineBriefingInput) (pipelineId briefingId : string)
    (supabaseContext : option SupabaseContext) : M PipelineResult :=
  let logStep := logStep w pipelineConfig supabaseContext in
  logStep LoadAccountConfig running None ;;;
  accountConfig <- callRegistry w (p_accountId payload) ;;
  match accountConfig with
  | None =>
      logStep LoadAccountConfig failed (Some "Account not found") ;;;
      createFailedResult w payload pipelineId (Some "Account not found")
        supabaseContext
  | Some _ =>
      let keyValidation := registry_validateApiKeyConfigured w in
      if negb (valid keyValidation) then
        logStep LoadAccountConfig failed (kv_error keyValidation) ;;;
        createFailedResult w payload pipelineId (kv_error keyValidation)
          supabaseContext
      else
        logStep LoadAccountConfig completed None ;;;
        logStep GeneratePrompt running None ;;;
        generatedPrompt <-
          Generator.generatePromptWithIteration w (p_briefing payload)
            (p_accountId payload) (Some (maxIterations pipelineConfig)) ;;
        logStep GeneratePrompt completed None ;;;
        match activeContext pipelineConfig supabaseContext with
        | Some ctx => saveCostsToSupabase w ctx "prompt_generation"
        | None => ret tt
        end ;;;
        logStep DetermineVersion running None ;;;
        v <- determineVersion w pipelineConfig supabaseContext ;;
        let '(version, versionNumber) := v in
        logStep DetermineVersion completed None ;;;
        logStep CreateInjectionFile running None ;;;
        injectionFile <- createInjectionFromPrompt w generatedPrompt version ;;
        logStep CreateInjectionFile completed None ;;;
        savePromptVersion w pipelineConfig supabaseContext payload
          generatedPrompt injectionFile version versionNumber ;;;
        logCosts w pipelineConfig supabaseContext payload generatedPrompt
          version ;;;
        match activeContext pipelineConfig supabaseContext with
        | Some ctx =>
            tryCatch
              (completePipelineRun w (run_id (pipelineRun ctx)))
              (fun err =>
                 loggerWarn "Failed to complete pipeline run in Supabase")
        | None => ret tt
        end ;;;
        costEntries <- Usage.getSessionCosts ;;
        steps <- gets steps ;;
        ret {| r_id := pipelineId;
               r_status := completed;
               r_briefingId := briefingId;
               r_accountId := p_accountId payload;
               r_assistantId := b_assistantId (p_briefing payload);
               r_generatedPrompt := Some generatedPrompt;
               r_injectionFile := Some injectionFile;
               r_costEntries := costEntries;
               r_steps := steps;
               r_error := None |}
  end.

(** runPipeline.  Step 0 sits inside the outer try of the source, but it
    catches whatever it raises itself; the outer handler therefore starts
    after it here, which lets it read [supabaseContext] as a value. *)
Definition runPipeline (w : Env) (payload : PipelineBriefingInput)
    (config : PartialPipelineConfig) : M PipelineResult :=
  let pipelineConfig := spread DEFAULT_CONFIG config in
  modify (setSteps []) ;;;
  Usage.resetSession ;;;
  pipelineId <- Validation.generateId w "pipeline" ;;
  briefingId <- briefingIdOf w payload ;;
  supabaseContext <-
    establishContext w pipelineConfig payload pipelineId briefingId ;;
  tryCatch
    (steps1to6 w pipelineConfig payload pipelineId briefingId supabaseContext)
    (fun errorMessage =>
       loggerError "Pipeline failed" ;;;
       createFailedResult w payload pipelineId (Some errorMessage)
         supabaseContext).

End Pipeline.

(* ================================================================== *)
(** * Concrete environments *)

Module Examples.

Import Pipeline.

Definition formData : BriefingFormData :=
  mkBriefingFormData "Acme" "Widgets" "" "" "" ["owners"] ["growth"] [] [] []
    "reliable" "friendly" "" "" "" "office hours" "" "greet" "" "" "book a call" "".

Definition briefing : Briefing := mkBriefing "b1" "acc" "asst" formData.

Definition payload : PipelineBriefingInput :=
  mkPipelineBriefingInput briefing "acc" "asst".

(** Every collaborator answers; the provider echoes a fixed string and
    reports 100 input and 50 output tokens. *)
Definition stubEnv : Env :=
  {| formatBriefingAsMarkdown := fun _ => "BRIEFING";
     jsonStringify := fun _ => "{}";
     prismaSystemPrompt := "PRISMA";
     idSuffix := fun n => Js.showZ (Z.of_nat n);
     registry_loadAccountConfig :=
       fun _ a => Returned (Some (mkAccountConfig a a []));
     registry_validateApiKeyConfigured := mkKeyValidation true None;
     provider_sendMessage :=
       fun _ _ =>
         Returned (mkMessageResponse "echo"
                     (mkTokenUsage 100 50 None None) None "stub");
     packaging_createInjectionFromPrompt :=
       fun _ p v =>
         Returned (mkInjectionFile (gp_accountId p) (gp_assistantId p) v
                     None (Some (gp_content p)));
     db_getOrCreateAccount := fun _ s _ => Returned (mkAccount ("A-" ++ s));
     db_getOrCreateAssistant :=
       fun _ _ e _ => Returned (mkAssistant ("S-" ++ e));
     db_createPipelineRun :=
       fun _ d => Returned (mkPipelineRun ("R-" ++ pri_pipeline_id d));
     db_createPipelineSteps :=
       fun _ l =>
         Returned (map (fun i =>
                          mkSupabasePipelineStep
                            ("step-" ++ psi_step_name i)
                            (psi_step_name i) (psi_step_order i)) l);
     db_fault := fun _ _ => None;
     sheets_findOrCreateFolder := fun _ _ => Returned "folder";
     sheets_findCostSpreadsheet := fun _ _ _ => Returned None;
     sheets_createCostSpreadsheet := fun _ _ _ => Returned "sheet";
     sheets_fault := fun _ _ => None |}.

(** [stubEnv] with another provider, store fault or sheet fault. *)
Definition withProvider
    (p : nat -> MessageRequest -> Outcome MessageResponse) (w : Env) : Env :=
  mkEnv (formatBriefingAsMarkdown w) (jsonStringify w) (prismaSystemPrompt w)
    (idSuffix w) (registry_loadAccountConfig w)
    (registry_validateApiKeyConfigured w) p
    (packaging_createInjectionFromPrompt w) (db_getOrCreateAccount w)
    (db_getOrCreateAssistant w) (db_createPipelineRun w)
    (db_createPipelineSteps w) (db_fault w) (sheets_findOrCreateFolder w)
    (sheets_findCostSpreadsheet w) (sheets_createCostSpreadsheet w)
    (sheets_fault w).

Definition withDbFault (f : nat -> DbOp -> option string) (w : Env) : Env :=
  mkEnv (formatBriefingAsMarkdown w) (jsonStringify w) (prismaSystemPrompt w)
    (idSuffix w) (registry_loadAccountConfig w)
    (registry_validateApiKeyConfigured w) (provider_sendMessage w)
    (packaging_createInjectionFromPrompt w) (db_getOrCreateAccount w)
    (db_getOrCreateAssistant w) (db_createPipelineRun w)
    (db_createPipelineSteps w) f (sheets_findOrCreateFolder w)
    (sheets_findCostSpreadsheet w) (sheets_createCostSpreadsheet w)
    (sheets_fault w).

Definition withSheetFault (f : nat -> SheetOp -> option string) (w : Env)
  : Env :=
  mkEnv (formatBriefingAsMarkdown w) (jsonStringify w) (prismaSystemPrompt w)
    (idSuffix w) (registry_loadAccountConfig w)
    (registry_validateApiKeyConfigured w) (provider_sendMessage w)
    (packaging_createInjectionFromPrompt w) (db_getOrCreateAccount w)
    (db_getOrCreateAssistant w) (db_createPipelineRun w)
    (db_createPipelineSteps w) (db_fault w) (sheets_findOrCreateFolder w)
    (sheets_findCostSpreadsheet w) (sheets_createCostSpreadsheet w) f.

Definition withPipelineRun
    (f : nat -> PipelineRunInsert -> Outcome PipelineRun) (w : Env) : Env :=
  mkEnv (formatBriefingAsMarkdown w) (jsonStringify w) (prismaSystemPrompt w)
    (idSuffix w) (registry_loadAccountConfig w)
    (registry_validateApiKeyConfigured w) (provider_sendMessage w)
    (packaging_createInjectionFromPrompt w) (db_getOrCreateAccount w)
    (db_getOrCreateAssistant w) f
    (db_createPipelineSteps w) (db_fault w) (sheets_findOrCreateFolder w)
    (sheets_findCostSpreadsheet w) (sheets_createCostSpreadsheet w)
    (sheets_fault w).

(** The provider answers twice, then fails. *)
Definition thirdCallFails : Env :=
  withProvider
    (fun n req => if (n <? 2)%nat then provider_sendMessage stubEnv n req
                  else Threw "overloaded")
    stubEnv.

(** The store refuses every createPromptVersion and every spreadsheet
    append fails. *)
Definition writesFail : Env :=
  withSheetFault
    (fun _ op => match op with
                 | OpAppendCostEntries _ _ => Some "quota exceeded"
                 | _ => None
                 end)
    (withDbFault
       (fun _ op => match op with
                    | OpCreatePromptVersion _ => Some "connection reset"
                    | _ => None
                    end)
       stubEnv).

(** The store cannot create the pipeline run. *)
Definition storeDown : Env :=
  withPipelineRun (fun _ _ => Threw "connection refused") stubEnv.

(** Every request for the next version number fails. *)
Definition versionReadsFail : Env :=
  withDbFault
    (fun _ op => match op with
                 | OpRpcNextVersionNumber _ => Some "function not found"
                 | OpLatestPromptVersion _ => Some "timeout"
                 | _ => None
                 end)
    stubEnv.

Definition st0 : St :=
  mkSt (mkTokenUsage 0 0 (Some 0) (Some 0)) [] [] [] 0 [] [] [] [] [] [] [].

Definition noConfig : PartialPipelineConfig :=
  mkPartialPipelineConfig None None None None None.

Definition oneIteration : PartialPipelineConfig :=
  mkPartialPipelineConfig (Some 1) None None None None.

Definition supabaseOff : PartialPipelineConfig :=
  mkPartialPipelineConfig None None (Some false) None None.

(** A persistence context for the assistant [S-asst], and a store that
    holds two versions of its prompt. *)
Definition context : SupabaseContext :=
  {| account := mkAccount "A-acc";
     assistant := mkAssistant "S-asst";
     pipelineRun := mkPipelineRun "R-1";
     stepRecords := ∅ |}.

Definition versionRow (n : Z) : PromptVersionInsert :=
  {| pv_pipeline_run_id := "R-0";
     pv_account_id := "A-acc";
     pv_assistant_id := "S-asst";
     pv_version := "v" ++ Js.showZ n;
     pv_version_number := n;
     pv_prompt_content := "prompt";
     pv_prompt_hash := Validation.hashContent "prompt";
     pv_injection_content := "prompt";
     pv_injection_file_path := None;
     pv_briefing_hash := Validation.hashContent "{}";
     pv_total_iterations := 1;
     pv_final_score := None;
     pv_status := "final" |}.

Definition twoVersions : St :=
  mkSt (mkTokenUsage 0 0 (Some 0) (Some 0)) [] [] [] 0 [] [] [] [] []
       [versionRow 1; versionRow 2] [].

End Examples.
(* ================================================================== *)
(** * Vocabulary of the statements *)

Module Spec.

Import Pipeline.

(** The pricing entry of the default model. *)
Definition opusPricing : ModelPricing :=
  mkModelPricing "claude-opus-4-5-20251101"
    15 75 (Some (15 # 10)%Q) (Some (1875 # 100)%Q).

Definition llm_ok (c : LlmCall) : bool := isReturned (llm_outcome c).

(** The operation the generator bills a request of each wrapper as. *)
Definition opOf (via : Wrapper) : CostOperation :=
  match via with
  | ViaGenerate => prompt_generation
  | ViaAnalyze => prompt_analysis
  | ViaImprove => prompt_improvement
  end.

(** [billOf e c]: the ledger entry [e] is the bill of the completion
    call [c], which returned. *)
Definition billOf (e : CostEntry) (c : LlmCall) : Prop :=
  exists resp,
    llm_outcome c = Returned resp /\
    ce_operation e = opOf (llm_via c) /\
    ce_model e = Usage.DEFAULT_MODEL /\
    ce_inputTokens e = inputTokens (usage resp) /\
    ce_outputTokens e = outputTokens (usage resp) /\
    ce_costUsd e =
      totalCostUsd (CostTracker.calculateCostWithPricing (usage resp) opusPricing).

Definition sumInput (entries : list CostEntry) : Z :=
  fold_right (fun e acc => ce_inputTokens e + acc) 0 entries.

Definition sumOutput (entries : list CostEntry) : Z :=
  fold_right (fun e acc => ce_outputTokens e + acc) 0 entries.

(** What a run of the generator leaves alone. *)
Definition offGenerator (st : St) :=
  (steps st, logs st, registryCalls st, injectionCalls st, dbCalls st,
   sheetCalls st, promptVersions st).

(** [n] rounds of analyze-then-improve. *)
Fixpoint alternation (n : nat) : list Wrapper :=
  match n with
  | O => []
  | S n' => ViaAnalyze :: ViaImprove :: alternation n'
  end.

(** The numbers [i+1, ..., i+n]. *)
Fixpoint countFrom (i : Z) (n : nat) : list Z :=
  match n with
  | O => []
  | S n' => (i + 1) :: countFrom (i + 1) n'
  end.

(** The common shape of generateInitialPrompt, analyzeGeneratedPrompt
    and improveGeneratedPrompt: one request, then its bill. *)
Definition billed (w : Env) (via : Wrapper) (req : MessageRequest)
    (accountId assistantId : string) (md : option CostMetadata)
  : M (string * TokenUsage) :=
  response <- sendMessage w via req ;;
  Usage.logCost w accountId assistantId (opOf via) (usage response)
    None None md ;;;
  ret (content response, usage response).

Definition allOk (calls : list LlmCall) : Prop :=
  Forall (fun c => llm_ok c = true) calls.

(** The calls went through until the last one threw [e]. *)
Definition endsThrowing (e : string) (calls : list LlmCall) : Prop :=
  exists pre c,
    calls = (pre ++ [c])%list /\ allOk pre /\ llm_outcome c = Threw e.

(** The outcome recorded for [c] is what the provider of [w] answered. *)
Definition answeredBy (w : Env) (c : LlmCall) : Prop :=
  exists n, llm_outcome c = provider_sendMessage w n (llm_request c).

(** [billing w st st' calls entries]: between [st] and [st'] the provider
    was asked [calls], the ledger gained [entries], one bill for each
    call that returned, in order, and the totals grew by their tokens. *)
Definition billing (w : Env) (st st' : St) (calls : list LlmCall)
    (entries : list CostEntry) : Prop :=
  llmCalls st' = (llmCalls st ++ calls)%list /\
  Forall (answeredBy w) calls /\
  sessionCosts st' = (sessionCosts st ++ entries)%list /\
  Forall2 billOf entries (List.filter llm_ok calls) /\
  inputTokens (sessionUsage st') =
    inputTokens (sessionUsage st) + sumInput entries /\
  outputTokens (sessionUsage st') =
    outputTokens (sessionUsage st) + sumOutput entries /\
  offGenerator st' = offGenerator st.

(** The text of the last response among [calls], [d] if there is none. *)
Definition lastOutput (calls : list LlmCall) (d : string) : string :=
  match last calls with
  | Some c =>
      match llm_outcome c with
      | Returned r => content r
      | Threw _ => d
      end
  | None => d
  end.

(** ** Steps and the collaborators they own *)

Definition stepOrder : list string :=
  [ LoadAccountConfig; GeneratePrompt; DetermineVersion;
    CreateInjectionFile; SavePromptVersion; LogCosts ].

(** The entry logStep pushes when a step is entered. *)
Definition entered (name : string) : PipelineStep :=
  mkPipelineStep name running None.

Definition finished (name : string) : PipelineStep :=
  mkPipelineStep name completed None.

Definition saveFailed : PipelineStep :=
  mkPipelineStep SavePromptVersion failed
    (Some "Failed to save to Supabase (non-fatal)").

Definition logFailed : PipelineStep :=
  mkPipelineStep LogCosts failed
    (Some "Failed to log to Google Sheets (non-fatal)").

Definition isCreatePromptVersion (op : DbOp) : bool :=
  match op with OpCreatePromptVersion _ => true | _ => false end.

(** A request to the store that is not a failed createPromptVersion. *)
Definition saveOk (c : DbCall) : Prop :=
  isCreatePromptVersion (db_op c) = true -> db_ok c = true.

Definition sheetOk (c : SheetCall) : Prop := sheet_ok c = true.

(** What one stretch of a run does to the state: the completion calls
    made, the entries the ledger gained, the entries logStep pushed, the
    requests to the store, to the spreadsheet ledger and to the packaging
    function, and the rows the prompt_versions table gained. *)
Record Trail := mkTrail {
  t_calls : list LlmCall;
  t_entries : list CostEntry;
  t_steps : list PipelineStep;
  t_db : list DbCall;
  t_sheets : list SheetCall;
  t_inj : list InjectionCall;
  t_rows : list PromptVersionInsert
}.

Definition tnil : Trail := mkTrail [] [] [] [] [] [] [].

Definition tapp (a b : Trail) : Trail :=
  mkTrail (t_calls a ++ t_calls b) (t_entries a ++ t_entries b)
          (t_steps a ++ t_steps b) (t_db a ++ t_db b)
          (t_sheets a ++ t_sheets b) (t_inj a ++ t_inj b)
          (t_rows a ++ t_rows b).

(** [delta w st st' t]: the state went from [st] to [st'] by the trail
    [t]; the entries of the ledger are the bills of the calls that
    returned, and the totals grew by their tokens. *)
Definition delta (w : Env) (st st' : St) (t : Trail) : Prop :=
  llmCalls st' = (llmCalls st ++ t_calls t)%list /\
  Forall (answeredBy w) (t_calls t) /\
  sessionCosts st' = (sessionCosts st ++ t_entries t)%list /\
  Forall2 billOf (t_entries t) (List.filter llm_ok (t_calls t)) /\
  inputTokens (sessionUsage st') =
    inputTokens (sessionUsage st) + sumInput (t_entries t) /\
  outputTokens (sessionUsage st') =
    outputTokens (sessionUsage st) + sumOutput (t_entries t) /\
  steps st' = (steps st ++ t_steps t)%list /\
  dbCalls st' = (dbCalls st ++ t_db t)%list /\
  sheetCalls st' = (sheetCalls st ++ t_sheets t)%list /\
  injectionCalls st' = (injectionCalls st ++ t_inj t)%list /\
  promptVersions st' = (promptVersions st ++ t_rows t)%list /\
  (exists lines, logs st' = (logs st ++ lines)%list).

(** A createPromptVersion request that failed. *)
Definition saveRefused (c : DbCall) : Prop :=
  isCreatePromptVersion (db_op c) = true /\ db_ok c = false.

(** [owned t]: each collaborator is asked only inside the step that owns
    it, and a failure of an auxiliary write is recorded as the failure of
    its step.  A createPromptVersion request failed only if the trail
    records the failure of Save Prompt Version; a spreadsheet request
    failed only if it records the failure of Log Costs; spreadsheet
    requests, packaging requests and new rows occur only if it records
    that Log Costs, Create Injection File and Save Prompt Version,
    respectively, were entered.  Conversely the failure of Save Prompt
    Version is recorded only if a createPromptVersion request failed,
    and that of Log Costs only if a spreadsheet request failed. *)
Definition owned (t : Trail) : Prop :=
  (In saveFailed (t_steps t) \/ Forall saveOk (t_db t)) /\
  (In logFailed (t_steps t) \/ Forall sheetOk (t_sheets t)) /\
  (t_sheets t = [] \/ In (entered LogCosts) (t_steps t)) /\
  (t_inj t = [] \/ In (entered CreateInjectionFile) (t_steps t)) /\
  (t_rows t = [] \/ In (entered SavePromptVersion) (t_steps t)) /\
  (In saveFailed (t_steps t) -> Exists saveRefused (t_db t)) /\
  (In logFailed (t_steps t) ->
   Exists (fun c => sheet_ok c = false) (t_sheets t)).

(** The entries [s] record no failure of an auxiliary write. *)
Definition noAuxFailure (s : list PipelineStep) : Prop :=
  ~ In saveFailed s /\ ~ In logFailed s.

Definition walked (w : Env) (st st' : St) (t : Trail) : Prop :=
  delta w st st' t /\ owned t.

(** What the bookkeeping around the steps leaves alone. *)
Definition ledgerCalls (st : St) :=
  (sessionUsage st, sessionCosts st, llmCalls st, injectionCalls st).

Definition held (st : St) :=
  (ledgerCalls st, sheetCalls st, promptVersions st).

(** What logCostsToSheets leaves alone. *)
Definition offSheets (st : St) :=
  (sessionUsage st, sessionCosts st, llmCalls st, injectionCalls st,
   promptVersions st, steps st, dbCalls st, logs st).

(** ** The ways a run ends *)

Definition stepFailed (name : string) (error : option string) : PipelineStep :=
  mkPipelineStep name failed error.

(** The entries up to the end of Create Injection File. *)
Definition firstSteps : list PipelineStep :=
  [ entered LoadAccountConfig; finished LoadAccountConfig;
    entered GeneratePrompt; finished GeneratePrompt;
    entered DetermineVersion; finished DetermineVersion;
    entered CreateInjectionFile; finished CreateInjectionFile ].

(** [Failure w payload calls s error]: a fatal failure with message
    [error], after the completion calls [calls] and the entries [s]. *)
Inductive Failure (w : Env) (payload : PipelineBriefingInput)
    (calls : list LlmCall) (s : list PipelineStep) : option string -> Prop :=
| RegistryThrew e n :
    registry_loadAccountConfig w n (p_accountId payload) = Threw e ->
    calls = [] ->
    s = [entered LoadAccountConfig] ->
    Failure w payload calls s (Some e)
| AccountNotFound n :
    registry_loadAccountConfig w n (p_accountId payload) = Returned None ->
    calls = [] ->
    s = [entered LoadAccountConfig;
         stepFailed LoadAccountConfig (Some "Account not found")] ->
    Failure w payload calls s (Some "Account not found")
| KeyNotConfigured :
    valid (registry_validateApiKeyConfigured w) = false ->
    calls = [] ->
    s = [entered LoadAccountConfig;
         stepFailed LoadAccountConfig
           (kv_error (registry_validateApiKeyConfigured w))] ->
    Failure w payload calls s (kv_error (registry_validateApiKeyConfigured w))
| GenerationThrew e :
    endsThrowing e calls ->
    s = [entered LoadAccountConfig; finished LoadAccountConfig;
         entered GeneratePrompt] ->
    Failure w payload calls s (Some e)
| PackagingThrew e n gp v :
    packaging_createInjectionFromPrompt w n gp v = Threw e ->
    allOk calls ->
    s = [entered LoadAccountConfig; finished LoadAccountConfig;
         entered GeneratePrompt; finished GeneratePrompt;
         entered DetermineVersion; finished DetermineVersion;
         entered CreateInjectionFile] ->
    Failure w payload calls s (Some e).

Definition saveShape (s : list PipelineStep) : Prop :=
  s = [] \/
  s = [entered SavePromptVersion; finished SavePromptVersion] \/
  s = [entered SavePromptVersion; saveFailed].

Definition logShape (s : list PipelineStep) : Prop :=
  s = [] \/
  s = [entered LogCosts; finished LogCosts] \/
  s = [entered LogCosts; logFailed].

(** The number of rounds the generator runs for a configured count. *)
Definition roundsOf (maxIterations : Z) : nat :=
  Z.to_nat (Js.numOr maxIterations 1).

(** [Success cfg calls s gp]: the run went through, with the completion
    calls [calls], the entries [s] and the generated prompt [gp]. *)
Definition Success (cfg : PipelineConfig) (calls : list LlmCall)
    (s : list PipelineStep) (gp : GeneratedPrompt) : Prop :=
  allOk calls /\
  map llm_via calls = ViaGenerate :: alternation (roundsOf (maxIterations cfg)) /\
  map iterationNumber (gp_simpleIterations gp) =
    countFrom 0 (roundsOf (maxIterations cfg)) /\
  gp_content gp = lastOutput calls "" /\
  exists s5 s6,
    s = (firstSteps ++ s5 ++ s6)%list /\ saveShape s5 /\ logShape s6.

Definition Verdict (w : Env) (payload : PipelineBriefingInput)
    (cfg : PipelineConfig) (r : PipelineResult)
    (calls : list LlmCall) (s : list PipelineStep) : Prop :=
  (r_status r = failed /\ r_generatedPrompt r = None /\
   r_injectionFile r = None /\ Failure w payload calls s (r_error r)) \/
  (r_status r = completed /\ r_error r = None /\
   exists gp inj,
     r_generatedPrompt r = Some gp /\ r_injectionFile r = Some inj /\
     Success cfg calls s gp).

(** [started st st0]: [st0] is [st] once runPipeline has emptied its
    array of steps and reset the session ledger. *)
Definition started (st st0 : St) : Prop :=
  steps st0 = [] /\ sessionCosts st0 = [] /\
  inputTokens (sessionUsage st0) = 0 /\
  outputTokens (sessionUsage st0) = 0 /\
  llmCalls st0 = llmCalls st /\ dbCalls st0 = dbCalls st /\
  sheetCalls st0 = sheetCalls st /\
  injectionCalls st0 = injectionCalls st /\
  promptVersions st0 = promptVersions st /\ logs st0 = logs st.

End Spec.

(* ================================================================== *)
(** * Vocabulary of the claims *)

Module Claims.

Import Pipeline Spec.

(** ** Cost calculator *)

(** Token counts are counts. *)
Definition usageWf (u : TokenUsage) : Prop :=
  0 <= inputTokens u /\ 0 <= outputTokens u /\
  (forall t, cacheReadTokens u = Some t -> 0 <= t) /\
  (forall t, cacheWriteTokens u = Some t -> 0 <= t).

(** An absent [cacheCost] read as 0. *)
Definition cacheOr0 (c : CostCalculation) : Q :=
  match cacheCost c with Some (Usd q) => q | _ => 0%Q end.

(** The amount of a number of dollars, 0 for NaN. *)
Definition usd (d : Dollars) : Q :=
  match d with Usd q => q | NaN => 0%Q end.

(** The model names a property that the price table inherits. *)
Definition inheritedKey (model : string) : bool :=
  match CostTracker.lookupPricing model with
  | CostTracker.Inherited => true
  | _ => false
  end.

(** What calculateCost answers for an inherited key. *)
Definition notANumber : CostCalculation :=
  {| inputCost := NaN; outputCost := NaN; cacheCost := None;
     totalCostUsd := NaN |}.

Definition tokensOr0 (o : option Z) : Z :=
  match o with Some t => t | None => 0 end.

Definition priceOr0 (o : option Q) : Q :=
  match o with Some q => q | None => 0%Q end.

(** The prices [calculateCost] charges a model at when it finds an entry
    or [undefined]: those of its entry in the table, those of the
    default model if it has none. *)
Definition pricingFor (model : string) : ModelPricing :=
  match CostTracker.MODEL_PRICING !! model with
  | Some p => p
  | None => opusPricing
  end.

(** Prices are not negative. *)
Definition pricingOk (p : ModelPricing) : Prop :=
  (0 <= inputPer1M p)%Q /\ (0 <= outputPer1M p)%Q /\
  (0 <= priceOr0 (cacheReadPer1M p))%Q /\
  (0 <= priceOr0 (cacheWritePer1M p))%Q.

(** One of the two terms of the cache cost. *)
Definition cacheTerm (tokens : option Z) (price : option Q) : Q :=
  match CostTracker.truthyZ tokens, CostTracker.truthyQ price with
  | Some t, Some p => CostTracker.perMillion t p
  | _, _ => 0%Q
  end.

(** ** Environments *)

Definition providerReturns (w : Env) : Prop :=
  forall n req, exists resp, provider_sendMessage w n req = Returned resp.

(** A provider that answers every request with some text and the usage
    [{inputTokens: 100, outputTokens: 50}]. *)
Definition stubProvider (w : Env) : Prop :=
  forall n req, exists text stop m,
    provider_sendMessage w n req =
    Returned (mkMessageResponse text (mkTokenUsage 100 50 None None) stop m).

Definition registryFinds (w : Env) : Prop :=
  forall n a, exists c, registry_loadAccountConfig w n a = Returned (Some c).

Definition keyConfigured (w : Env) : Prop :=
  valid (registry_validateApiKeyConfigured w) = true.

Definition packagingReturns (w : Env) : Prop :=
  forall n gp v, exists f,
    packaging_createInjectionFromPrompt w n gp v = Returned f.

(** ** What a run added to the call logs *)

Definition newLlmCalls (st st' : St) : list LlmCall :=
  skipn (length (llmCalls st)) (llmCalls st').

Definition newDbCalls (st st' : St) : list DbCall :=
  skipn (length (dbCalls st)) (dbCalls st').

Definition newSheetCalls (st st' : St) : list SheetCall :=
  skipn (length (sheetCalls st)) (sheetCalls st').

(** ** The shape of the array of steps *)

Definition isRunning (s : Status) : bool :=
  match s with running => true | _ => false end.

Definition isTerminal (s : Status) : bool :=
  match s with completed | failed => true | _ => false end.

(** [stepLog order l]: [l] goes through the names of [order] from left
    to right, skipping some; each name it reaches contributes a running
    entry followed by a completed or failed entry of the same name, the
    latter being absent only when the running entry is the last of [l]. *)
Fixpoint stepLog (order : list string) (l : list PipelineStep) : bool :=
  match l, order with
  | [], _ => true
  | _ :: _, [] => false
  | s1 :: rest, n :: order' =>
      if String.eqb (ps_name s1) n then
        isRunning (ps_status s1) &&
        match rest with
        | [] => true
        | s2 :: rest' =>
            String.eqb (ps_name s2) n && isTerminal (ps_status s2)
            && stepLog order' rest'
        end
      else stepLog order' l
  end.

(** [enteredBefore seen l]: every completed or failed entry of [l] has a
    running entry of its name before it, in [l] or among [seen]. *)
Fixpoint enteredBefore (seen : list string) (l : list PipelineStep) : bool :=
  match l with
  | [] => true
  | s :: rest =>
      match ps_status s with
      | running => enteredBefore (ps_name s :: seen) rest
      | completed | failed =>
          existsb (String.eqb (ps_name s)) seen && enteredBefore seen rest
      | pending => false
      end
  end.

(** ** The journal of a run *)

Definition newJournal (st st' : St) : list Event :=
  skipn (length (journal st)) (journal st').

(** The pushes onto the array of steps among the entries of a journal. *)
Fixpoint stepsOf (l : list Event) : list PipelineStep :=
  match l with
  | [] => []
  | EvStep s :: rest => s :: stepsOf rest
  | _ :: rest => stepsOf rest
  end.

(** The step a request is the work of.  What the run keeps in the store
    about itself (its account, assistant, run and step rows and its cost
    entries) is the work of no step. *)
Definition ownerOf (e : Event) : option string :=
  match e with
  | EvStep _ => None
  | EvRegistry _ => Some LoadAccountConfig
  | EvCompletion _ => Some GeneratePrompt
  | EvPackaging _ => Some CreateInjectionFile
  | EvStore c =>
      match db_op c with
      | OpRpcNextVersionNumber _ => Some DetermineVersion
      | OpLatestPromptVersion _ => Some DetermineVersion
      | OpCreatePromptVersion _ => Some SavePromptVersion
      | _ => None
      end
  | EvSheets _ => Some LogCosts
  end.

(** The requests to each collaborator among the entries of a journal. *)
Fixpoint lookupsOf (l : list Event) : list string :=
  match l with
  | [] => []
  | EvRegistry a :: rest => a :: lookupsOf rest
  | _ :: rest => lookupsOf rest
  end.

Fixpoint completionsOf (l : list Event) : list LlmCall :=
  match l with
  | [] => []
  | EvCompletion c :: rest => c :: completionsOf rest
  | _ :: rest => completionsOf rest
  end.

Fixpoint packagingsOf (l : list Event) : list InjectionCall :=
  match l with
  | [] => []
  | EvPackaging c :: rest => c :: packagingsOf rest
  | _ :: rest => packagingsOf rest
  end.

Fixpoint storeCallsOf (l : list Event) : list DbCall :=
  match l with
  | [] => []
  | EvStore c :: rest => c :: storeCallsOf rest
  | _ :: rest => storeCallsOf rest
  end.

Fixpoint sheetCallsOf (l : list Event) : list SheetCall :=
  match l with
  | [] => []
  | EvSheets c :: rest => c :: sheetCallsOf rest
  | _ :: rest => sheetCallsOf rest
  end.

(** [grown st st' l]: from [st] to [st'] the journal gained [l] and each
    call log the requests of [l] to its collaborator. *)
Definition grown (st st' : St) (l : list Event) : Prop :=
  journal st' = (journal st ++ l)%list /\
  registryCalls st' = (registryCalls st ++ lookupsOf l)%list /\
  llmCalls st' = (llmCalls st ++ completionsOf l)%list /\
  injectionCalls st' = (injectionCalls st ++ packagingsOf l)%list /\
  dbCalls st' = (dbCalls st ++ storeCallsOf l)%list /\
  sheetCalls st' = (sheetCalls st ++ sheetCallsOf l)%list.

(** [synced m]: [m] enters in the journal the requests it enters in the
    call logs, and no other. *)
Definition synced {A} (m : M A) : Prop :=
  forall st, exists l, grown st (snd (m st)) l.

(** What the journal and the call logs hold. *)
Definition requests (st : St) :=
  (journal st, registryCalls st, llmCalls st, injectionCalls st,
   dbCalls st, sheetCalls st).

(** The rows of pipeline_steps a request creates are those of the six
    names, numbered 1 to 6 in their order and pending. *)
Definition stepRows (e : Event) : Prop :=
  match e with
  | EvStore c =>
      match db_op c with
      | OpCreatePipelineSteps rows =>
          map psi_step_name rows = stepOrder /\
          map psi_step_order rows = [1; 2; 3; 4; 5; 6] /\
          Forall (fun row => psi_status row = pending) rows
      | _ => True
      end
  | _ => True
  end.

(** Where a run is: the names it can still enter, and the step that is
    running, if any. *)
Record Phase := mkPhase {
  ahead : list string;
  current : option string
}.

(** The names that come after [name] in [names]. *)
Fixpoint after (name : string) (names : list string)
  : option (list string) :=
  match names with
  | [] => None
  | n :: rest => if String.eqb n name then Some rest else after name rest
  end.

(** One entry of the journal.  A step is entered only when no step is
    running and its name is still ahead, and the names up to it are
    then behind; it is completed or failed only while it is running; a
    request that is the work of a step is made only while that step is
    running. *)
Definition advance (ph : Phase) (e : Event) : option Phase :=
  match e with
  | EvStep s =>
      match ps_status s, current ph with
      | running, None =>
          option_map (fun rest => mkPhase rest (Some (ps_name s)))
                     (after (ps_name s) (ahead ph))
      | completed, Some n | failed, Some n =>
          if String.eqb (ps_name s) n then Some (mkPhase (ahead ph) None)
          else None
      | _, _ => None
      end
  | _ =>
      match ownerOf e, current ph with
      | None, _ => Some ph
      | Some n, Some m => if String.eqb n m then Some ph else None
      | Some _, None => None
      end
  end.

Fixpoint follow (ph : Phase) (l : list Event) : option Phase :=
  match l with
  | [] => Some ph
  | e :: rest =>
      match advance ph e with
      | Some ph' => follow ph' rest
      | None => None
      end
  end.

(** [inOrder l]: the entries of [l] can be followed from the start of a
    run, with the six names ahead and no step running. *)
Definition inOrder (l : list Event) : bool :=
  match follow (mkPhase stepOrder None) l with
  | Some _ => true
  | None => false
  end.

(** An entry that is neither a push nor the work of a step. *)
Definition unowned (e : Event) : Prop :=
  stepsOf [e] = [] /\ ownerOf e = None.

(** An entry that is the work of the step [name], or of none. *)
Definition within (name : string) (e : Event) : Prop :=
  stepsOf [e] = [] /\ (ownerOf e = None \/ ownerOf e = Some name).

(** [phased ph m Q]: what [m] enters in the journal can be followed from
    [ph], its pushes are what it adds to the array of steps, and the
    outcome and the phase it ends in satisfy [Q]. *)
Definition phased {A} (ph : Phase) (m : M A)
    (Q : Outcome A -> Phase -> Prop) : Prop :=
  forall st, exists l ph',
    journal (snd (m st)) = (journal st ++ l)%list /\
    steps (snd (m st)) = (steps st ++ stepsOf l)%list /\
    follow ph l = Some ph' /\
    Q (fst (m st)) ph'.

(** The arrays of steps of the runs that fail: the run is cut off in
    Load Account Config, with or without its failed entry, in Generate
    Prompt or in Create Injection File. *)
Definition cutOff (s : list PipelineStep) : Prop :=
  s = [entered LoadAccountConfig] \/
  (exists err, s = [entered LoadAccountConfig;
                    stepFailed LoadAccountConfig err]) \/
  s = [entered LoadAccountConfig; finished LoadAccountConfig;
       entered GeneratePrompt] \/
  s = [entered LoadAccountConfig; finished LoadAccountConfig;
       entered GeneratePrompt; finished GeneratePrompt;
       entered DetermineVersion; finished DetermineVersion;
       entered CreateInjectionFile].

(** The arrays of steps of the runs that complete: the first four steps
    completed, then Save Prompt Version and Log Costs, each of them
    absent, completed or failed. *)
Definition wentThrough (s : list PipelineStep) : Prop :=
  exists s5 s6,
    s = (firstSteps ++ s5 ++ s6)%list /\ saveShape s5 /\ logShape s6.

(** ** The opening statements of runPipeline *)

Definition prologue (w : Env) (payload : PipelineBriefingInput)
  : M (string * string) :=
  modify (setSteps []) ;;;
  Usage.resetSession ;;;
  pipelineId <- Validation.generateId w "pipeline" ;;
  briefingId <- briefingIdOf w payload ;;
  ret (pipelineId, briefingId).

Definition withSupabase (enabled : bool) (c : PartialPipelineConfig)
  : PartialPipelineConfig :=
  {| opt_maxIterations := opt_maxIterations c;
     opt_enableCostTracking := opt_enableCostTracking c;
     opt_enableSupabase := Some enabled;
     opt_googleSpreadsheetName := opt_googleSpreadsheetName c;
     opt_googleFolderName := opt_googleFolderName c |}.

Definition initWarning : LogLine :=
  mkLogLine LvlWarn
    "Failed to initialize Supabase context, continuing without persistence".

Definition versionWarning : LogLine :=
  mkLogLine LvlWarn "Failed to get next version from Supabase, using v1".

End Claims.

(* ================================================================== *)
(** * Properties of computations *)

(** [keeps f m]: running [m] leaves the component [f] of the state as it
    was, whether [m] returns or throws. *)
Definition keeps {A B} (f : St -> A) (m : M B) : Prop :=
  forall st, f (snd (m st)) = f st.

(** [total m]: [m] returns from every state. *)
Definition total {B} (m : M B) : Prop :=
  forall st, exists b, fst (m st) = Returned b.

(** [extends f P m]: running [m] appends to the list [f] of the state,
    and what it appends satisfies [P]. *)
Definition extends {A B} (f : St -> list A) (P : A -> Prop) (m : M B) : Prop :=
  forall st, exists l, f (snd (m st)) = (f st ++ l)%list /\ Forall P l.

(** [faithful f P m]: what [m] appends to [f] satisfies [P] whenever [m]
    returns. *)
Definition faithful {A B} (f : St -> list A) (P : A -> Prop) (m : M B) : Prop :=
  forall st, exists l,
    f (snd (m st)) = (f st ++ l)%list /\
    (isReturned (fst (m st)) = true -> Forall P l).

(** [blames f P m]: whenever [m] throws, something it appended to [f]
    fails [P]. *)
Definition blames {A B} (f : St -> list A) (P : A -> Prop) (m : M B) : Prop :=
  forall st, exists l,
    f (snd (m st)) = (f st ++ l)%list /\
    (isReturned (fst (m st)) = false -> Exists (fun x => ~ P x) l).

(* ================================================================== *)
(** * Runs that differ in what the store did *)

(** What a run reads of the state once it goes on without a persistence
    context: every component but the log lines and the call log of the
    store. *)
Definition offStore (st : St) :=
  (sessionUsage st, sessionCosts st, steps st, idCount st, registryCalls st,
   llmCalls st, injectionCalls st, sheetCalls st, promptVersions st).

(** [blind m]: from two states that differ in the log lines and in the
    call log of the store only, [m] has the same outcome and ends in two
    states that again differ in those only. *)
Definition blind {A} (m : M A) : Prop :=
  forall s1 s2, offStore s1 = offStore s2 ->
    fst (m s1) = fst (m s2) /\ offStore (snd (m s1)) = offStore (snd (m s2)).

(** The attempt of runPipeline to establish the persistence context: its
    opening statements, then initializeSupabaseContext. *)
Definition contextAttempt (w : Env) (payload : PipelineBriefingInput)
  : M Pipeline.SupabaseContext :=
  ids <- Claims.prologue w payload ;;
  Pipeline.initializeSupabaseContext w payload (fst ids) (snd ids).

(** What runPipeline does once its [supabaseContext] is null: steps 1 to 6
    and the outer handler. *)
Definition contextless (w : Env) (payload : PipelineBriefingInput)
    (pid bid : string) (cfg : Pipeline.PipelineConfig)
  : M PipelineResult :=
  tryCatch
    (Pipeline.steps1to6 w cfg payload pid bid None)
    (fun errorMessage =>
       loggerError "Pipeline failed" ;;;
       Pipeline.createFailedResult w payload pid (Some errorMessage) None).

(* ================================================================== *)
(** * Vocabulary of the version assigner *)

(** [`v${versionNumber}`] *)
Definition versionName (versionNumber : Z) : string :=
  "v" ++ Js.showZ versionNumber.

(** The highest of the numbers [ks], 0 if there is none or none above. *)
Definition highest (ks : list Z) : Z := fold_right Z.max 0 ks.

(** The whole numbers from 0 and below 2^53: each of them, and its
    successor, is a double. *)
Definition safeNumber (k : Z) : Prop := 0 <= k < 2 ^ 53.

(** The successor of the highest version number among [rows], 1 if there
    is no row. *)
Definition nextNumber (rows : list PromptVersionInsert) : Z :=
  match Repositories.sqlMax rows with
  | Some m => m + 1
  | None => 1
  end.

(** Both reads getNextVersionNumber can make from [st] fail: the remote
    procedure call and the query it falls back to. *)
Definition readsFail (w : Env) (st : St) (assistantId : string) : bool :=
  match db_fault w (length (dbCalls st)) (OpRpcNextVersionNumber assistantId),
        db_fault w (S (length (dbCalls st))) (OpLatestPromptVersion assistantId)
  with
  | Some _, Some _ => true
  | _, _ => false
  end.

Definition isWarning (l : LogLine) : bool :=
  match level l with LvlWarn => true | LvlError => false end.

(** [priorMax m rows]: [m] is the highest version number among [rows]. *)
Definition priorMax (m : Z) (rows : list PromptVersionInsert) : Prop :=
  (exists r, In r rows /\ pv_version_number r = m) /\
  Forall (fun r => pv_version_number r <= m) rows.

(* ================================================================== *)
(** * lib/utils/cost-tracker.ts: the estimate *)

Module CostEstimate.

Definition estimateCost (estimatedInputTokens estimatedOutputTokens : Z)
    (model : string) : M CostCalculation :=
  CostTracker.calculateCost
    {| inputTokens := estimatedInputTokens;
       outputTokens := estimatedOutputTokens;
       cacheReadTokens := None;
       cacheWriteTokens := None |}
    model.

End CostEstimate.

(* ================================================================== *)
(** * Sessions of the usage ledger *)

(** The argument object of one logCost call. *)
Record LogCostParams := mkLogCostParams {
  lc_accountId : string;
  lc_assistantId : string;
  lc_operation : CostOperation;
  lc_usage : TokenUsage;
  lc_model : option string;
  lc_version : option string;
  lc_metadata : option CostMetadata
}.

Definition logCostOf (w : Env) (p : LogCostParams) : M CostEntry :=
  Usage.logCost w (lc_accountId p) (lc_assistantId p) (lc_operation p)
    (lc_usage p) (lc_model p) (lc_version p) (lc_metadata p).

(** One logCost call after the other. *)
Definition logEach (w : Env) (ps : list LogCostParams) : M unit :=
  forEach ps (fun p => logCostOf w p ;;; ret tt).

(** The breakdown calculateCost returns for a model and a usage. *)
Definition breakdownFor (model : string) (usage : TokenUsage)
  : CostCalculation :=
  match CostTracker.lookupPricing model with
  | CostTracker.OwnEntry pricing =>
      CostTracker.calculateCostWithPricing usage pricing
  | CostTracker.Inherited => CostTracker.calculateCostWithoutPrices usage
  | CostTracker.Undefined =>
      CostTracker.calculateCostWithPricing usage Spec.opusPricing
  end.

(** [c] charges [i] input and [o] output tokens at the prices [p], and
    nothing for the cache. *)
Definition chargedAt (p : ModelPricing) (i o : Z) (c : CostCalculation)
  : Prop :=
  exists input output total : Q,
    inputCost c = Usd input /\ outputCost c = Usd output /\
    totalCostUsd c = Usd total /\
    (total == input + output)%Q /\
    (input == inject_Z i * (inputPer1M p / 1000000))%Q /\
    (output == inject_Z o * (outputPer1M p / 1000000))%Q.

(** The warning of calculateCost for a model the table does not know. *)
Definition unknownModelWarning (model : string) : LogLine :=
  mkLogLine LvlWarn
    ("Unknown model pricing: " ++ model ++ ", using opus pricing").

(** The model logCost charges a call at. *)
Definition modelOf (p : LogCostParams) : string :=
  Js.optStrOr (lc_model p) Usage.DEFAULT_MODEL.

(** The entry logCost makes for a call, its id apart. *)
Definition entryOf (e : CostEntry) (p : LogCostParams) : Prop :=
  ce_accountId e = lc_accountId p /\
  ce_assistantId e = lc_assistantId p /\
  ce_operation e = lc_operation p /\
  ce_model e = modelOf p /\
  ce_inputTokens e = inputTokens (lc_usage p) /\
  ce_outputTokens e = outputTokens (lc_usage p) /\
  ce_costUsd e = totalCostUsd (breakdownFor (modelOf p) (lc_usage p)) /\
  ce_version e = lc_version p /\
  ce_metadata e = lc_metadata p.

(** The token totals of the tracker are the sums over the ledger. *)
Definition ledgerAgrees (st : St) : Prop :=
  inputTokens (sessionUsage st) = Spec.sumInput (sessionCosts st) /\
  outputTokens (sessionUsage st) = Spec.sumOutput (sessionCosts st).

(** [u1] counts no more tokens than [u2], in every field. *)
Definition usageLe (u1 u2 : TokenUsage) : Prop :=
  inputTokens u1 <= inputTokens u2 /\
  outputTokens u1 <= outputTokens u2 /\
  Claims.tokensOr0 (cacheReadTokens u1) <= Claims.tokensOr0 (cacheReadTokens u2) /\
  Claims.tokensOr0 (cacheWriteTokens u1) <= Claims.tokensOr0 (cacheWriteTokens u2).

(** The sum getSessionTotalCost computes over a ledger. *)
Definition costSum (entries : list CostEntry) : Dollars :=
  fold_left (fun total entry => plusD total (ce_costUsd entry)) entries (Usd 0).

(* ================================================================== *)
(** * Vocabulary of the version names *)

(** Every number parseInt reads from the names is a whole number below
    2^53, so that its successor is a double. *)
Definition belowLimit (existingVersions : list string) : Prop :=
  forall v d, In v existingVersions ->
    VersionTracker.parseInt10 (VersionTracker.replaceFirstV v) = Some d ->
    exists k, d = Js.Fin k /\ k < 2 ^ 53.

(* ================================================================== *)
(** * Vocabulary of the content hash *)

(** The characters [toString(16)] writes. *)
Definition isLowerHex (c : ascii) : bool :=
  let n := nat_of_ascii c in
  ((48 <=? n)%nat && (n <=? 57)%nat) || ((97 <=? n)%nat && (n <=? 102)%nat).

(** The step of the loop of hashContent. *)
Definition hashStep (hash : Z) (ch : ascii) : Z :=
  Validation.toInt32 (Validation.toInt32 (hash * 32) - hash + Z.of_N (N_of_ascii ch)).

Definition allHex (s : string) : Prop :=
  forallb isLowerHex (list_ascii_of_string s) = true.

(* ================================================================== *)
(** * lib/services/webhook/validation.ts *)

Module Webhook.

(** WebhookValidationResult of api.types.ts *)
Record WebhookValidationResult := mkWebhookValidationResult {
  wv_valid : bool;
  wv_error : option string
}.

(** [createHmac("sha256", secret).update(payload).digest("hex")], a
    function of node's crypto module, is a parameter: given the secret
    and the payload it answers with the digest, or throws. *)
Definition Hmac : Type := string -> string -> Outcome string.

(** [signature.startsWith("sha256=") ? signature : `sha256=${signature}`] *)
Definition normalize (signature : string) : string :=
  if String.prefix "sha256=" signature then signature
  else "sha256=" ++ signature.

(** Buffers of the UTF-8 bytes of two strings are compared: their
    lengths first, then, by timingSafeEqual, their bytes. *)
Definition validateWebhookSignature (hmac : Hmac)
    (payload signature secret : string) : M WebhookValidationResult :=
  match signature with
  | EmptyString =>
      ret {| wv_valid := false; wv_error := Some "Missing signature header" |}
  | _ =>
      match secret with
      | EmptyString =>
          loggerError "Webhook secret not configured" ;;;
          ret {| wv_valid := false;
                 wv_error := Some "Webhook secret not configured" |}
      | _ =>
          tryCatch
            (expectedSignature <- settle (hmac secret payload) ;;
             let expected := "sha256=" ++ expectedSignature in
             let normalizedSignature := normalize signature in
             if negb (String.length normalizedSignature
                      =? String.length expected)%nat
             then ret {| wv_valid := false;
                         wv_error := Some "Invalid signature length" |}
             else
               let valid := String.eqb normalizedSignature expected in
               if negb valid then
                 loggerWarn "Webhook signature mismatch" ;;;
                 ret {| wv_valid := false;
                        wv_error := Some "Invalid signature" |}
               else ret {| wv_valid := true; wv_error := None |})
            (fun error =>
               loggerError "Webhook validation error" ;;;
               ret {| wv_valid := false;
                      wv_error := Some "Validation failed" |})
      end
  end.

Definition createWebhookSignature (hmac : Hmac) (payload secret : string)
  : Outcome string :=
  match hmac secret payload with
  | Returned signature => Returned ("sha256=" ++ signature)
  | Threw e => Threw e
  end.

End Webhook.

(* ================================================================== *)
(** * Vocabulary of the runs, continued *)

(** What stops runPipeline in its first step, before any completion call:
    the error of the failed result, if the registry throws or finds no
    account, or if the key is not configured. *)
Definition refusal (w : Env) (payload : PipelineBriefingInput) (st : St)
  : option (option string) :=
  match registry_loadAccountConfig w (length (registryCalls st))
          (p_accountId payload) with
  | Threw e => Some (Some e)
  | Returned None => Some (Some "Account not found")
  | Returned (Some _) =>
      if valid (registry_validateApiKeyConfigured w) then None
      else Some (kv_error (registry_validateApiKeyConfigured w))
  end.

(** What the bookkeeping of a run leaves alone, the registry's call log
    included. *)
Definition quietPart (st : St) := (Spec.held st, registryCalls st).

(** The guarded part of runPipeline: steps 1 to 6 under the outer
    handler. *)
Definition guarded (w : Env) (payload : PipelineBriefingInput)
    (pid bid : string) (cfg : Pipeline.PipelineConfig)
    (ctx : option Pipeline.SupabaseContext) : M PipelineResult :=
  tryCatch
    (Pipeline.steps1to6 w cfg payload pid bid ctx)
    (fun errorMessage =>
       loggerError "Pipeline failed" ;;;
       Pipeline.createFailedResult w payload pid (Some errorMessage) ctx).

(** The row saveCostsToSupabase sends for one entry of the ledger. *)
Definition costRow (context : Pipeline.SupabaseContext) (operation : string)
    (cost : CostEntry) : CostEntryInsert :=
  {| cei_pipeline_run_id := run_id (Pipeline.pipelineRun context);
     cei_pipeline_step_id :=
       Pipeline.orNull
         (option_map step_id
            (Pipeline.stepRecords context !! Pipeline.GeneratePrompt));
     cei_account_id := account_id (Pipeline.account context);
     cei_assistant_id := assistant_id (Pipeline.assistant context);
     cei_operation := operation;
     cei_model := ce_model cost;
     cei_input_tokens := ce_inputTokens cost;
     cei_output_tokens := ce_outputTokens cost;
     cei_cache_read_tokens := 0;
     cei_cache_write_tokens := 0;
     cei_cost_usd := ce_costUsd cost |}.

Definition saveWarning : LogLine :=
  mkLogLine LvlWarn "Failed to save cost entry to Supabase".

(** The requests of logCostsToSheets that follow the search for the
    spreadsheet, when they all go through. *)
Definition sheetWrites (w : Env) (accountId assistantId version : string)
    (briefing : Briefing) (promptContent spreadsheetId : string)
    (costs : list CostEntry) : list SheetOp :=
  match costs with
  | [] => []
  | _ => [OpAppendCostEntries spreadsheetId costs]
  end ++
  [ OpAppendVersionEntries spreadsheetId
      [ VersionTracker.createVersionEntry accountId assistantId version
          (jsonStringify w briefing) promptContent
          ("lib/accounts/" ++ accountId ++ "/assistants/" ++ assistantId
           ++ "/" ++ version ++ "/injection.ts")
          "final" ];
    OpUpdateSummary spreadsheetId
      {| ss_totalCost := costSum costs;
         ss_totalInputTokens := Spec.sumInput costs;
         ss_totalOutputTokens := Spec.sumOutput costs;
         ss_totalOperations := Z.of_nat (length costs) |} ].

(** The row Step 5 of runPipeline inserts into prompt_versions. *)
Definition promptVersionRow (w : Env) (c : Pipeline.SupabaseContext)
    (payload : PipelineBriefingInput) (generatedPrompt : GeneratedPrompt)
    (injectionFile : InjectionFile) (version : string) (versionNumber : Z)
  : PromptVersionInsert :=
  {| pv_pipeline_run_id := run_id (Pipeline.pipelineRun c);
     pv_account_id := account_id (Pipeline.account c);
     pv_assistant_id := assistant_id (Pipeline.assistant c);
     pv_version := version;
     pv_version_number := versionNumber;
     pv_prompt_content := gp_content generatedPrompt;
     pv_prompt_hash := Validation.hashContent (gp_content generatedPrompt);
     pv_injection_content :=
       Js.optStrOr (if_promptContent injectionFile) (gp_content generatedPrompt);
     pv_injection_file_path := Pipeline.orNull (if_filePath injectionFile);
     pv_briefing_hash :=
       Validation.hashContent (jsonStringify w (p_briefing payload));
     pv_total_iterations :=
       Js.optNumOr
         (option_map (fun l : list PromptIteration => Z.of_nat (length l))
                     (gp_iterations generatedPrompt)) 1;
     pv_final_score :=
       match gp_finalAnalysis generatedPrompt with
       | Some a => if qualityScore a =? 0 then None else Some (qualityScore a)
       | None => None
       end;
     pv_status := "final" |}.

(** Further sample inputs. *)
Module Samples.

(** [stubEnv] whose registry knows no account. *)
Definition unknownAccount : Env :=
  mkEnv (formatBriefingAsMarkdown Examples.stubEnv)
    (jsonStringify Examples.stubEnv)
    (prismaSystemPrompt Examples.stubEnv)
    (idSuffix Examples.stubEnv)
    (fun _ _ => Returned None)
    (registry_validateApiKeyConfigured Examples.stubEnv)
    (fun _ _ => Threw "unreachable")
    (packaging_createInjectionFromPrompt Examples.stubEnv)
    (db_getOrCreateAccount Examples.stubEnv)
    (db_getOrCreateAssistant Examples.stubEnv)
    (db_createPipelineRun Examples.stubEnv)
    (db_createPipelineSteps Examples.stubEnv)
    (db_fault Examples.stubEnv)
    (sheets_findOrCreateFolder Examples.stubEnv)
    (sheets_findCostSpreadsheet Examples.stubEnv)
    (sheets_createCostSpreadsheet Examples.stubEnv)
    (sheets_fault Examples.stubEnv).

Definition generated : GeneratedPrompt :=
  {| gp_id := "prompt-0";
     gp_accountId := "acc";
     gp_assistantId := "asst";
     gp_content := "prompt";
     gp_version := "v1";
     gp_metadata := mkPromptMetadata "b1" 1 "stub";
     gp_iterations := None;
     gp_simpleIterations := [];
     gp_finalAnalysis := None |}.

Definition injection : InjectionFile :=
  mkInjectionFile "acc" "asst" "v3" None (Some "prompt").

End Samples.

(** What a prompt version saved by a run says of itself. *)
Definition flatRow (row : PromptVersionInsert) : Prop :=
  pv_total_iterations row = 1 /\ pv_final_score row = None /\
  pv_status row = "final" /\
  pv_prompt_hash row = Validation.hashContent (pv_prompt_content row).

(** What a request of a run to the store says when it saves a cost. *)
Definition costLabelled (c : DbCall) : Prop :=
  match db_op c with
  | OpCreateCostEntry row =>
      cei_operation row = "prompt_generation" /\
      cei_cache_read_tokens row = 0 /\ cei_cache_write_tokens row = 0
  | _ => True
  end.


(* ================================================================== *)
(** * lib/utils/validation.ts: the schemas;
      lib/services/webhook/parser.ts *)

Module Parser.

(** A number as JSON.parse produces it. *)
Inductive Double := Finite (q : Q) | Infinite.

(** The values JSON.parse returns.  An object is the list of its
    properties, one pair for each key. *)
Unset Elimination Schemes.
Inductive Json :=
| JNull
| JBool (b : bool)
| JNum (d : Double)
| JStr (s : string)
| JArr (items : list Json)
| JObj (properties : list (string * Json)).
Set Elimination Schemes.

Fixpoint lookupKey (key : string) (properties : list (string * Json))
  : option Json :=
  match properties with
  | [] => None
  | (k, v) :: rest => if String.eqb k key then Some v else lookupKey key rest
  end.

(** [value.key] for a value that is not null, and for the keys read
    here: undefined unless the value is an object with the property. *)
Definition prop (key : string) (value : Json) : option Json :=
  match value with
  | JObj properties => lookupKey key properties
  | _ => None
  end.

(** Truthiness of a value that may be undefined. *)
Definition truthy (value : option Json) : bool :=
  match value with
  | None => false
  | Some JNull => false
  | Some (JBool b) => b
  | Some (JNum (Finite q)) => negb (Qeq_bool q 0)
  | Some (JNum Infinite) => true
  | Some (JStr s) => negb (String.eqb s "")
  | Some (JArr _) => true
  | Some (JObj _) => true
  end.

(** The schemas of zod, as parsers of a value that may be undefined. *)

(** [z.string()] *)
Definition zString (value : option Json) : option string :=
  match value with
  | Some (JStr s) => Some s
  | _ => None
  end.

(** [z.string().min(1)] *)
Definition zStringMin1 (value : option Json) : option string :=
  match zString value with
  | Some (String c s) => Some (String c s)
  | _ => None
  end.

(** [z.string().default("")] *)
Definition zStringDefault (value : option Json) : option string :=
  match value with
  | None => Some ""
  | _ => zString value
  end.

Fixpoint zStrings (items : list Json) : option (list string) :=
  match items with
  | [] => Some []
  | JStr s :: rest =>
      match zStrings rest with
      | Some l => Some (s :: l)
      | None => None
      end
  | _ :: _ => None
  end.

(** [z.array(z.string())] *)
Definition zStringArray (value : option Json) : option (list string) :=
  match value with
  | Some (JArr items) => zStrings items
  | _ => None
  end.

(** [z.array(z.string()).min(1)] *)
Definition zStringArrayMin1 (value : option Json) : option (list string) :=
  match zStringArray value with
  | Some (s :: l) => Some (s :: l)
  | _ => None
  end.

(** [z.array(z.string()).default([])] *)
Definition zStringArrayDefault (value : option Json)
  : option (list string) :=
  match value with
  | None => Some []
  | _ => zStringArray value
  end.

(** [z.enum(["briefing.created", "briefing.updated"])] *)
Definition zEvent (value : option Json) : option string :=
  match zString value with
  | Some s =>
      if String.eqb s "briefing.created" || String.eqb s "briefing.updated"
      then Some s else None
  | None => None
  end.

(** [z.record(z.string(), z.unknown()).optional()]: the model's Briefing
    does not carry the metadata, so only the verdict is kept. *)
Definition zRecordOptional (value : option Json) : bool :=
  match value with
  | None => true
  | Some (JObj _) => true
  | _ => false
  end.

Definition BriefingFormDataSchema (value : option Json)
  : option BriefingFormData :=
  match value with
  | Some (JObj properties) =>
      let field key := lookupKey key properties in
      businessName ← zStringMin1 (field "businessName");
      productService ← zStringMin1 (field "productService");
      differentials ← zStringDefault (field "differentials");
      salesProcess ← zStringDefault (field "salesProcess");
      tools ← zStringDefault (field "tools");
      idealClient ← zStringArrayMin1 (field "idealClient");
      mainDesires ← zStringArrayMin1 (field "mainDesires");
      fears ← zStringArrayDefault (field "fears");
      objections ← zStringArrayDefault (field "objections");
      journeyMoment ← zStringArrayDefault (field "journeyMoment");
      brandPerception ← zStringMin1 (field "brandPerception");
      toneOfVoice ← zStringMin1 (field "toneOfVoice");
      mustSayMessages ← zStringDefault (field "mustSayMessages");
      internalActions ← zStringDefault (field "internalActions");
      neverUse ← zStringDefault (field "neverUse");
      scheduleAdaptation ← zStringMin1 (field "scheduleAdaptation");
      specialConditions ← zStringDefault (field "specialConditions");
      mandatorySteps ← zStringMin1 (field "mandatorySteps");
      qualificationCriteria ← zStringDefault (field "qualificationCriteria");
      documentsFlow ← zStringDefault (field "documentsFlow");
      mainObjective ← zStringMin1 (field "mainObjective");
      minimumResult ← zStringDefault (field "minimumResult");
      Some (mkBriefingFormData businessName productService differentials
              salesProcess tools idealClient mainDesires fears objections
              journeyMoment brandPerception toneOfVoice mustSayMessages
              internalActions neverUse scheduleAdaptation specialConditions
              mandatorySteps qualificationCriteria documentsFlow
              mainObjective minimumResult)
  | _ => None
  end.

(** The creation date and the metadata are checked and, like every
    wall-clock value, not kept. *)
Definition BriefingSchema (value : option Json) : option Briefing :=
  match value with
  | Some (JObj properties) =>
      let field key := lookupKey key properties in
      id ← zStringMin1 (field "id");
      accountId ← zStringMin1 (field "accountId");
      assistantId ← zStringMin1 (field "assistantId");
      formData ← BriefingFormDataSchema (field "formData");
      createdAt ← zString (field "createdAt");
      if zRecordOptional (field "metadata")
      then Some (mkBriefing id accountId assistantId formData)
      else None
  | _ => None
  end.

(** WebhookPayload of api.types.ts; its timestamp is checked by the
    schema and not kept. *)
Record WebhookPayload := mkWebhookPayload {
  wp_event : string;
  wp_data : Briefing
}.

Definition WebhookPayloadSchema (value : option Json)
  : option WebhookPayload :=
  match value with
  | Some (JObj properties) =>
      let field key := lookupKey key properties in
      event ← zEvent (field "event");
      data ← BriefingSchema (field "data");
      timestamp ← zString (field "timestamp");
      Some (mkWebhookPayload event data)
  | _ => None
  end.

Inductive ParseResult :=
| ParseOk (payload : WebhookPayload)
| ParseError (error : string).

(** The text zod writes for the issues of a rejected value is a
    parameter. *)
Definition parseWebhookPayload (issues : Json -> string) (body : Json)
  : M ParseResult :=
  match WebhookPayloadSchema (Some body) with
  | None =>
      loggerError "Webhook payload validation failed" ;;;
      ret (ParseError ("Invalid payload: " ++ issues body))
  | Some data => ret (ParseOk data)
  end.

Definition extractBriefing (payload : WebhookPayload)
  : PipelineBriefingInput :=
  {| p_briefing := wp_data payload;
     p_accountId := b_accountId (wp_data payload);
     p_assistantId := b_assistantId (wp_data payload) |}.

End Parser.

(* ================================================================== *)
(** * app/api/webhook/briefing/route.ts *)

Module Route.

Import Parser.
Import Pipeline.

(** What the handler reads of a request: its text and two headers. *)
Record Request := mkRequest {
  rq_body : string;
  rq_signature : option string;
  rq_testMode : option string
}.

(** What the handler takes from its surroundings, besides the
    collaborators of the pipeline: the WEBHOOK_SECRET of the process
    environment, the HMAC of node's crypto module, JSON.parse, the text
    of zod's issues and the clock. *)
Record Services := mkServices {
  webhookSecret : option string;
  hmac : Webhook.Hmac;
  jsonParse : string -> Outcome Json;
  issues : Json -> string;
  now : nat -> string
}.

Record PromptView := mkPromptView {
  view_content : string;
  view_version : string;
  view_accountId : string;
  view_assistantId : string;
  view_iterations : Z
}.

(** The bodies of the responses: an error, a failed pipeline, a
    completed one.  The flag [success], the duration and the creation
    date of the prompt are not represented. *)
Inductive Body :=
| ErrorBody (error : string) (message : option string)
| FailureBody (message : option string) (pipelineId : string)
    (steps : list PipelineStep)
| SuccessBody (pipelineId : string) (status : Status)
    (injectionFile version : option string) (steps : list PipelineStep)
    (prompt : option PromptView) (operations : Z) (totalCost : Dollars).

Record Response := mkResponse {
  rs_status : Z;
  rs_body : Body
}.

(** runPipeline is called with one argument. *)
Definition noOverrides : PartialPipelineConfig :=
  mkPartialPipelineConfig None None None None None.

(** A property whose value is undefined reads as a missing one. *)
Definition property (key : string) (value : option Json)
  : list (string * Json) :=
  match value with
  | Some v => [(key, v)]
  | None => []
  end.

(** The payload of test mode, wrapped as a briefing. *)
Definition wrapped (s : Services) (id : string) (payload : Json) : Json :=
  JObj [ ("event", JStr "briefing.created");
         ("timestamp", JStr (now s 0));
         ("data",
          JObj ([("id", JStr id)]
                ++ property "accountId" (prop "accountId" payload)
                ++ property "assistantId" (prop "assistantId" payload)
                ++ property "formData" (prop "formData" payload)
                ++ [("createdAt", JStr (now s 1))])) ].

(** The signature check of the handler: a response when the request is
    turned away. *)
Definition checkSignature (s : Services) (body signature : string)
  : M (option Response) :=
  match webhookSecret s with
  | Some (String c secret) =>
      validationResult <-
        Webhook.validateWebhookSignature (hmac s) body signature
          (String c secret) ;;
      if negb (Webhook.wv_valid validationResult) then
        loggerWarn "Webhook signature validation failed" ;;;
        ret (Some (mkResponse 401
                     (ErrorBody "Invalid signature"
                        (Webhook.wv_error validationResult))))
      else ret None
  | _ =>
      loggerError "Webhook secret not configured" ;;;
      ret (Some (mkResponse 500 (ErrorBody "Server configuration error" None)))
  end.

Definition normalizePayload (s : Services) (w : Env) (testMode : bool)
    (payload : Json) : M Json :=
  if testMode then
    match payload with
    | JNull => throw "Cannot read properties of null (reading 'event')"
    | _ =>
        if negb (truthy (prop "event" payload)) then
          id <- Validation.generateId w "briefing" ;;
          ret (wrapped s id payload)
        else ret payload
    end
  else ret payload.

Definition respond (briefingPayload : PipelineBriefingInput)
    (pipelineResult : PipelineResult) : M Response :=
  match r_status pipelineResult with
  | failed =>
      loggerError "Pipeline failed" ;;;
      ret (mkResponse 500
             (FailureBody (r_error pipelineResult) (r_id pipelineResult)
                (r_steps pipelineResult)))
  | _ =>
      let version := option_map if_version (r_injectionFile pipelineResult) in
      ret (mkResponse 200
             (SuccessBody (r_id pipelineResult) (r_status pipelineResult)
                (match r_injectionFile pipelineResult with
                 | Some f => if_filePath f
                 | None => None
                 end)
                version
                (r_steps pipelineResult)
                (option_map
                   (fun generatedPrompt =>
                      {| view_content := gp_content generatedPrompt;
                         view_version := Js.optStrOr version "v1";
                         view_accountId := p_accountId briefingPayload;
                         view_assistantId := p_assistantId briefingPayload;
                         view_iterations :=
                           Js.numOr
                             (Z.of_nat
                                (length (gp_simpleIterations generatedPrompt)))
                             1 |})
                   (r_generatedPrompt pipelineResult))
                (Z.of_nat (length (r_costEntries pipelineResult)))
                (fold_left (fun sum c => plusD sum (ce_costUsd c))
                   (r_costEntries pipelineResult) (Usd 0))))
  end.

(** The handler past the signature check. *)
Definition proceed (s : Services) (w : Env) (testMode : bool)
    (body : string) : M Response :=
  payload <- settle (jsonParse s body) ;;
  normalizedPayload <- normalizePayload s w testMode payload ;;
  parseResult <- parseWebhookPayload (issues s) normalizedPayload ;;
  match parseResult with
  | ParseError error =>
      ret (mkResponse 400 (ErrorBody "Invalid payload" (Some error)))
  | ParseOk payload =>
      let briefingPayload := extractBriefing payload in
      pipelineResult <- runPipeline w briefingPayload noOverrides ;;
      respond briefingPayload pipelineResult
  end.

Definition POST (s : Services) (w : Env) (request : Request) : M Response :=
  tryCatch
    (let body := rq_body request in
     let signature := Js.optStrOr (rq_signature request) "" in
     let testMode :=
       match rq_testMode request with
       | Some value => String.eqb value "true"
       | None => false
       end in
     refused <-
       (if negb testMode then checkSignature s body signature
        else ret None) ;;
     match refused with
     | Some response => ret response
     | None => proceed s w testMode body
     end)
    (fun errorMessage =>
       loggerError "Webhook processing error" ;;;
       ret (mkResponse 500
              (ErrorBody "Internal server error" (Some errorMessage)))).

End Route.

(* ================================================================== *)
(** * Vocabulary of the webhook *)

(** [authentic s request]: a secret is configured and the signature
    header, with the prefix added if it lacks it, is the prefix followed
    by the digest of the body under the secret. *)
Definition authentic (s : Route.Services) (request : Route.Request) : Prop :=
  exists secret digest,
    Route.webhookSecret s = Some secret /\ secret <> "" /\
    Js.optStrOr (Route.rq_signature request) "" <> "" /\
    Route.hmac s secret (Route.rq_body request) = Returned digest /\
    Webhook.normalize (Js.optStrOr (Route.rq_signature request) "")
      = "sha256=" ++ digest.

(** [onlyLogged st st']: [st'] is [st] with more log lines. *)
Definition onlyLogged (st st' : St) : Prop :=
  exists lines, st' = setLogs (logs st ++ lines) st.

(** The fields the form schema requires to be filled. *)
Definition requiredTexts (f : BriefingFormData) : list string :=
  [ businessName f; productService f; brandPerception f; toneOfVoice f;
    scheduleAdaptation f; mandatorySteps f; mainObjective f ].

(** [body.data.key] *)
Definition dataField (key : string) (body : Parser.Json) : option Parser.Json :=
  match Parser.prop "data" body with
  | Some data => Parser.prop key data
  | None => None
  end.

(** What a request that starts no run leaves as it was: every component
    of the state but the log lines and the count of generated ids. *)
Definition beforeRun (st : St) :=
  (sessionUsage st, sessionCosts st, steps st, registryCalls st, llmCalls st,
   injectionCalls st, dbCalls st, sheetCalls st, promptVersions st).

(** Sample requests and services of the webhook. *)
Module RouteSamples.

Import Parser.
Import Route.

Definition formJson : Json :=
  JObj [ ("businessName", JStr "Acme"); ("productService", JStr "Widgets");
         ("idealClient", JArr [JStr "owners"]);
         ("mainDesires", JArr [JStr "growth"]);
         ("brandPerception", JStr "reliable");
         ("toneOfVoice", JStr "friendly");
         ("scheduleAdaptation", JStr "office hours");
         ("mandatorySteps", JStr "greet");
         ("mainObjective", JStr "book a call") ].

(** The body of test mode: no event, the ids and the form. *)
Definition testJson : Json :=
  JObj [ ("accountId", JStr "acc"); ("assistantId", JStr "asst");
         ("formData", formJson) ].

Definition services : Services :=
  {| webhookSecret := Some "key";
     hmac := fun secret payload => Returned ("d1" ++ secret ++ payload);
     jsonParse := fun _ => Returned testJson;
     issues := fun _ => "data: Required";
     now := fun _ => "2025-01-01T00:00:00.000Z" |}.

(** What the schema makes of [testJson] once it is wrapped. *)
Definition testPayload : WebhookPayload :=
  mkWebhookPayload "briefing.created"
    (mkBriefing "briefing_0" "acc" "asst" Examples.formData).

Definition unsigned : Request := mkRequest "{}" None None.

Definition unsignedTest : Request := mkRequest "{}" None (Some "true").

End RouteSamples.

(** [ranOn w st r st1]: from [st], with at most lines logged and ids
    generated in between, runPipeline was given the briefing of a payload
    the schema accepts; it returned [r] and left the state [st1]. *)
Definition ranOn (w : Env) (st : St) (r : PipelineResult) (st1 : St) : Prop :=
  exists json p st0,
    Parser.WebhookPayloadSchema (Some json) = Some p /\
    beforeRun st0 = beforeRun st /\
    Pipeline.runPipeline w (Parser.extractBriefing p) Route.noOverrides st0
      = (Returned r, st1).

(** [answered w st response st']: what a response of the handler says
    about the request that, from [st], led to it and to [st']. *)
Definition answered (w : Env) (st : St) (response : Route.Response)
    (st' : St) : Prop :=
  match Route.rs_body response with
  | Route.ErrorBody _ _ =>
      In (Route.rs_status response) [400; 401; 500] /\
      beforeRun st' = beforeRun st
  | Route.FailureBody message pipelineId steps =>
      Route.rs_status response = 500 /\
      exists r st1,
        ranOn w st r st1 /\ onlyLogged st1 st' /\ r_status r = failed /\
        message = r_error r /\ pipelineId = r_id r /\ steps = r_steps r
  | Route.SuccessBody pipelineId status _ _ steps prompt operations totalCost =>
      Route.rs_status response = 200 /\ status = completed /\
      exists r gp,
        ranOn w st r st' /\ r_status r = completed /\
        pipelineId = r_id r /\ steps = r_steps r /\
        r_generatedPrompt r = Some gp /\
        option_map Route.view_content prompt = Some (gp_content gp) /\
        operations = Z.of_nat (length (sessionCosts st')) /\
        Usage.getSessionTotalCost st' = (Returned totalCost, st')
  end.

(* ================================================================== *)
(** * lib/services/accounts/registry.ts *)

Module Registry.

Import Parser.

(** [z.string().optional()] *)
Definition zStringOptional (value : option Json) : bool :=
  match value with
  | None => true
  | Some (JStr _) => true
  | _ => false
  end.

(** AccountConfigSchema of validation.ts.  The creation date, the
    description and the webhook URL are checked and, as AccountConfig
    has no such fields here, not kept. *)
Definition AccountConfigSchema (value : option Json) : option AccountConfig :=
  match value with
  | Some (JObj properties) =>
      let field key := lookupKey key properties in
      id ← zStringMin1 (field "id");
      name ← zStringMin1 (field "name");
      assistants ← zStringArray (field "assistants");
      createdAt ← zString (field "createdAt");
      if zStringOptional (field "description")
         && zStringOptional (field "webhookUrl")
      then Some (mkAccountConfig id name assistants)
      else None
  | _ => None
  end.

(** What the registry takes from its surroundings, each answer
    depending on the account and on the number of loads that went to
    the file system before: whether the config file of the account
    exists, and what importing it gives, [configModule.config ||
    configModule.default], or that the import throws.  A value JSON
    cannot express stands as null, which the schema rejects wherever it
    looks. *)
Record Files := mkFiles {
  configExists : nat -> string -> bool;
  importConfig : nat -> string -> Outcome (option Json)
}.

(** The module-level state: the cache, the accounts looked up on the
    file system, and the lines logged at level warn and error. *)
Record RegSt := mkRegSt {
  accountCache : gmap string AccountConfig;
  lookups : list string;
  regLogs : list LogLine
}.

Definition logged (line : LogLine) (st : RegSt) : RegSt :=
  mkRegSt (accountCache st) (lookups st) (regLogs st ++ [line]).

Definition loadAccountConfig (fs : Files) (accountId : string) (st : RegSt)
  : option AccountConfig * RegSt :=
  match accountCache st !! accountId with
  | Some config => (Some config, st)
  | None =>
      let n := length (lookups st) in
      let st1 :=
        mkRegSt (accountCache st) (lookups st ++ [accountId]) (regLogs st) in
      if negb (configExists fs n accountId) then
        (None, logged (mkLogLine LvlWarn "Account config not found") st1)
      else
        match importConfig fs n accountId with
        | Returned config =>
            match AccountConfigSchema config with
            | None =>
                (None,
                 logged (mkLogLine LvlError "Invalid account config") st1)
            | Some data =>
                (Some data,
                 mkRegSt (<[ accountId := data ]> (accountCache st1))
                   (lookups st1) (regLogs st1))
            end
        | Threw error =>
            (None,
             logged (mkLogLine LvlError "Failed to load account config") st1)
        end
  end.

Definition clearAccountCache (st : RegSt) : RegSt :=
  mkRegSt ∅ (lookups st) (regLogs st).

End Registry.

Module RegistrySamples.

Import Parser.
Import Registry.

Definition configJson : Json :=
  JObj [ ("id", JStr "acc"); ("name", JStr "Acme");
         ("assistants", JArr [JStr "asst"]);
         ("createdAt", JStr "2025-01-01") ].

(** The config file is there for the first lookup, and gone after. *)
Definition vanishing : Files :=
  {| configExists := fun n _ => Nat.eqb n 0;
     importConfig := fun _ _ => Returned (Some configJson) |}.

Definition empty : RegSt := mkRegSt ∅ [] [].

End RegistrySamples.

Open Scope list_scope.

(* ================================================================== *)
(** * Reasoning about computations *)

Lemma keeps_ret {A B} (f : St -> A) (b : B) : keeps f (ret b).
Proof. intros st. reflexivity. Qed.

Lemma keeps_throw {A B} (f : St -> A) e : keeps f (@throw B e).
Proof. intros st. reflexivity. Qed.

Lemma keeps_gets {A B} (f : St -> A) (g : St -> B) : keeps f (gets g).
Proof. intros st. reflexivity. Qed.

Lemma keeps_bind {A B C} (f : St -> A) (m : M B) (k : B -> M C) :
  keeps f m -> (forall b, keeps f (k b)) -> keeps f (bind m k).
Proof.
  intros Hm Hk st. unfold bind. specialize (Hm st).
  destruct (m st) as [[b | e] st1]; simpl in *.
  - rewrite Hk. exact Hm.
  - exact Hm.
Qed.

Lemma keeps_tryCatch {A B} (f : St -> A) (m : M B) h :
  keeps f m -> (forall e, keeps f (h e)) -> keeps f (tryCatch m h).
Proof.
  intros Hm Hh st. unfold tryCatch. specialize (Hm st).
  destruct (m st) as [[b | e] st1]; simpl in *.
  - exact Hm.
  - rewrite Hh. exact Hm.
Qed.

Lemma keeps_forEach {A B} (f : St -> A) (xs : list B) body :
  (forall x, keeps f (body x)) -> keeps f (forEach xs body).
Proof.
  intros Hb. induction xs as [| x xs IH]; simpl.
  - apply keeps_ret.
  - apply keeps_bind; auto.
Qed.

Lemma total_ret {B} (b : B) : total (ret b).
Proof. intros st. eexists. reflexivity. Qed.

Lemma total_gets {B} (g : St -> B) : total (gets g).
Proof. intros st. eexists. reflexivity. Qed.

Lemma total_modify g : total (modify g).
Proof. intros st. eexists. reflexivity. Qed.

Lemma total_bind {B C} (m : M B) (k : B -> M C) :
  total m -> (forall b, total (k b)) -> total (bind m k).
Proof.
  intros Hm Hk st. unfold bind. destruct (Hm st) as [b Hb].
  destruct (m st) as [[b' | e] st1]; simpl in *; [ | discriminate ].
  apply Hk.
Qed.

Lemma total_tryCatch {B} (m : M B) h :
  (forall e, total (h e)) -> total (tryCatch m h).
Proof.
  intros Hh st. unfold tryCatch.
  destruct (m st) as [[b | e] st1]; simpl.
  - eexists. reflexivity.
  - apply Hh.
Qed.

Lemma total_forEach {B} (xs : list B) body :
  (forall x, total (body x)) -> total (forEach xs body).
Proof.
  intros Hb. induction xs as [| x xs IH]; simpl.
  - apply total_ret.
  - apply total_bind; auto.
Qed.

(** Components of the state each primitive leaves alone. *)
Ltac keeps_prim :=
  let st := fresh "st" in
  intros st;
  unfold Repositories.rpcNextVersionNumber, Repositories.getLatestPromptVersion,
    Repositories.createPromptVersion;
  cbv beta zeta;
  repeat match goal with
         | |- context [ match ?x with _ => _ end ] => destruct x
         | |- context [ if ?x then _ else _ ] => destruct x
         end;
  destruct st; reflexivity.

Ltac keeps_step :=
  first
    [ apply keeps_ret | apply keeps_throw | apply keeps_gets
    | apply keeps_bind | apply keeps_tryCatch | apply keeps_forEach
    | match goal with |- forall _, _ => intro end
    | match goal with
      | |- keeps _ (match ?x with _ => _ end) => destruct x
      end
    | keeps_prim ].

Ltac keeps_auto := repeat keeps_step.

(** Running a [bind] and a [tryCatch] once the first part is known. *)
Lemma bind_Returned {A B} (m : M A) (k : A -> M B) st a st1 :
  m st = (Returned a, st1) -> bind m k st = k a st1.
Proof. intros E. unfold bind. rewrite E. reflexivity. Qed.

Lemma bind_Threw {A B} (m : M A) (k : A -> M B) st e st1 :
  m st = (Threw e, st1) -> bind m k st = (Threw e, st1).
Proof. intros E. unfold bind. rewrite E. reflexivity. Qed.

Lemma tryCatch_Returned {A} (m : M A) h st a st1 :
  m st = (Returned a, st1) -> tryCatch m h st = (Returned a, st1).
Proof. intros E. unfold tryCatch. rewrite E. reflexivity. Qed.

Lemma tryCatch_Threw {A} (m : M A) h st e st1 :
  m st = (Threw e, st1) -> tryCatch m h st = h e st1.
Proof. intros E. unfold tryCatch. rewrite E. reflexivity. Qed.

(** [run_bind as a e st' E]: case analysis on the first part of the
    outermost [bind] of the goal.  [a] names its value, [e] its error,
    [st'] the state it ends in and [E] the equation of the case. *)
Tactic Notation "run_bind" "as" ident(a) ident(e) ident(st') ident(E) :=
  match goal with
  | |- context [ bind ?m ?k ?st ] =>
      destruct (m st) as [[a | e] st'] eqn:E;
      [ rewrite (bind_Returned m k st _ _ E)
      | rewrite (bind_Threw m k st _ _ E) ]
  end.

Tactic Notation "run_try" "as" ident(a) ident(e) ident(st') ident(E) :=
  match goal with
  | |- context [ tryCatch ?m ?h ?st ] =>
      destruct (m st) as [[a | e] st'] eqn:E;
      [ rewrite (tryCatch_Returned m h st _ _ E)
      | rewrite (tryCatch_Threw m h st _ _ E) ]
  end.

Lemma extends_keeps {A B} (f : St -> list A) P (m : M B) :
  keeps f m -> extends f P m.
Proof.
  intros H st. exists []. rewrite app_nil_r. split; [ apply H | constructor ].
Qed.

Lemma extends_bind {A B C} (f : St -> list A) P (m : M B) (k : B -> M C) :
  extends f P m -> (forall b, extends f P (k b)) -> extends f P (bind m k).
Proof.
  intros Hm Hk st. unfold bind. destruct (Hm st) as (l1 & E1 & P1).
  destruct (m st) as [[b | e] st1]; simpl in *.
  - destruct (Hk b st1) as (l2 & E2 & P2). exists (l1 ++ l2).
    rewrite E2, E1, app_assoc. split; [ reflexivity | ].
    apply Forall_app. split; assumption.
  - exists l1. split; assumption.
Qed.

Lemma extends_tryCatch {A B} (f : St -> list A) P (m : M B) h :
  extends f P m -> (forall e, extends f P (h e)) -> extends f P (tryCatch m h).
Proof.
  intros Hm Hh st. unfold tryCatch. destruct (Hm st) as (l1 & E1 & P1).
  destruct (m st) as [[b | e] st1]; simpl in *.
  - exists l1. split; assumption.
  - destruct (Hh e st1) as (l2 & E2 & P2). exists (l1 ++ l2).
    rewrite E2, E1, app_assoc. split; [ reflexivity | ].
    apply Forall_app. split; assumption.
Qed.

Lemma extends_forEach {A B} (f : St -> list A) P (xs : list B) body :
  (forall x, extends f P (body x)) -> extends f P (forEach xs body).
Proof.
  intros Hb. induction xs as [| x xs IH]; simpl.
  - apply extends_keeps. apply keeps_ret.
  - apply extends_bind; auto.
Qed.

(** A primitive that appends exactly one element. *)
Ltac extends_one :=
  let st := fresh "st" in
  intros st;
  unfold Repositories.rpcNextVersionNumber, Repositories.getLatestPromptVersion;
  cbv beta zeta;
  repeat match goal with
         | |- context [ match ?x with _ => _ end ] => destruct x
         end;
  first
    [ exists [];
      (split; [ destruct st; simpl; rewrite app_nil_r; reflexivity
              | constructor ])
    | eexists [_];
      (split; [ destruct st; reflexivity | repeat constructor ]) ].

Ltac extends_step :=
  first
    [ apply extends_bind | apply extends_tryCatch | apply extends_forEach
    | match goal with |- forall _, _ => intro end
    | match goal with
      | |- extends _ _ (match ?x with _ => _ end) => destruct x
      end
    | apply extends_keeps; keeps_prim
    | extends_one; simpl; intros; discriminate
    | extends_one ].

Ltac extends_auto := repeat extends_step.

Ltac total_step :=
  first
    [ apply total_ret | apply total_gets | apply total_modify
    | apply total_bind | apply total_tryCatch | apply total_forEach
    | match goal with |- forall _, _ => intro end
    | match goal with
      | |- total (match ?x with _ => _ end) => destruct x
      end
    | let st := fresh "st" in intros st; eexists; reflexivity ].

Ltac total_auto := repeat total_step.

Lemma faithful_keeps {A B} (f : St -> list A) P (m : M B) :
  keeps f m -> faithful f P m.
Proof.
  intros H st. exists []. rewrite app_nil_r. split; [ apply H | constructor ].
Qed.

Lemma faithful_bind {A B C} (f : St -> list A) P (m : M B) (k : B -> M C) :
  faithful f P m -> (forall b, faithful f P (k b)) -> faithful f P (bind m k).
Proof.
  intros Hm Hk st. unfold bind. destruct (Hm st) as (l1 & E1 & P1).
  destruct (m st) as [[b | e] st1]; simpl in *.
  - destruct (Hk b st1) as (l2 & E2 & P2). exists (l1 ++ l2).
    rewrite E2, E1, app_assoc. split; [ reflexivity | ].
    intros R. apply Forall_app. split; auto.
  - exists l1. split; [ assumption | discriminate ].
Qed.

Lemma blames_total {A B} (f : St -> list A) P (m : M B) :
  keeps f m -> total m -> blames f P m.
Proof.
  intros K T st. exists []. rewrite app_nil_r. split; [ apply K | ].
  destruct (T st) as (b & Hb). rewrite Hb. discriminate.
Qed.

Lemma blames_bind {A B C} (f : St -> list A) P (m : M B) (k : B -> M C) :
  blames f P m -> (forall b, blames f P (k b)) -> blames f P (bind m k).
Proof.
  intros Hm Hk st. unfold bind. destruct (Hm st) as (l1 & E1 & P1).
  destruct (m st) as [[b | e] st1]; simpl in *.
  - destruct (Hk b st1) as (l2 & E2 & P2). exists (l1 ++ l2).
    rewrite E2, E1, app_assoc. split; [ reflexivity | ].
    intros R. apply Exists_app. right. exact (P2 R).
  - exists l1. split; [ assumption | ].
    intros _. apply P1. reflexivity.
Qed.

Import Spec.

(* ================================================================== *)
(** * The cost calculator and the ledger *)

Lemma lookup_opus :
  CostTracker.MODEL_PRICING !! "claude-opus-4-5-20251101" = Some opusPricing.
Proof. vm_compute. reflexivity. Qed.

Lemma calculateCost_default u st :
  CostTracker.calculateCost u Usage.DEFAULT_MODEL st =
  (Returned (CostTracker.calculateCostWithPricing u opusPricing), st).
Proof.
  unfold CostTracker.calculateCost, Usage.DEFAULT_MODEL.
  rewrite lookup_opus. reflexivity.
Qed.

(** logCost with no model given: one entry at the price of the default
    model, appended to the ledger and added to the totals. *)
Lemma logCost_default w a s op u ver md st :
  exists e st',
    Usage.logCost w a s op u None ver md st = (Returned e, st') /\
    sessionCosts st' = sessionCosts st ++ [e] /\
    inputTokens (sessionUsage st') = inputTokens (sessionUsage st) + inputTokens u /\
    outputTokens (sessionUsage st') = outputTokens (sessionUsage st) + outputTokens u /\
    idCount st' = S (idCount st) /\
    llmCalls st' = llmCalls st /\
    offGenerator st' = offGenerator st /\
    ce_operation e = op /\ ce_model e = Usage.DEFAULT_MODEL /\
    ce_inputTokens e = inputTokens u /\ ce_outputTokens e = outputTokens u /\
    ce_costUsd e =
      totalCostUsd (CostTracker.calculateCostWithPricing u opusPricing).
Proof.
  unfold Usage.logCost, CostTracker.createCostEntry. simpl Js.optStrOr.
  unfold bind at 1. unfold bind at 1. rewrite calculateCost_default.
  destruct st. do 2 eexists. split; [ reflexivity | ].
  simpl. repeat split; reflexivity.
Qed.

(* ================================================================== *)
(** * The refinement loop *)

Lemma sumInput_app l1 l2 : sumInput (l1 ++ l2) = sumInput l1 + sumInput l2.
Proof. induction l1 as [| e l1 IH]; simpl; [ reflexivity | rewrite IH; lia ]. Qed.

Lemma sumOutput_app l1 l2 : sumOutput (l1 ++ l2) = sumOutput l1 + sumOutput l2.
Proof. induction l1 as [| e l1 IH]; simpl; [ reflexivity | rewrite IH; lia ]. Qed.

Lemma billing_refl w st : billing w st st [] [].
Proof.
  unfold billing. rewrite !app_nil_r. simpl.
  repeat split; try lia; constructor.
Qed.

Lemma billing_trans w st st1 st2 c1 e1 c2 e2 :
  billing w st st1 c1 e1 -> billing w st1 st2 c2 e2 ->
  billing w st st2 (c1 ++ c2) (e1 ++ e2).
Proof.
  intros (L1 & A1 & C1 & B1 & I1 & O1 & F1) (L2 & A2 & C2 & B2 & I2 & O2 & F2).
  unfold billing. rewrite L2, L1, C2, C1, I2, I1, O2, O1, F2, F1.
  rewrite <- !app_assoc, List.filter_app, sumInput_app, sumOutput_app.
  repeat split; try lia.
  - apply Forall_app. split; assumption.
  - apply Forall2_app; assumption.
Qed.

Lemma allOk_app l1 l2 : allOk l1 -> allOk l2 -> allOk (l1 ++ l2).
Proof. unfold allOk. intros. apply Forall_app. split; assumption. Qed.

Lemma endsThrowing_app e l1 l2 :
  allOk l1 -> endsThrowing e l2 -> endsThrowing e (l1 ++ l2).
Proof.
  intros H1 (pre & c & -> & Hpre & Hc).
  exists (l1 ++ pre), c. rewrite app_assoc. repeat split; auto.
  apply allOk_app; assumption.
Qed.

Lemma lastOutput_app l1 l2 d :
  allOk l2 -> lastOutput (l1 ++ l2) d = lastOutput l2 (lastOutput l1 d).
Proof.
  intros H2. destruct l2 as [| c l2] using rev_ind.
  - rewrite app_nil_r. reflexivity.
  - unfold lastOutput at 1 2. rewrite app_assoc, !last_snoc.
    apply Forall_app in H2 as [_ H2]. inversion H2 as [| ? ? Hc _]; subst.
    unfold llm_ok in Hc. destruct (llm_outcome c); [ reflexivity | discriminate ].
Qed.

(** One billed request. *)
Lemma billed_spec w via req a s md st :
  let r := billed w via req a s md st in
  exists c e,
    llm_via c = via /\
    match fst r with
    | Returned (p, u) =>
        billing w st (snd r) [c] [e] /\ llm_ok c = true /\
        lastOutput [c] "" = p /\
        u = mkTokenUsage (ce_inputTokens e) (ce_outputTokens e)
              (cacheReadTokens u) (cacheWriteTokens u) /\
        idCount (snd r) = S (idCount st)
    | Threw msg =>
        billing w st (snd r) [c] [] /\ llm_outcome c = Threw msg /\
        idCount (snd r) = idCount st
    end.
Proof.
  intros r. subst r. unfold billed, sendMessage, bind.
  destruct (provider_sendMessage w (length (llmCalls st)) req)
    as [resp | msg] eqn:Eo.
  - exists (mkLlmCall via req (Returned resp)).
    set (st1 := record _ (setLlmCalls _ st)).
    destruct (logCost_default w a s (opOf via) (usage resp) None md st1)
      as (e & st2 & E & Hc & Hi & Ho & Hid & Hl & Hoff & Hop & Hm & Hit & Hot & Hcost).
    exists e. split; [ reflexivity | ].
    rewrite E. simpl.
    assert (Hbill : billOf e (mkLlmCall via req (Returned resp))).
    { exists resp. simpl. repeat split; assumption. }
    split; [ unfold billing; repeat split | repeat split ].
    + rewrite Hl. subst st1. destruct st; reflexivity.
    + repeat constructor. exists (length (llmCalls st)). simpl. symmetry. exact Eo.
    + rewrite Hc. subst st1. destruct st; reflexivity.
    + simpl. constructor; [ exact Hbill | constructor ].
    + rewrite Hi. subst st1. destruct st; simpl. lia.
    + rewrite Ho. subst st1. destruct st; simpl. lia.
    + rewrite Hoff. subst st1. destruct st; reflexivity.
    + rewrite Hit, Hot. destruct (usage resp); reflexivity.
    + rewrite Hid. subst st1. destruct st; reflexivity.
  - exists (mkLlmCall via req (Threw msg)).
    exists (mkCostEntry "" "" "" generate_initial "" 0 0 (Usd 0) None None).
    split; [ reflexivity | ]. simpl.
    repeat split; repeat constructor;
      try (exists (length (llmCalls st)); simpl; symmetry; exact Eo);
      destruct st; simpl; rewrite ?app_nil_r; reflexivity || lia.
Qed.

Lemma generateInitialPrompt_billed w b a :
  Generator.generateInitialPrompt w b a =
  billed w ViaGenerate
    {| systemPrompt := Some (prismaSystemPrompt w);
       userContent :=
         ("Analyze the following briefing and generate a complete assistant prompt using the PRISMA system:"
          ++ Messages.nl ++ Messages.nl ++ formatBriefingAsMarkdown w b)%string;
       maxTokens := 16384 |}
    a (b_assistantId b) (Some (mkCostMetadata "initial" None)).
Proof. reflexivity. Qed.

Lemma analyzeGeneratedPrompt_billed w p b a :
  exists req,
    Generator.analyzeGeneratedPrompt w p b a =
    billed w ViaAnalyze req a (b_assistantId b)
      (Some (mkCostMetadata "analysis" None)).
Proof. eexists. reflexivity. Qed.

Lemma improveGeneratedPrompt_billed w p f b a i :
  exists req,
    Generator.improveGeneratedPrompt w p f b a i =
    billed w ViaImprove req a (b_assistantId b)
      (Some (mkCostMetadata "improvement" (Some i))).
Proof. eexists. reflexivity. Qed.

(** One round of the loop. *)
Lemma round_spec w b a i v st :
  let r := Generator.round w b a i v st in
  exists calls entries,
    billing w st (snd r) calls entries /\
    match fst r with
    | Returned v' =>
        allOk calls /\
        map llm_via calls = [ViaAnalyze; ViaImprove] /\
        map iterationNumber (Generator.iterations v') =
          map iterationNumber (Generator.iterations v) ++ [i + 1] /\
        Generator.currentPrompt v' = lastOutput calls (Generator.currentPrompt v) /\
        inputTokens (Generator.totalUsage v') =
          inputTokens (Generator.totalUsage v) + sumInput entries /\
        outputTokens (Generator.totalUsage v') =
          outputTokens (Generator.totalUsage v) + sumOutput entries
    | Threw e => endsThrowing e calls
    end.
Proof.
  intros r. subst r. unfold Generator.round.
  destruct (analyzeGeneratedPrompt_billed w (Generator.currentPrompt v) b a)
    as (reqA & ->).
  destruct (billed_spec w ViaAnalyze reqA a (b_assistantId b)
              (Some (mkCostMetadata "analysis" None)) st) as (ca & ea & Hva & HA).
  run_bind as p e st1 EA; rewrite ?EA in HA; simpl in HA.
  - destruct p as [analysis ua].
    destruct HA as (B1 & Ok1 & Out1 & Hua & _).
    destruct (improveGeneratedPrompt_billed w (Generator.currentPrompt v)
                analysis b a (i + 1)) as (reqI & ->).
    destruct (billed_spec w ViaImprove reqI a (b_assistantId b)
                (Some (mkCostMetadata "improvement" (Some (i + 1)))) st1)
      as (ci & ei & Hvi & HI).
    run_bind as q e st2 EI; rewrite ?EI in HI; simpl in HI.
    + destruct q as [improved ui].
      destruct HI as (B2 & Ok2 & Out2 & Hui & _).
      exists [ca; ci], [ea; ei]. simpl. split.
      * exact (billing_trans _ _ _ _ _ _ _ _ B1 B2).
      * split; [ repeat constructor; assumption | ].
        split; [ rewrite Hva, Hvi; reflexivity | ].
        split; [ rewrite map_app; reflexivity | ].
        split; [ rewrite <- Out2; unfold lastOutput; simpl; unfold llm_ok in Ok2;
                 destruct (llm_outcome ci); [ reflexivity | discriminate ] | ].
        rewrite Hua, Hui. simpl. split; lia.
    + destruct HI as (B2 & Out2 & _).
      exists [ca; ci], [ea]. simpl. split.
      * exact (billing_trans _ _ _ _ _ _ _ _ B1 B2).
      * exists [ca], ci. repeat split; auto. repeat constructor; assumption.
  - destruct HA as (B1 & Out1 & _).
    exists [ca], []. simpl. split; [ exact B1 | ].
    exists [], ca. repeat split; auto. constructor.
Qed.

(** [n] rounds of the loop, from index [i]. *)
Lemma rounds_spec w b a n : forall i v st,
  let r := Generator.rounds w b a n i v st in
  exists calls entries,
    billing w st (snd r) calls entries /\
    match fst r with
    | Returned v' =>
        allOk calls /\
        map llm_via calls = alternation n /\
        map iterationNumber (Generator.iterations v') =
          map iterationNumber (Generator.iterations v) ++ countFrom i n /\
        Generator.currentPrompt v' = lastOutput calls (Generator.currentPrompt v) /\
        inputTokens (Generator.totalUsage v') =
          inputTokens (Generator.totalUsage v) + sumInput entries /\
        outputTokens (Generator.totalUsage v') =
          outputTokens (Generator.totalUsage v) + sumOutput entries
    | Threw e => endsThrowing e calls
    end.
Proof.
  induction n as [| n IH]; intros i v st r; subst r.
  - exists [], []. simpl. split; [ apply billing_refl | ].
    rewrite app_nil_r. repeat split; try lia. constructor.
  - simpl Generator.rounds.
    destruct (round_spec w b a i v st) as (c1 & e1 & B1 & H1).
    run_bind as v1 e st1 E1; rewrite ?E1 in B1, H1; simpl in B1, H1.
    + destruct H1 as (Ok1 & V1 & It1 & P1 & In1 & Out1).
      destruct (IH (i + 1) v1 st1) as (c2 & e2 & B2 & H2).
      destruct (Generator.rounds w b a n (i + 1) v1 st1) as [[v2 | e] st2];
        simpl in B2, H2; simpl.
      * destruct H2 as (Ok2 & V2 & It2 & P2 & In2 & Out2).
        exists (c1 ++ c2), (e1 ++ e2).
        split; [ exact (billing_trans _ _ _ _ _ _ _ _ B1 B2) | ].
        split; [ apply allOk_app; assumption | ].
        split; [ rewrite map_app, V1, V2; reflexivity | ].
        split; [ rewrite It2, It1, <- app_assoc; reflexivity | ].
        split; [ rewrite P2, P1; symmetry; apply lastOutput_app; exact Ok2 | ].
        rewrite In2, In1, Out2, Out1, sumInput_app, sumOutput_app. split; lia.
      * exists (c1 ++ c2), (e1 ++ e2).
        split; [ exact (billing_trans _ _ _ _ _ _ _ _ B1 B2) | ].
        apply endsThrowing_app; assumption.
    + exists c1, e1. simpl. split; assumption.
Qed.

Lemma billing_setIdCount w st st1 n calls entries :
  billing w st st1 calls entries -> billing w st (setIdCount n st1) calls entries.
Proof. destruct st1. exact (fun H => H). Qed.

Lemma allOk_filter calls : allOk calls -> List.filter llm_ok calls = calls.
Proof.
  induction 1 as [| c l Hc _ IH]; simpl; [ reflexivity | ].
  rewrite Hc, IH. reflexivity.
Qed.

(** The whole of generatePromptWithIteration. *)
Lemma generatePromptWithIterationUsage_spec w b a mi st :
  let k := Z.to_nat (Js.optNumOr mi 1) in
  let r := Generator.generatePromptWithIterationUsage w b a mi st in
  exists calls entries,
    billing w st (snd r) calls entries /\
    match fst r with
    | Returned (gp, tu) =>
        allOk calls /\
        map llm_via calls = ViaGenerate :: alternation k /\
        map iterationNumber (gp_simpleIterations gp) = countFrom 0 k /\
        gp_content gp = lastOutput calls "" /\
        inputTokens tu = sumInput entries /\
        outputTokens tu = sumOutput entries /\
        gp_iterations gp = None /\
        md_iterations (gp_metadata gp) = Js.optNumOr mi 1
    | Threw e => endsThrowing e calls
    end.
Proof.
  intros k r. subst r. unfold Generator.generatePromptWithIterationUsage.
  rewrite generateInitialPrompt_billed.
  match goal with
  | |- context [ billed w ViaGenerate ?req a ?s ?md ] =>
      destruct (billed_spec w ViaGenerate req a s md st) as (c0 & e0 & Hv0 & H0)
  end.
  run_bind as g e st1 E0; rewrite ?E0 in H0; simpl in H0.
  - destruct g as [initialPrompt initialUsage].
    destruct H0 as (B0 & Ok0 & Out0 & Hu0 & _).
    fold k.
    match goal with
    | |- context [ Generator.rounds w b a k 0 ?v ] =>
        destruct (rounds_spec w b a k 0 v st1) as (c1 & e1 & B1 & H1)
    end.
    run_bind as v1 e st2 E1; rewrite ?E1 in B1, H1; simpl in B1, H1.
    + destruct H1 as (Ok1 & V1 & It1 & P1 & In1 & Out1).
      unfold Validation.generateId, bind, ret. simpl.
      exists ([c0] ++ c1), ([e0] ++ e1). split.
      * apply billing_setIdCount. exact (billing_trans _ _ _ _ _ _ _ _ B0 B1).
      * split; [ apply allOk_app; [ repeat constructor; assumption | assumption ] | ].
        split; [ simpl; rewrite Hv0, V1; reflexivity | ].
        split; [ exact It1 | ].
        split; [ rewrite P1, <- Out0; symmetry; apply lastOutput_app; exact Ok1 | ].
        rewrite In1, Out1, Hu0. simpl. repeat split; lia.
    + exists ([c0] ++ c1), ([e0] ++ e1). simpl fst. simpl snd. split.
      * exact (billing_trans _ _ _ _ _ _ _ _ B0 B1).
      * apply endsThrowing_app; [ repeat constructor; assumption | assumption ].
  - destruct H0 as (B0 & Out0 & _).
    exists [c0], []. simpl. split; [ exact B0 | ].
    exists [], c0. repeat split; auto. constructor.
Qed.

Lemma generatePromptWithIteration_spec w b a mi st :
  let k := Z.to_nat (Js.optNumOr mi 1) in
  let r := Generator.generatePromptWithIteration w b a mi st in
  exists calls entries,
    billing w st (snd r) calls entries /\
    match fst r with
    | Returned gp =>
        allOk calls /\
        map llm_via calls = ViaGenerate :: alternation k /\
        map iterationNumber (gp_simpleIterations gp) = countFrom 0 k /\
        gp_content gp = lastOutput calls "" /\
        gp_iterations gp = None /\
        md_iterations (gp_metadata gp) = Js.optNumOr mi 1
    | Threw e => endsThrowing e calls
    end.
Proof.
  intros k r. subst r. unfold Generator.generatePromptWithIteration.
  destruct (generatePromptWithIterationUsage_spec w b a mi st)
    as (calls & entries & B & H).
  exists calls, entries.
  run_bind as g e st1 E; rewrite ?E in B, H; simpl in B, H; simpl.
  - destruct g as [gp tu]. simpl. split; [ exact B | ].
    destruct H as (H1 & H2 & H3 & H4 & _ & _ & H5 & H6).
    repeat (split; [ assumption | ]). assumption.
  - split; assumption.
Qed.

(* ================================================================== *)
(** * The orchestrator: bookkeeping around the steps *)

Import Pipeline.

Section Bookkeeping.

Variable w : Env.
Variable cfg : PipelineConfig.
Variable ctx : option SupabaseContext.

Lemma logStep_total name status err : total (logStep w cfg ctx name status err).
Proof. unfold logStep. total_auto. Qed.

Lemma logStep_held name status err :
  keeps held (logStep w cfg ctx name status err).
Proof. unfold logStep. keeps_auto. Qed.

Lemma logStep_db name status err :
  extends dbCalls saveOk (logStep w cfg ctx name status err).
Proof. unfold logStep. extends_auto. Qed.

Lemma logStep_logs name status err :
  extends logs (fun _ => True) (logStep w cfg ctx name status err).
Proof. unfold logStep. extends_auto. Qed.

Lemma logStep_steps name status err st :
  steps (snd (logStep w cfg ctx name status err st)) =
  steps st ++ [mkPipelineStep name status err].
Proof.
  unfold logStep.
  match goal with
  | |- context [ bind ?m ?k ] =>
      assert (K : forall u, keeps steps (k u)) by keeps_auto
  end.
  unfold bind at 1. unfold modify at 1. rewrite (K tt).
  destruct st; reflexivity.
Qed.

End Bookkeeping.

(** ** The invariant of a run *)

Lemma delta_refl w st : delta w st st tnil.
Proof.
  unfold delta, tnil. simpl. rewrite !app_nil_r.
  repeat split; try lia; try constructor.
  exists []. rewrite app_nil_r. reflexivity.
Qed.

Lemma delta_trans w st st1 st2 t1 t2 :
  delta w st st1 t1 -> delta w st1 st2 t2 -> delta w st st2 (tapp t1 t2).
Proof.
  intros (L1 & A1 & C1 & B1 & I1 & O1 & S1 & D1 & H1 & J1 & R1 & (g1 & G1))
         (L2 & A2 & C2 & B2 & I2 & O2 & S2 & D2 & H2 & J2 & R2 & (g2 & G2)).
  unfold delta, tapp. simpl.
  rewrite L2, L1, C2, C1, I2, I1, O2, O1, S2, S1, D2, D1, H2, H1, J2, J1,
    R2, R1, G2, G1.
  rewrite <- !app_assoc, List.filter_app, sumInput_app, sumOutput_app.
  repeat split; try lia.
  - apply Forall_app. split; assumption.
  - apply Forall2_app; assumption.
  - exists (g1 ++ g2). reflexivity.
Qed.

Lemma or_In_Forall {A B} (x : B) (P : A -> Prop) s1 s2 l1 l2 :
  In x s1 \/ Forall P l1 -> In x s2 \/ Forall P l2 ->
  In x (s1 ++ s2) \/ Forall P (l1 ++ l2).
Proof.
  intros [H1 | H1] [H2 | H2]; try (left; apply in_or_app; auto; fail).
  right. apply Forall_app. split; assumption.
Qed.

Lemma or_nil_In {A B} (x : B) s1 s2 (l1 l2 : list A) :
  l1 = [] \/ In x s1 -> l2 = [] \/ In x s2 ->
  l1 ++ l2 = [] \/ In x (s1 ++ s2).
Proof.
  intros [H1 | H1] [H2 | H2]; try (right; apply in_or_app; auto; fail).
  left. subst. reflexivity.
Qed.

Lemma In_Exists_app {A B} (x : B) (P : A -> Prop) s1 s2 l1 l2 :
  (In x s1 -> Exists P l1) -> (In x s2 -> Exists P l2) ->
  In x (s1 ++ s2) -> Exists P (l1 ++ l2).
Proof.
  intros H1 H2 H. apply Exists_app. apply in_app_or in H.
  destruct H as [H | H]; [ left; exact (H1 H) | right; exact (H2 H) ].
Qed.

Lemma owned_tapp t1 t2 : owned t1 -> owned t2 -> owned (tapp t1 t2).
Proof.
  intros (A1 & B1 & C1 & D1 & E1 & F1 & G1) (A2 & B2 & C2 & D2 & E2 & F2 & G2).
  unfold owned, tapp. simpl.
  repeat split;
    first [ apply or_In_Forall; assumption | apply or_nil_In; assumption
          | apply In_Exists_app; assumption ].
Qed.

Lemma noAuxFailure_nil : noAuxFailure [].
Proof. split; intros []. Qed.

Lemma noAuxFailure_one name status err :
  mkPipelineStep name status err <> saveFailed ->
  mkPipelineStep name status err <> logFailed ->
  noAuxFailure [mkPipelineStep name status err].
Proof.
  intros H1 H2. split; intros [H | []]; [ apply H1 | apply H2 ]; exact H.
Qed.

Lemma owned_of s dbs shs inj rows :
  noAuxFailure s ->
  Forall saveOk dbs -> Forall sheetOk shs ->
  (shs = [] \/ In (entered LogCosts) s) ->
  (inj = [] \/ In (entered CreateInjectionFile) s) ->
  (rows = [] \/ In (entered SavePromptVersion) s) ->
  forall calls entries, owned (mkTrail calls entries s dbs shs inj rows).
Proof.
  intros (N1 & N2) H1 H2 H3 H4 H5 calls entries. unfold owned. simpl.
  split; [ right; exact H1 | ]. split; [ right; exact H2 | ].
  split; [ exact H3 | ]. split; [ exact H4 | ]. split; [ exact H5 | ].
  split; intros H; [ destruct (N1 H) | destruct (N2 H) ].
Qed.

Lemma walked_refl w st : walked w st st tnil.
Proof.
  split; [ apply delta_refl | ].
  apply owned_of; auto using noAuxFailure_nil.
Qed.

Lemma walked_trans w st st1 st2 t1 t2 :
  walked w st st1 t1 -> walked w st1 st2 t2 -> walked w st st2 (tapp t1 t2).
Proof.
  intros [D1 O1] [D2 O2].
  split; [ exact (delta_trans _ _ _ _ _ _ D1 D2) | apply owned_tapp; assumption ].
Qed.

(** The generator only asks the provider and writes the ledger. *)
Lemma billing_walked w st st' calls entries :
  billing w st st' calls entries ->
  walked w st st' (mkTrail calls entries [] [] [] [] []).
Proof.
  intros (L & A & C & B & I & O & F).
  unfold offGenerator in F. inversion F as [[Fs Fl Fr Fi Fd Fh Fp]].
  split.
  - unfold delta. simpl. rewrite L, C, I, O, Fs, Fd, Fh, Fi, Fp, Fl, !app_nil_r.
    repeat split; try assumption. exists []. rewrite app_nil_r. reflexivity.
  - apply owned_of; auto using noAuxFailure_nil.
Qed.

(** A computation that returns, keeps what is held, pushes the entries
    [s] and otherwise only talks to the store and to the log. *)
Lemma quiet_delta {B} (m : M B) s w st :
  total m -> keeps held m ->
  steps (snd (m st)) = steps st ++ s ->
  extends dbCalls saveOk m -> extends logs (fun _ => True) m ->
  exists b st' dbs,
    m st = (Returned b, st') /\ Forall saveOk dbs /\
    delta w st st' (mkTrail [] [] s dbs [] [] []).
Proof.
  intros T K S D G.
  destruct (T st) as [b Hb]. specialize (K st).
  destruct (D st) as (dbs & Hd & Pd). destruct (G st) as (lines & Hg & _).
  destruct (m st) as [o st'] eqn:E. simpl in *. subst o.
  exists b, st', dbs. split; [ reflexivity | ]. split; [ exact Pd | ].
  unfold held, ledgerCalls in K. inversion K as [[Ku Kc Kl Ki Ks Kp]].
  unfold delta. simpl. rewrite Ku, Kc, Kl, Ki, Ks, Kp, S, Hd, Hg, !app_nil_r.
  repeat split; try lia; try constructor. exists lines. reflexivity.
Qed.

Lemma quiet_owned s dbs :
  noAuxFailure s ->
  Forall saveOk dbs -> owned (mkTrail [] [] s dbs [] [] []).
Proof. intros N H. apply owned_of; auto. Qed.

Lemma quiet_walked {B} (m : M B) s w st :
  noAuxFailure s ->
  total m -> keeps held m ->
  steps (snd (m st)) = steps st ++ s ->
  extends dbCalls saveOk m -> extends logs (fun _ => True) m ->
  exists b st' dbs,
    m st = (Returned b, st') /\
    walked w st st' (mkTrail [] [] s dbs [] [] []).
Proof.
  intros N T K S D G.
  destruct (quiet_delta m s w st T K S D G) as (b & st' & dbs & E & P & Dl).
  exists b, st', dbs. split; [ exact E | ].
  split; [ exact Dl | apply quiet_owned; assumption ].
Qed.

Lemma quiet_walked0 {B} (m : M B) w st :
  total m -> keeps held m -> keeps steps m ->
  extends dbCalls saveOk m -> extends logs (fun _ => True) m ->
  exists b st' dbs,
    m st = (Returned b, st') /\
    walked w st st' (mkTrail [] [] [] dbs [] [] []).
Proof.
  intros T K S D G. apply quiet_walked; auto using noAuxFailure_nil.
  rewrite app_nil_r. apply S.
Qed.

Section Steps.

Variable w : Env.
Variable cfg : PipelineConfig.
Variable ctx : option SupabaseContext.

Lemma logStep_delta name status err st :
  exists st' dbs,
    logStep w cfg ctx name status err st = (Returned tt, st') /\
    Forall saveOk dbs /\
    delta w st st' (mkTrail [] [] [mkPipelineStep name status err] dbs [] [] []).
Proof.
  destruct (quiet_delta (logStep w cfg ctx name status err)
              [mkPipelineStep name status err] w st)
    as ([] & st' & dbs & E & P & W).
  - apply logStep_total.
  - apply logStep_held.
  - apply logStep_steps.
  - apply logStep_db.
  - apply logStep_logs.
  - exists st', dbs. split; [ exact E | split; [ exact P | exact W ] ].
Qed.

Lemma logStep_walked name status err st :
  noAuxFailure [mkPipelineStep name status err] ->
  exists st' dbs,
    logStep w cfg ctx name status err st = (Returned tt, st') /\
    walked w st st' (mkTrail [] [] [mkPipelineStep name status err] dbs [] [] []).
Proof.
  intros N.
  destruct (logStep_delta name status err st) as (st' & dbs & E & P & D).
  exists st', dbs. split; [ exact E | ].
  split; [ exact D | apply quiet_owned; assumption ].
Qed.

Lemma establishContext_walked payload pid bid st :
  exists c st' dbs,
    establishContext w cfg payload pid bid st = (Returned c, st') /\
    walked w st st' (mkTrail [] [] [] dbs [] [] []).
Proof.
  apply quiet_walked0; unfold establishContext, initializeSupabaseContext.
  - total_auto.
  - keeps_auto.
  - keeps_auto.
  - extends_auto.
  - extends_auto.
Qed.

Lemma saveCostsToSupabase_walked c op st :
  exists st' dbs,
    saveCostsToSupabase w c op st = (Returned tt, st') /\
    walked w st st' (mkTrail [] [] [] dbs [] [] []).
Proof.
  destruct (quiet_walked0 (saveCostsToSupabase w c op) w st)
    as ([] & st' & dbs & E & W); unfold saveCostsToSupabase.
  - total_auto.
  - keeps_auto.
  - keeps_auto.
  - extends_auto.
  - extends_auto.
  - exists st', dbs. split; assumption.
Qed.

Lemma determineVersion_walked st :
  exists v st' dbs,
    determineVersion w cfg ctx st = (Returned v, st') /\
    walked w st st' (mkTrail [] [] [] dbs [] [] []).
Proof.
  apply quiet_walked0;
    unfold determineVersion, Repositories.getNextVersionNumber.
  - total_auto.
  - keeps_auto.
  - keeps_auto.
  - extends_auto.
  - extends_auto.
Qed.

End Steps.

(** ** The steps that own a collaborator *)

Ltac delta_prim st :=
  unfold delta; destruct st; simpl; rewrite ?app_nil_r;
  repeat split; try lia; try constructor;
  try (exists []; rewrite app_nil_r; reflexivity);
  try (eexists [_]; reflexivity).

Lemma callRegistry_delta w a st :
  delta w st (snd (callRegistry w a st)) tnil.
Proof. unfold callRegistry, tnil. delta_prim st. Qed.

Lemma loggerWarn_delta w msg st :
  loggerWarn msg st = (Returned tt, snd (loggerWarn msg st)) /\
  delta w st (snd (loggerWarn msg st)) tnil.
Proof. split; [ reflexivity | ]. unfold loggerWarn, tnil. delta_prim st. Qed.

Lemma loggerError_delta w msg st :
  loggerError msg st = (Returned tt, snd (loggerError msg st)) /\
  delta w st (snd (loggerError msg st)) tnil.
Proof. split; [ reflexivity | ]. unfold loggerError, tnil. delta_prim st. Qed.

Lemma injection_delta w gp v st :
  let r := createInjectionFromPrompt w gp v st in
  exists c,
    delta w st (snd r) (mkTrail [] [] [] [] [] [c] []) /\
    fst r = packaging_createInjectionFromPrompt w (length (injectionCalls st)) gp v.
Proof.
  simpl.
  exists (mkInjectionCall gp v
            (isReturned (packaging_createInjectionFromPrompt w
                           (length (injectionCalls st)) gp v))).
  split; [ | reflexivity ].
  unfold createInjectionFromPrompt. simpl. delta_prim st.
Qed.

Lemma createPromptVersion_delta w data st :
  let r := Repositories.createPromptVersion w data st in
  exists c,
    db_op c = OpCreatePromptVersion data /\
    db_ok c = isReturned (fst r) /\
    delta w st (snd r)
      (mkTrail [] [] [] [c] [] [] (if isReturned (fst r) then [data] else [])).
Proof.
  unfold Repositories.createPromptVersion. cbv zeta.
  destruct (db_fault w (length (dbCalls st)) (OpCreatePromptVersion data)).
  - exists (mkDbCall (OpCreatePromptVersion data) false).
    split; [ reflexivity | ]. split; [ reflexivity | ]. delta_prim st.
  - destruct (Repositories.violatesUnique (promptVersions st) data).
    + exists (mkDbCall (OpCreatePromptVersion data) false).
      split; [ reflexivity | ]. split; [ reflexivity | ]. delta_prim st.
    + exists (mkDbCall (OpCreatePromptVersion data) true).
      split; [ reflexivity | ]. split; [ reflexivity | ]. delta_prim st.
Qed.

Ltac faithful_one :=
  let st := fresh "st" in
  let R := fresh "R" in
  intros st; eexists [_];
  (split; [ destruct st; reflexivity
          | simpl; intros R; repeat constructor; exact R ]).

Ltac faithful_step :=
  first
    [ apply faithful_bind
    | match goal with |- forall _, _ => intro end
    | match goal with
      | |- faithful _ _ (match ?x with _ => _ end) => destruct x
      end
    | apply faithful_keeps; keeps_prim
    | faithful_one ].

Ltac faithful_auto := repeat faithful_step.

Ltac blames_one :=
  let st := fresh "st" in
  let R := fresh "R" in
  intros st; eexists [_];
  (split; [ destruct st; reflexivity
          | simpl; intros R; constructor; unfold sheetOk; simpl;
            rewrite R; discriminate ]).

Ltac blames_step :=
  first
    [ apply blames_bind
    | match goal with |- forall _, _ => intro end
    | match goal with
      | |- blames _ _ (match ?x with _ => _ end) => destruct x
      end
    | apply blames_total; [ keeps_prim | total_auto ]
    | blames_one ].

Ltac blames_auto := repeat blames_step.

Lemma logCostsToSheets_delta w a s cfg v b p st :
  let r := logCostsToSheets w a s cfg v b p st in
  exists shs,
    delta w st (snd r) (mkTrail [] [] [] [] shs [] []) /\
    (isReturned (fst r) = true -> Forall sheetOk shs) /\
    (isReturned (fst r) = false -> Exists (fun c => sheet_ok c = false) shs).
Proof.
  intros r.
  assert (K : keeps offSheets (logCostsToSheets w a s cfg v b p))
    by (unfold logCostsToSheets; keeps_auto).
  assert (F : faithful sheetCalls sheetOk (logCostsToSheets w a s cfg v b p))
    by (unfold logCostsToSheets; faithful_auto).
  assert (G : blames sheetCalls sheetOk (logCostsToSheets w a s cfg v b p))
    by (unfold logCostsToSheets; blames_auto).
  specialize (K st). destruct (F st) as (shs & Hs & Hok).
  destruct (G st) as (shs' & Hs' & Hbad).
  fold r in K, Hs, Hok, Hs', Hbad.
  assert (shs' = shs) by (rewrite Hs in Hs'; exact (app_inv_head _ _ _ (eq_sym Hs'))).
  subst shs'.
  exists shs. split; [ | split; [ exact Hok | ] ].
  2: { intros R. specialize (Hbad R). apply List.Exists_exists in Hbad.
       apply List.Exists_exists. destruct Hbad as (c & Hc & Hn).
       exists c. split; [ exact Hc | ].
       unfold sheetOk in Hn. destruct (sheet_ok c); congruence. }
  unfold offSheets in K. inversion K as [[Ku Kc Kl Ki Kp Kst Kd Kg]].
  unfold delta. simpl. rewrite Ku, Kc, Kl, Ki, Kp, Kst, Kd, Kg, Hs, !app_nil_r.
  repeat split; try lia; try constructor. exists []. rewrite app_nil_r. reflexivity.
Qed.

Section Blocks.

Variable w : Env.
Variable cfg : PipelineConfig.
Variable ctx : option SupabaseContext.
Variable payload : PipelineBriefingInput.

Ltac owned_easy :=
  first [ left; reflexivity
        | solve [ right; constructor ]
        | solve [ left; simpl; auto 10 ]
        | solve [ right; simpl; auto 10 ]
        | solve [ right; rewrite ?app_nil_r;
                  repeat (apply Forall_app; split); assumption ] ].

Lemma savePromptVersion_walked gp inj v vn st :
  exists st' t,
    savePromptVersion w cfg ctx payload gp inj v vn st = (Returned tt, st') /\
    walked w st st' t /\ t_calls t = [] /\ t_entries t = [] /\
    (t_steps t = [] \/
     t_steps t = [entered SavePromptVersion; finished SavePromptVersion] \/
     t_steps t = [entered SavePromptVersion; saveFailed]).
Proof.
  unfold savePromptVersion. destruct (activeContext cfg ctx) as [c |].
  2: { exists st, tnil. split; [ reflexivity | ].
       split; [ apply walked_refl | ]. auto. }
  destruct (logStep_delta w cfg ctx SavePromptVersion running None st)
    as (st1 & dbs1 & E1 & P1 & D1).
  rewrite (bind_Returned _ _ _ _ _ E1).
  match goal with
  | |- context [ Repositories.createPromptVersion w ?data ] =>
      destruct (createPromptVersion_delta w data st1) as (c0 & Hop & Hok & D2);
      cbv zeta in Hok, D2;
      destruct (Repositories.createPromptVersion w data st1)
        as [[[] | e] st2] eqn:E2
  end; simpl in Hok, D2.
  - destruct (logStep_delta w cfg ctx SavePromptVersion completed None st2)
      as (st3 & dbs3 & E3 & P3 & D3).
    eexists st3, _. split.
    { unfold tryCatch, bind. rewrite E2, E3. reflexivity. }
    split; [ split | ].
    + exact (delta_trans _ _ _ _ _ _ (delta_trans _ _ _ _ _ _ D1 D2) D3).
    + unfold owned, tapp. simpl. repeat split; try owned_easy.
      * right. apply Forall_app. split; [ apply Forall_app; split | exact P3 ].
        -- exact P1.
        -- constructor; [ intros _; exact Hok | constructor ].
      * intros [H | [H | []]]; discriminate H.
      * intros [H | [H | []]]; discriminate H.
    + simpl. auto.
  - destruct (loggerWarn_delta w "Failed to save prompt version to Supabase" st2)
      as (EW & DW).
    destruct (logStep_delta w cfg ctx SavePromptVersion failed
                (Some "Failed to save to Supabase (non-fatal)"%string)
                (snd (loggerWarn "Failed to save prompt version to Supabase" st2)))
      as (st3 & dbs3 & E3 & P3 & D3).
    eexists st3, _. split.
    { unfold tryCatch. unfold bind at 1. rewrite E2.
      rewrite (bind_Returned _ _ _ _ _ EW). exact E3. }
    split; [ split | ].
    + exact (delta_trans _ _ _ _ _ _
               (delta_trans _ _ _ _ _ _ (delta_trans _ _ _ _ _ _ D1 D2) DW) D3).
    + unfold owned, tapp. simpl. repeat split; try owned_easy.
      * intros _. apply Exists_app. left. apply Exists_app. left.
        apply Exists_app. right. constructor. split; [ | exact Hok ].
        rewrite Hop. reflexivity.
      * intros [H | [H | []]]; discriminate H.
    + simpl. auto.
Qed.

Lemma logCosts_walked gp v st :
  exists st' t,
    logCosts w cfg ctx payload gp v st = (Returned tt, st') /\
    walked w st st' t /\ t_calls t = [] /\ t_entries t = [] /\
    (t_steps t = [] \/
     t_steps t = [entered LogCosts; finished LogCosts] \/
     t_steps t = [entered LogCosts; logFailed]).
Proof.
  unfold logCosts. destruct (enableCostTracking cfg).
  2: { exists st, tnil. split; [ reflexivity | ].
       split; [ apply walked_refl | ]. auto. }
  destruct (logStep_delta w cfg ctx LogCosts running None st)
    as (st1 & dbs1 & E1 & P1 & D1).
  rewrite (bind_Returned _ _ _ _ _ E1).
  match goal with
  | |- context [ logCostsToSheets w ?a ?s ?c ?ver ?b ?p ] =>
      destruct (logCostsToSheets_delta w a s c ver b p st1)
        as (shs & D2 & Hok & Hbad);
      cbv zeta in Hok, Hbad, D2;
      destruct (logCostsToSheets w a s c ver b p st1) as [[[] | e] st2] eqn:E2
  end; simpl in Hok, Hbad, D2.
  - destruct (logStep_delta w cfg ctx LogCosts completed None st2)
      as (st3 & dbs3 & E3 & P3 & D3).
    eexists st3, _. split.
    { unfold tryCatch, bind. rewrite E2, E3. reflexivity. }
    split; [ split | ].
    + exact (delta_trans _ _ _ _ _ _ (delta_trans _ _ _ _ _ _ D1 D2) D3).
    + specialize (Hok eq_refl).
      unfold owned, tapp. simpl. repeat split; try owned_easy.
      * intros [H | [H | []]]; discriminate H.
      * intros [H | [H | []]]; discriminate H.
    + simpl. auto.
  - destruct (loggerWarn_delta w "Failed to log costs to Google Sheets" st2)
      as (EW & DW).
    destruct (logStep_delta w cfg ctx LogCosts failed
                (Some "Failed to log to Google Sheets (non-fatal)"%string)
                (snd (loggerWarn "Failed to log costs to Google Sheets" st2)))
      as (st3 & dbs3 & E3 & P3 & D3).
    eexists st3, _. split.
    { unfold tryCatch. unfold bind at 1. rewrite E2.
      rewrite (bind_Returned _ _ _ _ _ EW). exact E3. }
    split; [ split | ].
    + exact (delta_trans _ _ _ _ _ _
               (delta_trans _ _ _ _ _ _ (delta_trans _ _ _ _ _ _ D1 D2) DW) D3).
    + specialize (Hbad eq_refl).
      unfold owned, tapp. simpl. repeat split; try owned_easy.
      * intros [H | [H | []]]; discriminate H.
      * intros _. rewrite !app_nil_r. exact Hbad.
    + simpl. auto.
Qed.

End Blocks.

(** ** The failed result *)

Section Results.

Variable w : Env.
Variable payload : PipelineBriefingInput.

Lemma briefingIdOf_returns st :
  exists bid st',
    briefingIdOf w payload st = (Returned bid, st') /\
    (st' = st \/ st' = setIdCount (S (idCount st)) st).
Proof.
  unfold briefingIdOf. destruct (b_id (p_briefing payload)).
  - eexists _, _. split; [ reflexivity | right; reflexivity ].
  - eexists _, _. split; [ reflexivity | left; reflexivity ].
Qed.

Lemma createFailedResult_spec pid err ctx st :
  exists r st' dbs,
    createFailedResult w payload pid err ctx st = (Returned r, st') /\
    walked w st st' (mkTrail [] [] [] dbs [] [] []) /\
    r_status r = failed /\ r_error r = err /\
    r_generatedPrompt r = None /\ r_injectionFile r = None /\
    r_costEntries r = sessionCosts st' /\ r_steps r = steps st'.
Proof.
  destruct (quiet_walked0 (createFailedResult w payload pid err ctx) w st)
    as (r & st' & dbs & E & W).
  - unfold createFailedResult, briefingIdOf. total_auto.
  - unfold createFailedResult, briefingIdOf. keeps_auto.
  - unfold createFailedResult, briefingIdOf. keeps_auto.
  - unfold createFailedResult, briefingIdOf. extends_auto.
  - unfold createFailedResult, briefingIdOf. extends_auto.
  - exists r, st', dbs. split; [ exact E | ]. split; [ exact W | ].
    revert E. unfold createFailedResult.
    match goal with
    | |- context [ bind ?m ?k st ] =>
        destruct (m st) as [[[] | e] st1] eqn:E1;
        [ rewrite (bind_Returned m k st _ _ E1)
        | rewrite (bind_Threw m k st _ _ E1); discriminate ]
    end.
    destruct (briefingIdOf_returns st1) as (bid & st2 & E2 & Hst2).
    rewrite (bind_Returned _ _ _ _ _ E2).
    unfold bind, Usage.getSessionCosts, gets, ret. intros E.
    inversion E; subst. simpl. repeat split; reflexivity.
Qed.

Lemma prologue_spec {A} (k : string -> string -> M A) st :
  exists pid bid st0,
    started st st0 /\
    bind (modify (setSteps []))
      (fun _ => bind Usage.resetSession
         (fun _ => bind (Validation.generateId w "pipeline")
            (fun pid => bind (briefingIdOf w payload)
               (fun bid => k pid bid)))) st
    = k pid bid st0.
Proof.
  unfold briefingIdOf. destruct (b_id (p_briefing payload)) eqn:Eb.
  - eexists _, _, _. split; [ | unfold bind; simpl; reflexivity ].
    destruct st; unfold started; simpl; repeat split; reflexivity.
  - eexists _, _, _. split; [ | unfold bind; simpl; reflexivity ].
    destruct st; unfold started; simpl; repeat split; reflexivity.
Qed.

End Results.

(** ** The run as a whole *)

Lemma owned_tnil : owned tnil.
Proof. apply owned_of; auto using noAuxFailure_nil. Qed.

Lemma owned_tapp_injection t c :
  owned t -> In (entered CreateInjectionFile) (t_steps t) ->
  owned (tapp t (mkTrail [] [] [] [] [] [c] [])).
Proof.
  intros (A & B & C & D & E & F & G) Hin. unfold owned, tapp. simpl.
  rewrite !app_nil_r. repeat split; auto.
Qed.

Section Run.

Variable w : Env.
Variable cfg : PipelineConfig.
Variable payload : PipelineBriefingInput.
Variable pid bid : string.
Variable ctx : option SupabaseContext.

(** [walk_with H W L]: run the next computation of [H] with the lemma
    [L], which says that it returns and how it walks, and extend [W]. *)
Ltac walk_with H W L :=
  let st' := fresh "st" in
  let dbs := fresh "dbs" in
  let E := fresh "E" in
  let W' := fresh "W" in
  destruct L as (st' & dbs & E & W');
  rewrite (bind_Returned _ _ _ _ _ E) in H;
  apply (walked_trans _ _ _ _ _ _ W) in W'; clear W E;
  rename W' into W.

Ltac walk_logStep H W :=
  match type of H with
  | bind (logStep w cfg ctx ?n ?s ?e) _ ?st = _ =>
      walk_with H W
        (logStep_walked w cfg ctx n s e st
           ltac:(apply noAuxFailure_one; discriminate))
  end.

Ltac steps_known := simpl; rewrite ?app_nil_r; reflexivity.

Lemma failedResult_verdict st1 st t err o st2 :
  walked w st1 st t ->
  Failure w payload (t_calls t) (t_steps t) err ->
  createFailedResult w payload pid err ctx st = (o, st2) ->
  exists t',
    walked w st1 st2 t' /\
    match o with
    | Returned r =>
        r_costEntries r = sessionCosts st2 /\ r_steps r = steps st2 /\
        Verdict w payload cfg r (t_calls t') (t_steps t')
    | Threw e => Failure w payload (t_calls t') (t_steps t') (Some e)
    end.
Proof.
  intros W F H.
  destruct (createFailedResult_spec w payload pid err ctx st)
    as (r & st' & dbs & E & W' & Hs & He & Hg & Hi & Hc & Hst).
  rewrite E in H. inversion H; subst o st2. clear H.
  eexists. split; [ exact (walked_trans _ _ _ _ _ _ W W') | ].
  split; [ exact Hc | ]. split; [ exact Hst | ].
  left. simpl. rewrite !app_nil_r, He. auto.
Qed.

Lemma steps1to6_spec st1 o st2 :
  steps1to6 w cfg payload pid bid ctx st1 = (o, st2) ->
  exists t,
    walked w st1 st2 t /\
    match o with
    | Returned r =>
        r_costEntries r = sessionCosts st2 /\ r_steps r = steps st2 /\
        Verdict w payload cfg r (t_calls t) (t_steps t)
    | Threw e => Failure w payload (t_calls t) (t_steps t) (Some e)
    end.
Proof.
  intros H. unfold steps1to6 in H.
  pose proof (walked_refl w st1) as W.
  walk_logStep H W.
  (* the registry *)
  pose proof (conj (callRegistry_delta w (p_accountId payload) st) owned_tnil
              : walked w st (snd (callRegistry w (p_accountId payload) st)) tnil)
    as DR.
  assert (ER : fst (callRegistry w (p_accountId payload) st) =
               registry_loadAccountConfig w (length (registryCalls st))
                 (p_accountId payload)) by reflexivity.
  destruct (callRegistry w (p_accountId payload) st) as [[config | e] st3] eqn:EC;
    simpl in DR, ER;
    [ rewrite (bind_Returned _ _ _ _ _ EC) in H
    | rewrite (bind_Threw _ _ _ _ _ EC) in H ];
    apply (walked_trans _ _ _ _ _ _ W) in DR; clear W; rename DR into W.
  2: { inversion H; subst. eexists. split; [ exact W | ].
       eapply RegistryThrew; [ symmetry; exact ER | steps_known | steps_known ]. }
  destruct config as [config |].
  2: { walk_logStep H W.
       eapply failedResult_verdict; [ exact W | | exact H ].
       eapply AccountNotFound; [ symmetry; exact ER | steps_known | steps_known ]. }
  destruct (valid (registry_validateApiKeyConfigured w)) eqn:EV; simpl in H.
  2: { walk_logStep H W.
       eapply failedResult_verdict; [ exact W | | exact H ].
       eapply KeyNotConfigured; [ exact EV | steps_known | steps_known ]. }
  walk_logStep H W. walk_logStep H W.
  (* the generator *)
  match type of H with
  | bind (Generator.generatePromptWithIteration w ?b ?a ?mi) _ ?s = _ =>
      destruct (generatePromptWithIteration_spec w b a mi s)
        as (calls & entries & B & G);
      cbv zeta in B, G;
      destruct (Generator.generatePromptWithIteration w b a mi s)
        as [[gp | e] st6] eqn:EG;
      simpl in B, G;
      [ rewrite (bind_Returned _ _ _ _ _ EG) in H
      | rewrite (bind_Threw _ _ _ _ _ EG) in H ]
  end;
    apply billing_walked in B;
    apply (walked_trans _ _ _ _ _ _ W) in B; clear W; rename B into W.
  2: { inversion H; subst. eexists. split; [ exact W | ].
       eapply GenerationThrew; [ | steps_known ].
       simpl. exact G. }
  destruct G as (Gok & Gvia & Git & Gcontent & _ & _).
  walk_logStep H W.
  (* the costs of the step *)
  match type of H with
  | bind ?m _ ?s = _ =>
      assert (HS : exists st' dbs,
                 m s = (Returned tt, st') /\
                 walked w s st' (mkTrail [] [] [] dbs [] [] []))
  end.
  { destruct (activeContext cfg ctx) as [c |].
    - apply saveCostsToSupabase_walked.
    - eexists _, []. split; [ reflexivity | apply walked_refl ]. }
  walk_with H W HS.
  walk_logStep H W.
  (* the version *)
  match type of H with
  | bind (determineVersion _ _ _) _ ?s = _ =>
      destruct (determineVersion_walked w cfg ctx s)
        as ([version versionNumber] & stV & dbsV & E8 & W8)
  end.
  rewrite (bind_Returned _ _ _ _ _ E8) in H.
  apply (walked_trans _ _ _ _ _ _ W) in W8; clear W E8; rename W8 into W.
  walk_logStep H W. walk_logStep H W.
  (* the packaging *)
  match type of H with
  | bind (createInjectionFromPrompt w gp version) _ ?s = _ =>
      destruct (injection_delta w gp version s) as (ci & DI & EI);
      cbv zeta in DI, EI; destruct W as [WD WO];
      assert (W : walked w st1
                    (snd (createInjectionFromPrompt w gp version s)) _)
        by (split; [ exact (delta_trans _ _ _ _ _ _ WD DI)
                   | apply owned_tapp_injection;
                     [ exact WO | simpl; auto 20 ] ]);
      clear WD WO DI;
      destruct (createInjectionFromPrompt w gp version s)
        as [[injectionFile | e] stJ] eqn:EJ; simpl in EI, W;
      [ rewrite (bind_Returned _ _ _ _ _ EJ) in H
      | rewrite (bind_Threw _ _ _ _ _ EJ) in H ]
  end.
  2: { inversion H; subst. eexists. split; [ exact W | ].
       eapply PackagingThrew; [ symmetry; exact EI | | steps_known ].
       simpl. rewrite !app_nil_r. exact Gok. }
  walk_logStep H W.
  (* the auxiliary writes *)
  match type of H with
  | bind (savePromptVersion _ _ _ _ _ _ _ _) _ ?s = _ =>
      destruct (savePromptVersion_walked w cfg ctx payload gp injectionFile
                  version versionNumber s)
        as (stS & t5 & E13 & W13 & C13 & N13 & S13)
  end.
  rewrite (bind_Returned _ _ _ _ _ E13) in H.
  apply (walked_trans _ _ _ _ _ _ W) in W13; clear W E13; rename W13 into W.
  destruct (logCosts_walked w cfg ctx payload gp version stS)
    as (stL & t6 & E14 & W14 & C14 & N14 & S14).
  rewrite (bind_Returned _ _ _ _ _ E14) in H.
  apply (walked_trans _ _ _ _ _ _ W) in W14; clear W E14; rename W14 into W.
  match type of H with
  | bind ?m _ ?s = _ =>
      assert (HC : exists st' dbs,
                 m s = (Returned tt, st') /\
                 walked w s st' (mkTrail [] [] [] dbs [] [] []))
  end.
  { match goal with
    | |- exists st' dbs, ?m ?s = _ /\ _ =>
        destruct (quiet_walked0 m w s) as ([] & stC & dbsC & EC' & WC)
    end.
    - total_auto.
    - keeps_auto.
    - keeps_auto.
    - extends_auto.
    - extends_auto.
    - exists stC, dbsC. split; assumption. }
  walk_with H W HC.
  unfold bind, Usage.getSessionCosts, gets, ret in H.
  inversion H; subst o st2. clear H.
  eexists. split; [ exact W | ]. simpl.
  split; [ reflexivity | ]. split; [ reflexivity | ].
  right. split; [ reflexivity | ]. split; [ reflexivity | ].
  exists gp, injectionFile. split; [ reflexivity | ]. split; [ reflexivity | ].
  rewrite C13, C14, !app_nil_r.
  split; [ exact Gok | ]. split; [ exact Gvia | ].
  split; [ exact Git | ]. split; [ exact Gcontent | ].
  exists (t_steps t5), (t_steps t6).
  split; [ reflexivity | ]. split; assumption.
Qed.

End Run.

(** Every run returns a result; the state it ends in is reached from the
    reset state by a trail that the result describes. *)
Lemma runPipeline_spec w payload config st :
  exists r st' st0 t,
    runPipeline w payload config st = (Returned r, st') /\
    started st st0 /\
    walked w st0 st' t /\
    r_costEntries r = sessionCosts st' /\
    r_steps r = steps st' /\
    Verdict w payload (spread DEFAULT_CONFIG config) r (t_calls t) (t_steps t).
Proof.
  unfold runPipeline. cbv zeta.
  set (cfg := spread DEFAULT_CONFIG config).
  destruct (prologue_spec w payload
              (fun pid bid =>
                 bind (establishContext w cfg payload pid bid)
                   (fun supabaseContext =>
                      tryCatch
                        (steps1to6 w cfg payload pid bid supabaseContext)
                        (fun errorMessage =>
                           bind (loggerError "Pipeline failed")
                             (fun _ =>
                                createFailedResult w payload pid
                                  (Some errorMessage) supabaseContext)))) st)
    as (pid & bid & st0 & S0 & E0).
  rewrite E0. clear E0.
  destruct (establishContext_walked w cfg payload pid bid st0)
    as (ctx & st1 & dbs1 & E1 & W1).
  rewrite (bind_Returned _ _ _ _ _ E1).
  unfold tryCatch.
  destruct (steps1to6 w cfg payload pid bid ctx st1) as [[r | e] st2] eqn:E2;
    destruct (steps1to6_spec w cfg payload pid bid ctx st1 _ _ E2) as (t & W2 & V).
  - destruct V as (Vc & Vs & V).
    exists r, st2, st0, (tapp (mkTrail [] [] [] dbs1 [] [] []) t).
    split; [ reflexivity | ]. split; [ exact S0 | ].
    split; [ exact (walked_trans _ _ _ _ _ _ W1 W2) | ].
    split; [ exact Vc | ]. split; [ exact Vs | ]. exact V.
  - destruct (loggerError_delta w "Pipeline failed" st2) as (EL & DL).
    rewrite (bind_Returned _ _ _ _ _ EL).
    pose proof (walked_trans _ _ _ _ _ _ (walked_trans _ _ _ _ _ _ W1 W2)
                  (conj DL owned_tnil)) as W3.
    destruct (createFailedResult w payload pid (Some e) ctx
                (snd (loggerError "Pipeline failed" st2))) as [o st4] eqn:E4.
    destruct (failedResult_verdict w cfg payload pid ctx _ _ _ _ _ _ W3
                ltac:(simpl; rewrite !app_nil_r; exact V) E4) as (t' & W4 & V4).
    destruct (createFailedResult_spec w payload pid (Some e) ctx
                (snd (loggerError "Pipeline failed" st2)))
      as (r & st' & dbs & E & _).
    rewrite E in E4. inversion E4; subst o st4.
    destruct V4 as (Vc & Vs & V4).
    exists r, st', st0, t'. repeat (split; [ assumption | ]). exact V4.
Qed.

Import Claims.

(* ================================================================== *)
(** * C5: the cost calculator *)

Lemma MODEL_PRICING_ok model p :
  CostTracker.MODEL_PRICING !! model = Some p -> pricingOk p.
Proof.
  unfold CostTracker.MODEL_PRICING. intros H.
  repeat (rewrite lookup_insert in H; case_decide;
          [ inversion H; subst; clear H;
            repeat split; simpl; discriminate | ]).
  rewrite lookup_empty in H. discriminate.
Qed.

Lemma pricingFor_ok model : pricingOk (pricingFor model).
Proof.
  unfold pricingFor.
  destruct (CostTracker.MODEL_PRICING !! model) as [p |] eqn:E.
  - exact (MODEL_PRICING_ok model p E).
  - exact (MODEL_PRICING_ok _ _ lookup_opus).
Qed.

Lemma perMillion_nonneg t p :
  0 <= t -> (0 <= p)%Q -> (0 <= CostTracker.perMillion t p)%Q.
Proof.
  intros Ht Hp. unfold CostTracker.perMillion.
  apply Qmult_le_0_compat; [ | exact Hp ].
  unfold Qdiv. apply Qmult_le_0_compat.
  - change 0%Q with (inject_Z 0). rewrite <- Zle_Qle. exact Ht.
  - discriminate.
Qed.

Lemma perMillion_linear t p :
  (CostTracker.perMillion t p == inject_Z t * (p / 1000000))%Q.
Proof. unfold CostTracker.perMillion. field. Qed.

Lemma cacheTerm_linear tokens price :
  (cacheTerm tokens price ==
   inject_Z (tokensOr0 tokens) * (priceOr0 price / 1000000))%Q.
Proof.
  unfold cacheTerm, CostTracker.truthyZ, CostTracker.truthyQ.
  destruct tokens as [t |]; simpl.
  - destruct (Z.eqb_spec t 0) as [-> | Ht].
    + simpl. field.
    + destruct price as [p |]; simpl.
      * destruct (Qeq_bool p 0) eqn:Ep.
        -- apply Qeq_bool_eq in Ep. rewrite Ep. field.
        -- apply perMillion_linear.
      * field.
  - field.
Qed.

Lemma cacheTerm_nonneg tokens price :
  0 <= tokensOr0 tokens -> (0 <= priceOr0 price)%Q ->
  (0 <= cacheTerm tokens price)%Q.
Proof.
  intros Ht Hp. rewrite cacheTerm_linear.
  apply Qmult_le_0_compat.
  - change 0%Q with (inject_Z 0). rewrite <- Zle_Qle. exact Ht.
  - unfold Qdiv. apply Qmult_le_0_compat; [ exact Hp | discriminate ].
Qed.

Lemma calculateCostWithPricing_usd u p :
  let c := CostTracker.calculateCostWithPricing u p in
  inputCost c = Usd (CostTracker.perMillion (inputTokens u) (inputPer1M p)) /\
  outputCost c = Usd (CostTracker.perMillion (outputTokens u) (outputPer1M p)) /\
  totalCostUsd c = Usd (usd (totalCostUsd c)).
Proof. cbv zeta. repeat split. Qed.

Lemma calculateCostWithPricing_cache u p :
  let c := CostTracker.calculateCostWithPricing u p in
  (usd (totalCostUsd c) ==
   CostTracker.perMillion (inputTokens u) (inputPer1M p)
   + CostTracker.perMillion (outputTokens u) (outputPer1M p)
   + (cacheTerm (cacheReadTokens u) (cacheReadPer1M p)
      + cacheTerm (cacheWriteTokens u) (cacheWritePer1M p)))%Q /\
  (cacheOr0 c ==
   cacheTerm (cacheReadTokens u) (cacheReadPer1M p)
   + cacheTerm (cacheWriteTokens u) (cacheWritePer1M p) \/
   cacheOr0 c == 0 /\
   cacheTerm (cacheReadTokens u) (cacheReadPer1M p)
   + cacheTerm (cacheWriteTokens u) (cacheWritePer1M p) <= 0)%Q.
Proof.
  unfold CostTracker.calculateCostWithPricing, cacheTerm, cacheOr0, usd.
  cbv zeta.
  destruct (CostTracker.truthyZ (cacheReadTokens u)) as [t1 |];
    destruct (CostTracker.truthyQ (cacheReadPer1M p)) as [p1 |];
    destruct (CostTracker.truthyZ (cacheWriteTokens u)) as [t2 |];
    destruct (CostTracker.truthyQ (cacheWritePer1M p)) as [p2 |];
    simpl;
    (split; [ ring | ]);
    try match goal with
        | |- context [ Qlt_le_dec 0 ?x ] => destruct (Qlt_le_dec 0 x) as [L | L]
        end; simpl;
    first [ left; ring
          | right; split; [ reflexivity | ];
            eapply Qle_trans; [ | exact L ]; apply Qle_lteq; right; ring ].
Qed.

Lemma existsb_In_eqb model keys :
  existsb (String.eqb model) keys = true <-> In model keys.
Proof.
  rewrite List.existsb_exists. split.
  - intros (k & Hk & E). apply String.eqb_eq in E. subst k. exact Hk.
  - intros H. exists model. split; [ exact H | apply String.eqb_refl ].
Qed.

(** What calculateCost does, by what the lookup finds. *)
Lemma calculateCost_cases u model st :
  match CostTracker.lookupPricing model with
  | CostTracker.OwnEntry p =>
      pricingFor model = p /\
      CostTracker.MODEL_PRICING !! model = Some p /\
      CostTracker.calculateCost u model st =
        (Returned (CostTracker.calculateCostWithPricing u p), st)
  | CostTracker.Inherited =>
      CostTracker.MODEL_PRICING !! model = None /\
      In model CostTracker.objectPrototypeKeys /\
      CostTracker.calculateCost u model st =
        (Returned (CostTracker.calculateCostWithoutPrices u), st)
  | CostTracker.Undefined =>
      pricingFor model = opusPricing /\
      CostTracker.MODEL_PRICING !! model = None /\
      CostTracker.calculateCost u model st =
        (Returned (CostTracker.calculateCostWithPricing u opusPricing),
         setLogs
           (logs st ++
            [mkLogLine LvlWarn
               ("Unknown model pricing: " ++ model ++ ", using opus pricing")])
           st)
  end.
Proof.
  unfold CostTracker.calculateCost, CostTracker.lookupPricing, pricingFor.
  destruct (CostTracker.MODEL_PRICING !! model) as [p |] eqn:E.
  - repeat split.
  - destruct (existsb (String.eqb model) CostTracker.objectPrototypeKeys)
      eqn:K.
    + split; [ reflexivity | ]. split; [ | reflexivity ].
      apply existsb_In_eqb. exact K.
    + split; [ reflexivity | ]. split; [ reflexivity | ].
      rewrite lookup_opus. reflexivity.
Qed.

Lemma calculateCost_pricingFor u model st :
  inheritedKey model = false ->
  exists st',
    CostTracker.calculateCost u model st =
    (Returned (CostTracker.calculateCostWithPricing u (pricingFor model)), st').
Proof.
  intros H. pose proof (calculateCost_cases u model st) as C.
  unfold inheritedKey in H.
  destruct (CostTracker.lookupPricing model) as [p | |];
    [ | discriminate | ].
  - destruct C as (-> & _ & E). eexists. exact E.
  - destruct C as (-> & _ & E). eexists. exact E.
Qed.

(** What the claim C5 says of calculateCost, proved for every model that
    is not an inherited key. *)
Lemma calculateCost_breakdown u model st :
  usageWf u -> inheritedKey model = false ->
  exists c st',
    CostTracker.calculateCost u model st = (Returned c, st') /\
    (CostTracker.MODEL_PRICING !! model = None ->
     CostTracker.MODEL_PRICING !! Usage.DEFAULT_MODEL = Some (pricingFor model)) /\
    exists input output total : Q,
      inputCost c = Usd input /\ outputCost c = Usd output /\
      totalCostUsd c = Usd total /\
      (total == input + output + cacheOr0 c)%Q /\
      (0 <= input)%Q /\ (0 <= output)%Q /\ (0 <= cacheOr0 c)%Q /\
      (input ==
       inject_Z (inputTokens u) * (inputPer1M (pricingFor model) / 1000000))%Q /\
      (output ==
       inject_Z (outputTokens u) * (outputPer1M (pricingFor model) / 1000000))%Q /\
      (cacheOr0 c ==
       inject_Z (tokensOr0 (cacheReadTokens u))
         * (priceOr0 (cacheReadPer1M (pricingFor model)) / 1000000)
       + inject_Z (tokensOr0 (cacheWriteTokens u))
         * (priceOr0 (cacheWritePer1M (pricingFor model)) / 1000000))%Q.
Proof.
  intros (Hin & Hout & Hcr & Hcw) Hk.
  destruct (calculateCost_pricingFor u model st Hk) as (st' & E).
  destruct (pricingFor_ok model) as (Pin & Pout & Pcr & Pcw).
  set (p := pricingFor model) in *.
  exists (CostTracker.calculateCostWithPricing u p), st'.
  split; [ exact E | ].
  split.
  { intros Hnone. subst p. unfold pricingFor. rewrite Hnone. exact lookup_opus. }
  assert (Tr : 0 <= tokensOr0 (cacheReadTokens u)).
  { destruct (cacheReadTokens u) as [t |]; simpl; [ apply Hcr; reflexivity | lia ]. }
  assert (Tw : 0 <= tokensOr0 (cacheWriteTokens u)).
  { destruct (cacheWriteTokens u) as [t |]; simpl; [ apply Hcw; reflexivity | lia ]. }
  pose proof (cacheTerm_nonneg _ _ Tr Pcr) as Nr.
  pose proof (cacheTerm_nonneg _ _ Tw Pcw) as Nw.
  assert (Ns : (0 <= cacheTerm (cacheReadTokens u) (cacheReadPer1M p)
                   + cacheTerm (cacheWriteTokens u) (cacheWritePer1M p))%Q).
  { change 0%Q with (0 + 0)%Q. apply Qplus_le_compat; assumption. }
  destruct (calculateCostWithPricing_cache u p) as (Htot & Hcache).
  destruct (calculateCostWithPricing_usd u p) as (Ui & Uo & Ut).
  cbv zeta in Htot, Hcache, Ui, Uo, Ut.
  assert (Hc : (cacheOr0 (CostTracker.calculateCostWithPricing u p) ==
                cacheTerm (cacheReadTokens u) (cacheReadPer1M p)
                + cacheTerm (cacheWriteTokens u) (cacheWritePer1M p))%Q).
  { destruct Hcache as [Hc | [Hz Hle]]; [ exact Hc | ].
    rewrite Hz. apply Qle_antisym; assumption. }
  eexists _, _, _. split; [ exact Ui | ]. split; [ exact Uo | ].
  split; [ exact Ut | ].
  split; [ rewrite Htot, Hc; reflexivity | ].
  split; [ apply perMillion_nonneg; assumption | ].
  split; [ apply perMillion_nonneg; assumption | ].
  split; [ rewrite Hc; exact Ns | ].
  split; [ apply perMillion_linear | ].
  split; [ apply perMillion_linear | ].
  rewrite Hc, !cacheTerm_linear. reflexivity.
Qed.

(** C5.  The claim holds of calculateCost for every model identifier but
    the names of the properties that the price table, an object literal,
    inherits from Object.prototype.  For those the lookup finds a value,
    so there is no warning and no fallback to the default model, and
    every price read off that value is undefined: the input cost, the
    output cost and the total are NaN.  For every other identifier and
    every usage of non-negative counts the total is the sum of the input,
    output and cache costs, each of them non-negative and its token count
    times a price of the model, a model without an entry being charged
    at the prices of the default model. *)
Theorem C5_inherited_keys_are_not_priced
    (u : TokenUsage) (model : string) (st : St) :
  usageWf u ->
  exists c st',
    CostTracker.calculateCost u model st = (Returned c, st') /\
    if inheritedKey model
    then In model CostTracker.objectPrototypeKeys /\
         c = notANumber /\ st' = st
    else
      (CostTracker.MODEL_PRICING !! model = None ->
       CostTracker.MODEL_PRICING !! Usage.DEFAULT_MODEL
         = Some (pricingFor model)) /\
      exists input output total : Q,
        inputCost c = Usd input /\ outputCost c = Usd output /\
        totalCostUsd c = Usd total /\
        (total == input + output + cacheOr0 c)%Q /\
        (0 <= input)%Q /\ (0 <= output)%Q /\ (0 <= cacheOr0 c)%Q /\
        (input ==
         inject_Z (inputTokens u)
           * (inputPer1M (pricingFor model) / 1000000))%Q /\
        (output ==
         inject_Z (outputTokens u)
           * (outputPer1M (pricingFor model) / 1000000))%Q /\
        (cacheOr0 c ==
         inject_Z (tokensOr0 (cacheReadTokens u))
           * (priceOr0 (cacheReadPer1M (pricingFor model)) / 1000000)
         + inject_Z (tokensOr0 (cacheWriteTokens u))
           * (priceOr0 (cacheWritePer1M (pricingFor model)) / 1000000))%Q.
Proof.
  intros W. destruct (inheritedKey model) eqn:K.
  - pose proof (calculateCost_cases u model st) as C.
    unfold inheritedKey in K.
    destruct (CostTracker.lookupPricing model); try discriminate.
    destruct C as (_ & Hin & E).
    eexists _, st. split; [ exact E | ]. split; [ exact Hin | ].
    split; reflexivity.
  - destruct (calculateCost_breakdown u model st W K) as (c & st' & E & H).
    exists c, st'. split; [ exact E | exact H ].
Qed.

Lemma C5_inherited_keys_are_not_priced_witness :
  usageWf (mkTokenUsage 100 50 None None) /\
  CostTracker.calculateCost (mkTokenUsage 100 50 None None) "constructor"
    Examples.st0 = (Returned notANumber, Examples.st0).
Proof.
  assert (W : usageWf (mkTokenUsage 100 50 None None)).
  { unfold usageWf. simpl. repeat split; try lia; intros t [=]. }
  split; [ exact W | ].
  destruct (C5_inherited_keys_are_not_priced (mkTokenUsage 100 50 None None)
              "constructor" Examples.st0 W)
    as (c & st' & E & H).
  simpl in H. destruct H as (_ & -> & ->). exact E.
Defined.

(* ================================================================== *)
(** * C1 and C4: the refinement loop *)

Lemma providerReturns_allOk w calls :
  providerReturns w -> Forall (answeredBy w) calls -> allOk calls.
Proof.
  intros P H. induction H as [| c l (n & Hc) _ IH]; constructor; [ | exact IH ].
  unfold llm_ok. rewrite Hc. destruct (P n (llm_request c)) as (resp & ->).
  reflexivity.
Qed.

Lemma allOk_not_endsThrowing e calls : allOk calls -> ~ endsThrowing e calls.
Proof.
  intros Hok (pre & c & -> & _ & Hc).
  apply Forall_app in Hok as [_ Hok]. inversion Hok as [| ? ? H _]; subst.
  unfold llm_ok in H. rewrite Hc in H. discriminate.
Qed.

Lemma countFrom_length i n : length (countFrom i n) = n.
Proof. revert i. induction n as [| n IH]; intros i; simpl; [ | rewrite IH ]; reflexivity. Qed.

Lemma countFrom_nth n : forall i j,
  (j < n)%nat -> nth_error (countFrom i n) j = Some (i + Z.of_nat j + 1).
Proof.
  induction n as [| n IH]; intros i j Hj; [ lia | ].
  destruct j as [| j]; simpl.
  - f_equal. lia.
  - rewrite IH by lia. f_equal. lia.
Qed.

Lemma alternation_length n : length (alternation n) = (2 * n)%nat.
Proof. induction n as [| n IH]; simpl; [ reflexivity | rewrite IH; lia ]. Qed.

Lemma alternation_last n pre (c : LlmCall) :
  map llm_via (pre ++ [c]) = ViaGenerate :: alternation (S n) ->
  llm_via c = ViaImprove.
Proof.
  intros H.
  assert (L : last (map llm_via (pre ++ [c])) = Some ViaImprove).
  { rewrite H. clear H. induction n as [| n IH]; [ reflexivity | ].
    simpl in *. exact IH. }
  rewrite map_app in L. simpl in L. rewrite last_snoc in L.
  inversion L. reflexivity.
Qed.

(** What the loop does when the provider answers every request. *)
Lemma generator_returns w b a mi st :
  providerReturns w ->
  exists gp st' calls,
    Generator.generatePromptWithIteration w b a mi st = (Returned gp, st') /\
    llmCalls st' = llmCalls st ++ calls /\
    allOk calls /\
    map llm_via calls = ViaGenerate :: alternation (Z.to_nat (Js.optNumOr mi 1)) /\
    map iterationNumber (gp_simpleIterations gp) =
      countFrom 0 (Z.to_nat (Js.optNumOr mi 1)) /\
    gp_content gp = lastOutput calls "" /\
    md_iterations (gp_metadata gp) = Js.optNumOr mi 1.
Proof.
  intros P.
  destruct (generatePromptWithIteration_spec w b a mi st)
    as (calls & entries & B & H).
  cbv zeta in B, H.
  destruct (Generator.generatePromptWithIteration w b a mi st)
    as [[gp | e] st'] eqn:E; simpl in B, H.
  - destruct H as (Hok & Hvia & Hit & Hc & _ & Hmd).
    destruct B as (L & _).
    exists gp, st', calls. repeat (split; [ assumption || reflexivity | ]).
    exact Hmd.
  - exfalso. destruct B as (_ & A & _).
    exact (allOk_not_endsThrowing e calls (providerReturns_allOk w calls P A) H).
Qed.

(** What the loop has done when it returns. *)
Lemma generator_returned w b a mi st gp st' :
  Generator.generatePromptWithIteration w b a mi st = (Returned gp, st') ->
  exists calls,
    llmCalls st' = llmCalls st ++ calls /\
    allOk calls /\
    map llm_via calls = ViaGenerate :: alternation (Z.to_nat (Js.optNumOr mi 1)) /\
    map iterationNumber (gp_simpleIterations gp) =
      countFrom 0 (Z.to_nat (Js.optNumOr mi 1)) /\
    gp_content gp = lastOutput calls "" /\
    md_iterations (gp_metadata gp) = Js.optNumOr mi 1.
Proof.
  intros E.
  destruct (generatePromptWithIteration_spec w b a mi st)
    as (calls & entries & B & H).
  cbv zeta in B, H. rewrite E in B, H. simpl in B, H.
  destruct H as (Hok & Hvia & Hit & Hc & _ & Hmd).
  destruct B as (L & _).
  exists calls. repeat (split; [ assumption | ]). exact Hmd.
Qed.

(** C4.  For every [maxIterations = k > 0], the loop returns whenever the
    provider answers, and whenever it returns it has made exactly [2k]
    completion calls after the initial generation, an analyze and an
    improve call alternating; it returns exactly [k] iteration records,
    the [j]-th of which (from 0) has iterationNumber [j + 1]; and the
    returned prompt is the output of the last call, which is an improve
    call. *)
Theorem C4_k_rounds (w : Env) (b : Briefing) (a : string) (k : Z) (st : St) :
  0 < k ->
  (providerReturns w ->
   exists gp st',
     Generator.generatePromptWithIteration w b a (Some k) st = (Returned gp, st')) /\
  forall gp st',
    Generator.generatePromptWithIteration w b a (Some k) st = (Returned gp, st') ->
    exists calls,
      llmCalls st' = llmCalls st ++ calls /\
      map llm_via calls = ViaGenerate :: alternation (Z.to_nat k) /\
      length calls = (1 + 2 * Z.to_nat k)%nat /\
      length (gp_simpleIterations gp) = Z.to_nat k /\
      (forall j, (j < Z.to_nat k)%nat ->
         nth_error (map iterationNumber (gp_simpleIterations gp)) j =
         Some (Z.of_nat j + 1)) /\
      exists pre c resp,
        calls = pre ++ [c] /\ llm_via c = ViaImprove /\
        llm_outcome c = Returned resp /\ gp_content gp = content resp.
Proof.
  intros Hk. split.
  { intros P.
    destruct (generator_returns w b a (Some k) st P) as (gp & st' & _ & E & _).
    exists gp, st'. exact E. }
  intros gp st' E.
  destruct (generator_returned w b a (Some k) st gp st' E)
    as (calls & L & Hok & Hvia & Hit & Hc & _).
  assert (Hn : Js.optNumOr (Some k) 1 = k).
  { simpl. unfold Js.numOr. destruct (Z.eqb_spec k 0); [ lia | reflexivity ]. }
  rewrite Hn in Hvia, Hit.
  exists calls.
  split; [ exact L | ]. split; [ exact Hvia | ].
  split.
  { rewrite <- (length_map llm_via), Hvia. simpl. rewrite alternation_length. lia. }
  split.
  { rewrite <- (length_map iterationNumber), Hit. apply countFrom_length. }
  split.
  { intros j Hj. rewrite Hit, countFrom_nth by exact Hj. f_equal. }
  destruct (Z.to_nat k) as [| n] eqn:En; [ lia | ].
  destruct calls as [| c0 calls0] using rev_ind; [ discriminate | ].
  clear IHcalls0.
  assert (Hvc : llm_via c0 = ViaImprove) by exact (alternation_last n _ _ Hvia).
  apply Forall_app in Hok as [_ Hok]. inversion Hok as [| ? ? Hc0 _]; subst.
  unfold llm_ok in Hc0.
  destruct (llm_outcome c0) as [resp |] eqn:Eo; [ | discriminate ].
  exists calls0, c0, resp. repeat split; auto.
  rewrite Hc. unfold lastOutput. rewrite last_snoc, Eo. reflexivity.
Qed.

Lemma C4_k_rounds_witness :
  0 < 2 /\ providerReturns Examples.stubEnv /\
  exists gp st',
    Generator.generatePromptWithIteration Examples.stubEnv Examples.briefing
      "acc" (Some 2) Examples.st0 = (Returned gp, st') /\
    length (llmCalls st') = 5%nat /\
    length (gp_simpleIterations gp) = 2%nat.
Proof.
  assert (P : providerReturns Examples.stubEnv).
  { intros n req. eexists. reflexivity. }
  split; [ lia | ]. split; [ exact P | ].
  destruct (C4_k_rounds Examples.stubEnv Examples.briefing "acc" 2 Examples.st0
              ltac:(lia))
    as (T & H).
  destruct (T P) as (gp & st' & E).
  destruct (H gp st' E) as (calls & L & _ & Hc & Hl & _).
  exists gp, st'. split; [ exact E | ]. split; [ | exact Hl ].
  rewrite L, length_app, Hc. reflexivity.
Defined.

(** C1, as stated, fails: with [maxIterations = 0] the loop of the stub
    environment does not stop after the generation call with an empty list
    of iterations. *)
Lemma C1_counterexample :
  ~ (exists gp st',
       Generator.generatePromptWithIteration Examples.stubEnv Examples.briefing
         "acc" (Some 0) Examples.st0 = (Returned gp, st') /\
       length (llmCalls st') = 1%nat /\
       gp_simpleIterations gp = []).
Proof.
  intros (gp & st' & E & L & I).
  vm_compute in E. inversion E; subst. discriminate.
Qed.

(** C1, amended.  For every briefing, a [maxIterations] of 0 is replaced by
    the default 1: the loop does what it does for [maxIterations = 1].  It
    returns whenever the provider answers, and whenever it returns it has
    made exactly three completion calls (generate, analyze, improve) and
    returns the output of the improve call, with one iteration record,
    numbered 1. *)
Theorem C1_zero_is_one_round (w : Env) (b : Briefing) (a : string) (st : St) :
  Generator.generatePromptWithIteration w b a (Some 0) st =
  Generator.generatePromptWithIteration w b a (Some 1) st /\
  (providerReturns w ->
   exists gp st',
     Generator.generatePromptWithIteration w b a (Some 0) st = (Returned gp, st')) /\
  forall gp st',
    Generator.generatePromptWithIteration w b a (Some 0) st = (Returned gp, st') ->
    exists calls,
      llmCalls st' = llmCalls st ++ calls /\
      map llm_via calls = [ViaGenerate; ViaAnalyze; ViaImprove] /\
      map iterationNumber (gp_simpleIterations gp) = [1] /\
      gp_content gp = lastOutput calls "" /\
      md_iterations (gp_metadata gp) = 1.
Proof.
  split; [ reflexivity | ]. split.
  { intros P.
    destruct (generator_returns w b a (Some 0) st P) as (gp & st' & _ & E & _).
    exists gp, st'. exact E. }
  intros gp st' E.
  destruct (generator_returned w b a (Some 0) st gp st' E)
    as (calls & L & _ & Hvia & Hit & Hc & Hmd).
  exists calls. repeat (split; [ assumption | ]). exact Hmd.
Qed.

Lemma C1_zero_is_one_round_witness :
  exists gp st',
    Generator.generatePromptWithIteration Examples.stubEnv Examples.briefing
      "acc" (Some 0) Examples.st0 = (Returned gp, st') /\
    length (llmCalls st') = 3%nat /\
    map iterationNumber (gp_simpleIterations gp) = [1].
Proof.
  destruct (C1_zero_is_one_round Examples.stubEnv Examples.briefing "acc"
              Examples.st0)
    as (_ & T & H).
  destruct T as (gp & st' & E).
  { intros n req. eexists. reflexivity. }
  destruct (H gp st' E) as (calls & L & Hvia & Hit & _).
  exists gp, st'. split; [ exact E | ]. split; [ | exact Hit ].
  rewrite L, length_app, <- (length_map llm_via calls), Hvia. reflexivity.
Defined.

(* ================================================================== *)
(** * C2, C3, C7, C9, C10: the orchestrator *)

Lemma skipn_own {A} (l l' : list A) : skipn (length l) (l ++ l') = l'.
Proof. induction l as [| x l IH]; simpl; [ reflexivity | exact IH ]. Qed.

(** The parts of [runPipeline_spec] read off the initial state. *)
Lemma runPipeline_outcome w payload config st :
  exists r st' t,
    runPipeline w payload config st = (Returned r, st') /\
    r_costEntries r = sessionCosts st' /\
    sessionCosts st' = t_entries t /\
    inputTokens (sessionUsage st') = sumInput (t_entries t) /\
    outputTokens (sessionUsage st') = sumOutput (t_entries t) /\
    Forall2 billOf (t_entries t) (List.filter llm_ok (t_calls t)) /\
    Forall (answeredBy w) (t_calls t) /\
    r_steps r = t_steps t /\
    newLlmCalls st st' = t_calls t /\
    newDbCalls st st' = t_db t /\
    newSheetCalls st st' = t_sheets t /\
    injectionCalls st' = injectionCalls st ++ t_inj t /\
    promptVersions st' = promptVersions st ++ t_rows t /\
    owned t /\
    Verdict w payload (spread DEFAULT_CONFIG config) r (t_calls t) (t_steps t).
Proof.
  destruct (runPipeline_spec w payload config st)
    as (r & st' & st0 & t & E & S0 & [D O] & Hc & Hs & V).
  destruct S0 as (S1 & S2 & S3 & S4 & S5 & S6 & S7 & S8 & S9 & S10).
  destruct D as (L & A & C & B & I & Ou & S & Db & Sh & J & R & _).
  exists r, st', t. unfold newLlmCalls, newDbCalls, newSheetCalls.
  rewrite Hs, Hc, S, C, I, Ou, L, Db, Sh, J, R, S1, S2, S3, S4, S5, S6, S7, S8, S9.
  rewrite !skipn_own. simpl.
  repeat (split; [ assumption || reflexivity | ]). exact V.
Qed.

Lemma registryFinds_not_threw w n a e :
  registryFinds w -> registry_loadAccountConfig w n a <> Threw e.
Proof. intros F H. destruct (F n a) as (c & Hc). congruence. Qed.

Lemma registryFinds_not_none w n a :
  registryFinds w -> registry_loadAccountConfig w n a <> Returned None.
Proof. intros F H. destruct (F n a) as (c & Hc). congruence. Qed.

(** With a registry that finds the account, a configured key, a provider
    that answers and a packaging function that returns, no failure is
    fatal. *)
Lemma no_fatal_failure w payload calls s err :
  registryFinds w -> keyConfigured w -> providerReturns w ->
  packagingReturns w -> Forall (answeredBy w) calls ->
  ~ Failure w payload calls s err.
Proof.
  intros F K P G A H. destruct H as [e n H | n H | H | e H | e n gp v H].
  - exact (registryFinds_not_threw w n _ e F H).
  - exact (registryFinds_not_none w n _ F H).
  - unfold keyConfigured in K. congruence.
  - exact (allOk_not_endsThrowing e calls (providerReturns_allOk w calls P A) H).
  - destruct (G n gp v) as (f & Hf). congruence.
Qed.

Lemma failure_before_packaging w payload calls s err :
  Failure w payload calls s err -> ~ In (finished CreateInjectionFile) s.
Proof.
  intros H Hin. destruct H; subst; simpl in Hin;
    repeat match goal with
           | H : _ \/ _ |- _ => destruct H
           | H : False |- _ => destruct H
           end; discriminate.
Qed.

Lemma calls_end_answered calls n :
  allOk calls -> map llm_via calls = ViaGenerate :: alternation n ->
  exists pre c resp,
    calls = pre ++ [c] /\ llm_outcome c = Returned resp /\
    lastOutput calls "" = content resp /\
    llm_via c = match n with O => ViaGenerate | S _ => ViaImprove end.
Proof.
  intros Hok Hvia.
  destruct (exists_last (l := calls)) as (pre & c & ->).
  { intros ->. discriminate Hvia. }
  apply Forall_app in Hok as (_ & Hc). inversion Hc as [| ? ? Hc1 _]; subst.
  unfold llm_ok in Hc1. destruct (llm_outcome c) as [resp | e] eqn:Eo;
    [ | discriminate Hc1 ].
  exists pre, c, resp. split; [ reflexivity | ]. split; [ exact Eo | ].
  split; [ unfold lastOutput; rewrite last_snoc, Eo; reflexivity | ].
  destruct n as [| n]; [ | exact (alternation_last n pre c Hvia) ].
  destruct pre as [| c0 pre]; simpl in Hvia.
  - inversion Hvia. reflexivity.
  - destruct pre; discriminate Hvia.
Qed.

(** C2.  Every run returns.  It gets through the Create Injection File
    step whenever the registry, the key, the provider and the packaging
    function do not fail, whatever the store and the spreadsheet ledger do.
    If it got through that step, the result has status completed, no
    error, the injection file and the generated prompt: the run asked the
    provider of the environment for the generation and then for the
    configured number of rounds of analysis and improvement, every
    request was answered, and the content of the prompt is the text of
    the last answer, that of the last improvement if there was a round.  Its array of steps has the first four steps
    completed and then Save Prompt Version and Log Costs, each absent,
    completed or failed; the failed entry of Save Prompt Version is there
    exactly if a createPromptVersion request of the run failed, and the
    failed entry of Log Costs exactly if a spreadsheet request of the run
    failed. *)
Theorem C2_auxiliary_failures_are_not_fatal
    (w : Env) (payload : PipelineBriefingInput)
    (config : PartialPipelineConfig) (st : St) :
  exists r st',
    runPipeline w payload config st = (Returned r, st') /\
    (registryFinds w -> keyConfigured w -> providerReturns w ->
     packagingReturns w -> In (finished CreateInjectionFile) (r_steps r)) /\
    (In (finished CreateInjectionFile) (r_steps r) ->
     r_status r = completed /\ r_error r = None /\
     (exists gp inj pre c resp,
        r_generatedPrompt r = Some gp /\ r_injectionFile r = Some inj /\
        newLlmCalls st st' = pre ++ [c] /\
        Forall (answeredBy w) (newLlmCalls st st') /\
        allOk (newLlmCalls st st') /\
        map llm_via (newLlmCalls st st') =
          ViaGenerate ::
          alternation (roundsOf (maxIterations (spread DEFAULT_CONFIG config))) /\
        llm_via c =
          match roundsOf (maxIterations (spread DEFAULT_CONFIG config)) with
          | O => ViaGenerate
          | S _ => ViaImprove
          end /\
        llm_outcome c = Returned resp /\
        gp_content gp = content resp /\
        gp_content gp = lastOutput (newLlmCalls st st') "") /\
     wentThrough (r_steps r) /\
     (In saveFailed (r_steps r) <->
      exists c, In c (newDbCalls st st') /\
                isCreatePromptVersion (db_op c) = true /\ db_ok c = false) /\
     (In logFailed (r_steps r) <->
      exists c, In c (newSheetCalls st st') /\ sheet_ok c = false)).
Proof.
  destruct (runPipeline_outcome w payload config st)
    as (r & st' & t & E & _ & _ & _ & _ & _ & A & Hs & Hl & Hd & Hh & _ & _ &
        (Osave & Olog & _ & _ & _ & Bsave & Blog) & V).
  exists r, st'. split; [ exact E | ]. rewrite Hs, Hl, Hd, Hh.
  destruct V as [(_ & _ & _ & Bad) | (Hst & Herr & gp & inj & Hgp & Hinj & S)].
  { split.
    - intros F K P G. exfalso.
      exact (no_fatal_failure w payload _ _ _ F K P G A Bad).
    - intros Hin. exfalso.
      exact (failure_before_packaging w payload _ _ _ Bad Hin). }
  destruct S as (Hok & Hvia & _ & Hc & s5 & s6 & Hsteps & H5 & H6).
  split.
  { intros _ _ _ _. rewrite Hsteps. apply in_or_app. left.
    unfold firstSteps. simpl. auto 10. }
  intros _. split; [ exact Hst | ]. split; [ exact Herr | ].
  split.
  { destruct (calls_end_answered _ _ Hok Hvia)
      as (pre & c & resp & Ec & Eo & El & Ev).
    exists gp, inj, pre, c, resp.
    split; [ exact Hgp | ]. split; [ exact Hinj | ]. split; [ exact Ec | ].
    split; [ exact A | ]. split; [ exact Hok | ]. split; [ exact Hvia | ].
    split; [ exact Ev | ].
    split; [ exact Eo | ]. split; [ rewrite Hc; exact El | exact Hc ]. }
  split; [ exists s5, s6; auto | ].
  split; split.
  - intros Hf. specialize (Bsave Hf). apply List.Exists_exists in Bsave.
    destruct Bsave as (c & Hin & Hop & Hno). exists c. auto.
  - intros (c & Hin & Hop & Hno). destruct Osave as [Hf | Hall]; [ exact Hf | ].
    exfalso. rewrite List.Forall_forall in Hall. specialize (Hall c Hin Hop).
    congruence.
  - intros Hf. specialize (Blog Hf). apply List.Exists_exists in Blog.
    destruct Blog as (c & Hin & Hno). exists c. auto.
  - intros (c & Hin & Hno). destruct Olog as [Hf | Hall]; [ exact Hf | ].
    exfalso. rewrite List.Forall_forall in Hall. specialize (Hall c Hin).
    unfold sheetOk in Hall. congruence.
Qed.

Lemma C2_auxiliary_failures_are_not_fatal_witness :
  exists r st',
    runPipeline Examples.writesFail Examples.payload Examples.noConfig
      Examples.st0 = (Returned r, st') /\
    r_status r = completed /\
    In saveFailed (r_steps r) /\ In logFailed (r_steps r).
Proof.
  destruct (C2_auxiliary_failures_are_not_fatal Examples.writesFail
              Examples.payload Examples.noConfig Examples.st0)
    as (r & st' & E & T & H).
  assert (Hin : In (finished CreateInjectionFile) (r_steps r)).
  { apply T.
    - intros n a. eexists. reflexivity.
    - reflexivity.
    - intros n req. eexists. reflexivity.
    - intros n gp v. eexists. reflexivity. }
  destruct (H Hin) as (Hs & _ & _ & _ & (_ & Hsave) & (_ & Hlog)).
  exists r, st'. split; [ exact E | ]. split; [ exact Hs | ].
  vm_compute in E. inversion E; subst; clear E T H Hin.
  split.
  - apply Hsave.
    match goal with
    | |- exists c, In c ?l /\ _ =>
        destruct (proj1 (List.existsb_exists
                    (fun c => isCreatePromptVersion (db_op c) && negb (db_ok c)) l))
          as (c & Hc & Hb); [ vm_compute; reflexivity | ]
    end.
    apply andb_prop in Hb as [Hop Hok]. exists c.
    split; [ exact Hc | ]. split; [ exact Hop | ].
    destruct (db_ok c); [ discriminate | reflexivity ].
  - apply Hlog.
    match goal with
    | |- exists c, In c ?l /\ _ =>
        destruct (proj1 (List.existsb_exists
                    (fun c => negb (sheet_ok c)) l))
          as (c & Hc & Hok); [ vm_compute; reflexivity | ]
    end.
    exists c. split; [ exact Hc | ].
    destruct (sheet_ok c); [ discriminate | reflexivity ].
Defined.

Lemma allOk_no_failure calls c :
  allOk calls -> In c calls -> llm_ok c = false -> False.
Proof.
  intros A Hin Hc. unfold allOk in A. rewrite List.Forall_forall in A.
  rewrite (A c Hin) in Hc. discriminate.
Qed.

(** C3.  If a completion call of the run throws, which is how the
    Generate Prompt step throws, runPipeline returns a result of status
    failed whose error is the message of that call, the last of the run,
    and which has neither a generated prompt nor an injection file.  The
    array of steps ends with the running entry of Generate Prompt: no later
    step was entered, and the run asked nothing of the packaging function
    or of the spreadsheet ledger and saved no prompt version. *)
Theorem C3_generation_failure_is_fatal
    (w : Env) (payload : PipelineBriefingInput)
    (config : PartialPipelineConfig) (st : St) :
  (exists c, In c (newLlmCalls st (snd (runPipeline w payload config st))) /\
             llm_ok c = false) ->
  exists r st' pre c e,
    runPipeline w payload config st = (Returned r, st') /\
    newLlmCalls st st' = pre ++ [c] /\ allOk pre /\
    llm_outcome c = Threw e /\
    r_status r = failed /\ r_error r = Some e /\
    r_generatedPrompt r = None /\ r_injectionFile r = None /\
    r_steps r = [ entered LoadAccountConfig; finished LoadAccountConfig;
                  entered GeneratePrompt ] /\
    injectionCalls st' = injectionCalls st /\
    newSheetCalls st st' = [] /\
    promptVersions st' = promptVersions st.
Proof.
  intros (c & Hin & Hc).
  destruct (runPipeline_outcome w payload config st)
    as (r & st' & t & E & _ & _ & _ & _ & _ & _ & Hs & Hl & _ & Hh & Hj & Hr &
        (_ & _ & Osh & Oinj & Orow & _) & V).
  rewrite E in Hin. simpl in Hin. rewrite Hl in Hin.
  assert (No : forall name,
             In name [LogCosts; CreateInjectionFile; SavePromptVersion] ->
             ~ In (entered name)
                 [ entered LoadAccountConfig; finished LoadAccountConfig;
                   entered GeneratePrompt ]).
  { intros name Hn Hi. simpl in Hn, Hi.
    repeat match goal with
           | H : _ \/ _ |- _ => destruct H
           | H : False |- _ => destruct H
           end; subst; discriminate. }
  destruct V as [(Hst & Hgp & Hinj & Bad) | (_ & _ & gp & inj & _ & _ & S)].
  - remember (r_error r) as err eqn:Herr.
    destruct Bad as [e n _ Hcalls _ | n _ Hcalls _ | _ Hcalls _
                     | e (pre & c' & Hcalls & Hpre & Hthrew) Hsteps
                     | e n gp v _ Hok _];
      try (rewrite Hcalls in Hin; destruct Hin);
      try (exfalso; exact (allOk_no_failure _ c Hok Hin Hc)).
    rewrite Hsteps in Osh, Oinj, Orow.
    exists r, st', pre, c', e. rewrite Hl, Hs, Hh, Hj, Hr.
    destruct Osh as [Osh | Osh]; [ | exfalso; apply (No LogCosts); simpl; auto ].
    destruct Oinj as [Oinj | Oinj];
      [ | exfalso; apply (No CreateInjectionFile); simpl; auto ].
    destruct Orow as [Orow | Orow];
      [ | exfalso; apply (No SavePromptVersion); simpl; auto ].
    rewrite Osh, Oinj, Orow, !app_nil_r.
    repeat (split; [ assumption || (symmetry; assumption) || reflexivity | ]).
    reflexivity.
  - exfalso. destruct S as (Hok & _). exact (allOk_no_failure _ c Hok Hin Hc).
Qed.

Lemma C3_generation_failure_is_fatal_witness :
  exists r st',
    runPipeline Examples.thirdCallFails Examples.payload Examples.noConfig
      Examples.st0 = (Returned r, st') /\
    length (llmCalls st') = 3%nat /\
    r_status r = failed /\ r_error r = Some "overloaded".
Proof.
  destruct (C3_generation_failure_is_fatal Examples.thirdCallFails
              Examples.payload Examples.noConfig Examples.st0)
    as (r & st' & pre & c & e & E & Hl & _ & Hc & Hs & He & _).
  - vm_compute. eexists. split; [ right; right; left; reflexivity | reflexivity ].
  - exists r, st'. split; [ exact E | ].
    vm_compute in E. inversion E; subst; clear E.
    split; [ reflexivity | ]. split; reflexivity.
Defined.

(** The bill of a call answered by the stub provider counts 100 input and
    50 output tokens. *)
Lemma stub_bill w e c :
  stubProvider w -> answeredBy w c -> billOf e c ->
  ce_operation e = opOf (llm_via c) /\
  ce_inputTokens e = 100 /\ ce_outputTokens e = 50.
Proof.
  intros P (n & A) (resp & Ho & Hop & _ & Hi & Hu & _).
  destruct (P n (llm_request c)) as (text & stop & m & Hp).
  rewrite A, Hp in Ho. inversion Ho; subst resp.
  split; [ exact Hop | ]. split; assumption.
Qed.

Lemma filter_allOk calls : allOk calls -> List.filter llm_ok calls = calls.
Proof.
  induction 1 as [| c calls Hc _ IH]; simpl; [ reflexivity | ].
  rewrite Hc, IH. reflexivity.
Qed.

(** C7.  With [maxIterations] 1, a registry that finds the account, a
    configured key, a packaging function that returns and a provider that
    answers every request with the usage [{inputTokens: 100, outputTokens:
    50}], runPipeline returns a completed result and leaves exactly three
    entries in the session ledger: a generation, an analysis and an
    improvement, in that order, of 100 input and 50 output tokens each.
    The totals of the session are 300 input and 150 output tokens, the
    result carries the three entries, and its prompt has exactly one
    iteration record, numbered 1. *)
Theorem C7_one_iteration_end_to_end
    (w : Env) (payload : PipelineBriefingInput)
    (config : PartialPipelineConfig) (st : St) :
  maxIterations (spread DEFAULT_CONFIG config) = 1 ->
  stubProvider w -> registryFinds w -> keyConfigured w -> packagingReturns w ->
  exists r st' gp,
    runPipeline w payload config st = (Returned r, st') /\
    r_status r = completed /\
    map ce_operation (sessionCosts st') =
      [prompt_generation; prompt_analysis; prompt_improvement] /\
    Forall (fun e => ce_inputTokens e = 100 /\ ce_outputTokens e = 50)
           (sessionCosts st') /\
    inputTokens (sessionUsage st') = 300 /\
    outputTokens (sessionUsage st') = 150 /\
    r_costEntries r = sessionCosts st' /\
    r_generatedPrompt r = Some gp /\
    map iterationNumber (gp_simpleIterations gp) = [1].
Proof.
  intros Hmax P F K G.
  assert (P' : providerReturns w).
  { intros n req. destruct (P n req) as (text & stop & m & Hp). eexists. exact Hp. }
  destruct (runPipeline_outcome w payload config st)
    as (r & st' & t & E & Hc & He & Hi & Ho & B & A & _ & _ & _ & _ & _ & _ & _ & V).
  destruct V as [(_ & _ & _ & Bad) | (Hst & _ & gp & inj & Hgp & _ & S)].
  { exfalso. exact (no_fatal_failure w payload _ _ _ F K P' G A Bad). }
  destruct S as (Hok & Hvia & Hit & _).
  rewrite Hmax in Hvia, Hit. simpl in Hvia, Hit.
  rewrite (filter_allOk _ Hok) in B.
  exists r, st', gp. rewrite Hi, Ho, He.
  destruct (t_calls t) as [| c1 [| c2 [| c3 [| c4 rest]]]]; try discriminate.
  inversion Hvia as [[V1 V2 V3]].
  inversion A as [| ? ? A1 A']; subst. inversion A' as [| ? ? A2 A'']; subst.
  inversion A'' as [| ? ? A3 _]; subst.
  inversion B as [| e1 ? es1 ? B1 B']; subst.
  inversion B' as [| e2 ? es2 ? B2 B'']; subst.
  inversion B'' as [| e3 ? es3 ? B3 B''']; subst. inversion B'''; subst.
  destruct (stub_bill w e1 c1 P A1 B1) as (O1 & I1 & U1).
  destruct (stub_bill w e2 c2 P A2 B2) as (O2 & I2 & U2).
  destruct (stub_bill w e3 c3 P A3 B3) as (O3 & I3 & U3).
  rewrite V1 in O1. rewrite V2 in O2. rewrite V3 in O3.
  split; [ exact E | ]. split; [ exact Hst | ].
  split; [ simpl; rewrite O1, O2, O3; reflexivity | ].
  split; [ repeat constructor; assumption | ].
  split; [ simpl; rewrite I1, I2, I3; reflexivity | ].
  split; [ simpl; rewrite U1, U2, U3; reflexivity | ].
  split; [ rewrite Hc, He; congruence | ].
  split; [ exact Hgp | exact Hit ].
Qed.

Lemma C7_one_iteration_end_to_end_witness :
  exists r st',
    runPipeline Examples.stubEnv Examples.payload Examples.oneIteration
      Examples.st0 = (Returned r, st') /\
    length (sessionCosts st') = 3%nat /\
    inputTokens (sessionUsage st') = 300 /\
    outputTokens (sessionUsage st') = 150.
Proof.
  destruct (C7_one_iteration_end_to_end Examples.stubEnv Examples.payload
              Examples.oneIteration Examples.st0)
    as (r & st' & gp & E & _ & Hops & _ & Hi & Ho & _).
  - reflexivity.
  - intros n req. eexists _, _, _. reflexivity.
  - intros n a. eexists. reflexivity.
  - reflexivity.
  - intros n gp v. eexists. reflexivity.
  - exists r, st'. split; [ exact E | ].
    split; [ rewrite <- (length_map ce_operation), Hops; reflexivity | ].
    split; assumption.
Defined.
(* ================================================================== *)
(** * The journal of a run *)

Lemma follow_app ph l1 : forall l2,
  follow ph (l1 ++ l2) =
  match follow ph l1 with Some ph' => follow ph' l2 | None => None end.
Proof.
  revert ph. induction l1 as [| e l1 IH]; intros ph l2; simpl.
  - reflexivity.
  - destruct (advance ph e) as [ph' |]; [ apply IH | reflexivity ].
Qed.

Lemma stepsOf_app l1 l2 : stepsOf (l1 ++ l2) = stepsOf l1 ++ stepsOf l2.
Proof.
  induction l1 as [| e l1 IH]; simpl; [ reflexivity | ].
  destruct e; simpl; rewrite IH; reflexivity.
Qed.

Lemma unowned_within name e : unowned e -> within name e.
Proof. intros (H1 & H2). split; [ exact H1 | left; exact H2 ]. Qed.

Lemma follow_unowned ph l :
  Forall unowned l -> follow ph l = Some ph /\ stepsOf l = [].
Proof.
  induction 1 as [| e l (Hs & Ho) _ (IH1 & IH2)]; simpl; [ split; reflexivity | ].
  destruct e; simpl in Hs; try discriminate Hs;
    unfold advance; rewrite Ho; simpl; split; assumption.
Qed.

Lemma follow_within names name l :
  Forall (within name) l ->
  follow (mkPhase names (Some name)) l = Some (mkPhase names (Some name)) /\
  stepsOf l = [].
Proof.
  induction 1 as [| e l (Hs & Ho) _ (IH1 & IH2)]; simpl; [ split; reflexivity | ].
  destruct e; simpl in Hs; try discriminate Hs;
    unfold advance; destruct Ho as [Ho | Ho]; rewrite Ho; simpl;
    rewrite ?String.eqb_refl; split; assumption.
Qed.

(** ** Rules *)

Lemma phased_conseq {A} ph (m : M A) (Q1 Q : Outcome A -> Phase -> Prop) :
  phased ph m Q1 -> (forall o ph', Q1 o ph' -> Q o ph') -> phased ph m Q.
Proof.
  intros H HQ st. destruct (H st) as (l & ph' & J & S & F & q).
  exists l, ph'. repeat (split; [ assumption | ]). apply HQ. exact q.
Qed.

Lemma phased_bind {A B} ph (m : M A) (k : A -> M B)
    (Q1 : Outcome A -> Phase -> Prop) (Q : Outcome B -> Phase -> Prop) :
  phased ph m Q1 ->
  (forall a ph1, Q1 (Returned a) ph1 -> phased ph1 (k a) Q) ->
  (forall e ph1, Q1 (Threw e) ph1 -> Q (Threw e) ph1) ->
  phased ph (bind m k) Q.
Proof.
  intros Hm Hk He st. unfold bind.
  destruct (Hm st) as (l1 & ph1 & J1 & S1 & F1 & q1).
  destruct (m st) as [[a | e] st1]; simpl in *.
  - destruct (Hk a ph1 q1 st1) as (l2 & ph2 & J2 & S2 & F2 & q2).
    exists (l1 ++ l2), ph2.
    rewrite J2, J1, S2, S1, stepsOf_app, follow_app, F1, !app_assoc.
    repeat (split; [ reflexivity || assumption | ]). exact q2.
  - exists l1, ph1. repeat (split; [ assumption | ]). apply He. exact q1.
Qed.

Lemma phased_tryCatch {A} ph (m : M A) (h : string -> M A)
    (Q1 Q : Outcome A -> Phase -> Prop) :
  phased ph m Q1 ->
  (forall a ph1, Q1 (Returned a) ph1 -> Q (Returned a) ph1) ->
  (forall e ph1, Q1 (Threw e) ph1 -> phased ph1 (h e) Q) ->
  phased ph (tryCatch m h) Q.
Proof.
  intros Hm Ha Hh st. unfold tryCatch.
  destruct (Hm st) as (l1 & ph1 & J1 & S1 & F1 & q1).
  destruct (m st) as [[a | e] st1]; simpl in *.
  - exists l1, ph1. repeat (split; [ assumption | ]). apply Ha. exact q1.
  - destruct (Hh e ph1 q1 st1) as (l2 & ph2 & J2 & S2 & F2 & q2).
    exists (l1 ++ l2), ph2.
    rewrite J2, J1, S2, S1, stepsOf_app, follow_app, F1, !app_assoc.
    repeat (split; [ reflexivity || assumption | ]). exact q2.
Qed.

Lemma phased_ret {A} ph (a : A) :
  phased ph (ret a) (fun o ph' => o = Returned a /\ ph' = ph).
Proof.
  intros st. exists [], ph. simpl. rewrite !app_nil_r.
  repeat split; reflexivity.
Qed.

(** A computation that enters only unowned requests stays in its phase. *)
Lemma phased_unowned {A} ph (m : M A) :
  keeps steps m -> extends journal unowned m ->
  phased ph m (fun _ ph' => ph' = ph).
Proof.
  intros K E st. destruct (E st) as (l & J & P).
  destruct (follow_unowned ph l P) as (F & S).
  exists l, ph. rewrite S, app_nil_r.
  split; [ exact J | ]. split; [ apply K | ]. split; [ exact F | reflexivity ].
Qed.

Lemma phased_within {A} names name (m : M A) :
  keeps steps m -> extends journal (within name) m ->
  phased (mkPhase names (Some name)) m
    (fun _ ph' => ph' = mkPhase names (Some name)).
Proof.
  intros K E st. destruct (E st) as (l & J & P).
  destruct (follow_within names name l P) as (F & S).
  exists l, (mkPhase names (Some name)). rewrite S, app_nil_r.
  split; [ exact J | ]. split; [ apply K | ]. split; [ exact F | reflexivity ].
Qed.

(** The same for a computation that returns. *)
Lemma phased_total {A} ph (m : M A) (Q : Outcome A -> Phase -> Prop) :
  total m -> phased ph m Q ->
  phased ph m (fun o ph' => Q o ph' /\ exists a, o = Returned a).
Proof.
  intros T H st. destruct (H st) as (l & ph' & J & S & F & q).
  exists l, ph'. repeat (split; [ assumption | ]). apply T.
Qed.

(** ** What each part of a run enters in the journal *)

Ltac journal_entry :=
  split; [ reflexivity | first [ reflexivity | left; reflexivity | right; reflexivity ] ].

Ltac journal_one :=
  let st := fresh "st" in
  intros st;
  unfold Repositories.rpcNextVersionNumber, Repositories.getLatestPromptVersion,
    Repositories.createPromptVersion;
  cbv beta zeta;
  repeat match goal with
         | |- context [ match ?x with _ => _ end ] => destruct x
         | |- context [ if ?x then _ else _ ] => destruct x
         end;
  first
    [ exists [];
      (split; [ destruct st; simpl; rewrite app_nil_r; reflexivity
              | constructor ])
    | eexists [_];
      (split; [ destruct st; reflexivity
              | constructor; [ journal_entry | constructor ] ]) ].

Ltac journal_step :=
  first
    [ apply extends_bind | apply extends_tryCatch | apply extends_forEach
    | match goal with |- forall _, _ => intro end
    | match goal with
      | |- extends _ _ (match ?x with _ => _ end) => destruct x
      end
    | apply extends_keeps; keeps_prim
    | journal_one ].

Ltac journal_auto := repeat journal_step.

Section Journal.

Variable w : Env.
Variable cfg : PipelineConfig.
Variable ctx : option SupabaseContext.
Variable payload : PipelineBriefingInput.

(** The push of logStep, and the update of the row of the step. *)
Lemma logStep_phased name status err ph ph' :
  advance ph (EvStep (mkPipelineStep name status err)) = Some ph' ->
  phased ph (logStep w cfg ctx name status err)
    (fun o ph1 => ph1 = ph' /\ exists a, o = Returned a).
Proof.
  intros A. unfold logStep.
  eapply phased_bind with (Q1 := fun o ph1 => ph1 = ph' /\ o = Returned tt).
  - intros st. exists [EvStep (mkPipelineStep name status err)], ph'.
    split; [ destruct st; reflexivity | ].
    split; [ destruct st; reflexivity | ].
    split; [ unfold follow; rewrite A; reflexivity | ]. split; reflexivity.
  - intros [] ph1 (-> & _). apply phased_total; [ total_auto | ].
    apply phased_unowned; [ keeps_auto | journal_auto ].
  - intros e ph1 (_ & H). discriminate H.
Qed.

Lemma establishContext_phased pid bid ph :
  phased ph (establishContext w cfg payload pid bid)
    (fun o ph1 => ph1 = ph /\ exists a, o = Returned a).
Proof.
  apply phased_total;
    unfold establishContext, initializeSupabaseContext;
    [ total_auto | apply phased_unowned; [ keeps_auto | journal_auto ] ].
Qed.

Lemma createFailedResult_phased pid err ph :
  phased ph (createFailedResult w payload pid err ctx)
    (fun o ph1 => ph1 = ph /\ exists a, o = Returned a).
Proof.
  apply phased_total;
    unfold createFailedResult, briefingIdOf;
    [ total_auto | apply phased_unowned; [ keeps_auto | journal_auto ] ].
Qed.

Lemma saveCostsToSupabase_phased c op ph :
  phased ph (saveCostsToSupabase w c op)
    (fun o ph1 => ph1 = ph /\ exists a, o = Returned a).
Proof.
  apply phased_total; unfold saveCostsToSupabase;
    [ total_auto | apply phased_unowned; [ keeps_auto | journal_auto ] ].
Qed.

Lemma callRegistry_phased a names :
  phased (mkPhase names (Some LoadAccountConfig)) (callRegistry w a)
    (fun _ ph1 => ph1 = mkPhase names (Some LoadAccountConfig)).
Proof. apply phased_within; [ keeps_prim | journal_one ]. Qed.

Lemma determineVersion_phased names :
  phased (mkPhase names (Some DetermineVersion)) (determineVersion w cfg ctx)
    (fun o ph1 => ph1 = mkPhase names (Some DetermineVersion) /\
                  exists a, o = Returned a).
Proof.
  apply phased_total;
    unfold determineVersion, Repositories.getNextVersionNumber;
    [ total_auto | apply phased_within; [ keeps_auto | journal_auto ] ].
Qed.

Lemma createInjectionFromPrompt_phased gp v names :
  phased (mkPhase names (Some CreateInjectionFile))
    (createInjectionFromPrompt w gp v)
    (fun _ ph1 => ph1 = mkPhase names (Some CreateInjectionFile)).
Proof. apply phased_within; [ keeps_prim | journal_one ]. Qed.

Lemma logCost_journal a s op u model ver md P :
  extends journal P (Usage.logCost w a s op u model ver md).
Proof.
  apply extends_keeps.
  unfold Usage.logCost, CostTracker.createCostEntry, CostTracker.calculateCost,
    Validation.generateId, Usage.trackUsage.
  destruct (CostTracker.lookupPricing _); keeps_auto.
Qed.

Lemma round_journal b a i v :
  extends journal (within GeneratePrompt) (Generator.round w b a i v).
Proof.
  unfold Generator.round, Generator.analyzeGeneratedPrompt,
    Generator.improveGeneratedPrompt, Messages.analyzePrompt,
    Messages.improvePrompt.
  repeat first [ apply logCost_journal | journal_step ].
Qed.

Lemma rounds_journal b a n : forall i v,
  extends journal (within GeneratePrompt) (Generator.rounds w b a n i v).
Proof.
  induction n as [| n IH]; intros i v; simpl.
  - apply extends_keeps. apply keeps_ret.
  - apply extends_bind; [ apply round_journal | intros v'; apply IH ].
Qed.

Lemma generator_journal b a mi :
  extends journal (within GeneratePrompt)
    (Generator.generatePromptWithIteration w b a mi).
Proof.
  unfold Generator.generatePromptWithIteration,
    Generator.generatePromptWithIterationUsage,
    Generator.generateInitialPrompt, Messages.generatePromptFromBriefing,
    Validation.generateId.
  repeat first [ apply logCost_journal | apply rounds_journal | journal_step ].
Qed.

Lemma generator_keeps_steps b a mi :
  keeps steps (Generator.generatePromptWithIteration w b a mi).
Proof.
  intros st.
  destruct (generatePromptWithIteration_spec w b a mi st)
    as (calls & entries & B & _).
  destruct B as (_ & _ & _ & _ & _ & _ & Off).
  unfold offGenerator in Off. congruence.
Qed.

Lemma generator_phased b a mi names :
  phased (mkPhase names (Some GeneratePrompt))
    (Generator.generatePromptWithIteration w b a mi)
    (fun _ ph1 => ph1 = mkPhase names (Some GeneratePrompt)).
Proof.
  apply phased_within; [ apply generator_keeps_steps | apply generator_journal ].
Qed.

(** Step 5: skipped, or entered and left. *)
Lemma savePromptVersion_phased gp inj v vn names rest :
  after SavePromptVersion names = Some rest ->
  phased (mkPhase names None)
    (savePromptVersion w cfg ctx payload gp inj v vn)
    (fun o ph1 =>
       (ph1 = mkPhase names None \/ ph1 = mkPhase rest None) /\
       exists a, o = Returned a).
Proof.
  intros A. unfold savePromptVersion.
  destruct (activeContext cfg ctx) as [c |].
  2: { eapply phased_conseq; [ apply phased_ret | ].
       intros o ph' (-> & ->). split; [ left; reflexivity | eauto ]. }
  eapply phased_bind.
  - apply (logStep_phased SavePromptVersion running None _
             (mkPhase rest (Some SavePromptVersion))).
    simpl. rewrite A. reflexivity.
  - intros [] ph1 (-> & _).
    eapply phased_tryCatch
      with (Q1 := fun o ph1 =>
              match o with
              | Returned _ => ph1 = mkPhase rest None
              | Threw _ => ph1 = mkPhase rest (Some SavePromptVersion)
              end).
    + eapply phased_bind.
      * apply phased_within with (name := SavePromptVersion);
          [ keeps_prim | journal_one ].
      * intros [] ph1 ->. eapply phased_conseq.
        { apply (logStep_phased SavePromptVersion completed None _
                   (mkPhase rest None)).
          simpl; rewrite ?String.eqb_refl; reflexivity. }
        intros o ph' (-> & a & ->). reflexivity.
      * intros e ph1 ->. reflexivity.
    + intros a ph1 ->. split; [ right; reflexivity | eauto ].
    + intros e ph1 ->. eapply phased_bind.
      * apply phased_total; [ total_auto | ].
        apply phased_unowned; [ keeps_prim | apply extends_keeps; keeps_prim ].
      * intros [] ph1 (-> & _). eapply phased_conseq.
        { apply (logStep_phased SavePromptVersion failed _ _
                   (mkPhase rest None)).
          simpl; rewrite ?String.eqb_refl; reflexivity. }
        intros o ph' (-> & H). split; [ right; reflexivity | exact H ].
      * intros e' ph1 (_ & a & H). discriminate H.
  - intros e ph1 (_ & a & H). discriminate H.
Qed.

(** Step 6: skipped, or entered and left. *)
Lemma logCosts_phased gp v names rest :
  after LogCosts names = Some rest ->
  phased (mkPhase names None) (logCosts w cfg ctx payload gp v)
    (fun o ph1 => current ph1 = None /\ exists a, o = Returned a).
Proof.
  intros A. unfold logCosts.
  destruct (enableCostTracking cfg).
  2: { eapply phased_conseq; [ apply phased_ret | ].
       intros o ph' (-> & ->). split; [ reflexivity | eauto ]. }
  eapply phased_bind.
  - apply (logStep_phased LogCosts running None _
             (mkPhase rest (Some LogCosts))).
    simpl. rewrite A. reflexivity.
  - intros [] ph1 (-> & _).
    eapply phased_tryCatch
      with (Q1 := fun o ph1 =>
              match o with
              | Returned _ => ph1 = mkPhase rest None
              | Threw _ => ph1 = mkPhase rest (Some LogCosts)
              end).
    + eapply phased_bind.
      * apply phased_within with (name := LogCosts);
          [ unfold logCostsToSheets; keeps_auto
          | unfold logCostsToSheets; journal_auto ].
      * intros [] ph1 ->. eapply phased_conseq.
        { apply (logStep_phased LogCosts completed None _
                   (mkPhase rest None)).
          simpl; rewrite ?String.eqb_refl; reflexivity. }
        intros o ph' (-> & a & ->). reflexivity.
      * intros e ph1 ->. reflexivity.
    + intros a ph1 ->. split; [ reflexivity | eauto ].
    + intros e ph1 ->. eapply phased_bind.
      * apply phased_total; [ total_auto | ].
        apply phased_unowned; [ keeps_prim | apply extends_keeps; keeps_prim ].
      * intros [] ph1 (-> & _). eapply phased_conseq.
        { apply (logStep_phased LogCosts failed _ _ (mkPhase rest None)).
          simpl; rewrite ?String.eqb_refl; reflexivity. }
        intros o ph' (-> & H). split; [ reflexivity | exact H ].
      * intros e' ph1 (_ & a & H). discriminate H.
  - intros e ph1 (_ & a & H). discriminate H.
Qed.

End Journal.

Section JournalOfARun.

Variable w : Env.
Variable cfg : PipelineConfig.
Variable ctx : option SupabaseContext.
Variable payload : PipelineBriefingInput.
Variable pid bid : string.

Ltac next_with L := eapply phased_bind; [ L | | intros; exact I ].

Ltac next_logStep :=
  next_with ltac:(eapply logStep_phased; reflexivity);
  [ intros [] ? (-> & _) ].

Ltac finish_with L := eapply phased_conseq; [ L | intros; exact I ].

Lemma steps1to6_phased :
  phased (mkPhase stepOrder None) (steps1to6 w cfg payload pid bid ctx)
    (fun _ _ => True).
Proof.
  unfold steps1to6.
  next_logStep.
  next_with ltac:(apply callRegistry_phased).
  intros accountConfig ph1 ->.
  destruct accountConfig as [config |].
  2: { next_logStep. finish_with ltac:(apply createFailedResult_phased). }
  destruct (negb (valid (registry_validateApiKeyConfigured w))).
  { next_logStep. finish_with ltac:(apply createFailedResult_phased). }
  next_logStep. next_logStep.
  next_with ltac:(apply generator_phased).
  intros gp ph1 ->.
  next_logStep.
  next_with ltac:(
    apply (phased_conseq _ _
             (fun o ph1 =>
                ph1 = mkPhase [DetermineVersion; CreateInjectionFile;
                               SavePromptVersion; LogCosts] None /\
                exists a : unit, o = Returned a));
    [ destruct (activeContext cfg ctx);
      [ apply saveCostsToSupabase_phased
      | eapply phased_conseq; [ apply phased_ret | ];
        intros o ph' (-> & ->); split; [ reflexivity | eauto ] ]
    | intros o ph' H; exact H ]).
  intros [] ph1 (-> & _).
  next_logStep.
  next_with ltac:(apply determineVersion_phased).
  intros [version versionNumber] ph1 (-> & _).
  next_logStep. next_logStep.
  next_with ltac:(apply createInjectionFromPrompt_phased).
  intros injectionFile ph1 ->.
  next_logStep.
  next_with ltac:(apply (savePromptVersion_phased w cfg ctx payload gp
                           injectionFile version versionNumber
                           [SavePromptVersion; LogCosts] [LogCosts]);
                  reflexivity).
  intros [] ph1 ([-> | ->] & _).
  - next_with ltac:(apply (logCosts_phased w cfg ctx payload gp version
                             [SavePromptVersion; LogCosts] []);
                    reflexivity).
    intros [] ph1 _.
    finish_with ltac:(
      apply phased_unowned;
        [ unfold Usage.getSessionCosts; keeps_auto
        | unfold Usage.getSessionCosts; journal_auto ]).
  - next_with ltac:(apply (logCosts_phased w cfg ctx payload gp version
                             [LogCosts] []);
                    reflexivity).
    intros [] ph1 _.
    finish_with ltac:(
      apply phased_unowned;
        [ unfold Usage.getSessionCosts; keeps_auto
        | unfold Usage.getSessionCosts; journal_auto ]).
Qed.

End JournalOfARun.

Lemma prologue_journal {A} w payload (k : string -> string -> M A) st :
  exists pid bid st0,
    steps st0 = [] /\ journal st0 = journal st /\
    bind (modify (setSteps []))
      (fun _ => bind Usage.resetSession
         (fun _ => bind (Validation.generateId w "pipeline")
            (fun pid => bind (briefingIdOf w payload)
               (fun bid => k pid bid)))) st
    = k pid bid st0.
Proof.
  unfold briefingIdOf. destruct (b_id (p_briefing payload)) eqn:Eb;
    eexists _, _, _;
    (split; [ | split; [ | unfold bind; simpl; reflexivity ] ]);
    destruct st; reflexivity.
Qed.

(** Every run enters in the journal what it pushes onto its array of
    steps and the requests it makes, and the journal is in order. *)
Lemma runPipeline_journal w payload config st :
  exists l ph,
    journal (snd (runPipeline w payload config st)) = journal st ++ l /\
    steps (snd (runPipeline w payload config st)) = stepsOf l /\
    follow (mkPhase stepOrder None) l = Some ph.
Proof.
  unfold runPipeline. cbv zeta.
  set (cfg := spread DEFAULT_CONFIG config).
  set (rest := fun pid bid =>
         bind (establishContext w cfg payload pid bid)
           (fun supabaseContext =>
              tryCatch
                (steps1to6 w cfg payload pid bid supabaseContext)
                (fun errorMessage =>
                   bind (loggerError "Pipeline failed")
                     (fun _ =>
                        createFailedResult w payload pid
                          (Some errorMessage) supabaseContext)))).
  assert (P : forall pid bid,
             phased (mkPhase stepOrder None) (rest pid bid) (fun _ _ => True)).
  { intros pid bid. unfold rest.
    eapply phased_bind; [ apply establishContext_phased | | intros; exact I ].
    intros supabaseContext ph1 (-> & _).
    eapply phased_tryCatch;
      [ apply steps1to6_phased | intros; exact I | ].
    intros e ph1 _.
    eapply phased_bind; [ | | intros; exact I ].
    - apply phased_unowned; [ keeps_prim | apply extends_keeps; keeps_prim ].
    - intros [] ph2 ->.
      eapply phased_conseq; [ apply createFailedResult_phased | intros; exact I ]. }
  destruct (prologue_journal w payload rest st)
    as (pid & bid & st0 & S0 & J0 & E0).
  fold cfg. change (bind (modify (setSteps [])) _ st)
    with (bind (modify (setSteps []))
            (fun _ => bind Usage.resetSession
               (fun _ => bind (Validation.generateId w "pipeline")
                  (fun pid => bind (briefingIdOf w payload)
                     (fun bid => rest pid bid)))) st).
  rewrite E0.
  destruct (P pid bid st0) as (l & ph & J & S & F & _).
  exists l, ph. rewrite J, S, J0, S0.
  split; [ reflexivity | ]. split; [ reflexivity | exact F ].
Qed.

(** ** The journal and the call logs *)

Lemma lookupsOf_app l1 l2 : lookupsOf (l1 ++ l2) = lookupsOf l1 ++ lookupsOf l2.
Proof.
  induction l1 as [| e l1 IH]; simpl; [ reflexivity | ].
  destruct e; simpl; rewrite IH; reflexivity.
Qed.

Lemma completionsOf_app l1 l2 :
  completionsOf (l1 ++ l2) = completionsOf l1 ++ completionsOf l2.
Proof.
  induction l1 as [| e l1 IH]; simpl; [ reflexivity | ].
  destruct e; simpl; rewrite IH; reflexivity.
Qed.

Lemma packagingsOf_app l1 l2 :
  packagingsOf (l1 ++ l2) = packagingsOf l1 ++ packagingsOf l2.
Proof.
  induction l1 as [| e l1 IH]; simpl; [ reflexivity | ].
  destruct e; simpl; rewrite IH; reflexivity.
Qed.

Lemma storeCallsOf_app l1 l2 :
  storeCallsOf (l1 ++ l2) = storeCallsOf l1 ++ storeCallsOf l2.
Proof.
  induction l1 as [| e l1 IH]; simpl; [ reflexivity | ].
  destruct e; simpl; rewrite IH; reflexivity.
Qed.

Lemma sheetCallsOf_app l1 l2 :
  sheetCallsOf (l1 ++ l2) = sheetCallsOf l1 ++ sheetCallsOf l2.
Proof.
  induction l1 as [| e l1 IH]; simpl; [ reflexivity | ].
  destruct e; simpl; rewrite IH; reflexivity.
Qed.

Lemma grown_refl st : grown st st [].
Proof. unfold grown. simpl. rewrite !app_nil_r. repeat split. Qed.

Lemma grown_trans st st1 st2 l1 l2 :
  grown st st1 l1 -> grown st1 st2 l2 -> grown st st2 (l1 ++ l2).
Proof.
  intros (J1 & R1 & L1 & I1 & D1 & S1) (J2 & R2 & L2 & I2 & D2 & S2).
  unfold grown.
  rewrite J2, J1, R2, R1, L2, L1, I2, I1, D2, D1, S2, S1.
  rewrite lookupsOf_app, completionsOf_app, packagingsOf_app,
    storeCallsOf_app, sheetCallsOf_app, !app_assoc.
  repeat split.
Qed.

Lemma synced_keeps {A} (m : M A) : keeps requests m -> synced m.
Proof.
  intros K st. exists []. specialize (K st). unfold requests in K.
  inversion K as [[K1 K2 K3 K4 K5 K6]].
  unfold grown. simpl. rewrite !app_nil_r. repeat split; assumption.
Qed.

Lemma synced_bind {A B} (m : M A) (k : A -> M B) :
  synced m -> (forall a, synced (k a)) -> synced (bind m k).
Proof.
  intros Hm Hk st. unfold bind. destruct (Hm st) as (l1 & G1).
  destruct (m st) as [[a | e] st1]; simpl in *.
  - destruct (Hk a st1) as (l2 & G2). exists (l1 ++ l2).
    exact (grown_trans _ _ _ _ _ G1 G2).
  - exists l1. exact G1.
Qed.

Lemma synced_tryCatch {A} (m : M A) h :
  synced m -> (forall e, synced (h e)) -> synced (tryCatch m h).
Proof.
  intros Hm Hh st. unfold tryCatch. destruct (Hm st) as (l1 & G1).
  destruct (m st) as [[a | e] st1]; simpl in *.
  - exists l1. exact G1.
  - destruct (Hh e st1) as (l2 & G2). exists (l1 ++ l2).
    exact (grown_trans _ _ _ _ _ G1 G2).
Qed.

Lemma synced_forEach {A} (xs : list A) body :
  (forall x, synced (body x)) -> synced (forEach xs body).
Proof.
  intros Hb. induction xs as [| x xs IH]; simpl.
  - apply synced_keeps. apply keeps_ret.
  - apply synced_bind; auto.
Qed.

(** A primitive that enters one request, or none. *)
Ltac synced_one :=
  let st := fresh "st" in
  intros st;
  unfold Repositories.rpcNextVersionNumber, Repositories.getLatestPromptVersion,
    Repositories.createPromptVersion;
  cbv beta zeta;
  repeat match goal with
         | |- context [ match ?x with _ => _ end ] => destruct x
         | |- context [ if ?x then _ else _ ] => destruct x
         end;
  first
    [ exists []; unfold grown; destruct st; simpl; rewrite ?app_nil_r;
      repeat split; reflexivity
    | eexists [_]; unfold grown; destruct st;
      repeat split; simpl; rewrite ?app_nil_r; reflexivity ].

Ltac synced_step :=
  first
    [ apply synced_bind | apply synced_tryCatch | apply synced_forEach
    | match goal with |- forall _, _ => intro end
    | match goal with
      | |- synced (match ?x with _ => _ end) => destruct x
      end
    | apply synced_keeps; keeps_prim
    | synced_one ].

Ltac synced_auto := repeat synced_step.

(** The same automation for what the entries of the journal satisfy. *)
Ltac entries_one tac :=
  let st := fresh "st" in
  intros st;
  unfold Repositories.rpcNextVersionNumber, Repositories.getLatestPromptVersion,
    Repositories.createPromptVersion;
  cbv beta zeta;
  repeat match goal with
         | |- context [ match ?x with _ => _ end ] => destruct x
         | |- context [ if ?x then _ else _ ] => destruct x
         end;
  first
    [ exists [];
      (split; [ destruct st; simpl; rewrite app_nil_r; reflexivity
              | constructor ])
    | eexists [_];
      (split; [ destruct st; reflexivity
              | constructor; [ tac | constructor ] ]) ].

Ltac entries_step tac :=
  first
    [ apply extends_bind | apply extends_tryCatch | apply extends_forEach
    | match goal with |- forall _, _ => intro end
    | match goal with
      | |- extends _ _ (match ?x with _ => _ end) => destruct x
      end
    | apply extends_keeps; keeps_prim
    | entries_one tac ].

Ltac stepRows_entry :=
  simpl; first [ exact I | repeat split; repeat constructor ].

Section Sync.

Variable w : Env.

Lemma logCost_synced a s op u model ver md :
  synced (Usage.logCost w a s op u model ver md).
Proof.
  apply synced_keeps.
  unfold Usage.logCost, CostTracker.createCostEntry, CostTracker.calculateCost,
    Validation.generateId, Usage.trackUsage.
  destruct (CostTracker.lookupPricing _); keeps_auto.
Qed.

Lemma rounds_synced b a n : forall i v,
  synced (Generator.rounds w b a n i v).
Proof.
  induction n as [| n IH]; intros i v; simpl.
  - apply synced_keeps. apply keeps_ret.
  - apply synced_bind; [ | intros v'; apply IH ].
    unfold Generator.round, Generator.analyzeGeneratedPrompt,
      Generator.improveGeneratedPrompt, Messages.analyzePrompt,
      Messages.improvePrompt.
    repeat first [ apply logCost_synced | synced_step ].
Qed.

Lemma generator_synced b a mi :
  synced (Generator.generatePromptWithIteration w b a mi).
Proof.
  unfold Generator.generatePromptWithIteration,
    Generator.generatePromptWithIterationUsage,
    Generator.generateInitialPrompt, Messages.generatePromptFromBriefing,
    Validation.generateId.
  repeat first [ apply logCost_synced | apply rounds_synced | synced_step ].
Qed.

Lemma rounds_entries P b a n :
  (forall c, P (EvCompletion c)) ->
  forall i v, extends journal P (Generator.rounds w b a n i v).
Proof.
  intros HP. induction n as [| n IH]; intros i v; simpl.
  - apply extends_keeps. apply keeps_ret.
  - apply extends_bind; [ | intros v'; apply IH ].
    unfold Generator.round, Generator.analyzeGeneratedPrompt,
      Generator.improveGeneratedPrompt, Messages.analyzePrompt,
      Messages.improvePrompt.
    repeat first [ apply logCost_journal | entries_step ltac:(apply HP) ].
Qed.

Lemma generator_entries P b a mi :
  (forall c, P (EvCompletion c)) ->
  extends journal P (Generator.generatePromptWithIteration w b a mi).
Proof.
  intros HP.
  unfold Generator.generatePromptWithIteration,
    Generator.generatePromptWithIterationUsage,
    Generator.generateInitialPrompt, Messages.generatePromptFromBriefing,
    Validation.generateId.
  repeat first [ apply logCost_journal | apply rounds_entries; exact HP
               | entries_step ltac:(apply HP) ].
Qed.

End Sync.

Ltac open_run :=
  unfold runPipeline, steps1to6, savePromptVersion, logCosts, logCostsToSheets,
    determineVersion, Repositories.getNextVersionNumber, createFailedResult,
    briefingIdOf, establishContext, initializeSupabaseContext,
    saveCostsToSupabase, logStep, Usage.getSessionCosts, Usage.resetSession,
    Validation.generateId;
  cbv zeta.

(** The requests a run enters in the journal are those it enters in the
    call logs. *)
Lemma runPipeline_synced w payload config :
  synced (runPipeline w payload config).
Proof.
  open_run. repeat first [ apply generator_synced | synced_step ].
Qed.

Lemma runPipeline_stepRows w payload config :
  extends journal stepRows (runPipeline w payload config).
Proof.
  open_run.
  repeat first [ apply generator_entries; intros c; exact I
               | entries_step stepRows_entry ].
Qed.
(* ================================================================== *)
(** * C9: the steps in order *)

Lemma failure_cutOff w payload calls s err :
  Failure w payload calls s err -> cutOff s.
Proof.
  intros H. unfold cutOff.
  destruct H as [e n _ _ -> | n _ _ -> | _ _ -> | e _ -> | e n gp v _ _ ->].
  - left. reflexivity.
  - right. left. eexists. reflexivity.
  - right. left. eexists. reflexivity.
  - right. right. left. reflexivity.
  - right. right. right. reflexivity.
Qed.

Lemma cutOff_stepLog s :
  cutOff s -> stepLog stepOrder s = true /\ enteredBefore [] s = true.
Proof.
  intros [-> | [(err & ->) | [-> | ->]]]; split; reflexivity.
Qed.

Lemma wentThrough_stepLog s :
  wentThrough s -> stepLog stepOrder s = true /\ enteredBefore [] s = true.
Proof.
  intros (s5 & s6 & -> & [-> | [-> | ->]] & [-> | [-> | ->]]);
    split; reflexivity.
Qed.

Lemma newJournal_app st st' l :
  journal st' = journal st ++ l -> newJournal st st' = l.
Proof. intros H. unfold newJournal. rewrite H. apply skipn_own. Qed.

(** C9.  Every run returns a result whose array of steps holds, in their
    order, the pushes the run entered in its journal; the requests in the
    journal are those in the call logs; and the journal is in order: a
    step is entered only when no step is running and only if its name
    comes after the names of all the steps entered before it in the
    sequence Load Account Config, Generate Prompt, Determine Version,
    Create Injection File, Save Prompt Version, Log Costs, so that none
    is entered twice; a step is completed or failed only while it is
    running; and the registry, the completion provider, the reads of the
    version number, the packaging function, the insertion of the prompt
    version and the spreadsheet ledger are asked only while Load Account
    Config, Generate Prompt, Determine Version, Create Injection File,
    Save Prompt Version and Log Costs, respectively, are running.  The
    array of a failed run is cut off in Load Account Config, in Generate
    Prompt or in Create Injection File, with every earlier step
    completed; the array of a completed run has the running and the
    completed entry of each of the first four steps and then, for each of
    Save Prompt Version and Log Costs, nothing or its running entry
    followed by its completed or its failed entry.  In both cases every
    completed or failed entry has the running entry of its name before
    it.  The rows of pipeline_steps the run asks the store to create are
    those of the six names, numbered 1 to 6 in that order. *)
Theorem C9_steps_in_order
    (w : Env) (payload : PipelineBriefingInput)
    (config : PartialPipelineConfig) (st : St) :
  exists r st',
    runPipeline w payload config st = (Returned r, st') /\
    r_steps r = stepsOf (newJournal st st') /\
    grown st st' (newJournal st st') /\
    inOrder (newJournal st st') = true /\
    ((r_status r = failed /\ cutOff (r_steps r)) \/
     (r_status r = completed /\ wentThrough (r_steps r))) /\
    stepLog stepOrder (r_steps r) = true /\
    enteredBefore [] (r_steps r) = true /\
    Forall stepRows (newJournal st st').
Proof.
  destruct (runPipeline_outcome w payload config st)
    as (r & st' & t & E & _ & _ & _ & _ & _ & _ & Hs & _ & _ & _ & _ & _ & _ & V).
  destruct (runPipeline_journal w payload config st) as (l & ph & J & S & F).
  destruct (runPipeline_synced w payload config st) as (l1 & G).
  destruct (runPipeline_stepRows w payload config st) as (l2 & J2 & R).
  rewrite E in J, S, G, J2. simpl in J, S, G, J2.
  assert (l1 = l).
  { destruct G as (J1 & _). rewrite J in J1.
    exact (eq_sym (app_inv_head _ _ _ J1)). }
  assert (l2 = l) by (rewrite J in J2; exact (eq_sym (app_inv_head _ _ _ J2))).
  subst l1 l2.
  assert (Hshape : (r_status r = failed /\ cutOff (r_steps r)) \/
                   (r_status r = completed /\ wentThrough (r_steps r))).
  { rewrite Hs.
    destruct V as [(Hst & _ & _ & Bad) | (Hst & _ & gp & inj & _ & _ & Sc)].
    - left. split; [ exact Hst | ].
      exact (failure_cutOff _ _ _ _ _ Bad).
    - right. split; [ exact Hst | ].
      destruct Sc as (_ & _ & _ & _ & s5 & s6 & H). exists s5, s6. exact H. }
  assert (Hsteps : r_steps r = steps st').
  { destruct (runPipeline_spec w payload config st)
      as (r0 & st0' & _ & _ & E0 & _ & _ & _ & Hs0 & _).
    rewrite E in E0. inversion E0; subst. exact Hs0. }
  exists r, st'. split; [ exact E | ].
  rewrite (newJournal_app _ _ _ J).
  split; [ rewrite Hsteps; exact S | ].
  split; [ exact G | ].
  split; [ unfold inOrder; rewrite F; reflexivity | ].
  split; [ exact Hshape | ].
  destruct Hshape as [(_ & H) | (_ & H)];
    [ destruct (cutOff_stepLog _ H) as (H1 & H2)
    | destruct (wentThrough_stepLog _ H) as (H1 & H2) ];
    (split; [ exact H1 | split; [ exact H2 | exact R ] ]).
Qed.

Lemma Forall2_In_r {A B} (R : A -> B -> Prop) l1 l2 y :
  Forall2 R l1 l2 -> In y l2 -> exists x, In x l1 /\ R x y.
Proof.
  induction 1 as [| a b l1 l2 Hab _ IH]; intros Hin; [ destruct Hin | ].
  destruct Hin as [-> | Hin].
  - exists a. split; [ left; reflexivity | exact Hab ].
  - destruct (IH Hin) as (x & Hx & Rx). exists x. split; [ right | ]; assumption.
Qed.

(** C10.  When runPipeline returns a failed result, the costEntries of the
    result are the entries of the session ledger, which the run had
    emptied when it began: one bill for each completion call of the run
    that returned, in the order of the calls.  So every completion call
    answered before the failure has its bill in the result. *)
Theorem C10_failed_result_carries_the_ledger
    (w : Env) (payload : PipelineBriefingInput)
    (config : PartialPipelineConfig) (st : St)
    (r : PipelineResult) (st' : St) :
  runPipeline w payload config st = (Returned r, st') ->
  r_status r = failed ->
  r_costEntries r = sessionCosts st' /\
  Forall2 billOf (r_costEntries r) (List.filter llm_ok (newLlmCalls st st')) /\
  (forall c, In c (newLlmCalls st st') -> llm_ok c = true ->
             exists e, In e (r_costEntries r) /\ billOf e c).
Proof.
  intros E _.
  destruct (runPipeline_outcome w payload config st)
    as (r0 & st0 & t & E0 & Hc & He & _ & _ & B & _ & _ & Hl & _).
  rewrite E in E0. inversion E0; subst r0 st0.
  rewrite Hc, He, Hl. split; [ reflexivity | ]. split; [ exact B | ].
  intros c Hin Hok. apply (Forall2_In_r _ _ _ _ B).
  apply List.filter_In. split; assumption.
Qed.

Lemma C10_failed_result_carries_the_ledger_witness :
  exists r st',
    runPipeline Examples.thirdCallFails Examples.payload Examples.noConfig
      Examples.st0 = (Returned r, st') /\
    r_status r = failed /\
    r_costEntries r = sessionCosts st' /\
    map ce_operation (r_costEntries r) = [prompt_generation; prompt_analysis].
Proof.
  destruct (runPipeline Examples.thirdCallFails Examples.payload
              Examples.noConfig Examples.st0) as [o st'] eqn:E.
  vm_compute in E. inversion E as [[Ho Hst]]. 
  match type of Ho with Returned ?x = _ => set (r := x) in * end.
  exists r, st'. split; [ rewrite Hst; reflexivity | ].
  split; [ reflexivity | ].
  destruct (C10_failed_result_carries_the_ledger Examples.thirdCallFails
              Examples.payload Examples.noConfig Examples.st0 r st')
    as (Hc & _).
  - rewrite <- Hst. vm_compute. reflexivity.
  - reflexivity.
  - split; [ exact Hc | reflexivity ].
Defined.

(* ================================================================== *)
(** * C8: going on without the persistence context *)

Lemma blind_ret {A} (a : A) : blind (ret a).
Proof. intros s1 s2 H. split; [ reflexivity | exact H ]. Qed.

Lemma blind_throw {A} e : blind (@throw A e).
Proof. intros s1 s2 H. split; [ reflexivity | exact H ]. Qed.

Lemma blind_bind {A B} (m : M A) (k : A -> M B) :
  blind m -> (forall a, blind (k a)) -> blind (bind m k).
Proof.
  intros Hm Hk s1 s2 H. unfold bind. destruct (Hm s1 s2 H) as [Ho Hs].
  destruct (m s1) as [[a1 | e1] t1], (m s2) as [[a2 | e2] t2];
    simpl in Ho, Hs; try discriminate.
  - inversion Ho; subst. apply Hk. exact Hs.
  - inversion Ho; subst. split; [ reflexivity | exact Hs ].
Qed.

Lemma blind_tryCatch {A} (m : M A) h :
  blind m -> (forall e, blind (h e)) -> blind (tryCatch m h).
Proof.
  intros Hm Hh s1 s2 H. unfold tryCatch. destruct (Hm s1 s2 H) as [Ho Hs].
  destruct (m s1) as [[a1 | e1] t1], (m s2) as [[a2 | e2] t2];
    simpl in Ho, Hs; try discriminate.
  - split; [ exact Ho | exact Hs ].
  - inversion Ho; subst. apply Hh. exact Hs.
Qed.

Lemma blind_forEach {A} (xs : list A) body :
  (forall x, blind (body x)) -> blind (forEach xs body).
Proof.
  intros Hb. induction xs as [| x xs IH]; simpl.
  - apply blind_ret.
  - apply blind_bind; auto.
Qed.

(** A primitive reads and writes components of [offStore] only, or
    appends a log line. *)
Ltac blind_prim :=
  let s1 := fresh "s" in
  let s2 := fresh "s" in
  let H := fresh "H" in
  intros s1 s2 H; unfold offStore in *; destruct s1, s2; simpl in H;
  inversion H; subst; split; reflexivity.

Ltac blind_step :=
  first
    [ apply blind_ret | apply blind_throw | apply blind_bind
    | apply blind_tryCatch | apply blind_forEach
    | match goal with |- forall _, _ => intro end
    | match goal with
      | |- blind (match ?x with _ => _ end) => destruct x
      | |- blind (if ?x then _ else _) => destruct x
      end
    | blind_prim ].

Ltac blind_auto := repeat blind_step.

Lemma blind_logCost w a s op u model v md :
  blind (Usage.logCost w a s op u model v md).
Proof.
  unfold Usage.logCost, CostTracker.createCostEntry, CostTracker.calculateCost,
    Usage.trackUsage.
  blind_auto.
Qed.

Lemma blind_round w b a i v : blind (Generator.round w b a i v).
Proof.
  unfold Generator.round, Generator.analyzeGeneratedPrompt,
    Generator.improveGeneratedPrompt, Messages.analyzePrompt,
    Messages.improvePrompt.
  cbv zeta.
  repeat first [ apply blind_logCost | blind_step ].
Qed.

Lemma blind_rounds w b a n : forall i v, blind (Generator.rounds w b a n i v).
Proof.
  induction n as [| n IH]; intros i v; simpl.
  - apply blind_ret.
  - apply blind_bind; [ apply blind_round | intros v'; apply IH ].
Qed.

Lemma blind_generatePromptWithIteration w b a mi :
  blind (Generator.generatePromptWithIteration w b a mi).
Proof.
  unfold Generator.generatePromptWithIteration,
    Generator.generatePromptWithIterationUsage, Generator.generateInitialPrompt,
    Messages.generatePromptFromBriefing.
  cbv zeta.
  repeat first [ apply blind_logCost | apply blind_rounds | blind_step ].
Qed.

Lemma blind_createFailedResult w payload pid err :
  blind (createFailedResult w payload pid err None).
Proof.
  unfold createFailedResult, briefingIdOf, Usage.getSessionCosts. blind_auto.
Qed.

Ltac open_steps :=
  unfold contextless, steps1to6, logStep, determineVersion, savePromptVersion,
    logCosts, logCostsToSheets, activeContext, createFailedResult, briefingIdOf,
    Usage.getSessionCosts;
  cbv zeta.

Section Contextless.

Variable w : Env.
Variable payload : PipelineBriefingInput.
Variables pid bid : string.

Lemma blind_contextless cfg : blind (contextless w payload pid bid cfg).
Proof.
  open_steps.
  repeat first [ apply blind_generatePromptWithIteration | blind_step ].
Qed.

Lemma generator_keeps_dbCalls b a mi :
  keeps dbCalls (Generator.generatePromptWithIteration w b a mi).
Proof.
  intros st.
  destruct (generatePromptWithIteration_spec w b a mi st)
    as (calls & entries & B & _).
  destruct B as (_ & _ & _ & _ & _ & _ & Off).
  unfold offGenerator in Off. congruence.
Qed.

Lemma generator_keeps_logs b a mi :
  keeps logs (Generator.generatePromptWithIteration w b a mi).
Proof.
  intros st.
  destruct (generatePromptWithIteration_spec w b a mi st)
    as (calls & entries & B & _).
  destruct B as (_ & _ & _ & _ & _ & _ & Off).
  unfold offGenerator in Off. congruence.
Qed.

(** Without a context no request goes to the store. *)
Lemma contextless_keeps_dbCalls cfg :
  keeps dbCalls (contextless w payload pid bid cfg).
Proof.
  open_steps.
  repeat first [ apply generator_keeps_dbCalls | keeps_step ].
Qed.

Lemma contextless_logs cfg :
  extends logs (fun _ => True) (contextless w payload pid bid cfg).
Proof.
  open_steps.
  repeat first [ apply extends_keeps; apply generator_keeps_logs
               | extends_step ].
Qed.

Lemma contextless_total cfg : total (contextless w payload pid bid cfg).
Proof.
  unfold contextless. apply total_tryCatch. intros e.
  unfold createFailedResult, briefingIdOf. total_auto.
Qed.

(** The switch [enableSupabase] is read only next to a context. *)
Lemma contextless_switch config :
  contextless w payload pid bid (spread DEFAULT_CONFIG config) =
  contextless w payload pid bid
    (spread DEFAULT_CONFIG (withSupabase false config)).
Proof. reflexivity. Qed.

Lemma initializeSupabaseContext_offStore :
  keeps offStore (initializeSupabaseContext w payload pid bid).
Proof. unfold initializeSupabaseContext. keeps_auto. Qed.

End Contextless.

Lemma prologue_uniform w payload st :
  exists pid bid st0,
    started st st0 /\
    forall A (k : string -> string -> M A),
      bind (modify (setSteps []))
        (fun _ => bind Usage.resetSession
           (fun _ => bind (Validation.generateId w "pipeline")
              (fun pid => bind (briefingIdOf w payload)
                 (fun bid => k pid bid)))) st
      = k pid bid st0.
Proof.
  unfold briefingIdOf. destruct (b_id (p_briefing payload)) eqn:Eb.
  - eexists _, _, _. split; [ | intros A k; unfold bind; simpl; reflexivity ].
    destruct st; unfold started; simpl; repeat split; reflexivity.
  - eexists _, _, _. split; [ | intros A k; unfold bind; simpl; reflexivity ].
    destruct st; unfold started; simpl; repeat split; reflexivity.
Qed.

(** C8.  With durable persistence enabled, if the attempt to establish the
    persistence context throws, runPipeline returns all the same, and it
    returns the result that the run with persistence switched off returns
    from the same state.  The warning of the failed attempt is logged, no
    request goes to the store after the one that failed, and the two runs
    end in states that differ in the log lines and in the call log of the
    store only: they asked the same of every other collaborator. *)
Theorem C8_context_failure_is_not_fatal
    (w : Env) (payload : PipelineBriefingInput)
    (config : PartialPipelineConfig) (st : St) (e : string) (st2 : St) :
  enableSupabase (spread DEFAULT_CONFIG config) = true ->
  contextAttempt w payload st = (Threw e, st2) ->
  exists r st' st'',
    runPipeline w payload config st = (Returned r, st') /\
    runPipeline w payload (withSupabase false config) st = (Returned r, st'') /\
    In initWarning (logs st') /\
    dbCalls st' = dbCalls st2 /\
    offStore st' = offStore st''.
Proof.
  intros En H.
  destruct (prologue_uniform w payload st) as (pid & bid & st0 & _ & Hk).
  unfold contextAttempt, prologue in H.
  rewrite (bind_Returned _ _ st (pid, bid) st0 (Hk _ (fun p b => ret (p, b)))) in H.
  simpl fst in H. simpl snd in H.
  pose proof (initializeSupabaseContext_offStore w payload pid bid st0) as Ho.
  rewrite H in Ho. simpl in Ho.
  unfold runPipeline. cbv zeta. rewrite !Hk.
  unfold establishContext. rewrite En. simpl.
  rewrite (bind_Returned _ _ st0 None
             (snd (loggerWarn
                "Failed to initialize Supabase context, continuing without persistence"
                st2))).
  2:{ unfold tryCatch. rewrite (bind_Threw _ _ _ _ _ H). reflexivity. }
  rewrite (bind_Returned _ _ st0 None st0) by reflexivity.
  fold (contextless w payload pid bid (spread DEFAULT_CONFIG config)).
  fold (contextless w payload pid bid
          (spread DEFAULT_CONFIG (withSupabase false config))).
  rewrite <- contextless_switch.
  set (K := contextless w payload pid bid (spread DEFAULT_CONFIG config)).
  set (st3 := snd (loggerWarn _ st2)).
  assert (Hs : offStore st3 = offStore st0).
  { rewrite <- Ho. subst st3. destruct st2; reflexivity. }
  destruct (blind_contextless w payload pid bid
              (spread DEFAULT_CONFIG config) st3 st0 Hs) as [Bo Bs].
  pose proof (contextless_keeps_dbCalls w payload pid bid
                (spread DEFAULT_CONFIG config) st3) as Kd.
  destruct (contextless_logs w payload pid bid
              (spread DEFAULT_CONFIG config) st3) as (l & Kl & _).
  destruct (contextless_total w payload pid bid
              (spread DEFAULT_CONFIG config) st3) as (r & Kr).
  fold K in Bo, Bs, Kd, Kl, Kr.
  destruct (K st3) as [o3 st'] eqn:E3, (K st0) as [o0 st''] eqn:E0.
  simpl in Bo, Bs, Kd, Kl, Kr. subst o3. subst o0.
  exists r, st', st''.
  split; [ reflexivity | ]. split; [ reflexivity | ].
  split; [ | split; [ | exact Bs ] ].
  - rewrite Kl. apply in_or_app. left. subst st3.
    destruct st2; simpl. apply in_or_app. right. left. reflexivity.
  - rewrite Kd. subst st3. destruct st2; reflexivity.
Qed.

Lemma C8_context_failure_is_not_fatal_witness :
  exists r st' st'',
    runPipeline Examples.storeDown Examples.payload Examples.noConfig
      Examples.st0 = (Returned r, st') /\
    runPipeline Examples.storeDown Examples.payload Examples.supabaseOff
      Examples.st0 = (Returned r, st'') /\
    In initWarning (logs st') /\
    r_status r = completed.
Proof.
  destruct (C8_context_failure_is_not_fatal Examples.storeDown Examples.payload
              Examples.noConfig Examples.st0 "connection refused"
              (snd (contextAttempt Examples.storeDown Examples.payload
                      Examples.st0)))
    as (r & st' & st'' & E1 & E2 & Hw & _).
  - reflexivity.
  - vm_compute. reflexivity.
  - exists r, st', st''. split; [ exact E1 | ]. split; [ exact E2 | ].
    split; [ exact Hw | ].
    vm_compute in E1. inversion E1. reflexivity.
Defined.

(* ================================================================== *)
(** * C6: the version assigner *)

Import VersionTracker.

(** ** Reading back a rendered number *)

Lemma readDigits_acc d (acc : positive) :
  readDigits (NilEmpty.string_of_uint d) (Z.pos acc) =
  Z.pos (Pos.of_uint_acc d acc).
Proof.
  revert acc. induction d; intros acc; simpl; try reflexivity;
    rewrite <- IHd; f_equal;
    match goal with
    | |- context [ Z.of_nat ?n ] =>
        let v := eval vm_compute in (Z.of_nat n) in
        change (Z.of_nat n) with v
    end; lia.
Qed.

Lemma readDigits_uint d :
  readDigits (NilEmpty.string_of_uint d) 0 = Z.of_N (Pos.of_uint d).
Proof.
  induction d; simpl; try reflexivity; try exact IHd;
    apply readDigits_acc.
Qed.

Lemma parseInt10_digits c s v :
  digitValue c = Some v ->
  parseInt10 (String c s) = Some (Js.nearestDouble (readDigits (String c s) 0)).
Proof.
  intros H. rewrite <- (Z.mul_1_l (readDigits (String c s) 0)).
  destruct c as [[] [] [] [] [] [] [] []]; vm_compute in H; try discriminate H;
    reflexivity.
Qed.

Lemma readDigits_showZ k : 0 <= k -> readDigits (Js.showZ k) 0 = k.
Proof.
  intros Hk. unfold Js.showZ. destruct k as [| p | p]; [ reflexivity | | lia ].
  simpl Z.to_int. unfold NilZero.string_of_int, NilZero.string_of_uint.
  pose proof (DecimalPos.Unsigned.to_uint_nonnil p) as Hn.
  destruct (Pos.to_uint p) eqn:E; [ congruence | .. ];
    rewrite <- E; rewrite readDigits_uint, DecimalPos.Unsigned.of_to;
    reflexivity.
Qed.

Lemma showZ_starts k :
  0 <= k -> exists c s v, Js.showZ k = String c s /\ digitValue c = Some v.
Proof.
  intros Hk. unfold Js.showZ. destruct k as [| p | p]; [ | | lia ].
  - eexists _, _, _. split; reflexivity.
  - simpl Z.to_int. unfold NilZero.string_of_int, NilZero.string_of_uint.
    pose proof (DecimalPos.Unsigned.to_uint_nonnil p) as Hn.
    destruct (Pos.to_uint p); [ congruence | .. ]; simpl;
      eexists _, _, _; split; reflexivity.
Qed.

Lemma nearestDouble_exact n :
  0 <= n <= 2 ^ 53 -> Js.nearestDouble n = Js.Fin n.
Proof.
  intros H. destruct (Z.eq_dec n (2 ^ 53)) as [-> | Hn].
  - vm_compute. reflexivity.
  - unfold Js.nearestDouble. cbv zeta.
    destruct (Z.ltb_spec (Z.abs n) (2 ^ 53)) as [_ | L]; [ reflexivity | lia ].
Qed.

Lemma parseInt10_showZ_le k :
  0 <= k <= 2 ^ 53 -> parseInt10 (Js.showZ k) = Some (Js.Fin k).
Proof.
  intros (H0 & H1).
  destruct (showZ_starts k H0) as (c & s & v & E & Hv).
  rewrite E, (parseInt10_digits c s v Hv), <- E, (readDigits_showZ k H0).
  rewrite nearestDouble_exact; [ reflexivity | lia ].
Qed.

Lemma parseInt10_showZ k :
  safeNumber k -> parseInt10 (Js.showZ k) = Some (Js.Fin k).
Proof. intros (H0 & H1). apply parseInt10_showZ_le. lia. Qed.

(** ** version-tracker.ts *)

Lemma keepNumbers_versionName ks :
  Forall safeNumber ks ->
  keepNumbers (map (fun v => parseInt10 (replaceFirstV v)) (map versionName ks))
  = map Js.Fin ks.
Proof.
  induction 1 as [| k ks Hk _ IH]; [ reflexivity | ].
  cbn [map]. change (replaceFirstV (versionName k)) with (Js.showZ k).
  rewrite (parseInt10_showZ k Hk). cbn [keepNumbers]. rewrite IH. reflexivity.
Qed.

Lemma mathMax0_Fin ks : mathMax0 (map Js.Fin ks) = Js.Fin (highest ks).
Proof.
  induction ks as [| k ks IH]; [ reflexivity | ].
  cbn [map]. unfold mathMax0 in *. cbn [fold_right]. rewrite IH.
  unfold maxDouble, highest. cbn [Js.ltDouble fold_right].
  fold (highest ks).
  destruct (Z.ltb_spec k (highest ks)); f_equal; lia.
Qed.

Lemma highest_safe ks :
  Forall safeNumber ks -> safeNumber (highest ks).
Proof.
  unfold safeNumber.
  induction 1 as [| k ks Hk _ IH]; simpl; [ lia | ].
  fold (highest ks). lia.
Qed.

Lemma showDouble_small n :
  0 <= n <= 2 ^ 53 -> Js.showDouble (Js.Fin n) = Js.showZ n.
Proof.
  intros H. unfold Js.showDouble.
  destruct (Z.leb_spec n (2 ^ 53)) as [_ | L]; [ reflexivity | lia ].
Qed.

Lemma getNextVersion_versionName k ks :
  Forall safeNumber (k :: ks) ->
  getNextVersion (map versionName (k :: ks)) =
  versionName (highest (k :: ks) + 1).
Proof.
  intros H. unfold getNextVersion.
  change (map versionName (k :: ks)) with (versionName k :: map versionName ks).
  cbv iota beta zeta.
  change (versionName k :: map versionName ks) with (map versionName (k :: ks)).
  rewrite (keepNumbers_versionName _ H), mathMax0_Fin.
  pose proof (highest_safe _ H) as (H0 & H1).
  unfold Js.succDouble.
  rewrite nearestDouble_exact by lia.
  rewrite showDouble_small by lia. reflexivity.
Qed.

(** ** The store *)

Lemma topRow_sqlMax rows :
  option_map pv_version_number (Repositories.topRow rows) =
  Repositories.sqlMax rows.
Proof.
  induction rows as [| r rows IH]; simpl; [ reflexivity | ].
  destruct (Repositories.topRow rows) as [r' |];
    destruct (Repositories.sqlMax rows) as [m |]; simpl in IH;
    try discriminate; [ | reflexivity ].
  inversion IH; subst m.
  destruct (Z.ltb_spec (pv_version_number r) (pv_version_number r'));
    simpl; f_equal; lia.
Qed.

Lemma fallback_nextNumber rows :
  Js.optNumOr (option_map pv_version_number (Repositories.topRow rows)) 0 + 1
  = nextNumber rows.
Proof.
  rewrite topRow_sqlMax. unfold nextNumber.
  destruct (Repositories.sqlMax rows) as [m |]; simpl; [ | reflexivity ].
  unfold Js.numOr. destruct (Z.eqb_spec m 0); lia.
Qed.

Lemma rpc_nextNumber table a :
  Repositories.get_next_version_number table a =
  nextNumber (Repositories.versionsOf a table).
Proof.
  unfold Repositories.get_next_version_number, nextNumber.
  destruct (Repositories.sqlMax _); reflexivity.
Qed.

Lemma sqlMax_priorMax rows m :
  Repositories.sqlMax rows = Some m -> priorMax m rows.
Proof.
  revert m. induction rows as [| r rows IH]; intros m H; [ discriminate | ].
  simpl in H. destruct (Repositories.sqlMax rows) as [m' |] eqn:E.
  - destruct (IH m' eq_refl) as ((r' & Hin & Hr') & Hall).
    inversion H; subst m. split.
    + destruct (Z.max_spec (pv_version_number r) m') as [[_ ->] | [_ ->]].
      * exists r'. split; [ right; exact Hin | exact Hr' ].
      * exists r. split; [ left; reflexivity | reflexivity ].
    + constructor; [ lia | ].
      eapply List.Forall_impl; [ | exact Hall ]. simpl. intros; lia.
  - inversion H; subst m.
    destruct rows as [| r2 rows2];
      [ | simpl in E; destruct (Repositories.sqlMax rows2); discriminate ].
    split; [ exists r; split; [ left | ]; reflexivity | ].
    constructor; [ lia | constructor ].
Qed.

Lemma priorMax_unique rows m m' : priorMax m rows -> priorMax m' rows -> m = m'.
Proof.
  intros ((r & Hin & Hr) & Hall) ((r' & Hin' & Hr') & Hall').
  rewrite List.Forall_forall in Hall, Hall'.
  specialize (Hall r' Hin'). specialize (Hall' r Hin). lia.
Qed.

Lemma nextNumber_nil : nextNumber [] = 1.
Proof. reflexivity. Qed.

Lemma nextNumber_priorMax rows m : priorMax m rows -> nextNumber rows = m + 1.
Proof.
  intros H. unfold nextNumber.
  destruct (Repositories.sqlMax rows) as [m' |] eqn:E.
  - rewrite (priorMax_unique rows m m' H (sqlMax_priorMax rows m' E)). reflexivity.
  - destruct H as ((r & Hin & _) & _). destruct rows; [ destruct Hin | ].
    simpl in E. destruct (Repositories.sqlMax rows); discriminate.
Qed.

(** What determineVersion does with an active context, by the faults of
    the two reads. *)
Lemma determineVersion_active w cfg ctx c st :
  activeContext cfg ctx = Some c ->
  let a := assistant_id (assistant c) in
  exists n st',
    determineVersion w cfg ctx st = (Returned (versionName n, n), st') /\
    if readsFail w st a
    then n = 1 /\ In versionWarning (logs st')
    else n = nextNumber (Repositories.versionsOf a (promptVersions st)) /\
         List.filter isWarning (logs st') = List.filter isWarning (logs st).
Proof.
  intros Hc a. unfold determineVersion. rewrite Hc. fold a.
  unfold readsFail, Repositories.getNextVersionNumber, tryCatch, bind,
    Repositories.rpcNextVersionNumber.
  destruct (db_fault w (length (dbCalls st)) (OpRpcNextVersionNumber a))
    as [e1 |] eqn:E1.
  - unfold loggerError, modify, Repositories.getLatestPromptVersion.
    destruct st as [u cs ss lg ic rc lc jc dc sc pv]. simpl in *.
    rewrite length_app, Nat.add_1_r. simpl.
    destruct (db_fault w (S (length dc)) (OpLatestPromptVersion a))
      as [e2 |] eqn:E2; simpl.
    + eexists 1, _. split; [ reflexivity | ]. split; [ reflexivity | ].
      apply in_or_app. right. left. reflexivity.
    + eexists _, _. split; [ reflexivity | ]. split.
      * apply fallback_nextNumber.
      * simpl. rewrite List.filter_app. simpl. apply app_nil_r.
  - destruct st as [u cs ss lg ic rc lc jc dc sc pv]. simpl in *.
    eexists _, _. split; [ reflexivity | ]. split.
    + apply rpc_nextNumber.
    + reflexivity.
Qed.

(** C6, as stated, fails where it says that a warning is logged when
    durable persistence is unavailable: without a persistence context the
    step goes on with v1 and logs no warning, and the whole run with
    persistence switched off logs no warning either.  It also fails for
    getNextVersion of version-tracker.ts at the prior maximum 2^53, whose
    successor is not a double: the name returned is the one given. *)
Lemma C6_counterexample :
  ~ (forall (w : Env) (cfg : PipelineConfig) (st : St),
       exists l, In l (logs (snd (determineVersion w cfg None st))) /\
                 isWarning l = true) /\
  ~ (forall (w : Env) (payload : PipelineBriefingInput)
            (config : PartialPipelineConfig) (st : St),
       enableSupabase (spread DEFAULT_CONFIG config) = false ->
       exists l, In l (logs (snd (runPipeline w payload config st))) /\
                 isWarning l = true) /\
  ~ (forall n, 0 <= n ->
       VersionTracker.getNextVersion [versionName n] = versionName (n + 1)).
Proof.
  split; [ | split ].
  - intros H.
    destruct (H Examples.stubEnv DEFAULT_CONFIG Examples.st0) as (l & Hin & _).
    exact Hin.
  - intros H.
    destruct (H Examples.stubEnv Examples.payload Examples.supabaseOff
                Examples.st0 eq_refl) as (l & Hin & _).
    vm_compute in Hin. exact Hin.
  - intros H. specialize (H (2 ^ 53) ltac:(lia)).
    vm_compute in H. discriminate H.
Qed.

(** C6, amended.  getNextVersion of version-tracker.ts returns v1 for no
    versions and, for the versions v[k] of numbers from 0 and below 2^53,
    the name of the successor of the highest.  The Determine Version step of
    runPipeline never throws, and returns a version number together with
    its name.  Without an active persistence context the number is 1 and
    the state, log lines included, is left as it was.  With an active
    context, if both reads of the store fail the number is 1 and the
    warning is logged; otherwise the number is 1 when the assistant has no
    row in prompt_versions and [m + 1] when the highest version number of
    its rows is [m], and no warning is logged. *)
Theorem C6_version_assigner
    (w : Env) (cfg : PipelineConfig) (ctx : option SupabaseContext) (st : St) :
  VersionTracker.getNextVersion [] = "v1" /\
  (forall k ks, Forall safeNumber (k :: ks) ->
     VersionTracker.getNextVersion (map versionName (k :: ks)) =
     versionName (highest (k :: ks) + 1)) /\
  exists n st',
    determineVersion w cfg ctx st = (Returned (versionName n, n), st') /\
    match activeContext cfg ctx with
    | None => n = 1 /\ st' = st
    | Some c =>
        let rows :=
          Repositories.versionsOf (assistant_id (assistant c))
            (promptVersions st) in
        if readsFail w st (assistant_id (assistant c))
        then n = 1 /\ In versionWarning (logs st')
        else (rows = [] -> n = 1) /\
             (forall m, priorMax m rows -> n = m + 1) /\
             List.filter isWarning (logs st') = List.filter isWarning (logs st)
    end.
Proof.
  split; [ reflexivity | ]. split; [ exact getNextVersion_versionName | ].
  destruct (activeContext cfg ctx) as [c |] eqn:Hc.
  - destruct (determineVersion_active w cfg ctx c st Hc) as (n & st' & E & H).
    exists n, st'. split; [ exact E | ]. cbv zeta.
    destruct (readsFail w st (assistant_id (assistant c))); [ exact H | ].
    destruct H as (Hn & Hl). split; [ | split; [ | exact Hl ] ].
    + intros Hr. rewrite Hn, Hr. reflexivity.
    + intros m Hm. rewrite Hn. apply nextNumber_priorMax. exact Hm.
  - exists 1, st. unfold determineVersion. rewrite Hc.
    split; [ reflexivity | ]. split; reflexivity.
Qed.

Lemma C6_version_assigner_witness :
  fst (determineVersion Examples.stubEnv DEFAULT_CONFIG (Some Examples.context)
         Examples.twoVersions) = Returned ("v3", 3) /\
  exists st',
    determineVersion Examples.versionReadsFail DEFAULT_CONFIG
      (Some Examples.context) Examples.twoVersions = (Returned ("v1", 1), st') /\
    In versionWarning (logs st').
Proof.
  split.
  - destruct (C6_version_assigner Examples.stubEnv DEFAULT_CONFIG
                (Some Examples.context) Examples.twoVersions)
      as (_ & _ & n & st' & E & H).
    simpl in H. destruct H as (_ & H & _).
    rewrite E, (H 2); [ reflexivity | ].
    split.
    + exists (Examples.versionRow 2). split; [ right; left | ]; reflexivity.
    + repeat constructor; simpl; lia.
  - destruct (C6_version_assigner Examples.versionReadsFail DEFAULT_CONFIG
                (Some Examples.context) Examples.twoVersions)
      as (_ & _ & n & st' & E & H).
    simpl in H. destruct H as (Hn & Hw).
    exists st'. rewrite E, Hn. split; [ reflexivity | exact Hw ].
Defined.
(* ================================================================== *)
(** * The cost calculator and the usage ledger, continued *)

(** The total of a breakdown is linear in the four token counts. *)
Lemma total_linear u p :
  (usd (totalCostUsd (CostTracker.calculateCostWithPricing u p)) ==
   inject_Z (inputTokens u) * (inputPer1M p / 1000000)
   + inject_Z (outputTokens u) * (outputPer1M p / 1000000)
   + inject_Z (tokensOr0 (cacheReadTokens u))
     * (priceOr0 (cacheReadPer1M p) / 1000000)
   + inject_Z (tokensOr0 (cacheWriteTokens u))
     * (priceOr0 (cacheWritePer1M p) / 1000000))%Q.
Proof.
  destruct (calculateCostWithPricing_cache u p) as (Ht & _). cbv zeta in Ht.
  rewrite Ht, !cacheTerm_linear, !perMillion_linear. ring.
Qed.

(** calculateCost returns the breakdown of the model, whatever the state. *)
Lemma calculateCost_breakdownFor u model st :
  exists st',
    CostTracker.calculateCost u model st = (Returned (breakdownFor model u), st').
Proof.
  pose proof (calculateCost_cases u model st) as C. unfold breakdownFor.
  destruct (CostTracker.lookupPricing model) as [p | |].
  - destruct C as (_ & _ & E). eexists. exact E.
  - destruct C as (_ & _ & E). eexists. exact E.
  - destruct C as (_ & _ & E). eexists. exact E.
Qed.

Lemma breakdownFor_NaN model u :
  totalCostUsd (breakdownFor model u) = NaN <-> inheritedKey model = true.
Proof.
  unfold breakdownFor, inheritedKey.
  destruct (CostTracker.lookupPricing model); simpl; split;
    intros H; first [ reflexivity | discriminate H ].
Qed.

Lemma estimate_chargedAt i o p :
  chargedAt p i o
    (CostTracker.calculateCostWithPricing
       {| inputTokens := i; outputTokens := o;
          cacheReadTokens := None; cacheWriteTokens := None |} p).
Proof.
  eexists _, _, _. split; [ reflexivity | ]. split; [ reflexivity | ].
  split; [ reflexivity | ]. split; [ simpl; ring | ].
  split; apply perMillion_linear.
Qed.

(** X1.  estimateCost never throws, never reports a cache cost and
    changes nothing but the log.  For a model with an entry in the price
    table it charges the input and the output tokens at the prices of
    that entry and logs no warning; for a model without one it charges
    them at the prices of claude-opus-4-5 and logs exactly the warning
    that names the model.  For a model whose name is a property that the
    table inherits from Object.prototype there is no warning and no
    price: the input cost, the output cost and the total are NaN. *)
Theorem X1_estimateCost_breakdown (i o : Z) (model : string) (st : St) :
  exists c st',
    CostEstimate.estimateCost i o model st = (Returned c, st') /\
    cacheCost c = None /\
    offStore st' = offStore st /\ dbCalls st' = dbCalls st /\
    match CostTracker.lookupPricing model with
    | CostTracker.OwnEntry p =>
        CostTracker.MODEL_PRICING !! model = Some p /\
        chargedAt p i o c /\ logs st' = logs st
    | CostTracker.Undefined =>
        CostTracker.MODEL_PRICING !! model = None /\
        CostTracker.MODEL_PRICING !! "claude-opus-4-5-20251101"%string
          = Some opusPricing /\
        chargedAt opusPricing i o c /\
        logs st' = logs st ++ [unknownModelWarning model]
    | CostTracker.Inherited =>
        In model CostTracker.objectPrototypeKeys /\
        c = notANumber /\ logs st' = logs st
    end.
Proof.
  unfold CostEstimate.estimateCost.
  set (u := {| inputTokens := i; outputTokens := o;
               cacheReadTokens := None; cacheWriteTokens := None |}).
  pose proof (calculateCost_cases u model st) as C.
  destruct (CostTracker.lookupPricing model) as [p | |].
  - destruct C as (_ & L & E). eexists _, st. split; [ exact E | ].
    split; [ reflexivity | ]. split; [ reflexivity | ].
    split; [ reflexivity | ]. split; [ exact L | ].
    split; [ apply estimate_chargedAt | reflexivity ].
  - destruct C as (_ & Hin & E). eexists _, st. split; [ exact E | ].
    split; [ reflexivity | ]. split; [ reflexivity | ].
    split; [ reflexivity | ]. split; [ exact Hin | ].
    split; reflexivity.
  - destruct C as (_ & L & E). eexists _, _. split; [ exact E | ].
    split; [ reflexivity | ]. split; [ destruct st; reflexivity | ].
    split; [ destruct st; reflexivity | ]. split; [ exact L | ].
    split; [ exact lookup_opus | ].
    split; [ apply estimate_chargedAt | destruct st; reflexivity ].
Qed.


(** What one logCost call does. *)
Lemma logCostOf_spec w p st :
  exists e st',
    logCostOf w p st = (Returned e, st') /\
    entryOf e p /\
    sessionCosts st' = sessionCosts st ++ [e] /\
    inputTokens (sessionUsage st') =
      inputTokens (sessionUsage st) + inputTokens (lc_usage p) /\
    outputTokens (sessionUsage st') =
      outputTokens (sessionUsage st) + outputTokens (lc_usage p) /\
    tokensOr0 (cacheReadTokens (sessionUsage st')) =
      tokensOr0 (cacheReadTokens (sessionUsage st))
      + tokensOr0 (cacheReadTokens (lc_usage p)) /\
    tokensOr0 (cacheWriteTokens (sessionUsage st')) =
      tokensOr0 (cacheWriteTokens (sessionUsage st))
      + tokensOr0 (cacheWriteTokens (lc_usage p)).
Proof.
  assert (N : forall o, Js.optNumOr o 0 = tokensOr0 o).
  { intros [n |]; simpl; [ | reflexivity ].
    unfold Js.numOr. destruct (Z.eqb_spec n 0); congruence. }
  unfold logCostOf, Usage.logCost, CostTracker.createCostEntry, entryOf, modelOf.
  destruct (calculateCost_breakdownFor (lc_usage p)
              (Js.optStrOr (lc_model p) Usage.DEFAULT_MODEL) st) as (st1 & E1).
  assert (K : sessionUsage st1 = sessionUsage st /\
              sessionCosts st1 = sessionCosts st).
  { assert (Hu : keeps sessionUsage
                   (CostTracker.calculateCost (lc_usage p)
                      (Js.optStrOr (lc_model p) Usage.DEFAULT_MODEL)))
      by (unfold CostTracker.calculateCost;
          destruct (CostTracker.lookupPricing _); keeps_auto).
    assert (Hc : keeps sessionCosts
                   (CostTracker.calculateCost (lc_usage p)
                      (Js.optStrOr (lc_model p) Usage.DEFAULT_MODEL)))
      by (unfold CostTracker.calculateCost;
          destruct (CostTracker.lookupPricing _); keeps_auto).
    specialize (Hu st). specialize (Hc st). rewrite E1 in Hu, Hc.
    split; assumption. }
  destruct K as (Ku & Kc).
  unfold bind at 1. unfold bind at 1. rewrite E1.
  unfold bind, Validation.generateId, ret, modify, Usage.trackUsage. simpl.
  eexists _, _. split; [ reflexivity | ].
  destruct st1; simpl in *. subst.
  split; [ repeat split; reflexivity | ].
  rewrite !N. repeat split; reflexivity.
Qed.

Lemma logEach_spec w ps : forall st,
  exists entries st',
    logEach w ps st = (Returned tt, st') /\
    Forall2 entryOf entries ps /\
    sessionCosts st' = sessionCosts st ++ entries /\
    inputTokens (sessionUsage st') =
      inputTokens (sessionUsage st) + sumInput entries /\
    outputTokens (sessionUsage st') =
      outputTokens (sessionUsage st) + sumOutput entries.
Proof.
  induction ps as [| p ps IH]; intros st.
  - exists [], st. simpl. rewrite app_nil_r.
    repeat split; try constructor; lia.
  - destruct (logCostOf_spec w p st)
      as (e & st1 & E1 & He & Hc & Hi & Ho & _).
    destruct (IH st1) as (es & st' & E2 & Hes & Hc2 & Hi2 & Ho2).
    exists (e :: es), st'.
    split.
    { unfold logEach. simpl.
      rewrite (bind_Returned _ _ _ _ _
                 (bind_Returned _ _ _ _ _ E1 : bind (logCostOf w p)
                    (fun _ => ret tt) st = (Returned tt, st1))).
      exact E2. }
    split; [ constructor; assumption | ].
    destruct He as (_ & _ & _ & _ & Hei & Heo & _).
    rewrite Hc2, Hc, Hi2, Hi, Ho2, Ho, <- app_assoc.
    simpl. rewrite Hei, Heo. repeat split; lia.
Qed.

(** X2.  resetSession leaves the tracker and the ledger in agreement, and
    logCost keeps them there: any sequence of logCost calls returns, adds
    one entry per call to the end of the ledger, in the order of the calls
    and with the fields of the call, and the input and output totals of
    the tracker remain the sums over the ledger. *)
Theorem X2_ledger_tracks_usage (w : Env) (ps : list LogCostParams) (st : St) :
  ledgerAgrees (snd (Usage.resetSession st)) /\
  exists entries st',
    logEach w ps st = (Returned tt, st') /\
    Forall2 entryOf entries ps /\
    sessionCosts st' = sessionCosts st ++ entries /\
    (ledgerAgrees st -> ledgerAgrees st').
Proof.
  split; [ split; reflexivity | ].
  destruct (logEach_spec w ps st)
    as (entries & st' & E & He & Hc & Hi & Ho).
  exists entries, st'. repeat (split; [ assumption | ]).
  intros (Ai & Ao). unfold ledgerAgrees.
  rewrite Hc, Hi, Ho, Ai, Ao, sumInput_app, sumOutput_app. split; reflexivity.
Qed.

Lemma X2_ledger_tracks_usage_witness :
  exists st',
    logEach Examples.stubEnv
      [ mkLogCostParams "acc" "asst" prompt_generation
          (mkTokenUsage 100 50 None None) None None None;
        mkLogCostParams "acc" "asst" finalize_prompt
          (mkTokenUsage 7 3 (Some 2) None) (Some "no-such-model") None None ]
      (snd (Usage.resetSession Examples.st0)) = (Returned tt, st') /\
    map ce_operation (sessionCosts st') = [prompt_generation; finalize_prompt] /\
    ledgerAgrees st'.
Proof.
  destruct (X2_ledger_tracks_usage Examples.stubEnv
              [ mkLogCostParams "acc" "asst" prompt_generation
                  (mkTokenUsage 100 50 None None) None None None;
                mkLogCostParams "acc" "asst" finalize_prompt
                  (mkTokenUsage 7 3 (Some 2) None) (Some "no-such-model")
                  None None ]
              (snd (Usage.resetSession Examples.st0)))
    as (_ & entries & st' & E & He & Hc & Hk).
  exists st'. split; [ exact E | ]. split.
  - rewrite Hc. simpl.
    inversion He as [| e1 p1 l1 l1' H1 He']; subst.
    inversion He' as [| e2 p2 l2 l2' H2 He'']; subst. inversion He''; subst.
    destruct H1 as (_ & _ & O1 & _). destruct H2 as (_ & _ & O2 & _).
    simpl. rewrite O1, O2. reflexivity.
  - apply Hk. split; reflexivity.
Defined.


(** ** Dollars *)

Lemma plusD_NaN a b : plusD a b = NaN <-> a = NaN \/ b = NaN.
Proof.
  destruct a, b; simpl; split; intros H;
    first [ discriminate H | destruct H as [H | H]; discriminate H
          | left; reflexivity | right; reflexivity | reflexivity ].
Qed.

Lemma costSum_from entries : forall a,
  fold_left (fun total entry => plusD total (ce_costUsd entry)) entries a = NaN
  <-> a = NaN \/ Exists (fun e => ce_costUsd e = NaN) entries.
Proof.
  induction entries as [| e es IH]; intros a; simpl.
  - split; [ intros H; left; exact H | ].
    intros [H | H]; [ exact H | inversion H ].
  - rewrite IH, plusD_NaN. split.
    + intros [[H | H] | H]; [ left; exact H | right; left; exact H | ].
      right. right. exact H.
    + intros [H | H]; [ left; left; exact H | ].
      inversion H; subst; [ left; right; assumption | right; assumption ].
Qed.

Lemma costSum_NaN entries :
  costSum entries = NaN <-> Exists (fun e => ce_costUsd e = NaN) entries.
Proof.
  unfold costSum. rewrite costSum_from. split.
  - intros [H | H]; [ discriminate H | exact H ].
  - intros H. right. exact H.
Qed.

Lemma entryOf_NaN entries ps :
  Forall2 entryOf entries ps ->
  (Exists (fun e => ce_costUsd e = NaN) entries <->
   Exists (fun p => inheritedKey (modelOf p) = true) ps).
Proof.
  induction 1 as [| e p es ps He _ IH].
  - split; intros H; inversion H.
  - destruct He as (_ & _ & _ & _ & _ & _ & Hc & _).
    rewrite !List.Exists_cons, IH, Hc, breakdownFor_NaN. reflexivity.
Qed.

Lemma Qplus_nonneg (a b : Q) : (0 <= a -> 0 <= b -> 0 <= a + b)%Q.
Proof.
  intros Ha Hb. change 0%Q with (0 + 0)%Q. apply Qplus_le_compat; assumption.
Qed.

(** The total of a breakdown at prices is not negative. *)
Lemma breakdownFor_nonneg model u :
  usageWf u -> inheritedKey model = false ->
  exists q, totalCostUsd (breakdownFor model u) = Usd q /\ (0 <= q)%Q.
Proof.
  intros W K.
  destruct (calculateCost_breakdown u model Examples.st0 W K)
    as (c & st' & E & _ & input & output & total & _ & _ & Ht & Hs & Hi & Ho
        & Hc & _).
  destruct (calculateCost_breakdownFor u model Examples.st0) as (st1 & E1).
  rewrite E1 in E. injection E as Ec _. subst c.
  exists total. split; [ exact Ht | ]. rewrite Hs.
  apply Qplus_nonneg; [ apply Qplus_nonneg | ]; assumption.
Qed.

Lemma costSum_nonneg entries : forall a,
  (0 <= a)%Q ->
  Forall (fun e => exists q, ce_costUsd e = Usd q /\ (0 <= q)%Q) entries ->
  exists q,
    fold_left (fun total entry => plusD total (ce_costUsd entry)) entries
      (Usd a) = Usd q /\ (0 <= q)%Q.
Proof.
  induction entries as [| e es IH]; intros a Ha H; simpl.
  - exists a. split; [ reflexivity | exact Ha ].
  - inversion H as [| ? ? (q & Hq & Q0) Hes]; subst. rewrite Hq. simpl.
    apply IH; [ apply Qplus_nonneg; assumption | exact Hes ].
Qed.

(** X3.  After resetSession and any sequence of logCost calls,
    getSessionTotalCost returns the sum of the costs of the entries, from
    the first to the last.  One call whose model is a property name that
    the price table inherits from Object.prototype makes that total NaN,
    whatever else was logged; with no such call and token counts that are
    not negative the total is a number, and not negative. *)
Theorem X3_inherited_key_poisons_the_total
    (w : Env) (ps : list LogCostParams) (st : St) :
  exists entries st' d,
    (Usage.resetSession ;;; logEach w ps) st = (Returned tt, st') /\
    sessionCosts st' = entries /\ Forall2 entryOf entries ps /\
    Usage.getSessionTotalCost st' = (Returned d, st') /\
    d = costSum entries /\
    (Exists (fun p => inheritedKey (modelOf p) = true) ps -> d = NaN) /\
    (Forall (fun p => inheritedKey (modelOf p) = false) ps ->
     Forall (fun p => usageWf (lc_usage p)) ps ->
     exists q, d = Usd q /\ (0 <= q)%Q).
Proof.
  destruct (logEach_spec w ps (snd (Usage.resetSession st)))
    as (entries & st' & E & He & Hc & _).
  simpl in Hc.
  exists entries, st', (costSum entries).
  split; [ exact E | ]. split; [ exact Hc | ]. split; [ exact He | ].
  split; [ unfold Usage.getSessionTotalCost, gets; rewrite Hc; reflexivity | ].
  split; [ reflexivity | ]. split.
  - intros H. apply costSum_NaN. apply (entryOf_NaN _ _ He). exact H.
  - intros Hk Hw. unfold costSum. apply costSum_nonneg; [ apply Qle_refl | ].
    clear E Hc. induction He as [| e p es ps' Hep _ IH]; [ constructor | ].
    inversion Hk; subst. inversion Hw; subst.
    constructor; [ | apply IH; assumption ].
    destruct Hep as (_ & _ & _ & _ & _ & _ & Hcost & _). rewrite Hcost.
    apply breakdownFor_nonneg; assumption.
Qed.

Lemma X3_inherited_key_poisons_the_total_witness :
  exists st',
    (Usage.resetSession ;;;
     logEach Examples.stubEnv
       [ mkLogCostParams "acc" "asst" prompt_generation
           (mkTokenUsage 100 50 None None) None None None;
         mkLogCostParams "acc" "asst" prompt_analysis
           (mkTokenUsage 200 10 (Some 40) None) (Some "toString") None None ])
      Examples.st0 = (Returned tt, st') /\
    Usage.getSessionTotalCost st' = (Returned NaN, st').
Proof.
  destruct (X3_inherited_key_poisons_the_total Examples.stubEnv
       [ mkLogCostParams "acc" "asst" prompt_generation
           (mkTokenUsage 100 50 None None) None None None;
         mkLogCostParams "acc" "asst" prompt_analysis
           (mkTokenUsage 200 10 (Some 40) None) (Some "toString") None None ]
       Examples.st0)
    as (entries & st' & d & E & _ & _ & T & _ & Hn & _).
  exists st'. split; [ exact E | ].
  rewrite <- Hn; [ exact T | ].
  apply List.Exists_cons_tl. apply List.Exists_cons_hd. reflexivity.
Defined.

(** X4.  With the prices of the table, more tokens never cost less: if
    [u1] counts no more tokens than [u2] in any field, calculateCost
    charges [u1] no more than [u2], for every model whose name is not a
    property that the price table inherits from Object.prototype. *)
Theorem X4_cost_monotone (u1 u2 : TokenUsage) (model : string) (st : St) :
  usageLe u1 u2 -> inheritedKey model = false ->
  exists c1 c2 st1 st2 q1 q2,
    CostTracker.calculateCost u1 model st = (Returned c1, st1) /\
    CostTracker.calculateCost u2 model st = (Returned c2, st2) /\
    totalCostUsd c1 = Usd q1 /\ totalCostUsd c2 = Usd q2 /\
    (q1 <= q2)%Q.
Proof.
  intros (Hi & Ho & Hr & Hw) K.
  destruct (calculateCost_pricingFor u1 model st K) as (st1 & E1).
  destruct (calculateCost_pricingFor u2 model st K) as (st2 & E2).
  destruct (pricingFor_ok model) as (Pi & Po & Pr & Pw).
  eexists _, _, st1, st2, _, _. split; [ exact E1 | ]. split; [ exact E2 | ].
  split; [ apply calculateCostWithPricing_usd | ].
  split; [ apply calculateCostWithPricing_usd | ].
  rewrite !total_linear.
  assert (M : forall a b p, a <= b -> (0 <= p)%Q ->
              (inject_Z a * (p / 1000000) <= inject_Z b * (p / 1000000))%Q).
  { intros a b p Hab Hp. apply Qmult_le_compat_r.
    - rewrite <- Zle_Qle. exact Hab.
    - unfold Qdiv. apply Qmult_le_0_compat; [ exact Hp | discriminate ]. }
  repeat apply Qplus_le_compat; apply M; assumption.
Qed.

Lemma X4_cost_monotone_witness :
  exists c1 c2 st1 st2 q1 q2,
    CostTracker.calculateCost (mkTokenUsage 100 50 None (Some 3))
      "claude-3-5-haiku-20241022" Examples.st0 = (Returned c1, st1) /\
    CostTracker.calculateCost (mkTokenUsage 100 60 (Some 5) (Some 3))
      "claude-3-5-haiku-20241022" Examples.st0 = (Returned c2, st2) /\
    totalCostUsd c1 = Usd q1 /\ totalCostUsd c2 = Usd q2 /\
    (q1 <= q2)%Q.
Proof.
  apply X4_cost_monotone; [ unfold usageLe; simpl; lia | reflexivity ].
Defined.

(* ================================================================== *)
(** * The content hash of validation.ts *)

Lemma toInt32_range n : -2147483648 <= Validation.toInt32 n < 2147483648.
Proof.
  unfold Validation.toInt32. cbv zeta.
  pose proof (Z.mod_pos_bound n 4294967296 ltac:(lia)).
  destruct (Z.leb_spec 2147483648 (n mod 4294967296)); lia.
Qed.

Lemma toInt32_mod n : Validation.toInt32 n mod 4294967296 = n mod 4294967296.
Proof.
  unfold Validation.toInt32. cbv zeta.
  pose proof (Z.mod_pos_bound n 4294967296 ltac:(lia)).
  destruct (Z.leb_spec 2147483648 (n mod 4294967296)).
  - replace (n mod 4294967296 - 4294967296)
      with (n mod 4294967296 + (-1) * 4294967296) by lia.
    rewrite Z.mod_add by lia. apply Z.mod_mod. lia.
  - apply Z.mod_mod. lia.
Qed.

Lemma toInt32_congr a b :
  a mod 4294967296 = b mod 4294967296 ->
  Validation.toInt32 a = Validation.toInt32 b.
Proof. intros H. unfold Validation.toInt32. cbv zeta. rewrite H. reflexivity. Qed.

(** The step multiplies by 31 and adds the character, in 32 bits. *)
Lemma hashStep_31 h c :
  hashStep h c = Validation.toInt32 (31 * h + Z.of_N (N_of_ascii c)).
Proof.
  unfold hashStep. apply toInt32_congr.
  rewrite <- Z.add_mod_idemp_l by lia.
  rewrite <- (Zminus_mod_idemp_l (Validation.toInt32 (h * 32))).
  rewrite toInt32_mod, Zminus_mod_idemp_l, Z.add_mod_idemp_l by lia.
  f_equal. lia.
Qed.

Lemma hashContent_fold content :
  Validation.hashContent content =
  Validation.padStart 8 "0"
    (Validation.toString16
       (Z.abs (fold_left hashStep (list_ascii_of_string content) 0))).
Proof. reflexivity. Qed.

Lemma fold_hashStep_range l : forall h,
  -2147483648 <= h < 2147483648 ->
  -2147483648 <= fold_left hashStep l h < 2147483648.
Proof.
  induction l as [| c l IH]; intros h Hh; simpl; [ exact Hh | ].
  apply IH. apply toInt32_range.
Qed.

Lemma hexDigit_isLowerHex d :
  0 <= d < 16 -> isLowerHex (Validation.hexDigit d) = true.
Proof.
  intros Hd.
  assert (H : d = 0 \/ d = 1 \/ d = 2 \/ d = 3 \/ d = 4 \/ d = 5 \/ d = 6 \/
              d = 7 \/ d = 8 \/ d = 9 \/ d = 10 \/ d = 11 \/ d = 12 \/
              d = 13 \/ d = 14 \/ d = 15) by lia.
  repeat (destruct H as [-> | H]; [ reflexivity | ]). subst. reflexivity.
Qed.

Lemma toString16From_spec fuel : forall n acc k,
  0 <= n < 16 ^ Z.of_nat k -> (1 <= k <= fuel)%nat -> allHex acc ->
  let s := Validation.toString16From fuel n acc in
  (String.length acc < String.length s <= String.length acc + k)%nat /\
  allHex s.
Proof.
  induction fuel as [| fuel IH]; intros n acc k Hn Hk Hacc; [ lia | ].
  cbv zeta. simpl.
  assert (Hd : allHex (String (Validation.hexDigit (n mod 16)) acc)).
  { unfold allHex. simpl. rewrite hexDigit_isLowerHex.
    - exact Hacc.
    - apply Z.mod_pos_bound. lia. }
  destruct (Z.eqb_spec (n / 16) 0) as [Hz | Hz].
  - simpl. split; [ lia | exact Hd ].
  - destruct k as [| k]; [ lia | ].
    assert (Hq : 0 <= n / 16 < 16 ^ Z.of_nat k).
    { split; [ apply Z.div_pos; lia | ].
      apply Z.div_lt_upper_bound; [ lia | ].
      rewrite Nat2Z.inj_succ, Z.pow_succ_r in Hn by lia. lia. }
    destruct k as [| k].
    { simpl in Hq. lia. }
    destruct (IH (n / 16) (String (Validation.hexDigit (n mod 16)) acc)
                 (S k) Hq ltac:(lia) Hd) as (Hl & Hh).
    simpl in Hl. split; [ lia | exact Hh ].
Qed.

Lemma length_append s t :
  String.length (s ++ t) = (String.length s + String.length t)%nat.
Proof. induction s as [| c s IH]; simpl; [ | rewrite IH ]; reflexivity. Qed.

Lemma list_ascii_of_string_app s t :
  list_ascii_of_string (s ++ t) =
  (list_ascii_of_string s ++ list_ascii_of_string t)%list.
Proof. induction s as [| c s IH]; simpl; [ | rewrite IH ]; reflexivity. Qed.

Lemma repeatChar_spec c n :
  String.length (Validation.repeatChar c n) = n /\
  (isLowerHex c = true -> allHex (Validation.repeatChar c n)).
Proof.
  induction n as [| n (IH1 & IH2)]; simpl.
  - split; [ reflexivity | intros _; reflexivity ].
  - split; [ rewrite IH1; reflexivity | ].
    intros Hc. unfold allHex. simpl. rewrite Hc. exact (IH2 Hc).
Qed.

(** X5.  hashContent returns, for every content, exactly eight characters,
    each of them one of 0-9 and a-f. *)
Theorem X5_hashContent_eight_hex_digits (content : string) :
  String.length (Validation.hashContent content) = 8%nat /\
  allHex (Validation.hashContent content).
Proof.
  rewrite hashContent_fold.
  pose proof (fold_hashStep_range (list_ascii_of_string content) 0
                ltac:(lia)) as Hr.
  set (h := fold_left hashStep (list_ascii_of_string content) 0) in *.
  destruct (toString16From_spec 16 (Z.abs h) "" 8) as (Hl & Hh).
  - change (16 ^ Z.of_nat 8) with 4294967296. lia.
  - lia.
  - reflexivity.
  - fold (Validation.toString16 (Z.abs h)) in Hl, Hh. simpl in Hl.
    unfold Validation.padStart.
    destruct (repeatChar_spec "0"
                (8 - String.length (Validation.toString16 (Z.abs h))))
      as (Rl & Rh).
    split.
    + rewrite length_append, Rl. lia.
    + unfold allHex in *. rewrite list_ascii_of_string_app, forallb_app.
      rewrite (Rh eq_refl), Hh. reflexivity.
Qed.

(** X6.  The loop of hashContent multiplies the hash by 31 and adds the
    character, in 32 bits; so the hash is not injective: two contents that
    differ only in that one has [Aa] where the other has [BB] have the
    same hash. *)
Theorem X6_hashContent_collisions (before after : string) (h : Z) (c : ascii) :
  hashStep h c = Validation.toInt32 (31 * h + Z.of_N (N_of_ascii c)) /\
  Validation.hashContent (before ++ "Aa" ++ after) =
  Validation.hashContent (before ++ "BB" ++ after).
Proof.
  split; [ apply hashStep_31 | ].
  rewrite !hashContent_fold, !list_ascii_of_string_app, !fold_left_app.
  do 3 f_equal. simpl.
  set (g := fold_left hashStep (list_ascii_of_string before) 0).
  rewrite !hashStep_31. f_equal. apply toInt32_congr.
  rewrite <- Z.add_mod_idemp_l, <- Z.mul_mod_idemp_r, toInt32_mod by lia.
  rewrite Z.mul_mod_idemp_r, Z.add_mod_idemp_l by lia.
  symmetry.
  rewrite <- Z.add_mod_idemp_l, <- Z.mul_mod_idemp_r, toInt32_mod by lia.
  rewrite Z.mul_mod_idemp_r, Z.add_mod_idemp_l by lia.
  f_equal. simpl. lia.
Qed.
(* ================================================================== *)
(** * version-tracker.ts, continued *)

Lemma keepNumbers_In {A} (f : A -> option Js.Double) x k l :
  In x l -> f x = Some k -> In k (VersionTracker.keepNumbers (map f l)).
Proof.
  intros Hin Hf. induction l as [| y l IH]; [ destruct Hin | ].
  simpl. destruct Hin as [-> | Hin].
  - rewrite Hf. left. reflexivity.
  - destruct (f y); [ right | ]; exact (IH Hin).
Qed.

Lemma keepNumbers_from {A} (f : A -> option Js.Double) d l :
  In d (VersionTracker.keepNumbers (map f l)) ->
  exists x, In x l /\ f x = Some d.
Proof.
  induction l as [| y l IH]; simpl; [ intros [] | ].
  destruct (f y) as [e |] eqn:E.
  - intros [-> | H].
    + exists y. split; [ left; reflexivity | exact E ].
    + destruct (IH H) as (x & Hx & Fx). exists x. split; [ right | ]; assumption.
  - intros H. destruct (IH H) as (x & Hx & Fx).
    exists x. split; [ right | ]; assumption.
Qed.

(** [Math.max(...numbers, 0)] of whole numbers below 2^53. *)
Lemma mathMax0_bounds l :
  (forall d, In d l -> exists k, d = Js.Fin k /\ k < 2 ^ 53) ->
  exists m,
    VersionTracker.mathMax0 l = Js.Fin m /\ 0 <= m < 2 ^ 53 /\
    forall k, In (Js.Fin k) l -> k <= m.
Proof.
  unfold VersionTracker.mathMax0.
  induction l as [| x l IH]; intros H; simpl.
  - exists 0. split; [ reflexivity | ]. split; [ lia | intros k [] ].
  - destruct IH as (m & E & Hm & Hle).
    { intros d Hd. apply H. right. exact Hd. }
    destruct (H x (or_introl eq_refl)) as (k & -> & Hk).
    rewrite E. unfold VersionTracker.maxDouble. simpl.
    destruct (Z.ltb_spec k m).
    + exists m. split; [ reflexivity | ]. split; [ exact Hm | ].
      intros j [[= ->] | Hj]; [ lia | exact (Hle j Hj) ].
    + exists k. split; [ reflexivity | ]. split; [ lia | ].
      intros j [[= ->] | Hj]; [ lia | ]. specialize (Hle j Hj). lia.
Qed.

(** X7.  As long as every number read from the names it is given is
    below 2^53, getNextVersion returns the name [v] followed by a number
    that is at least 1 and greater than every number it could read;
    names it cannot read are skipped.  The name it returns is then never
    one of those it was given. *)
Theorem X7_getNextVersion_fresh (existingVersions : list string) :
  belowLimit existingVersions ->
  (exists n,
     VersionTracker.getNextVersion existingVersions = versionName n /\
     1 <= n /\
     forall v k, In v existingVersions ->
       VersionTracker.parseInt10 (VersionTracker.replaceFirstV v) =
         Some (Js.Fin k) ->
       k < n) /\
  ~ In (VersionTracker.getNextVersion existingVersions) existingVersions.
Proof.
  intros B.
  assert (H : exists n,
     VersionTracker.getNextVersion existingVersions = versionName n /\
     1 <= n <= 2 ^ 53 /\
     forall v k, In v existingVersions ->
       VersionTracker.parseInt10 (VersionTracker.replaceFirstV v) =
         Some (Js.Fin k) ->
       k < n).
  { destruct existingVersions as [| v0 vs].
    - exists 1. split; [ reflexivity | ]. split; [ lia | intros v k [] ].
    - set (l := v0 :: vs) in *.
      set (nums := VersionTracker.keepNumbers
                     (map (fun v => VersionTracker.parseInt10
                                      (VersionTracker.replaceFirstV v)) l)).
      destruct (mathMax0_bounds nums) as (m & Em & Hm & Hmax).
      { intros d Hd. destruct (keepNumbers_from _ d l Hd) as (v & Hv & Fv).
        exact (B v d Hv Fv). }
      exists (m + 1). split.
      { change (VersionTracker.getNextVersion l)
          with ("v" ++ Js.showDouble
                         (Js.succDouble (VersionTracker.mathMax0 nums)))%string.
        rewrite Em. unfold Js.succDouble.
        rewrite nearestDouble_exact by lia.
        rewrite showDouble_small by lia. reflexivity. }
      split; [ lia | ].
      intros v k Hin Hk.
      pose proof (Hmax k (keepNumbers_In _ v (Js.Fin k) l Hin Hk)). lia. }
  destruct H as (n & E & Hn & Hlt).
  split; [ exists n; split; [ exact E | split; [ lia | exact Hlt ] ] | ].
  rewrite E. intros Hin.
  specialize (Hlt (versionName n) n Hin).
  change (VersionTracker.replaceFirstV (versionName n)) with (Js.showZ n) in Hlt.
  specialize (Hlt (parseInt10_showZ_le n ltac:(lia))). lia.
Qed.

Lemma X7_getNextVersion_fresh_witness :
  belowLimit [ "v1"; "v3"; "draft" ]%string /\
  VersionTracker.getNextVersion [ "v1"; "v3"; "draft" ]%string = "v4"%string /\
  ~ In (VersionTracker.getNextVersion [ "v1"; "v3"; "draft" ]%string)
       [ "v1"; "v3"; "draft" ]%string.
Proof.
  assert (B : belowLimit [ "v1"; "v3"; "draft" ]%string).
  { intros v d [<- | [<- | [<- | []]]] E; vm_compute in E;
      try discriminate E; injection E as <-;
      eexists; (split; [ reflexivity | reflexivity ]). }
  split; [ exact B | ]. split; [ reflexivity | ].
  exact (proj2 (X7_getNextVersion_fresh _ B)).
Defined.


(* ================================================================== *)
(** * Webhook signatures *)

Lemma prefix_append s t : String.prefix s (s ++ t) = true.
Proof.
  induction s as [| c s IH]; simpl; [ destruct t; reflexivity | ].
  destruct (ascii_dec c c) as [_ | N]; [ exact IH | congruence ].
Qed.

Lemma normalize_signed h :
  Webhook.normalize ("sha256=" ++ h) = ("sha256=" ++ h)%string.
Proof. unfold Webhook.normalize. rewrite prefix_append. reflexivity. Qed.

(** X8.  A signature made by createWebhookSignature is accepted by
    validateWebhookSignature for the same payload and the same non-empty
    secret, and no warning or error is logged: the state, which records
    the lines of these two levels, is left as it was.  The bare digest,
    without the prefix [sha256=], is accepted as well. *)
Theorem X8_sign_then_validate
    (hmac : Webhook.Hmac) (payload secret h : string) (st : St) :
  secret <> "" -> hmac secret payload = Returned h ->
  exists signature,
    Webhook.createWebhookSignature hmac payload secret = Returned signature /\
    Webhook.validateWebhookSignature hmac payload signature secret st =
      (Returned (Webhook.mkWebhookValidationResult true None), st) /\
    (h <> "" -> String.prefix "sha256=" h = false ->
     Webhook.validateWebhookSignature hmac payload h secret st =
       (Returned (Webhook.mkWebhookValidationResult true None), st)).
Proof.
  intros Hs Hh. exists ("sha256=" ++ h)%string.
  unfold Webhook.createWebhookSignature. rewrite Hh.
  split; [ reflexivity | ].
  assert (V : forall signature,
             signature <> "" ->
             Webhook.normalize signature = ("sha256=" ++ h)%string ->
             Webhook.validateWebhookSignature hmac payload signature secret st =
             (Returned (Webhook.mkWebhookValidationResult true None), st)).
  { intros signature Hne Hn. unfold Webhook.validateWebhookSignature.
    destruct signature as [| c0 s0]; [ congruence | ].
    destruct secret as [| c1 s1]; [ congruence | ].
    unfold tryCatch, bind, settle. rewrite Hh, Hn.
    rewrite Nat.eqb_refl, String.eqb_refl. reflexivity. }
  split.
  - apply V; [ discriminate | apply normalize_signed ].
  - intros Hne Hp. apply V; [ exact Hne | ].
    unfold Webhook.normalize. rewrite Hp. reflexivity.
Qed.

Lemma X8_sign_then_validate_witness :
  exists signature,
    Webhook.createWebhookSignature (fun s p => Returned ("d1" ++ s ++ p)%string)
      "{}" "key" = Returned signature /\
    Webhook.validateWebhookSignature (fun s p => Returned ("d1" ++ s ++ p)%string)
      "{}" signature "key" Examples.st0 =
      (Returned (Webhook.mkWebhookValidationResult true None), Examples.st0).
Proof.
  destruct (X8_sign_then_validate (fun s p => Returned ("d1" ++ s ++ p)%string)
              "{}" "key" "d1key{}" Examples.st0)
    as (signature & E & V & _).
  - discriminate.
  - reflexivity.
  - exists signature. split; assumption.
Defined.

(** A rejection: only the log has changed, and an error is set. *)
Ltac rejected st :=
  split; [ first [ reflexivity | destruct st; reflexivity ] | ];
  split; [ first [ reflexivity | destruct st; reflexivity ] | ];
  split; [ split; [ discriminate | ]
         | split; [ intros _; discriminate | discriminate ] ].

(** X9.  validateWebhookSignature never throws, and it answers valid
    exactly when the signature and the secret are not empty and the
    signature, with the prefix [sha256=] added if it lacks it, is that
    prefix followed by the digest of the payload under the secret.  Every
    other answer carries an error message, and no answer touches anything
    but the log. *)
Theorem X9_validate_sound
    (hmac : Webhook.Hmac) (payload signature secret : string) (st : St) :
  exists r st',
    Webhook.validateWebhookSignature hmac payload signature secret st =
      (Returned r, st') /\
    offStore st' = offStore st /\ dbCalls st' = dbCalls st /\
    (Webhook.wv_valid r = true <->
     signature <> "" /\ secret <> "" /\
     exists h, hmac secret payload = Returned h /\
               Webhook.normalize signature = ("sha256=" ++ h)%string) /\
    (Webhook.wv_valid r = false -> Webhook.wv_error r <> None) /\
    (Webhook.wv_valid r = true -> Webhook.wv_error r = None /\ st' = st).
Proof.
  unfold Webhook.validateWebhookSignature.
  destruct signature as [| c0 s0].
  { eexists _, _. split; [ reflexivity | ]. simpl. rejected st.
    intros (H & _). exfalso. congruence. }
  destruct secret as [| c1 s1].
  { eexists _, _. split; [ reflexivity | ]. simpl. rejected st.
    intros (_ & H & _). exfalso. congruence. }
  unfold tryCatch, bind, settle.
  destruct (hmac (String c1 s1) payload) as [h | e] eqn:Hh.
  - set (n := Webhook.normalize (String c0 s0)).
    destruct (String.length n =? String.length ("sha256=" ++ h)%string)%nat
      eqn:El; simpl.
    + destruct (String.eqb_spec n ("sha256=" ++ h)%string) as [En | En]; simpl.
      * eexists _, st. split; [ reflexivity | ]. simpl.
        split; [ reflexivity | ]. split; [ reflexivity | ].
        split; [ | split; [ discriminate | intros _; split; reflexivity ] ].
        split; [ intros _ | reflexivity ].
        split; [ discriminate | ]. split; [ discriminate | ].
        exists h. split; [ reflexivity | exact En ].
      * eexists _, _. split; [ reflexivity | ]. simpl. rejected st.
        intros (_ & _ & h' & Eh & Hn). exfalso. inversion Eh; subst h'.
        contradiction.
    + eexists _, _. split; [ reflexivity | ]. simpl. rejected st.
      intros (_ & _ & h' & Eh & Hn). exfalso. inversion Eh; subst h'.
      fold n in Hn. rewrite Hn, Nat.eqb_refl in El. discriminate.
  - eexists _, _. split; [ reflexivity | ]. simpl. rejected st.
    intros (_ & _ & h' & Eh & _). discriminate.
Qed.

(* ================================================================== *)
(** * The gate of the first step *)

Lemma prologue_run w payload st :
  exists pid bid st0,
    started st st0 /\ registryCalls st0 = registryCalls st /\
    forall A (k : string -> string -> M A),
      bind (modify (setSteps []))
        (fun _ => bind Usage.resetSession
           (fun _ => bind (Validation.generateId w "pipeline")
              (fun pid => bind (briefingIdOf w payload)
                 (fun bid => k pid bid)))) st
      = k pid bid st0.
Proof.
  unfold briefingIdOf. destruct (b_id (p_briefing payload)) eqn:Eb.
  - eexists _, _, _.
    split; [ | split; [ | intros A k; unfold bind; simpl; reflexivity ] ].
    + destruct st; unfold started; simpl; repeat split; reflexivity.
    + destruct st; reflexivity.
  - eexists _, _, _.
    split; [ | split; [ | intros A k; unfold bind; simpl; reflexivity ] ].
    + destruct st; unfold started; simpl; repeat split; reflexivity.
    + destruct st; reflexivity.
Qed.

Section Gate.

Variable w : Env.
Variable cfg : PipelineConfig.
Variable payload : PipelineBriefingInput.
Variable pid bid : string.
Variable ctx : option SupabaseContext.

Lemma logStep_quiet name status err :
  keeps quietPart (logStep w cfg ctx name status err).
Proof. unfold logStep. keeps_auto. Qed.

Lemma createFailedResult_quiet err :
  keeps quietPart (createFailedResult w payload pid err ctx).
Proof. unfold createFailedResult, briefingIdOf. keeps_auto. Qed.

Lemma establishContext_quiet :
  keeps quietPart (establishContext w cfg payload pid bid).
Proof. unfold establishContext, initializeSupabaseContext. keeps_auto. Qed.

(** After the generator, no step asks the provider. *)
Lemma tail_keeps_llmCalls gp :
  keeps llmCalls
    (logStep w cfg ctx GeneratePrompt completed None ;;;
     match activeContext cfg ctx with
     | Some c => saveCostsToSupabase w c "prompt_generation"
     | None => ret tt
     end ;;;
     logStep w cfg ctx DetermineVersion running None ;;;
     v <- determineVersion w cfg ctx ;;
     let '(version, versionNumber) := v in
     logStep w cfg ctx DetermineVersion completed None ;;;
     logStep w cfg ctx CreateInjectionFile running None ;;;
     injectionFile <- createInjectionFromPrompt w gp version ;;
     logStep w cfg ctx CreateInjectionFile completed None ;;;
     savePromptVersion w cfg ctx payload gp injectionFile version
       versionNumber ;;;
     logCosts w cfg ctx payload gp version ;;;
     match activeContext cfg ctx with
     | Some c =>
         tryCatch
           (Repositories.completePipelineRun w (run_id (pipelineRun c)))
           (fun err =>
              loggerWarn "Failed to complete pipeline run in Supabase")
     | None => ret tt
     end ;;;
     costEntries <- Usage.getSessionCosts ;;
     steps <- gets steps ;;
     ret {| r_id := pid;
            r_status := completed;
            r_briefingId := bid;
            r_accountId := p_accountId payload;
            r_assistantId := b_assistantId (p_briefing payload);
            r_generatedPrompt := Some gp;
            r_injectionFile := Some injectionFile;
            r_costEntries := costEntries;
            r_steps := steps;
            r_error := None |}).
Proof.
  unfold logStep, saveCostsToSupabase, determineVersion, savePromptVersion,
    logCosts, logCostsToSheets, Repositories.getNextVersionNumber,
    Usage.getSessionCosts.
  keeps_auto.
Qed.

Lemma refused_ending err name e st :
  exists r st',
    (logStep w cfg ctx name failed e ;;;
     createFailedResult w payload pid err ctx) st = (Returned r, st') /\
    r_status r = failed /\ r_error r = err /\
    quietPart st' = quietPart st /\ r_costEntries r = sessionCosts st'.
Proof.
  destruct (logStep_delta w cfg ctx name failed e st) as (st1 & dbs & E1 & _).
  pose proof (logStep_quiet name failed e st) as Q1. rewrite E1 in Q1.
  destruct (createFailedResult_spec w payload pid err ctx st1)
    as (r & st' & dbs' & E2 & _ & Hs & He & _ & _ & Hc & _).
  pose proof (createFailedResult_quiet err st1) as Q2. rewrite E2 in Q2.
  exists r, st'. rewrite (bind_Returned _ _ _ _ _ E1).
  split; [ exact E2 | ]. split; [ exact Hs | ]. split; [ exact He | ].
  split; [ | exact Hc ]. simpl in Q1, Q2. congruence.
Qed.

Lemma caught_ending e st :
  exists r st',
    (loggerError "Pipeline failed" ;;;
     createFailedResult w payload pid (Some e) ctx) st = (Returned r, st') /\
    r_status r = failed /\ r_error r = Some e /\
    quietPart st' = quietPart st /\ r_costEntries r = sessionCosts st'.
Proof.
  destruct (createFailedResult_spec w payload pid (Some e) ctx
              (snd (loggerError "Pipeline failed" st)))
    as (r & st' & dbs' & E2 & _ & Hs & He & _ & _ & Hc & _).
  pose proof (createFailedResult_quiet (Some e)
                (snd (loggerError "Pipeline failed" st))) as Q2.
  rewrite E2 in Q2.
  exists r, st'. split; [ exact E2 | ]. split; [ exact Hs | ].
  split; [ exact He | ]. split; [ | exact Hc ].
  simpl in Q2. rewrite Q2. destruct st; reflexivity.
Qed.

(** The guarded part of runPipeline: steps 1 to 6 under the outer
    handler. *)
Lemma guarded_gate st1 :
  exists r st',
    tryCatch
      (steps1to6 w cfg payload pid bid ctx)
      (fun errorMessage =>
         loggerError "Pipeline failed" ;;;
         createFailedResult w payload pid (Some errorMessage) ctx) st1
    = (Returned r, st') /\
    match refusal w payload st1 with
    | Some err =>
        r_status r = failed /\ r_error r = err /\
        held st' = held st1 /\
        r_costEntries r = sessionCosts st'
    | None =>
        exists calls, calls <> [] /\ llmCalls st' = llmCalls st1 ++ calls
    end.
Proof.
  unfold tryCatch, steps1to6, refusal. cbv zeta.
  destruct (logStep_delta w cfg ctx LoadAccountConfig running None st1)
    as (st2 & dbs2 & E2 & _).
  pose proof (logStep_quiet LoadAccountConfig running None st1) as Q2.
  rewrite E2 in Q2. simpl in Q2. unfold quietPart in Q2.
  assert (Qh : held st2 = held st1) by congruence.
  assert (Qr : registryCalls st2 = registryCalls st1) by congruence.
  rewrite (bind_Returned _ _ _ _ _ E2). unfold bind at 1.
  unfold callRegistry at 1. cbv zeta.
  set (st3 := record _ (setRegistryCalls (registryCalls st2 ++ [p_accountId payload]) st2)).
  rewrite Qr.
  assert (H3 : held st3 = held st1).
  { rewrite <- Qh. subst st3. destruct st2; reflexivity. }
  destruct (registry_loadAccountConfig w (length (registryCalls st1))
              (p_accountId payload)) as [[config |] | e].
  - destruct (valid (registry_validateApiKeyConfigured w)) eqn:EV; simpl.
    + destruct (logStep_delta w cfg ctx LoadAccountConfig completed None st3)
        as (st4 & dbs4 & E4 & _).
      pose proof (logStep_quiet LoadAccountConfig completed None st3) as Q4.
      rewrite E4 in Q4. simpl in Q4.
      rewrite (bind_Returned _ _ _ _ _ E4).
      destruct (logStep_delta w cfg ctx GeneratePrompt running None st4)
        as (st5 & dbs5 & E5 & _).
      pose proof (logStep_quiet GeneratePrompt running None st4) as Q5.
      rewrite E5 in Q5. simpl in Q5.
      rewrite (bind_Returned _ _ _ _ _ E5).
      assert (L5 : llmCalls st5 = llmCalls st1).
      { unfold quietPart, held, ledgerCalls in *. congruence. }
      destruct (generatePromptWithIteration_spec w (p_briefing payload)
                  (p_accountId payload) (Some (maxIterations cfg)) st5)
        as (calls & entries & B & G).
      cbv zeta in B, G. destruct B as (L6 & _).
      destruct (Generator.generatePromptWithIteration w (p_briefing payload)
                  (p_accountId payload) (Some (maxIterations cfg)) st5)
        as [[gp | e] st6] eqn:EG; simpl in L6, G.
      * assert (Hne : calls <> []).
        { destruct G as (_ & Hvia & _). destruct calls; discriminate. }
        rewrite (bind_Returned _ _ _ _ _ EG). cbv beta.
        match goal with
        | |- context [ match ?t with pair _ _ => _ end ] =>
            assert (T : llmCalls (snd t) = llmCalls st6)
              by exact (tail_keeps_llmCalls gp st6);
            destruct t as [[r | e] st7] eqn:E7
        end; simpl in T.
        -- exists r, st7. split; [ reflexivity | ].
           exists calls. split; [ exact Hne | congruence ].
        -- destruct (caught_ending e st7) as (r & st' & E & _ & _ & Hq & _).
           exists r, st'. split; [ exact E | ].
           exists calls. split; [ exact Hne | ].
           unfold quietPart, held, ledgerCalls in Hq. congruence.
      * assert (Hne : calls <> []).
        { destruct G as (pre & c & -> & _). destruct pre; discriminate. }
        rewrite (bind_Threw _ _ _ _ _ EG).
        destruct (caught_ending e st6) as (r & st' & E & _ & _ & Hq & _).
        exists r, st'. split; [ exact E | ].
        exists calls. split; [ exact Hne | ].
        unfold quietPart, held, ledgerCalls in Hq. congruence.
    + destruct (refused_ending (kv_error (registry_validateApiKeyConfigured w))
                  LoadAccountConfig
                  (kv_error (registry_validateApiKeyConfigured w)) st3)
        as (r & st' & E & Hs & He & Hq & Hc).
      rewrite E. exists r, st'. split; [ reflexivity | ].
      unfold quietPart in Hq. repeat (split; [ assumption | ]).
      split; [ congruence | exact Hc ].
  - destruct (refused_ending (Some "Account not found"%string)
                LoadAccountConfig (Some "Account not found"%string) st3)
      as (r & st' & E & Hs & He & Hq & Hc).
    rewrite E. exists r, st'. split; [ reflexivity | ].
    unfold quietPart in Hq. repeat (split; [ assumption | ]).
    split; [ congruence | exact Hc ].
  - destruct (caught_ending e st3) as (r & st' & E & Hs & He & Hq & Hc).
    exists r, st'. split; [ exact E | ].
    unfold quietPart in Hq. repeat (split; [ assumption | ]).
    split; [ congruence | exact Hc ].
Qed.

End Gate.

(** X10.  runPipeline asks the completion provider if and only if the
    registry finds the account and the key is configured.  If the registry
    throws or finds no account, or if the key is not configured, the run
    returns a failed result with the corresponding error and an empty
    list of cost entries, having asked nothing of the provider, of the
    packaging function or of the spreadsheet ledger and saved no prompt
    version; otherwise at least one completion call is made. *)
Theorem X10_first_step_is_a_gate
    (w : Env) (payload : PipelineBriefingInput)
    (config : PartialPipelineConfig) (st : St) :
  exists r st',
    runPipeline w payload config st = (Returned r, st') /\
    match refusal w payload st with
    | Some err =>
        r_status r = failed /\ r_error r = err /\ r_costEntries r = [] /\
        llmCalls st' = llmCalls st /\
        injectionCalls st' = injectionCalls st /\
        sheetCalls st' = sheetCalls st /\
        promptVersions st' = promptVersions st
    | None =>
        exists calls, calls <> [] /\ llmCalls st' = llmCalls st ++ calls
    end.
Proof.
  unfold runPipeline. cbv zeta.
  set (cfg := spread DEFAULT_CONFIG config).
  destruct (prologue_run w payload st) as (pid & bid & st0 & S0 & R0 & Hk).
  rewrite Hk. clear Hk.
  destruct (establishContext_walked w cfg payload pid bid st0)
    as (ctx & st1 & dbs1 & E1 & _).
  pose proof (establishContext_quiet w cfg payload pid bid st0) as Q1.
  rewrite E1 in Q1. simpl in Q1. unfold quietPart in Q1.
  rewrite (bind_Returned _ _ _ _ _ E1).
  destruct (guarded_gate w cfg payload pid bid ctx st1) as (r & st' & E & H).
  exists r, st'. split; [ exact E | ].
  assert (Hr : refusal w payload st1 = refusal w payload st).
  { unfold refusal. replace (registryCalls st1) with (registryCalls st)
      by congruence. reflexivity. }
  rewrite Hr in H. clear Hr.
  destruct S0 as (_ & Sc & _ & _ & Sl & _ & Sh & Si & Sp & _).
  assert (Qh : held st1 = held st0) by congruence.
  unfold held, ledgerCalls in Qh.
  destruct (refusal w payload st) as [err |].
  - destruct H as (Hs & He & Hh & Hc). unfold held, ledgerCalls in Hh.
    split; [ exact Hs | ]. split; [ exact He | ].
    split; [ rewrite Hc; congruence | ].
    repeat split; congruence.
  - destruct H as (calls & Hne & Hl). exists calls.
    split; [ exact Hne | ]. rewrite Hl. f_equal. congruence.
Qed.

Lemma X10_first_step_is_a_gate_witness :
  exists r st',
    runPipeline Samples.unknownAccount Examples.payload Examples.noConfig
      Examples.st0 = (Returned r, st') /\
    r_error r = Some "Account not found" /\ llmCalls st' = [].
Proof.
  destruct (X10_first_step_is_a_gate Samples.unknownAccount Examples.payload
              Examples.noConfig Examples.st0) as (r & st' & E & H).
  simpl in H. destruct H as (_ & He & _ & Hl & _).
  exists r, st'. split; [ exact E | ]. split; assumption.
Defined.

(* ================================================================== *)
(** * Switches *)

Lemma generator_keeps_off w b a mi :
  keeps offGenerator (Generator.generatePromptWithIteration w b a mi).
Proof.
  intros st.
  destruct (generatePromptWithIteration_spec w b a mi st)
    as (calls & entries & B & _).
  destruct B as (_ & _ & _ & _ & _ & _ & Off). exact Off.
Qed.

Lemma generator_keeps_promptVersions w b a mi :
  keeps promptVersions (Generator.generatePromptWithIteration w b a mi).
Proof.
  intros st. pose proof (generator_keeps_off w b a mi st) as H.
  unfold offGenerator in H. congruence.
Qed.

Lemma generator_keeps_sheetCalls w b a mi :
  keeps sheetCalls (Generator.generatePromptWithIteration w b a mi).
Proof.
  intros st. pose proof (generator_keeps_off w b a mi st) as H.
  unfold offGenerator in H. congruence.
Qed.

Section Switches.

Variable w : Env.
Variable payload : PipelineBriefingInput.
Variables pid bid : string.

Lemma contextless_keeps_promptVersions cfg :
  keeps promptVersions (contextless w payload pid bid cfg).
Proof.
  open_steps.
  repeat first [ apply generator_keeps_promptVersions | keeps_step ].
Qed.

Lemma contextless_steps cfg :
  extends steps (fun s => ps_name s <> SavePromptVersion)
    (contextless w payload pid bid cfg).
Proof.
  open_steps.
  repeat first [ apply extends_keeps; apply generator_keeps_steps
               | extends_step ].
Qed.

End Switches.

(** X11.  With [enableSupabase] false, runPipeline makes no request to the
    store at all: the call log of the store and the prompt_versions table
    are left as they were, and the array of steps of the result has no
    entry of Save Prompt Version. *)
Theorem X11_supabase_off_leaves_the_store_alone
    (w : Env) (payload : PipelineBriefingInput)
    (config : PartialPipelineConfig) (st : St) :
  enableSupabase (spread DEFAULT_CONFIG config) = false ->
  exists r st',
    runPipeline w payload config st = (Returned r, st') /\
    dbCalls st' = dbCalls st /\
    promptVersions st' = promptVersions st /\
    Forall (fun s => ps_name s <> SavePromptVersion) (r_steps r).
Proof.
  intros Off.
  destruct (runPipeline_spec w payload config st)
    as (r & st' & _ & _ & E & _ & _ & _ & Hs & _).
  exists r, st'. split; [ exact E | ].
  revert E. unfold runPipeline. cbv zeta.
  destruct (prologue_run w payload st) as (pid & bid & st0 & S0 & _ & Hk).
  rewrite Hk. clear Hk. unfold establishContext. rewrite Off.
  rewrite (bind_Returned _ _ st0 None st0) by reflexivity.
  fold (contextless w payload pid bid (spread DEFAULT_CONFIG config)).
  intros E.
  pose proof (contextless_keeps_dbCalls w payload pid bid
                (spread DEFAULT_CONFIG config) st0) as Kd.
  pose proof (contextless_keeps_promptVersions w payload pid bid
                (spread DEFAULT_CONFIG config) st0) as Kp.
  destruct (contextless_steps w payload pid bid
              (spread DEFAULT_CONFIG config) st0) as (l & Kl & Pl).
  rewrite E in Kd, Kp, Kl. simpl in Kd, Kp, Kl.
  destruct S0 as (S1 & _ & _ & _ & _ & Sd & _ & _ & Sp & _).
  split; [ congruence | ]. split; [ congruence | ].
  rewrite Hs, Kl, S1. exact Pl.
Qed.

Lemma X11_supabase_off_leaves_the_store_alone_witness :
  exists r st',
    runPipeline Examples.stubEnv Examples.payload Examples.supabaseOff
      Examples.st0 = (Returned r, st') /\
    r_status r = completed /\ dbCalls st' = [].
Proof.
  destruct (X11_supabase_off_leaves_the_store_alone Examples.stubEnv
              Examples.payload Examples.supabaseOff Examples.st0 eq_refl)
    as (r & st' & E & Hd & _).
  exists r, st'. split; [ exact E | ]. split; [ | exact Hd ].
  vm_compute in E. inversion E. reflexivity.
Defined.

Ltac open_guarded :=
  unfold guarded, steps1to6, logStep, determineVersion, savePromptVersion,
    logCosts, saveCostsToSupabase, createFailedResult, briefingIdOf,
    Repositories.getNextVersionNumber, Usage.getSessionCosts;
  cbv zeta.

Section CostTrackingOff.

Variable w : Env.
Variable payload : PipelineBriefingInput.
Variables pid bid : string.
Variable cfg : PipelineConfig.
Variable ctx : option SupabaseContext.
Hypothesis Off : enableCostTracking cfg = false.

Lemma guarded_keeps_sheetCalls :
  keeps sheetCalls (guarded w payload pid bid cfg ctx).
Proof.
  open_guarded. rewrite Off.
  repeat first [ apply generator_keeps_sheetCalls | keeps_step ].
Qed.

Lemma guarded_steps :
  extends steps (fun s => ps_name s <> LogCosts)
    (guarded w payload pid bid cfg ctx).
Proof.
  open_guarded. rewrite Off.
  repeat first [ apply extends_keeps; apply generator_keeps_steps
               | extends_step ].
Qed.

End CostTrackingOff.

Lemma establishContext_keeps_sheetCalls w cfg payload pid bid :
  keeps sheetCalls (establishContext w cfg payload pid bid).
Proof. unfold establishContext, initializeSupabaseContext. keeps_auto. Qed.

Lemma establishContext_keeps_steps w cfg payload pid bid :
  keeps steps (establishContext w cfg payload pid bid).
Proof. unfold establishContext, initializeSupabaseContext. keeps_auto. Qed.

(** X12.  With [enableCostTracking] false, runPipeline makes no request to
    the spreadsheet ledger, whatever else happens in the run, and the
    array of steps of the result has no entry of Log Costs. *)
Theorem X12_cost_tracking_off_leaves_the_sheets_alone
    (w : Env) (payload : PipelineBriefingInput)
    (config : PartialPipelineConfig) (st : St) :
  enableCostTracking (spread DEFAULT_CONFIG config) = false ->
  exists r st',
    runPipeline w payload config st = (Returned r, st') /\
    sheetCalls st' = sheetCalls st /\
    Forall (fun s => ps_name s <> LogCosts) (r_steps r).
Proof.
  intros Off.
  destruct (runPipeline_spec w payload config st)
    as (r & st' & _ & _ & E & _ & _ & _ & Hs & _).
  exists r, st'. split; [ exact E | ].
  revert E. unfold runPipeline. cbv zeta.
  set (cfg := spread DEFAULT_CONFIG config) in *.
  destruct (prologue_run w payload st) as (pid & bid & st0 & S0 & _ & Hk).
  rewrite Hk. clear Hk.
  destruct (establishContext_walked w cfg payload pid bid st0)
    as (ctx & st1 & dbs1 & E1 & _).
  pose proof (establishContext_keeps_sheetCalls w cfg payload pid bid st0) as K1.
  pose proof (establishContext_keeps_steps w cfg payload pid bid st0) as K2.
  rewrite E1 in K1, K2. simpl in K1, K2.
  rewrite (bind_Returned _ _ _ _ _ E1).
  fold (guarded w payload pid bid cfg ctx). intros E.
  pose proof (guarded_keeps_sheetCalls w payload pid bid cfg ctx Off st1) as Kh.
  destruct (guarded_steps w payload pid bid cfg ctx Off st1) as (l & Kl & Pl).
  rewrite E in Kh, Kl. simpl in Kh, Kl.
  destruct S0 as (S1 & _ & _ & _ & _ & _ & Sh & _).
  split; [ congruence | ].
  rewrite Hs, Kl, K2, S1. exact Pl.
Qed.

Lemma X12_cost_tracking_off_leaves_the_sheets_alone_witness :
  exists r st',
    runPipeline Examples.stubEnv Examples.payload
      (mkPartialPipelineConfig None (Some false) None None None)
      Examples.st0 = (Returned r, st') /\
    r_status r = completed /\ sheetCalls st' = [].
Proof.
  destruct (X12_cost_tracking_off_leaves_the_sheets_alone Examples.stubEnv
              Examples.payload
              (mkPartialPipelineConfig None (Some false) None None None)
              Examples.st0 eq_refl)
    as (r & st' & E & Hd & _).
  exists r, st'. split; [ exact E | ]. split; [ | exact Hd ].
  vm_compute in E. inversion E. reflexivity.
Defined.

(* ================================================================== *)
(** * Saving the costs *)

Lemma saveEach_spec w c op costs : forall st,
  exists st' calls,
    forEach costs
      (fun cost =>
         tryCatch (Repositories.createCostEntry w (costRow c op cost))
           (fun err => loggerWarn "Failed to save cost entry to Supabase")) st
    = (Returned tt, st') /\
    dbCalls st' = dbCalls st ++ calls /\
    map db_op calls = map (fun cost => OpCreateCostEntry (costRow c op cost)) costs /\
    logs st' =
      logs st ++ map (fun _ => saveWarning)
                     (List.filter (fun k => negb (db_ok k)) calls) /\
    offStore st' = offStore st.
Proof.
  induction costs as [| cost costs IH]; intros st.
  - exists st, []. simpl. rewrite !app_nil_r. repeat split; reflexivity.
  - simpl. unfold bind at 1. unfold tryCatch at 1.
    unfold Repositories.createCostEntry at 1, Repositories.command, dbCall.
    cbv zeta.
    set (op1 := OpCreateCostEntry (costRow c op cost)).
    destruct (db_fault w (length (dbCalls st)) op1) as [e |]; simpl.
    + match goal with
      | |- context [ forEach costs ?body ?s ] =>
          destruct (IH s) as (st' & calls & E & Hd & Hm & Hl & Ho)
      end.
      exists st', (mkDbCall op1 false :: calls).
      split; [ exact E | ].
      destruct st; simpl in *.
      rewrite Hd, Hm, Hl, Ho, <- !app_assoc. repeat split; reflexivity.
    + match goal with
      | |- context [ forEach costs ?body ?s ] =>
          destruct (IH s) as (st' & calls & E & Hd & Hm & Hl & Ho)
      end.
      exists st', (mkDbCall op1 true :: calls).
      split; [ exact E | ].
      destruct st; simpl in *.
      rewrite Hd, Hm, Hl, Ho, <- !app_assoc. repeat split; reflexivity.
Qed.

(** X13.  saveCostsToSupabase never throws.  It sends one createCostEntry
    request for every entry of the session ledger, in the order of the
    ledger and whether or not earlier requests failed; every row carries
    the operation passed to the function and cache token counts of 0.  Each
    failed request is logged as one warning, and nothing but the call log
    of the store and the log changes. *)
Theorem X13_saveCostsToSupabase_sends_every_entry
    (w : Env) (context : SupabaseContext) (operation : string) (st : St) :
  exists st' calls,
    saveCostsToSupabase w context operation st = (Returned tt, st') /\
    dbCalls st' = dbCalls st ++ calls /\
    map db_op calls =
      map (fun cost => OpCreateCostEntry (costRow context operation cost))
          (sessionCosts st) /\
    logs st' =
      logs st ++ map (fun _ => saveWarning)
                     (List.filter (fun k => negb (db_ok k)) calls) /\
    offStore st' = offStore st.
Proof.
  unfold saveCostsToSupabase, Usage.getSessionCosts.
  unfold bind at 1. unfold gets. cbv zeta.
  exact (saveEach_spec w context operation (sessionCosts st) st).
Qed.

(* ================================================================== *)
(** * Logging the costs to the spreadsheet *)

Lemma fold_left_sumInput costs : forall a,
  fold_left (fun sum c => sum + ce_inputTokens c) costs a = a + sumInput costs.
Proof.
  induction costs as [| c costs IH]; intros a; simpl; [ lia | ].
  rewrite IH. lia.
Qed.

Lemma fold_left_sumOutput costs : forall a,
  fold_left (fun sum c => sum + ce_outputTokens c) costs a = a + sumOutput costs.
Proof.
  induction costs as [| c costs IH]; intros a; simpl; [ lia | ].
  rewrite IH. lia.
Qed.

(** X14.  When logCostsToSheets returns, the spreadsheet service answered
    its first request with a folder and its second, the search of that
    folder, with a spreadsheet or with none; the spreadsheet it then
    writes to is the one found or, only if none was found, the one the
    service answered its third request, the creation, with.  The entries
    of the session ledger are appended only if there are any, then one
    version row is appended and the summary updated, in that order and
    each request succeeding; the token totals and the number of
    operations of the summary are the sums over the entries it
    appended. *)
Theorem X14_logCostsToSheets_requests
    (w : Env) (a s : string) (cfg : PipelineConfig) (v : string)
    (b : Briefing) (p : string) (st st' : St) :
  logCostsToSheets w a s cfg v b p st = (Returned tt, st') ->
  exists folderId found spreadsheetId calls,
    sheets_findOrCreateFolder w (length (sheetCalls st))
      (googleFolderName cfg) = Returned folderId /\
    sheets_findCostSpreadsheet w (S (length (sheetCalls st)))
      (googleSpreadsheetName cfg) folderId = Returned found /\
    match orNull found with
    | Some id => spreadsheetId = id
    | None =>
        sheets_createCostSpreadsheet w (S (S (length (sheetCalls st))))
          (googleSpreadsheetName cfg) folderId = Returned spreadsheetId
    end /\
    sheetCalls st' = sheetCalls st ++ calls /\
    Forall (fun c => sheet_ok c = true) calls /\
    map sheet_op calls =
      [ OpFindOrCreateFolder (googleFolderName cfg);
        OpFindCostSpreadsheet (googleSpreadsheetName cfg) folderId ] ++
      match orNull found with
      | Some _ => []
      | None => [OpCreateCostSpreadsheet (googleSpreadsheetName cfg) folderId]
      end ++
      sheetWrites w a s v b p spreadsheetId (sessionCosts st).
Proof.
  intros E. unfold logCostsToSheets, Usage.getSessionCosts in E.
  unfold bind, sheetCall, gets, ret in E. cbv zeta in E.
  assert (S0 : forall e c x,
             sessionCosts (record e (setSheetCalls c x)) = sessionCosts x)
    by (intros e c x; destruct x; reflexivity).
  assert (S1 : forall e c x, sheetCalls (record e (setSheetCalls c x)) = c)
    by (intros e c x; destruct x; reflexivity).
  assert (L1 : forall (l : list SheetCall) x, length (l ++ [x]) = S (length l))
    by (intros l x; rewrite length_app; simpl; lia).
  rewrite ?S1, ?L1 in E.
  destruct (sheets_findOrCreateFolder w (length (sheetCalls st))
              (googleFolderName cfg)) as [folderId |] eqn:E1;
    [ | discriminate ].
  destruct (sheets_findCostSpreadsheet w (S (length (sheetCalls st)))
              (googleSpreadsheetName cfg) folderId) as [found |] eqn:E2;
    [ | discriminate ].
  exists folderId, found.
  assert (F1 : forall costs,
             fold_left (fun sum c => sum + ce_inputTokens c) costs 0
             = sumInput costs)
    by (intros; rewrite fold_left_sumInput; lia).
  assert (F2 : forall costs,
             fold_left (fun sum c => sum + ce_outputTokens c) costs 0
             = sumOutput costs)
    by (intros; rewrite fold_left_sumOutput; lia).
  destruct (orNull found) as [sid |] eqn:Ef.
  - rewrite ?S0, ?F1, ?F2 in E.
    destruct (sessionCosts st) as [| c0 cs] eqn:Ec.
    + simpl in E.
      repeat match type of E with
             | context [ faultOutcome ?f ] =>
                 destruct f; simpl in E; [ discriminate | ]
             end.
      inversion E; subst st'. clear E.
      eexists sid, _. rewrite ?S1, <- ?app_assoc.
      split; [ first [ exact E1 | reflexivity ] | ].
      split; [ first [ exact E2 | reflexivity ] | ].
      split; [ first [ exact E3 | reflexivity ] | ].
      split; [ reflexivity | ]. split; [ repeat constructor | ].
      unfold sheetWrites, costSum. simpl. reflexivity.
    + simpl in E.
      repeat match type of E with
             | context [ faultOutcome ?f ] =>
                 destruct f; simpl in E; [ discriminate | ]
             end.
      inversion E; subst st'. clear E.
      eexists sid, _. rewrite ?S1, <- ?app_assoc.
      split; [ first [ exact E1 | reflexivity ] | ].
      split; [ first [ exact E2 | reflexivity ] | ].
      split; [ first [ exact E3 | reflexivity ] | ].
      split; [ reflexivity | ]. split; [ repeat constructor | ].
      unfold sheetWrites, costSum. simpl. reflexivity.
  - rewrite ?S1, ?L1 in E.
    destruct (sheets_createCostSpreadsheet w (S (S (length (sheetCalls st))))
                (googleSpreadsheetName cfg) folderId) as [sid |] eqn:E3;
      [ | discriminate ].
    rewrite ?S0, ?F1, ?F2 in E.
    destruct (sessionCosts st) as [| c0 cs] eqn:Ec.
    + simpl in E.
      repeat match type of E with
             | context [ faultOutcome ?f ] =>
                 destruct f; simpl in E; [ discriminate | ]
             end.
      inversion E; subst st'. clear E.
      eexists sid, _. rewrite ?S1, <- ?app_assoc.
      split; [ first [ exact E1 | reflexivity ] | ].
      split; [ first [ exact E2 | reflexivity ] | ].
      split; [ first [ exact E3 | reflexivity ] | ].
      split; [ reflexivity | ]. split; [ repeat constructor | ].
      unfold sheetWrites, costSum. simpl. reflexivity.
    + simpl in E.
      repeat match type of E with
             | context [ faultOutcome ?f ] =>
                 destruct f; simpl in E; [ discriminate | ]
             end.
      inversion E; subst st'. clear E.
      eexists sid, _. rewrite ?S1, <- ?app_assoc.
      split; [ first [ exact E1 | reflexivity ] | ].
      split; [ first [ exact E2 | reflexivity ] | ].
      split; [ first [ exact E3 | reflexivity ] | ].
      split; [ reflexivity | ]. split; [ repeat constructor | ].
      unfold sheetWrites, costSum. simpl. reflexivity.
Qed.

Lemma X14_logCostsToSheets_requests_witness :
  exists st' calls,
    logCostsToSheets Examples.stubEnv "acc" "asst" DEFAULT_CONFIG "v1"
      Examples.briefing "prompt" Examples.st0 = (Returned tt, st') /\
    sheetCalls st' = sheetCalls Examples.st0 ++ calls /\
    Forall (fun c => sheet_ok c = true) calls.
Proof.
  set (r := logCostsToSheets Examples.stubEnv "acc" "asst" DEFAULT_CONFIG "v1"
              Examples.briefing "prompt" Examples.st0).
  assert (E : r = (Returned tt, snd r)) by (vm_compute; reflexivity).
  destruct (X14_logCostsToSheets_requests _ _ _ _ _ _ _ _ _ E)
    as (folderId & found & sid & calls & _ & _ & _ & Hc & Hok & _).
  exists (snd r), calls. split; [ exact E | ]. split; assumption.
Defined.

(* ================================================================== *)
(** * Versions in the store *)

Lemma getNextVersionNumber_returns w a st n st1 :
  Repositories.getNextVersionNumber w a st = (Returned n, st1) ->
  n = nextNumber (Repositories.versionsOf a (promptVersions st)) /\
  promptVersions st1 = promptVersions st.
Proof.
  unfold Repositories.getNextVersionNumber, bind,
    Repositories.rpcNextVersionNumber.
  destruct (db_fault w (length (dbCalls st)) (OpRpcNextVersionNumber a)).
  - unfold loggerError, modify, Repositories.getLatestPromptVersion. simpl.
    match goal with
    | |- context [ db_fault w ?n ?op ] => destruct (db_fault w n op)
    end; [ discriminate | ].
    intros E. inversion E; subst. clear E.
    destruct st; simpl. split; [ apply fallback_nextNumber | reflexivity ].
  - intros E. inversion E; subst. clear E.
    destruct st; simpl. split; [ apply rpc_nextNumber | reflexivity ].
Qed.

Lemma createPromptVersion_returns w data st st1 :
  Repositories.createPromptVersion w data st = (Returned tt, st1) ->
  promptVersions st1 = promptVersions st ++ [data] /\
  Repositories.violatesUnique (promptVersions st) data = false.
Proof.
  unfold Repositories.createPromptVersion. cbv zeta.
  destruct (db_fault w (length (dbCalls st)) (OpCreatePromptVersion data));
    [ discriminate | ].
  destruct (Repositories.violatesUnique (promptVersions st) data);
    [ discriminate | ].
  intros E. inversion E. destruct st; simpl. split; reflexivity.
Qed.

Lemma versionsOf_app a t1 t2 :
  Repositories.versionsOf a (t1 ++ t2) =
  Repositories.versionsOf a t1 ++ Repositories.versionsOf a t2.
Proof. apply List.filter_app. Qed.

Lemma nextNumber_bound rows :
  1 <= nextNumber rows \/ rows <> [] .
Proof. destruct rows; [ left; unfold nextNumber; simpl; lia | right; discriminate ]. Qed.

Lemma nextNumber_append rows d :
  pv_version_number d = nextNumber rows ->
  nextNumber (rows ++ [d]) = nextNumber rows + 1.
Proof.
  intros Hd. apply nextNumber_priorMax. split.
  - exists d. split; [ apply in_or_app; right; left; reflexivity | exact Hd ].
  - apply Forall_app. split; [ | constructor; [ lia | constructor ] ].
    unfold nextNumber.
    destruct (Repositories.sqlMax rows) as [m |] eqn:E.
    + destruct (sqlMax_priorMax rows m E) as (_ & H).
      eapply List.Forall_impl; [ | exact H ]. simpl. intros; lia.
    + destruct rows as [| r rows]; [ constructor | ].
      simpl in E. destruct (Repositories.sqlMax rows); discriminate.
Qed.

(** X15.  Version numbers are issued per assistant and go up by one with
    every saved version: if getNextVersionNumber returns [n] for an
    assistant and a row with that number is then inserted for it by
    createPromptVersion, the next number getNextVersionNumber returns for
    the assistant is [n + 1], by the remote procedure or by the query it
    falls back to, and the number of every other assistant is as
    before. *)
Theorem X15_version_numbers_are_consecutive
    (w : Env) (a : string) (data : PromptVersionInsert)
    (st st1 st2 : St) (n : Z) :
  Repositories.getNextVersionNumber w a st = (Returned n, st1) ->
  pv_assistant_id data = a -> pv_version_number data = n ->
  Repositories.createPromptVersion w data st1 = (Returned tt, st2) ->
  (forall m st3,
     Repositories.getNextVersionNumber w a st2 = (Returned m, st3) ->
     m = n + 1) /\
  (forall other, other <> a ->
     Repositories.get_next_version_number (promptVersions st2) other =
     Repositories.get_next_version_number (promptVersions st) other).
Proof.
  intros E1 Ha Hn E2.
  destruct (getNextVersionNumber_returns w a st n st1 E1) as (Hn1 & P1).
  destruct (createPromptVersion_returns w data st1 st2 E2) as (P2 & _).
  split.
  - intros m st3 E3.
    destruct (getNextVersionNumber_returns w a st2 m st3 E3) as (Hm & _).
    rewrite Hm, P2, P1, versionsOf_app.
    replace (Repositories.versionsOf a [data]) with [data]
      by (unfold Repositories.versionsOf; simpl;
          rewrite Ha, String.eqb_refl; reflexivity).
    rewrite nextNumber_append; [ congruence | ]. congruence.
  - intros other Ho. rewrite !rpc_nextNumber, P2, P1, versionsOf_app.
    replace (Repositories.versionsOf other [data]) with (@nil PromptVersionInsert).
    + rewrite app_nil_r. reflexivity.
    + unfold Repositories.versionsOf. simpl.
      destruct (String.eqb_spec (pv_assistant_id data) other) as [Eq | _];
        [ congruence | reflexivity ].
Qed.

Lemma X15_version_numbers_are_consecutive_witness :
  exists st1 st2 st3,
    Repositories.getNextVersionNumber Examples.stubEnv "S-asst"
      Examples.twoVersions = (Returned 3, st1) /\
    Repositories.createPromptVersion Examples.stubEnv (Examples.versionRow 3)
      st1 = (Returned tt, st2) /\
    Repositories.getNextVersionNumber Examples.stubEnv "S-asst" st2
      = (Returned 4, st3).
Proof.
  set (r1 := Repositories.getNextVersionNumber Examples.stubEnv "S-asst"
               Examples.twoVersions).
  assert (E1 : r1 = (Returned 3, snd r1)) by (vm_compute; reflexivity).
  set (r2 := Repositories.createPromptVersion Examples.stubEnv
               (Examples.versionRow 3) (snd r1)).
  assert (E2 : r2 = (Returned tt, snd r2)) by (vm_compute; reflexivity).
  set (r3 := Repositories.getNextVersionNumber Examples.stubEnv "S-asst"
               (snd r2)).
  assert (E3 : exists m, r3 = (Returned m, snd r3))
    by (eexists; vm_compute; reflexivity).
  destruct E3 as (m & E3).
  destruct (X15_version_numbers_are_consecutive Examples.stubEnv "S-asst"
              (Examples.versionRow 3) Examples.twoVersions (snd r1) (snd r2) 3
              E1 eq_refl eq_refl E2) as (H & _).
  exists (snd r1), (snd r2), (snd r3).
  split; [ exact E1 | ]. split; [ exact E2 | ].
  rewrite (H m (snd r3) E3) in E3. exact E3.
Defined.

(* ================================================================== *)
(** * Step 5: saving the version *)

(** The endings of Step 5, with the reason of a failure. *)
Lemma savePromptVersion_cases
    (w : Env) (cfg : PipelineConfig) (ctx : option SupabaseContext)
    (c : SupabaseContext) (payload : PipelineBriefingInput)
    (gp : GeneratedPrompt) (inj : InjectionFile) (v : string) (vn : Z)
    (st : St) :
  activeContext cfg ctx = Some c ->
  exists st',
    savePromptVersion w cfg ctx payload gp inj v vn st = (Returned tt, st') /\
    llmCalls st' = llmCalls st /\ sessionCosts st' = sessionCosts st /\
    sheetCalls st' = sheetCalls st /\ injectionCalls st' = injectionCalls st /\
    ((promptVersions st' =
        promptVersions st ++ [promptVersionRow w c payload gp inj v vn] /\
      steps st' =
        steps st ++ [entered SavePromptVersion; finished SavePromptVersion] /\
      Repositories.violatesUnique (promptVersions st)
        (promptVersionRow w c payload gp inj v vn) = false)
     \/
     (promptVersions st' = promptVersions st /\
      steps st' = steps st ++ [entered SavePromptVersion; saveFailed] /\
      In (mkLogLine LvlWarn "Failed to save prompt version to Supabase")
         (logs st') /\
      ((exists k e,
          db_fault w k
            (OpCreatePromptVersion (promptVersionRow w c payload gp inj v vn))
          = Some e) \/
       Repositories.violatesUnique (promptVersions st)
         (promptVersionRow w c payload gp inj v vn) = true))).
Proof.
  intros Hc. unfold savePromptVersion. rewrite Hc.
  fold (promptVersionRow w c payload gp inj v vn).
  set (row := promptVersionRow w c payload gp inj v vn).
  destruct (logStep_delta w cfg ctx SavePromptVersion running None st)
    as (st1 & dbs1 & E1 & _ & D1).
  rewrite (bind_Returned _ _ _ _ _ E1).
  destruct D1 as (L1 & _ & C1 & _ & _ & _ & S1 & _ & H1 & I1 & R1 & _).
  simpl in L1, C1, S1, H1, I1, R1. rewrite app_nil_r in L1, C1, H1, I1, R1.
  destruct (Repositories.createPromptVersion w row st1)
    as [[[] | e] st2] eqn:E2.
  - destruct (createPromptVersion_returns w row st1 st2 E2) as (R2 & U2).
    assert (K2 : llmCalls st2 = llmCalls st1 /\
                 sessionCosts st2 = sessionCosts st1 /\
                 sheetCalls st2 = sheetCalls st1 /\
                 injectionCalls st2 = injectionCalls st1 /\
                 steps st2 = steps st1).
    { revert E2. unfold Repositories.createPromptVersion. cbv zeta.
      destruct (db_fault w _ _); [ discriminate | ].
      destruct (Repositories.violatesUnique _ _); [ discriminate | ].
      intros E. inversion E. destruct st1; simpl. repeat split. }
    destruct K2 as (L2 & C2 & H2 & I2 & S2).
    destruct (logStep_delta w cfg ctx SavePromptVersion completed None st2)
      as (st3 & dbs3 & E3 & _ & D3).
    destruct D3 as (L3 & _ & C3 & _ & _ & _ & S3 & _ & H3 & I3 & R3 & _).
    simpl in L3, C3, S3, H3, I3, R3. rewrite app_nil_r in L3, C3, H3, I3, R3.
    exists st3. split.
    { unfold tryCatch, bind. rewrite E2, E3. reflexivity. }
    split; [ congruence | ]. split; [ congruence | ].
    split; [ congruence | ]. split; [ congruence | ].
    left. split; [ congruence | ]. split.
    + rewrite S3, S2, S1, <- app_assoc. reflexivity.
    + rewrite <- R1. exact U2.
  - assert (K2 : llmCalls st2 = llmCalls st1 /\
                 sessionCosts st2 = sessionCosts st1 /\
                 sheetCalls st2 = sheetCalls st1 /\
                 injectionCalls st2 = injectionCalls st1 /\
                 steps st2 = steps st1 /\
                 promptVersions st2 = promptVersions st1 /\
                 ((exists k e, db_fault w k (OpCreatePromptVersion row) = Some e) \/
                  Repositories.violatesUnique (promptVersions st1) row = true)).
    { revert E2. unfold Repositories.createPromptVersion. cbv zeta.
      destruct (db_fault w _ _) as [e0 |] eqn:F;
        [ | destruct (Repositories.violatesUnique _ _) eqn:U; [ | discriminate ] ];
        intros E; inversion E; destruct st1; simpl;
        (repeat (split; [ reflexivity | ]));
        [ left; eexists _, _; exact F | right; reflexivity ]. }
    destruct K2 as (L2 & C2 & H2 & I2 & S2 & R2 & Why).
    remember (snd (loggerWarn "Failed to save prompt version to Supabase" st2))
      as st2' eqn:Q.
    assert (W : llmCalls st2' = llmCalls st2 /\
                sessionCosts st2' = sessionCosts st2 /\
                sheetCalls st2' = sheetCalls st2 /\
                injectionCalls st2' = injectionCalls st2 /\
                steps st2' = steps st2 /\
                promptVersions st2' = promptVersions st2 /\
                logs st2' = logs st2 ++
                  [mkLogLine LvlWarn "Failed to save prompt version to Supabase"]).
    { rewrite Q. destruct st2; simpl. repeat split. }
    destruct W as (L4 & C4 & H4 & I4 & S4 & R4 & G4).
    destruct (logStep_delta w cfg ctx SavePromptVersion failed
                (Some "Failed to save to Supabase (non-fatal)"%string) st2')
      as (st3 & dbs3 & E3 & _ & D3).
    destruct D3 as (L3 & _ & C3 & _ & _ & _ & S3 & _ & H3 & I3 & R3 & (lines & G3)).
    simpl in L3, C3, S3, H3, I3, R3. rewrite app_nil_r in L3, C3, H3, I3, R3.
    exists st3. split.
    { unfold tryCatch. unfold bind at 1. rewrite E2.
      unfold bind. unfold loggerWarn at 1, modify. rewrite Q in E3.
      exact E3. }
    split; [ congruence | ]. split; [ congruence | ].
    split; [ congruence | ]. split; [ congruence | ].
    right. split; [ congruence | ]. split.
    + rewrite S3, S4, S2, S1, <- app_assoc. reflexivity.
    + split.
      * rewrite G3, G4. apply in_or_app. left. apply in_or_app. right.
        left. reflexivity.
      * rewrite <- R1. exact Why.
Qed.

(** X16.  With an active Supabase context, Step 5 of runPipeline never
    throws and has two endings.  Either it appends exactly one row to
    prompt_versions (the generated content, its hash, the version label and
    number of Step 3, the assistant of the context) and records the step as
    entered and completed; or it leaves the table as it was, logs a warning
    and records the step as entered and failed, which is the ending whenever
    the assistant already has a row with that version label.  The
    completion calls, the ledger, the spreadsheet and packaging requests
    are as before in both. *)
Theorem X16_save_step_inserts_one_row_or_none
    (w : Env) (cfg : PipelineConfig) (ctx : option SupabaseContext)
    (c : SupabaseContext) (payload : PipelineBriefingInput)
    (gp : GeneratedPrompt) (inj : InjectionFile) (v : string) (vn : Z)
    (st : St) :
  activeContext cfg ctx = Some c ->
  exists st',
    savePromptVersion w cfg ctx payload gp inj v vn st = (Returned tt, st') /\
    llmCalls st' = llmCalls st /\ sessionCosts st' = sessionCosts st /\
    sheetCalls st' = sheetCalls st /\ injectionCalls st' = injectionCalls st /\
    ((promptVersions st' =
        promptVersions st ++ [promptVersionRow w c payload gp inj v vn] /\
      steps st' =
        steps st ++ [entered SavePromptVersion; finished SavePromptVersion] /\
      Repositories.violatesUnique (promptVersions st)
        (promptVersionRow w c payload gp inj v vn) = false)
     \/
     (promptVersions st' = promptVersions st /\
      steps st' = steps st ++ [entered SavePromptVersion; saveFailed] /\
      In (mkLogLine LvlWarn "Failed to save prompt version to Supabase")
         (logs st'))).
Proof.
  intros Hc.
  destruct (savePromptVersion_cases w cfg ctx c payload gp inj v vn st Hc)
    as (st' & E & L & C & H & I & Cases).
  exists st'. repeat (split; [ assumption | ]).
  destruct Cases as [Saved | (R & S & W & _)].
  - left. exact Saved.
  - right. repeat split; assumption.
Qed.

Lemma X16_save_step_inserts_one_row_or_none_witness :
  exists st',
    savePromptVersion Examples.stubEnv DEFAULT_CONFIG (Some Examples.context)
      Examples.payload Samples.generated Samples.injection "v3" 3
      Examples.twoVersions = (Returned tt, st') /\
    llmCalls st' = llmCalls Examples.twoVersions.
Proof.
  destruct (X16_save_step_inserts_one_row_or_none Examples.stubEnv
              DEFAULT_CONFIG (Some Examples.context) Examples.context
              Examples.payload Samples.generated Samples.injection "v3" 3
              Examples.twoVersions eq_refl)
    as (st' & E & L & _).
  exists st'. split; assumption.
Defined.

(* ================================================================== *)
(** * The webhook: payloads *)

Lemma zStringMin1_Some v s :
  Parser.zStringMin1 v = Some s -> v = Some (Parser.JStr s) /\ s <> "".
Proof.
  unfold Parser.zStringMin1, Parser.zString.
  destruct v as [[] |]; try discriminate.
  destruct s0; [ discriminate | ]. intros [= <-]. split; [ reflexivity | discriminate ].
Qed.

Lemma zStringArrayMin1_Some v l :
  Parser.zStringArrayMin1 v = Some l -> l <> [].
Proof.
  unfold Parser.zStringArrayMin1.
  destruct (Parser.zStringArray v) as [[| x l'] |]; try discriminate.
  intros [= <-]. discriminate.
Qed.

Lemma zEvent_Some v s :
  Parser.zEvent v = Some s ->
  v = Some (Parser.JStr s) /\ (s = "briefing.created" \/ s = "briefing.updated").
Proof.
  unfold Parser.zEvent, Parser.zString.
  destruct v as [[] |]; try discriminate.
  destruct (String.eqb_spec s0 "briefing.created") as [E1 | _]; simpl.
  - intros [= <-]. split; [ reflexivity | left; exact E1 ].
  - destruct (String.eqb_spec s0 "briefing.updated") as [E2 | _];
      [ | discriminate ].
    intros [= <-]. split; [ reflexivity | right; exact E2 ].
Qed.

Lemma BriefingFormDataSchema_Some v f :
  Parser.BriefingFormDataSchema v = Some f ->
  Forall (fun s => s <> "") (requiredTexts f) /\
  idealClient f <> [] /\ mainDesires f <> [].
Proof.
  unfold Parser.BriefingFormDataSchema.
  destruct v as [[| | | | | ps] |]; try discriminate.
  cbv zeta. intros H.
  repeat match type of H with
         | mbind _ ?m = Some _ =>
             let E := fresh "E" in
             destruct m eqn:E; [ simpl in H | discriminate H ]
         end.
  inversion H; subst f; clear H. unfold requiredTexts. simpl.
  repeat match goal with
         | E : Parser.zStringMin1 _ = Some _ |- _ =>
             apply zStringMin1_Some in E; destruct E as [_ E]
         | E : Parser.zStringArrayMin1 _ = Some _ |- _ =>
             apply zStringArrayMin1_Some in E
         end.
  split; [ | split; assumption ].
  repeat (apply List.Forall_cons; [ assumption | ]). apply List.Forall_nil.
Qed.

Lemma BriefingSchema_Some ps b :
  Parser.BriefingSchema (Some (Parser.JObj ps)) = Some b ->
  Parser.lookupKey "id" ps = Some (Parser.JStr (b_id b)) /\
  Parser.lookupKey "accountId" ps = Some (Parser.JStr (b_accountId b)) /\
  Parser.lookupKey "assistantId" ps = Some (Parser.JStr (b_assistantId b)) /\
  b_id b <> "" /\ b_accountId b <> "" /\ b_assistantId b <> "" /\
  Parser.BriefingFormDataSchema (Parser.lookupKey "formData" ps)
    = Some (b_formData b).
Proof.
  unfold Parser.BriefingSchema. cbv zeta. intros H.
  repeat match type of H with
         | mbind _ ?m = Some _ =>
             let E := fresh "E" in
             destruct m eqn:E; [ simpl in H | discriminate H ]
         end.
  destruct (Parser.zRecordOptional _); [ | discriminate ].
  inversion H; subst b; clear H. simpl.
  repeat match goal with
         | E : Parser.zStringMin1 _ = Some _ |- _ =>
             apply zStringMin1_Some in E; destruct E as [? ?]
         end.
  repeat (split; [ assumption | ]). reflexivity.
Qed.

Lemma WebhookPayloadSchema_Some body p :
  Parser.WebhookPayloadSchema (Some body) = Some p ->
  Parser.prop "event" body = Some (Parser.JStr (Parser.wp_event p)) /\
  (Parser.wp_event p = "briefing.created" \/
   Parser.wp_event p = "briefing.updated") /\
  exists ps, Parser.prop "data" body = Some (Parser.JObj ps) /\
             Parser.BriefingSchema (Some (Parser.JObj ps))
               = Some (Parser.wp_data p).
Proof.
  unfold Parser.WebhookPayloadSchema.
  destruct body as [| | | | | qs]; try discriminate.
  cbv zeta. intros H.
  repeat match type of H with
         | mbind _ ?m = Some _ =>
             let E := fresh "E" in
             destruct m eqn:E; [ simpl in H | discriminate H ]
         end.
  inversion H; subst p; clear H. simpl.
  apply zEvent_Some in E. destruct E as [Ev Hv].
  split; [ exact Ev | ]. split; [ exact Hv | ].
  destruct (Parser.lookupKey "data" qs) as [[| | | | | ps] |] eqn:D;
    try discriminate.
  exists ps. split; [ reflexivity | exact E0 ].
Qed.

(** X17.  parseWebhookPayload never throws.  What it accepts is a body
    whose event is one of the two briefing events and whose data carry a
    non-empty id, account id and assistant id, read unchanged off the
    body, and a form with every required text filled and at least one
    ideal client and one desire; no warning or error is logged (the
    state, which records the lines of these two levels, is left as it
    was), the pipeline input
    extracted from it names the account and the assistant of the briefing,
    and runPipeline takes the briefing id from it instead of generating
    one.  What it rejects is answered with a message that starts with
    [Invalid payload: ], and one error line is logged. *)
Theorem X17_parseWebhookPayload_accepts_complete_briefings
    (issues : Parser.Json -> string) (body : Parser.Json) (st : St) :
  exists result st',
    Parser.parseWebhookPayload issues body st = (Returned result, st') /\
    match result with
    | Parser.ParseOk p =>
        let b := Parser.wp_data p in
        st' = st /\
        Parser.prop "event" body = Some (Parser.JStr (Parser.wp_event p)) /\
        (Parser.wp_event p = "briefing.created" \/
         Parser.wp_event p = "briefing.updated") /\
        dataField "id" body = Some (Parser.JStr (b_id b)) /\
        dataField "accountId" body = Some (Parser.JStr (b_accountId b)) /\
        dataField "assistantId" body = Some (Parser.JStr (b_assistantId b)) /\
        b_id b <> "" /\ b_accountId b <> "" /\ b_assistantId b <> "" /\
        Forall (fun s => s <> "") (requiredTexts (b_formData b)) /\
        idealClient (b_formData b) <> [] /\
        mainDesires (b_formData b) <> [] /\
        p_accountId (Parser.extractBriefing p) = b_accountId b /\
        p_assistantId (Parser.extractBriefing p) = b_assistantId b /\
        forall w st0,
          briefingIdOf w (Parser.extractBriefing p) st0
            = (Returned (b_id b), st0)
    | Parser.ParseError error =>
        Parser.WebhookPayloadSchema (Some body) = None /\
        error = ("Invalid payload: " ++ issues body)%string /\
        st' = setLogs
                (logs st ++
                 [mkLogLine LvlError "Webhook payload validation failed"]) st
    end.
Proof.
  unfold Parser.parseWebhookPayload.
  destruct (Parser.WebhookPayloadSchema (Some body)) as [p |] eqn:E.
  - exists (Parser.ParseOk p), st. split; [ reflexivity | ]. cbv zeta.
    destruct (WebhookPayloadSchema_Some body p E) as (Ev & Hv & ps & D & B).
    destruct (BriefingSchema_Some ps _ B)
      as (L1 & L2 & L3 & N1 & N2 & N3 & F).
    destruct (BriefingFormDataSchema_Some _ _ F) as (R & I & M).
    unfold dataField. rewrite D. simpl.
    repeat (split; [ assumption || reflexivity | ]).
    intros w st0. unfold briefingIdOf. simpl.
    destruct (b_id (Parser.wp_data p)); [ congruence | reflexivity ].
  - eexists _, _. split; [ reflexivity | ].
    split; [ reflexivity | ]. split; [ reflexivity | ].
    destruct st; reflexivity.
Qed.

(* ================================================================== *)
(** * The webhook: the route *)

Lemma onlyLogged_refl st : onlyLogged st st.
Proof. exists []. destruct st; simpl. rewrite app_nil_r. reflexivity. Qed.

Lemma onlyLogged_trans st1 st2 st3 :
  onlyLogged st1 st2 -> onlyLogged st2 st3 -> onlyLogged st1 st3.
Proof.
  intros (l1 & ->) (l2 & ->). exists (l1 ++ l2). destruct st1; simpl.
  rewrite app_assoc. reflexivity.
Qed.

Lemma onlyLogged_line line st :
  onlyLogged st (setLogs (logs st ++ [line]) st).
Proof. exists [line]. reflexivity. Qed.

Lemma onlyLogged_beforeRun st st' :
  onlyLogged st st' -> beforeRun st' = beforeRun st.
Proof. intros (l & ->). destruct st; reflexivity. Qed.

Lemma validate_verdict hmac payload signature secret st :
  exists r st',
    Webhook.validateWebhookSignature hmac payload signature secret st =
      (Returned r, st') /\
    onlyLogged st st' /\
    (Webhook.wv_valid r = true ->
     signature <> "" /\
     exists h, hmac secret payload = Returned h /\
               Webhook.normalize signature = ("sha256=" ++ h)%string) /\
    (Webhook.wv_valid r = false -> exists message, Webhook.wv_error r = Some message).
Proof.
  unfold Webhook.validateWebhookSignature.
  destruct signature as [| c0 s0].
  { eexists _, _. split; [ reflexivity | ]. split; [ apply onlyLogged_refl | ].
    simpl. split; [ discriminate | intros _; eexists; reflexivity ]. }
  destruct secret as [| c1 s1].
  { eexists _, _. split; [ reflexivity | ]. split; [ apply onlyLogged_line | ].
    simpl. split; [ discriminate | intros _; eexists; reflexivity ]. }
  unfold tryCatch, bind, settle.
  destruct (hmac (String c1 s1) payload) as [h | e] eqn:Hh.
  - set (n := Webhook.normalize (String c0 s0)).
    destruct (String.length n =? String.length ("sha256=" ++ h)%string)%nat
      eqn:El; simpl.
    + destruct (String.eqb_spec n ("sha256=" ++ h)%string) as [En | En]; simpl.
      * eexists _, st. split; [ reflexivity | ].
        split; [ apply onlyLogged_refl | ]. simpl.
        split; [ intros _ | discriminate ].
        split; [ discriminate | ]. exists h. split; [ reflexivity | exact En ].
      * eexists _, _. split; [ reflexivity | ].
        split; [ apply onlyLogged_line | ]. simpl.
        split; [ discriminate | intros _; eexists; reflexivity ].
    + eexists _, _. split; [ reflexivity | ].
      split; [ apply onlyLogged_refl | ]. simpl.
      split; [ discriminate | intros _; eexists; reflexivity ].
  - eexists _, _. split; [ reflexivity | ].
    split; [ apply onlyLogged_line | ]. simpl.
    split; [ discriminate | intros _; eexists; reflexivity ].
Qed.

Lemma checkSignature_spec s body signature st :
  exists o st',
    Route.checkSignature s body signature st = (Returned o, st') /\
    onlyLogged st st' /\
    match o with
    | None =>
        exists secret digest,
          Route.webhookSecret s = Some secret /\ secret <> "" /\
          signature <> "" /\
          Route.hmac s secret body = Returned digest /\
          Webhook.normalize signature = ("sha256=" ++ digest)%string
    | Some response =>
        (Js.truthyStr (Route.webhookSecret s) = false /\
         response =
           Route.mkResponse 500
             (Route.ErrorBody "Server configuration error" None)) \/
        (Js.truthyStr (Route.webhookSecret s) = true /\
         exists message,
           response =
             Route.mkResponse 401
               (Route.ErrorBody "Invalid signature" (Some message)))
    end.
Proof.
  unfold Route.checkSignature.
  destruct (Route.webhookSecret s) as [[| c secret] |] eqn:Hs;
    try (eexists _, _; split; [ reflexivity | ];
         split; [ apply onlyLogged_line | ];
         left; split; reflexivity).
  destruct (validate_verdict (Route.hmac s) body signature (String c secret) st)
    as (r & st1 & E & L & Hv & Hi).
  unfold bind at 1. rewrite E.
  destruct (Webhook.wv_valid r) eqn:V; simpl.
  - exists None, st1. split; [ reflexivity | ]. split; [ exact L | ].
    destruct (Hv eq_refl) as (Hne & h & Hh & Hn).
    exists (String c secret), h. split; [ reflexivity | ].
    split; [ discriminate | ]. split; [ exact Hne | ]. split; assumption.
  - destruct (Hi eq_refl) as (message & Hm). rewrite Hm.
    eexists _, _. split; [ reflexivity | ].
    split; [ eapply onlyLogged_trans; [ exact L | apply onlyLogged_line ] | ].
    right. split; [ reflexivity | ]. exists message. reflexivity.
Qed.

Lemma not_test_mode request :
  Route.rq_testMode request <> Some "true" ->
  match Route.rq_testMode request with
  | Some value => String.eqb value "true"
  | None => false
  end = false.
Proof.
  destruct (Route.rq_testMode request) as [v |]; [ | reflexivity ].
  intros H. destruct (String.eqb_spec v "true") as [-> | _];
    [ congruence | reflexivity ].
Qed.

(** X18.  A request that is not in test mode and not authentic starts no
    run: POST answers 500 with [Server configuration error] when no
    webhook secret is configured, 401 with [Invalid signature] and the
    reason otherwise; the body is not parsed and nothing but the log
    changes. *)
Theorem X18_unsigned_requests_are_turned_away
    (s : Route.Services) (w : Env) (request : Route.Request) (st : St) :
  Route.rq_testMode request <> Some "true" ->
  ~ authentic s request ->
  exists response st',
    Route.POST s w request st = (Returned response, st') /\
    onlyLogged st st' /\
    ((Js.truthyStr (Route.webhookSecret s) = false /\
      response =
        Route.mkResponse 500
          (Route.ErrorBody "Server configuration error" None)) \/
     (Js.truthyStr (Route.webhookSecret s) = true /\
      exists message,
        response =
          Route.mkResponse 401
            (Route.ErrorBody "Invalid signature" (Some message)))).
Proof.
  intros Ht Ha. unfold Route.POST. cbv zeta.
  rewrite (not_test_mode request Ht). simpl negb. cbv iota.
  destruct (checkSignature_spec s (Route.rq_body request)
              (Js.optStrOr (Route.rq_signature request) "") st)
    as (o & st' & E & L & H).
  unfold tryCatch, bind. rewrite E.
  destruct o as [response |].
  - exists response, st'. split; [ reflexivity | ]. split; assumption.
  - exfalso. apply Ha. destruct H as (secret & digest & H1 & H2 & H3 & H4 & H5).
    exists secret, digest. repeat (split; [ assumption | ]). assumption.
Qed.

Lemma X18_unsigned_requests_are_turned_away_witness :
  exists response st',
    Route.POST RouteSamples.services Examples.stubEnv RouteSamples.unsigned
      Examples.st0 = (Returned response, st') /\
    onlyLogged Examples.st0 st'.
Proof.
  destruct (X18_unsigned_requests_are_turned_away RouteSamples.services
              Examples.stubEnv RouteSamples.unsigned Examples.st0)
    as (response & st' & E & L & _).
  - discriminate.
  - intros (secret & digest & _ & _ & H & _). apply H. reflexivity.
  - exists response, st'. split; assumption.
Defined.

Lemma normalizePayload_spec s w testMode payload st :
  exists o st',
    Route.normalizePayload s w testMode payload st = (o, st') /\
    beforeRun st' = beforeRun st /\
    (testMode = false -> o = Returned payload /\ st' = st).
Proof.
  unfold Route.normalizePayload. destruct testMode.
  - destruct payload;
      try (eexists _, _; split; [ reflexivity | ];
           split; [ reflexivity | discriminate ]);
      (destruct (negb (Parser.truthy _));
       eexists _, _;
       (split; [ reflexivity | ]);
       (split; [ destruct st; reflexivity | discriminate ])).
  - eexists _, _. split; [ reflexivity | ].
    split; [ reflexivity | intros _; split; reflexivity ].
Qed.

Lemma parseWebhookPayload_spec issues json st :
  exists result st',
    Parser.parseWebhookPayload issues json st = (Returned result, st') /\
    onlyLogged st st' /\
    match result with
    | Parser.ParseOk p =>
        Parser.WebhookPayloadSchema (Some json) = Some p /\ st' = st
    | Parser.ParseError _ => True
    end.
Proof.
  unfold Parser.parseWebhookPayload.
  destruct (Parser.WebhookPayloadSchema (Some json)) as [p |].
  - eexists _, _. split; [ reflexivity | ].
    split; [ apply onlyLogged_refl | ]. split; reflexivity.
  - eexists _, _. split; [ reflexivity | ].
    split; [ apply onlyLogged_line | exact I ].
Qed.

Lemma respond_spec briefingPayload r st :
  (r_status r = failed \/ r_status r = completed) ->
  exists response st',
    Route.respond briefingPayload r st = (Returned response, st') /\
    onlyLogged st st' /\
    ((r_status r = failed /\
      response =
        Route.mkResponse 500
          (Route.FailureBody (r_error r) (r_id r) (r_steps r))) \/
     (r_status r = completed /\ st' = st /\ Route.rs_status response = 200 /\
      exists injectionFile version prompt,
        Route.rs_body response =
          Route.SuccessBody (r_id r) completed injectionFile version
            (r_steps r) prompt (Z.of_nat (length (r_costEntries r)))
            (fold_left (fun total entry => plusD total (ce_costUsd entry))
               (r_costEntries r) (Usd 0)) /\
        option_map Route.view_content prompt =
          option_map gp_content (r_generatedPrompt r))).
Proof.
  unfold Route.respond. intros [H | H]; rewrite H.
  - eexists _, _. split; [ reflexivity | ].
    split; [ apply onlyLogged_line | ]. left. split; reflexivity.
  - eexists _, _. split; [ reflexivity | ].
    split; [ apply onlyLogged_refl | ]. right.
    split; [ reflexivity | ]. split; [ reflexivity | ].
    split; [ reflexivity | ]. eexists _, _, _. split; [ reflexivity | ].
    destruct (r_generatedPrompt r); reflexivity.
Qed.

Lemma runPipeline_ends w payload config st :
  exists r st',
    runPipeline w payload config st = (Returned r, st') /\
    (r_status r = failed \/ r_status r = completed) /\
    r_costEntries r = sessionCosts st' /\
    (r_status r = completed -> exists gp, r_generatedPrompt r = Some gp).
Proof.
  destruct (runPipeline_outcome w payload config st)
    as (r & st' & t & E & Hc & _ & _ & _ & _ & _ & _ & _ & _ & _ & _ & _ & _ & V).
  exists r, st'. split; [ exact E | ].
  destruct V as [(F & _) | (C & _ & gp & inj & G & _)].
  - split; [ left; exact F | ]. split; [ exact Hc | ].
    intros C. rewrite F in C. discriminate.
  - split; [ right; exact C | ]. split; [ exact Hc | ].
    intros _. exists gp. exact G.
Qed.

Lemma wrapped_fields s id payload p :
  Parser.WebhookPayloadSchema (Some (Route.wrapped s id payload)) = Some p ->
  b_id (Parser.wp_data p) = id /\
  Parser.prop "accountId" payload
    = Some (Parser.JStr (b_accountId (Parser.wp_data p))) /\
  Parser.prop "assistantId" payload
    = Some (Parser.JStr (b_assistantId (Parser.wp_data p))).
Proof.
  intros H. destruct (WebhookPayloadSchema_Some _ _ H) as (_ & _ & ps & D & B).
  unfold Route.wrapped in D. simpl in D. inversion D as [Dps]. clear D.
  destruct (BriefingSchema_Some ps _ B) as (L1 & L2 & L3 & _).
  rewrite <- Dps in L1, L2, L3. clear Dps B H.
  simpl in L1. inversion L1 as [Hid]. split; [ reflexivity | ].
  unfold Route.property in L2, L3.
  destruct (Parser.prop "accountId" payload) as [a |];
    destruct (Parser.prop "assistantId" payload) as [b |];
    destruct (Parser.prop "formData" payload) as [f |];
    simpl in L2, L3; try discriminate; split; assumption.
Qed.

(** X19.  Test mode needs no signature.  Whatever the secret, the HMAC
    and the signature header are, a request with the header
    [x-test-mode: true] whose body parses to a value without an event is
    wrapped as a created briefing under a freshly generated id and, when
    the schema accepts it, handed to runPipeline: the response is 200 for
    a completed run and 500, with the error, the id and the steps of the
    run, for a failed one.  The account and the assistant of the run are
    those the body names. *)
Theorem X19_test_mode_needs_no_signature
    (s : Route.Services) (w : Env) (request : Route.Request)
    (json : Parser.Json) (p : Parser.WebhookPayload) (st : St) :
  Route.rq_testMode request = Some "true" ->
  Route.jsonParse s (Route.rq_body request) = Returned json ->
  json <> Parser.JNull ->
  Parser.truthy (Parser.prop "event" json) = false ->
  Parser.WebhookPayloadSchema
    (Some (Route.wrapped s ("briefing_" ++ idSuffix w (idCount st)) json))
    = Some p ->
  exists r st1 response st',
    runPipeline w (Parser.extractBriefing p) Route.noOverrides
      (setIdCount (S (idCount st)) st) = (Returned r, st1) /\
    Route.POST s w request st = (Returned response, st') /\
    onlyLogged st1 st' /\
    b_id (Parser.wp_data p) = ("briefing_" ++ idSuffix w (idCount st))%string /\
    Parser.prop "accountId" json
      = Some (Parser.JStr (p_accountId (Parser.extractBriefing p))) /\
    Parser.prop "assistantId" json
      = Some (Parser.JStr (p_assistantId (Parser.extractBriefing p))) /\
    ((r_status r = failed /\
      response =
        Route.mkResponse 500
          (Route.FailureBody (r_error r) (r_id r) (r_steps r))) \/
     (r_status r = completed /\ Route.rs_status response = 200)).
Proof.
  intros T J N Ev P.
  destruct (wrapped_fields _ _ _ _ P) as (Hid & Ha & Hb).
  destruct (runPipeline_ends w (Parser.extractBriefing p) Route.noOverrides
              (setIdCount (S (idCount st)) st))
    as (r & st1 & E & Hs & _ & _).
  destruct (respond_spec (Parser.extractBriefing p) r st1 Hs)
    as (response & st' & E' & L & H).
  exists r, st1, response, st'. split; [ exact E | ].
  split.
  { unfold Route.POST. cbv zeta. rewrite T. simpl negb. cbv iota.
    apply tryCatch_Returned.
    rewrite bind_Returned with (a := @None Route.Response) (st1 := st)
      by reflexivity.
    unfold Route.proceed.
    rewrite bind_Returned with (a := json) (st1 := st)
      by (unfold settle; rewrite J; reflexivity).
    rewrite bind_Returned
      with (a := Route.wrapped s ("briefing_" ++ idSuffix w (idCount st)) json)
           (st1 := setIdCount (S (idCount st)) st).
    2: { unfold Route.normalizePayload.
         destruct json; try congruence; rewrite Ev; reflexivity. }
    rewrite bind_Returned
      with (a := Parser.ParseOk p) (st1 := setIdCount (S (idCount st)) st)
      by (unfold Parser.parseWebhookPayload; rewrite P; reflexivity).
    cbv zeta. rewrite (bind_Returned _ _ _ _ _ E). exact E'. }
  split; [ exact L | ]. split; [ exact Hid | ].
  split; [ exact Ha | ]. split; [ exact Hb | ].
  destruct H as [(F & R) | (C & _ & H200 & _)].
  - left. split; assumption.
  - right. split; assumption.
Qed.

Lemma X19_test_mode_needs_no_signature_witness :
  exists r st1 response st',
    runPipeline Examples.stubEnv
      (Parser.extractBriefing RouteSamples.testPayload) Route.noOverrides
      (setIdCount 1 Examples.st0) = (Returned r, st1) /\
    Route.POST RouteSamples.services Examples.stubEnv
      RouteSamples.unsignedTest Examples.st0 = (Returned response, st') /\
    onlyLogged st1 st'.
Proof.
  destruct (X19_test_mode_needs_no_signature RouteSamples.services
              Examples.stubEnv RouteSamples.unsignedTest RouteSamples.testJson
              RouteSamples.testPayload Examples.st0)
    as (r & st1 & response & st' & E & E' & L & _).
  - reflexivity.
  - reflexivity.
  - discriminate.
  - reflexivity.
  - vm_compute. reflexivity.
  - exists r, st1, response, st'. split; [ exact E | ]. split; assumption.
Defined.

Lemma proceed_spec s w testMode body st :
  exists o st',
    Route.proceed s w testMode body st = (o, st') /\
    match o with
    | Threw _ => beforeRun st' = beforeRun st
    | Returned response => answered w st response st'
    end.
Proof.
  unfold Route.proceed.
  destruct (Route.jsonParse s body) as [json | e] eqn:J.
  2: { eexists _, _. split; [ unfold bind, settle; reflexivity | reflexivity ]. }
  unfold bind at 1. unfold settle at 1.
  destruct (normalizePayload_spec s w testMode json st)
    as (o1 & st1 & E1 & B1 & _).
  destruct o1 as [json' | e].
  2: { rewrite (bind_Threw _ _ _ _ _ E1). eexists _, _.
       split; [ reflexivity | exact B1 ]. }
  rewrite (bind_Returned _ _ _ _ _ E1).
  destruct (parseWebhookPayload_spec (Route.issues s) json' st1)
    as (result & st2 & E2 & L2 & H2).
  rewrite (bind_Returned _ _ _ _ _ E2).
  destruct result as [p | error].
  2: { eexists _, _. split; [ reflexivity | ]. unfold answered. simpl.
       split; [ auto | ].
       rewrite (onlyLogged_beforeRun _ _ L2). exact B1. }
  destruct H2 as (Hp & ->). cbv zeta.
  destruct (runPipeline_ends w (Parser.extractBriefing p) Route.noOverrides st1)
    as (r & st3 & E3 & Hs & Hc & Hg).
  rewrite (bind_Returned _ _ _ _ _ E3).
  assert (R : ranOn w st r st3).
  { exists json', p, st1. repeat split; assumption. }
  destruct (respond_spec (Parser.extractBriefing p) r st3 Hs)
    as (response & st4 & E4 & L4 & [(F & ->) | (C & -> & H200 & inj & ver & prompt & Hb & Hv)]).
  - eexists _, _. split; [ exact E4 | ]. unfold answered. simpl.
    split; [ reflexivity | ]. exists r, st3. repeat split; assumption.
  - eexists _, _. split; [ exact E4 | ]. unfold answered. rewrite Hb.
    split; [ exact H200 | ]. split; [ reflexivity | ].
    destruct (Hg C) as (gp & G). exists r, gp.
    split; [ exact R | ]. split; [ exact C | ].
    split; [ reflexivity | ]. split; [ reflexivity | ].
    split; [ exact G | ]. split; [ rewrite Hv, G; reflexivity | ].
    split; [ rewrite Hc; reflexivity | ].
    unfold Usage.getSessionTotalCost, gets. rewrite Hc. reflexivity.
Qed.

Lemma caught_spec w st e st1 :
  beforeRun st1 = beforeRun st ->
  exists response st',
    (loggerError "Webhook processing error" ;;;
     ret (Route.mkResponse 500
            (Route.ErrorBody "Internal server error" (Some e)))) st1
      = (Returned response, st') /\
    answered w st response st' /\ beforeRun st' = beforeRun st.
Proof.
  intros B. eexists _, _. split; [ reflexivity | ].
  assert (B' : beforeRun
                 (setLogs (logs st1 ++
                           [mkLogLine LvlError "Webhook processing error"]) st1)
               = beforeRun st).
  { rewrite <- B. destruct st1; reflexivity. }
  split; [ | exact B' ].
  unfold answered. simpl. split; [ auto | exact B' ].
Qed.

Lemma answered_logged w st response st1 st' :
  beforeRun st1 = beforeRun st ->
  answered w st1 response st' -> answered w st response st'.
Proof.
  intros B. unfold answered.
  destruct (Route.rs_body response) as [error message | message pid ss
                                        | pid status inj ver ss prompt ops total].
  - intros (H1 & H2). split; [ exact H1 | congruence ].
  - intros (H1 & r & st2 & (json & p & st0 & R1 & R2 & R3) & H2).
    split; [ exact H1 | ]. exists r, st2. split; [ | exact H2 ].
    exists json, p, st0. split; [ exact R1 | ]. split; [ congruence | exact R3 ].
  - intros (H1 & H2 & r & gp & (json & p & st0 & R1 & R2 & R3) & H3).
    split; [ exact H1 | ]. split; [ exact H2 | ]. exists r, gp.
    split; [ | exact H3 ].
    exists json, p, st0. split; [ exact R1 | ]. split; [ congruence | exact R3 ].
Qed.

Lemma checked_spec s w request (testMode : bool) st :
  exists o st',
    (refused <-
       (if negb testMode
        then Route.checkSignature s (Route.rq_body request)
               (Js.optStrOr (Route.rq_signature request) "")
        else ret None) ;;
     match refused with
     | Some response => ret response
     | None => Route.proceed s w testMode (Route.rq_body request)
     end) st = (o, st') /\
    match o with
    | Threw _ => beforeRun st' = beforeRun st
    | Returned response =>
        answered w st response st' /\
        (beforeRun st' <> beforeRun st -> testMode = true \/ authentic s request)
    end.
Proof.
  destruct testMode; simpl negb; cbv iota.
  - rewrite bind_Returned with (a := @None Route.Response) (st1 := st)
      by reflexivity.
    destruct (proceed_spec s w true (Route.rq_body request) st)
      as ([response | e] & st1 & E & H).
    + exists (Returned response), st1. split; [ exact E | ].
      split; [ exact H | intros _; left; reflexivity ].
    + exists (Threw e), st1. split; [ exact E | exact H ].
  - destruct (checkSignature_spec s (Route.rq_body request)
                (Js.optStrOr (Route.rq_signature request) "") st)
      as (o & st1 & E & L & H).
    rewrite (bind_Returned _ _ _ _ _ E).
    pose proof (onlyLogged_beforeRun _ _ L) as B.
    destruct o as [response |].
    + exists (Returned response), st1. split; [ reflexivity | ].
      split; [ | intros N; contradiction ].
      unfold answered.
      destruct H as [(_ & ->) | (_ & message & ->)]; simpl;
        (split; [ auto | exact B ]).
    + assert (A : authentic s request).
      { destruct H as (secret & digest & H1 & H2 & H3 & H4 & H5).
        exists secret, digest. repeat (split; [ assumption | ]). assumption. }
      destruct (proceed_spec s w false (Route.rq_body request) st1)
        as ([response | e] & st2 & E2 & H2).
      * exists (Returned response), st2. split; [ exact E2 | ].
        split; [ exact (answered_logged _ _ _ _ _ B H2) | intros _; right; exact A ].
      * exists (Threw e), st2. split; [ exact E2 | congruence ].
Qed.

(** X20.  POST never throws: every request is answered.  An error
    response has status 400, 401 or 500 and started no run: only log
    lines and generated ids were added.  A response that reports a
    failed pipeline has status 500 and carries the error, the id and the
    steps of a run that returned a failed result.  Any other response has
    status 200 and reports a completed run: its id, its steps, the content
    of its prompt, the number of entries of the session ledger and their
    total cost.  And a run is started (anything but the log and the id
    count changes) only for a request in test mode or an authentic
    one. *)
Theorem X20_POST_answers_every_request
    (s : Route.Services) (w : Env) (request : Route.Request) (st : St) :
  exists response st',
    Route.POST s w request st = (Returned response, st') /\
    answered w st response st' /\
    (beforeRun st' <> beforeRun st ->
     Route.rq_testMode request = Some "true" \/ authentic s request).
Proof.
  unfold Route.POST. cbv zeta.
  set (testMode := match Route.rq_testMode request with
                   | Some value => String.eqb value "true"
                   | None => false
                   end).
  assert (T : testMode = true -> Route.rq_testMode request = Some "true").
  { unfold testMode. destruct (Route.rq_testMode request) as [value |];
      [ | discriminate ].
    destruct (String.eqb_spec value "true") as [Ev | _];
      [ rewrite Ev; reflexivity | discriminate ]. }
  clearbody testMode.
  destruct (checked_spec s w request testMode st)
    as ([response | e] & st1 & E & H).
  - exists response, st1. split; [ apply tryCatch_Returned; exact E | ].
    destruct H as (H1 & H2). split; [ exact H1 | ].
    intros N. destruct (H2 N) as [Ht | Ha]; [ left; exact (T Ht) | right; exact Ha ].
  - rewrite (tryCatch_Threw _ _ _ _ _ E).
    destruct (caught_spec w st e st1 H) as (response & st' & E' & H' & B').
    exists response, st'. split; [ exact E' | ]. split; [ exact H' | ].
    intros N. contradiction.
Qed.

(* ================================================================== *)
(** * The account registry *)

(** X21.  The cache of the registry.  A load that returns a config has
    stored it under the requested id, and from then on every load of that
    id returns the same config without looking at the file system,
    whatever has become of the file; a load that returns null has stored
    nothing, so the next load looks again.  No load changes what is cached
    for another id.  After clearAccountCache the file system decides
    again: an account whose config file is gone is not found. *)
Theorem X21_registry_cache
    (fs : Registry.Files) (accountId : string) (st : Registry.RegSt)
    (o : option AccountConfig) (st1 : Registry.RegSt) :
  Registry.loadAccountConfig fs accountId st = (o, st1) ->
  (forall other, other <> accountId ->
     Registry.accountCache st1 !! other = Registry.accountCache st !! other) /\
  match o with
  | Some config =>
      Registry.accountCache st1 !! accountId = Some config /\
      forall fs', Registry.loadAccountConfig fs' accountId st1
                  = (Some config, st1)
  | None =>
      Registry.accountCache st1 = Registry.accountCache st /\
      Registry.accountCache st !! accountId = None
  end /\
  forall fs',
    Registry.configExists fs' (length (Registry.lookups st1)) accountId
      = false ->
    fst (Registry.loadAccountConfig fs' accountId
           (Registry.clearAccountCache st1)) = None.
Proof.
  intros E.
  assert (C : forall fs',
             Registry.configExists fs' (length (Registry.lookups st1)) accountId
               = false ->
             fst (Registry.loadAccountConfig fs' accountId
                    (Registry.clearAccountCache st1)) = None).
  { intros fs' H. unfold Registry.loadAccountConfig, Registry.clearAccountCache.
    simpl. rewrite lookup_empty, H. reflexivity. }
  unfold Registry.loadAccountConfig in E.
  destruct (Registry.accountCache st !! accountId) as [config |] eqn:Hc.
  - inversion E; subst o st1; clear E.
    split; [ reflexivity | ]. split; [ | exact C ].
    split; [ exact Hc | ]. intros fs'. unfold Registry.loadAccountConfig.
    rewrite Hc. reflexivity.
  - cbv zeta in E.
    destruct (Registry.configExists fs (length (Registry.lookups st)) accountId);
      simpl in E.
    + destruct (Registry.importConfig fs (length (Registry.lookups st)) accountId)
        as [config | e].
      * destruct (Registry.AccountConfigSchema config) as [data |];
          inversion E; subst o st1; clear E; simpl; simpl in C.
        -- split; [ intros other Ho; apply lookup_insert_ne; congruence | ].
           split; [ | exact C ].
           split; [ apply lookup_insert_eq | ].
           intros fs'. unfold Registry.loadAccountConfig. simpl.
           rewrite lookup_insert_eq. reflexivity.
        -- split; [ reflexivity | ]. split; [ | exact C ]. split; reflexivity.
      * inversion E; subst o st1; clear E; simpl; simpl in C.
        split; [ reflexivity | ]. split; [ | exact C ]. split; reflexivity.
    + inversion E; subst o st1; clear E; simpl; simpl in C.
      split; [ reflexivity | ]. split; [ | exact C ]. split; reflexivity.
Qed.

Lemma X21_registry_cache_witness :
  exists config st1,
    Registry.loadAccountConfig RegistrySamples.vanishing "acc"
      RegistrySamples.empty = (Some config, st1) /\
    Registry.loadAccountConfig RegistrySamples.vanishing "acc" st1
      = (Some config, st1) /\
    fst (Registry.loadAccountConfig RegistrySamples.vanishing "acc"
           (Registry.clearAccountCache st1)) = None.
Proof.
  destruct (Registry.loadAccountConfig RegistrySamples.vanishing "acc"
              RegistrySamples.empty) as [o st1] eqn:E.
  assert (Ho : o = Some (mkAccountConfig "acc" "Acme" ["asst"])).
  { vm_compute in E. inversion E. reflexivity. }
  assert (Hl : Registry.lookups st1 = ["acc"]).
  { vm_compute in E. inversion E. reflexivity. }
  destruct (X21_registry_cache RegistrySamples.vanishing "acc"
              RegistrySamples.empty o st1 E) as (_ & H & C).
  rewrite Ho in H. destruct H as (_ & H).
  exists (mkAccountConfig "acc" "Acme" ["asst"]), st1.
  split; [ rewrite Ho; reflexivity | ].
  split; [ apply H | ].
  apply C. rewrite Hl. reflexivity.
Defined.

(* ================================================================== *)
(** * What a run saves *)

Lemma extends_bind_post {A B C} (f : St -> list A) P (Q : B -> Prop)
    (m : M B) (k : B -> M C) :
  (forall st b st', m st = (Returned b, st') -> Q b) ->
  extends f P m -> (forall b, Q b -> extends f P (k b)) ->
  extends f P (bind m k).
Proof.
  intros Hq Hm Hk st. unfold bind. destruct (Hm st) as (l1 & E1 & P1).
  destruct (m st) as [[b | e] st1] eqn:E; simpl in *.
  - destruct (Hk b (Hq _ _ _ E) st1) as (l2 & E2 & P2). exists (l1 ++ l2).
    rewrite E2, E1, app_assoc. split; [ reflexivity | ].
    apply Forall_app. split; assumption.
  - exists l1. split; assumption.
Qed.

(** The generator fills neither [iterations] nor [finalAnalysis]. *)
Lemma generator_flat w b a mi st gp st' :
  Generator.generatePromptWithIteration w b a mi st = (Returned gp, st') ->
  gp_iterations gp = None /\ gp_finalAnalysis gp = None.
Proof.
  unfold Generator.generatePromptWithIteration,
    Generator.generatePromptWithIterationUsage. cbv zeta.
  run_bind as r e st1 E; [ | discriminate ].
  revert E.
  run_bind as g e st2 E0; [ | discriminate ].
  destruct g as [initialPrompt initialUsage].
  run_bind as v e st3 E1; [ | discriminate ].
  unfold Validation.generateId, bind, ret. simpl.
  intros F. inversion F; subst r. simpl.
  intros G. inversion G; subst gp. simpl. split; reflexivity.
Qed.

Lemma createPromptVersion_flat w data :
  flatRow data ->
  extends promptVersions flatRow (Repositories.createPromptVersion w data).
Proof.
  intros H st. unfold Repositories.createPromptVersion. cbv zeta.
  destruct (db_fault w (length (dbCalls st)) (OpCreatePromptVersion data)).
  - exists []. split; [ destruct st; simpl; rewrite app_nil_r; reflexivity
                      | constructor ].
  - destruct (Repositories.violatesUnique (promptVersions st) data).
    + exists []. split; [ destruct st; simpl; rewrite app_nil_r; reflexivity
                        | constructor ].
    + exists [data]. split; [ destruct st; reflexivity | ].
      constructor; [ exact H | constructor ].
Qed.

Lemma guarded_rows w payload pid bid cfg ctx :
  extends promptVersions flatRow (guarded w payload pid bid cfg ctx).
Proof.
  open_guarded.
  repeat first
    [ match goal with
      | |- extends _ _ (bind (Generator.generatePromptWithIteration _ _ _ _) _) =>
          apply (extends_bind_post _ _
                   (fun gp => gp_iterations gp = None /\
                              gp_finalAnalysis gp = None));
          [ intros ? ? ?; apply generator_flat
          | apply extends_keeps; apply generator_keeps_promptVersions
          | intros ? [? ?] ]
      | |- extends _ _ (Repositories.createPromptVersion _ _) =>
          apply createPromptVersion_flat; unfold flatRow; simpl;
          repeat match goal with
                 | H : _ = None |- _ => rewrite H
                 end;
          repeat split
      end
    | extends_step ].
Qed.

Lemma establishContext_keeps_promptVersions w cfg payload pid bid :
  keeps promptVersions (establishContext w cfg payload pid bid).
Proof. unfold establishContext, initializeSupabaseContext. keeps_auto. Qed.

(** X22.  Every row a run of runPipeline adds to prompt_versions is final,
    carries the hash of its own content, no final score and a total of 1
    iterations, whatever the number of rounds of the run: the step reads
    the fields [iterations] and [finalAnalysis] of the generated prompt,
    which the generator never fills. *)
Theorem X22_saved_versions_report_one_iteration
    (w : Env) (payload : PipelineBriefingInput)
    (config : PartialPipelineConfig) (st : St) :
  exists r st' rows,
    runPipeline w payload config st = (Returned r, st') /\
    promptVersions st' = promptVersions st ++ rows /\
    Forall flatRow rows.
Proof.
  destruct (runPipeline_spec w payload config st)
    as (r & st' & _ & _ & E & _).
  assert (H : exists rows,
             promptVersions st' = promptVersions st ++ rows /\
             Forall flatRow rows);
    [ | destruct H as (rows & H1 & H2); exists r, st', rows;
        split; [ exact E | split; assumption ] ].
  revert E. unfold runPipeline. cbv zeta.
  set (cfg := spread DEFAULT_CONFIG config) in *.
  destruct (prologue_run w payload st) as (pid & bid & st0 & S0 & _ & Hk).
  rewrite Hk. clear Hk.
  destruct (establishContext_walked w cfg payload pid bid st0)
    as (ctx & st1 & dbs1 & E1 & _).
  pose proof (establishContext_keeps_promptVersions w cfg payload pid bid st0)
    as K1.
  rewrite E1 in K1. simpl in K1.
  rewrite (bind_Returned _ _ _ _ _ E1).
  fold (guarded w payload pid bid cfg ctx). intros E0.
  destruct (guarded_rows w payload pid bid cfg ctx st1) as (rows & Kl & Pl).
  rewrite E0 in Kl. simpl in Kl.
  destruct S0 as (_ & _ & _ & _ & _ & _ & _ & _ & Sp & _).
  exists rows. split; [ congruence | exact Pl ].
Qed.

Lemma createPromptVersion_costs w data :
  extends dbCalls costLabelled (Repositories.createPromptVersion w data).
Proof.
  intros st. unfold Repositories.createPromptVersion. cbv zeta.
  destruct (db_fault w (length (dbCalls st)) (OpCreatePromptVersion data));
    [ | destruct (Repositories.violatesUnique (promptVersions st) data) ];
    eexists [_];
    (split; [ destruct st; reflexivity | ]);
    (constructor; [ exact I | constructor ]).
Qed.

Lemma guarded_costs w payload pid bid cfg ctx :
  extends dbCalls costLabelled (guarded w payload pid bid cfg ctx).
Proof.
  open_guarded.
  repeat first
    [ apply extends_keeps; apply generator_keeps_dbCalls
    | apply createPromptVersion_costs
    | extends_step ].
Qed.

Lemma establishContext_costs w cfg payload pid bid :
  extends dbCalls costLabelled (establishContext w cfg payload pid bid).
Proof. unfold establishContext, initializeSupabaseContext. extends_auto. Qed.

(** X23.  Every cost a run of runPipeline saves to the store is saved
    under the operation [prompt_generation], with cache token counts of
    0: the entries of the analysis and improvement calls too, whose
    operation the session ledger records. *)
Theorem X23_saved_costs_are_labelled_generation
    (w : Env) (payload : PipelineBriefingInput)
    (config : PartialPipelineConfig) (st : St) :
  exists r st' calls,
    runPipeline w payload config st = (Returned r, st') /\
    dbCalls st' = dbCalls st ++ calls /\
    Forall costLabelled calls.
Proof.
  destruct (runPipeline_spec w payload config st)
    as (r & st' & _ & _ & E & _).
  assert (H : exists calls,
             dbCalls st' = dbCalls st ++ calls /\ Forall costLabelled calls);
    [ | destruct H as (calls & H1 & H2); exists r, st', calls;
        split; [ exact E | split; assumption ] ].
  revert E. unfold runPipeline. cbv zeta.
  set (cfg := spread DEFAULT_CONFIG config) in *.
  destruct (prologue_run w payload st) as (pid & bid & st0 & S0 & _ & Hk).
  rewrite Hk. clear Hk.
  destruct (establishContext_walked w cfg payload pid bid st0)
    as (ctx & st1 & dbs1 & E1 & _).
  destruct (establishContext_costs w cfg payload pid bid st0) as (l1 & K1 & P1).
  rewrite E1 in K1. simpl in K1.
  rewrite (bind_Returned _ _ _ _ _ E1).
  fold (guarded w payload pid bid cfg ctx). intros E0.
  destruct (guarded_costs w payload pid bid cfg ctx st1) as (l2 & K2 & P2).
  rewrite E0 in K2. simpl in K2.
  destruct S0 as (_ & _ & _ & _ & _ & Sd & _).
  exists (l1 ++ l2). split.
  - rewrite K2, K1, Sd, app_assoc. reflexivity.
  - apply Forall_app. split; assumption.
Qed.

(* ================================================================== *)
(** * Versions do not collide *)





